(* ===== verification/_CoqProject ===== *)
-Q . S2P
Prelude.v
GoBase.v
World.v
Traces.v
Programs.v
Metrics.v
Telemetry.v
Decimal.v
Venue.v
RateLimit.v
Ws.v
WsClient.v
Json.v
JsonFacts.v
WsMessage.v
Http.v
Store.v
Dummy.v
GoTime.v
Crypto.v
AuditSink.v
Events.v
Book.v
Url.v
Migrations.v
Postgres.v
Rest.v
BookFeed.v
Binance.v
Kraken.v
Otc.v
Sftp.v
Secrets.v
AuthToken.v
Server.v
ServerFacts.v
Main.v
Gateway.v
BookPipeline.v
Process.v
Registry.v
StoredOrders.v
Concurrent.v
Linearizable.v
KrakenConcurrent.v
MetricsFacts.v
