(* ===== verification/Prelude.v ===== *)
(** * gateway-exchange: verification library

    The program is a Go service (module src/) that gives one REST interface to one
    trading venue: Binance, Kraken, an OTC desk, or an in-process dummy. A process is
    assembled from the environment by [main] (cmd/gateway-exchange): it selects a
    connector, an audit sink, a store and an event bus, and serves HTTP. This library
    models the Go code by hand-translated, executable definitions and proves what the
    parts do, separately and together.

    ** How Go is modelled

    - State is explicit. An operation on a struct is a function from the record of its
      fields to the result and the record it leaves. Methods that hold a mutex from
      beginning to end are one atomic step; where critical sections interleave with
      other goroutines the component is a transition system, and an interleaving is a list
      of labels (the asynchronous audit sink, the WebSocket client), or its operations are
      programs of atomic steps that take turns (Programs.v; the REST handlers, the private
      calls of Kraken).
    - Effects are computations of the state monad [IO] over [World] (World.v): readings of
      the clock, random choices and a trace of what was done to the outside (HTTP
      requests, Kafka messages, SQL statements, vault calls, sleeps, metrics, log lines).
      What the code cannot decide is the class [Env] of oracles; theorems quantify over
      it, and [FairRange], [RandRange], [MonotoneClock] are the only facts assumed of it,
      where a theorem names them.
    - A Go error is its text, and a fallible function returns [result] or [option error].
      [log.Fatalf] is a [Fail] of the start-up.
    - int64 is [Z] with [wrap64] at every operation that can overflow; float64 is the
      binary64 of the Standard Library's SpecFloat; strings are byte strings.
    - A range over a map visits the entries in an order chosen by [Env].
    - The Go standard library is modelled, not assumed: strings and strconv (GoBase.v),
      encoding/json (Json.v), RFC 3339 times (GoTime.v), SHA-2, HMAC, hex and base64
      (Crypto.v), url.Values (Url.v), ServeMux (Http.v). Beyond ASCII, case mapping and
      quoting are the oracle [Unicode].
    - Third-party packages are parameters: decimals are the class [Decimal] with
      [DecimalLaws]; the PostgreSQL pool is the class [Pool] with [PostgresLaws], which speak
      only of statements that succeed on a database nobody else writes; Kafka, uuid and
      HTTP answers come from [Env]. Concrete instances ([fixed_decimal], the
      table pool of Postgres.v, [demo_env]) exist for the witnesses and show that the
      laws can hold.

    ** Files and sources

    - Prelude.v, GoBase.v, World.v, Decimal.v: the above. Traces.v: [emits], what a
      computation may add to the trace, one rule per combinator, and its tactic.
    - Metrics.v, Telemetry.v: internal/metrics and internal/otel. MetricsFacts.v: what every
      component promises about its updates of collectors, component by component.
    - Venue.v: internal/venue/venue.go and errors.go; the interface [VenueConnector].
    - Dummy.v: internal/venue/dummy.go, with a heap of order responses because the
      connector shares the pointer it returns.
    - RateLimit.v: internal/ratelimit; modules [Weighted], [Counter], [RPS], and the
      interface [Limiter] with [LimiterLaws] the adapters' theorems are proved against.
    - Ws.v, WsClient.v: internal/ws; the order book reconstruction and the client.
    - WsMessage.v: ParseMessage of internal/ws.
    - Json.v, JsonFacts.v, Http.v, GoTime.v, Crypto.v, Url.v: standard library.
    - Store.v: internal/store; the interface [Store], [MemStore], the contract [StoreLaws].
    - Migrations.v, Postgres.v: internal/store/migrations and internal/store/postgres.
    - AuditSink.v: internal/audit (audit.go and async.go).
    - Events.v, Book.v: internal/events and internal/book.
    - Rest.v: what Connector.do of the three adapters shares, and the interface
      [Throttled] through which they promise to send nothing during a backoff.
    - BookFeed.v: book.go of the Binance and Kraken adapters.
    - Binance.v, Kraken.v, Otc.v: the connectors of internal/adapters; Sftp.v: sftp.go.
    - Secrets.v: internal/secrets. AuthToken.v: internal/authtoken.
    - Server.v, ServerFacts.v: internal/server; handlers, routes, their theorems.
    - Main.v, Gateway.v, Process.v: cmd/gateway-exchange: the start, sequences of requests
      through what it assembles, and [main] from the telemetry to the exit.
    - Registry.v, StoredOrders.v: the abstract order registry the service over the dummy
      connector refines, and what the in-memory store knows of its orders.
    - BookPipeline.v: a feed, the goroutine of the aggregator and GET /v1/book together.
    - Programs.v: programs of atomic steps and their interleavings. Concurrent.v: the REST
      handlers as programs, each equal to its handler when nothing interrupts it;
      Linearizable.v: what their interleavings answer. KrakenConcurrent.v: private calls of
      Kraken in flight at the same time.

    A definition has the name of the Go function it translates. Where a Go function is
    long its parts are definitions of their own (for instance [check_order],
    [record_placed] and [announce_placed] of handleOrdersRoot) and the function composes
    them.

    ** What is shown

    - The service: a placed order is answered, stored, given to the audit sink and
      published exactly as the venue reported it; without a valid token nothing happens; only an accepted
      placement writes the store; balances are announced one by one; connector invariants
      survive any sequence of requests.
    - The service over the dummy connector refines an order registry: its answers are a
      trace of a transition system with four actions ([reg_step]), so that every order
      shown was placed before with the same content, and the store knows the same orders.
      [DummyLike] and [MemLike] carry this to the gateway a development start assembles.
    - Requests that run at the same time linearize to the same registry: each takes effect
      once, at an atomic step of its own, and its answer shows that effect. The one answer
      that shows more is a placement whose order was canceled meanwhile, because the
      connector shares the response with the handler.
    - The assembled process: in production it never runs on a development fallback, and
      it never places an order, because no client order id reaches a real venue; the
      telemetry is set up completely or not at all, and shut down only after a signal.
    - Metrics: registration succeeds, and no update anywhere has a wrong name, number of
      labels or kind of operation. Whether label values are valid UTF-8 is not looked at.
    - Rate limits: what each limiter grants over any run is bounded, and a backoff denies
      every Wait until its end. A 429 or 418 answer to a REST call of Binance or Kraken
      (429 for OTC) therefore stops the REST calls of that connector; the snapshot
      requests of the Binance book feed pass no limiter and go on.
    - Order books: exactly the contiguous diffs are applied and the best levels shown;
      the feeds' handling of gaps, and what they lose by it, message by message. The
      aggregator follows the channel of a feed in any interleaving, and the route shows it.
    - The WebSocket client: after Close it stops, with at most the one message it was
      reading or had in hand given to the handler; its messages come in the order of the
      connections, its waits are bounded, and the Kraken subscription goes to a connection
      that is never read.
    - Connectors: the requests of the REST calls of Binance and Kraken are signed with
      strictly increasing nonces (those of the book feeds are not signed), results are the
      decoded answers, the OTC desk is asked in two phases and only a quote it did not
      refuse is accepted. Concurrent calls of Kraken never
      share a nonce, but may overtake each other between the nonce and the request.
    - Tokens: issue and verify are inverse, and only authentic tokens verify.
    - Audit and events: no accepted event is lost or reordered, the queue drains, emitting
      after Close panics; retries, delays and the dead letter of the bus.
    - Stores and secrets: [MemStore] refines the store contract, PostgreSQL rows round-trip
      when the statements succeed, migrations run in version order and are recorded, a lease
      is revoked only after the probe accepted.

    ** Bounds and fuel

    Recursion that is not structural has fuel computed from the input, so no result
    depends on a chosen number: [dec_digits] takes one more than the binary length of the
    number, [parse_json] twice the length of the text plus one (every call consumes a byte
    or opens a value), [escape], [split_from] and [chunks] the length of what they consume.
    encoding/json's nesting limit of 10000 is kept. The interleavings of the transition
    systems are of any length.

    ** Not modelled

    What is third-party is a parameter and has no definition: the OpenTelemetry SDK ([OTel]),
    otelhttp, client_golang's registry, the Kafka writer's Close. A run of the process in
    Process.v answers its requests one after the other; handlers that run at the same time
    are modelled over the dummy connector (Linearizable.v), where a step is one call of the
    connector, the store, the sink or the bus, which is finer than the handler and as coarse
    as the locks; a retry of the bus and a call of the PostgreSQL pool are one step. Of the
    real venues only the private calls of Kraken interleave. Requests cut off by the five
    seconds of [srv.Shutdown] are left out. The deadlines of contexts
    other than where a select waits on them. Response headers are not modelled, and a
    response body is the value given to the JSON encoder. *)

From stdpp Require Export base tactics gmap strings list fin_maps sorting.
From Stdlib Require Export ZArith Lia Ascii.

#[global] Open Scope Z_scope.

(** ** Automation *)

Create HintDb gateway.
Create Rewrite HintDb gostr.

(** Splits every [if]/[match] of the goal and the hypotheses, keeping the equations. *)
Ltac split_cases :=
  repeat (case_match; simplify_eq/=).

(** ** Go's [(value, error)] results *)

(** A Go [error] is represented by the text its [Error] method returns. *)
Definition error := string.

Inductive result (A : Type) : Type :=
  | Ok (a : A)
  | Fail (e : error).
Arguments Ok {A} a.
Arguments Fail {A} e.

Definition is_ok {A} (r : result A) : bool :=
  match r with Ok _ => true | Fail _ => false end.

(** ** Generic lemmas *)

Definition zsum (l : list Z) : Z := foldr Z.add 0 l.

Lemma zsum_app l k : zsum (l ++ k) = zsum l + zsum k.
Proof. induction l as [|x l IH]; simpl; lia. Qed.

Lemma zsum_nonneg l : Forall (λ x, 0 ≤ x) l → 0 ≤ zsum l.
Proof. induction 1; simpl; lia. Qed.

Lemma elem_take {A} n (l : list A) x : x ∈ take n l → x ∈ l.
Proof. intros Hx. rewrite <- (take_drop n l). apply elem_of_app. by left. Qed.

Lemma insert_middle {A} (l1 : list A) x y l2 :
  <[length l1 := y]> (l1 ++ x :: l2) = l1 ++ y :: l2.
Proof. induction l1 as [|a l1 IH]; simpl; [done|]. by rewrite IH. Qed.

Lemma lookup_middle {A} (l1 : list A) x l2 : (l1 ++ x :: l2) !! length l1 = Some x.
Proof. by rewrite list_lookup_middle. Qed.

Lemma insert_middle_S {A} (l1 : list A) a x y l2 :
  <[S (length l1) := y]> (l1 ++ a :: x :: l2) = l1 ++ a :: y :: l2.
Proof. induction l1 as [|b l1 IH]; simpl; [done|]. by rewrite IH. Qed.

Lemma lookup_middle_S {A} (l1 : list A) a x l2 : (l1 ++ a :: x :: l2) !! S (length l1) = Some x.
Proof. by induction l1. Qed.

Lemma strongly_sorted_reverse {A} (R : relation A) (l : list A) :
  StronglySorted (flip R) l → StronglySorted R (reverse l).
Proof.
  induction 1 as [|a l _ IH Hall]; [constructor|].
  rewrite reverse_cons. apply StronglySorted_app_2; [|done|repeat constructor].
  intros x y Hx ->%list_elem_of_singleton.
  rewrite elem_of_reverse in Hx. rewrite Forall_forall in Hall. by apply Hall.
Qed.
