(* ===== verification/GoBase.v ===== *)
(** * The part of the Go language and standard library the program uses

    Machine integers with their wrap-around, [float64] (IEEE 754 binary64, from
    the executable specification [SpecFloat]), the [strings] and [strconv]
    functions on byte strings, and [time]. *)

From Stdlib Require Import Floats.SpecFloat.
From S2P Require Export Prelude.

(** ** Integers *)

Definition int64_min : Z := - 2 ^ 63.
Definition int64_max : Z := 2 ^ 63 - 1.

(** Two's complement wrap-around of [int64] and of [uint64]. *)
Definition wrap64 (z : Z) : Z := (z + 2 ^ 63) mod 2 ^ 64 - 2 ^ 63.
Definition uwrap64 (z : Z) : Z := z mod 2 ^ 64.

Definition in_int64 (z : Z) : Prop := int64_min ≤ z ≤ int64_max.

Lemma wrap64_id z : in_int64 z → wrap64 z = z.
Proof.
  unfold in_int64, int64_min, int64_max, wrap64. intros H.
  rewrite Z.mod_small; lia.
Qed.

Lemma wrap64_range z : in_int64 (wrap64 z).
Proof.
  unfold in_int64, int64_min, int64_max, wrap64.
  pose proof (Z.mod_pos_bound (z + 2 ^ 63) (2 ^ 64)). lia.
Qed.

#[export] Hint Resolve wrap64_range : gateway.

Lemma wrap64_idemp z : wrap64 (wrap64 z) = wrap64 z.
Proof. apply wrap64_id, wrap64_range. Qed.

Lemma wrap64_add_l a b : wrap64 (wrap64 a + b) = wrap64 (a + b).
Proof.
  unfold wrap64. f_equal. replace ((a + 2 ^ 63) mod 2 ^ 64 - 2 ^ 63 + b + 2 ^ 63)
    with ((a + 2 ^ 63) mod 2 ^ 64 + b) by lia.
  rewrite Z.add_mod_idemp_l by lia. f_equal. lia.
Qed.


(** ** [float64] *)

Definition float64 := spec_float.

Definition f64_of_int (z : Z) : float64 := binary_normalize 53 1024 z 0 false.
Definition f64_add : float64 → float64 → float64 := SFadd 53 1024.
Definition f64_mul : float64 → float64 → float64 := SFmul 53 1024.
Definition f64_div : float64 → float64 → float64 := SFdiv 53 1024.
Definition f64_ltb : float64 → float64 → bool := SFltb.
Definition f64_zero : float64 := S754_zero false.

(** Conversion of a [float64] to [int64]: truncation towards zero; what does
    not fit gives the minimum, as on amd64. *)
Definition f64_to_int64 (f : float64) : Z :=
  match f with
  | S754_zero _ => 0
  | S754_finite s m e =>
      let a := if 0 <=? e then Zpos m * 2 ^ e else Zpos m / 2 ^ (- e) in
      let v := if s then - a else a in
      if (int64_min <=? v) && (v <=? int64_max) then v else int64_min
  | _ => int64_min
  end.

(** ** [strings] *)

(** Go strings are byte strings; [<] on them is bytewise lexicographic. *)
Definition str_ltb (a b : string) : bool :=
  match String.compare a b with Lt => true | _ => false end.

(** The double quote, as a string. *)
Definition dquote : string := String "034"%char "".

Definition str_len (s : string) : Z := Z.of_nat (String.length s).

Fixpoint str_drop (n : nat) (s : string) : string :=
  match n, s with
  | O, _ => s
  | S n, String _ s => str_drop n s
  | S _, EmptyString => EmptyString
  end.

Fixpoint str_take (n : nat) (s : string) : string :=
  match n, s with
  | S n, String c s => String c (str_take n s)
  | _, _ => EmptyString
  end.

(** [s[i:j]] for [0 <= i <= j <= len(s)]. *)
Definition str_slice (s : string) (i j : nat) : string := str_take (j - i) (str_drop i s).

Definition HasPrefix (s p : string) : bool := String.prefix p s.

Definition TrimPrefix (s p : string) : string :=
  if HasPrefix s p then str_drop (String.length p) s else s.

Definition HasSuffix (s p : string) : bool :=
  Nat.leb (String.length p) (String.length s)
  && String.eqb (str_drop (String.length s - String.length p) s) p.

Definition TrimSuffix (s p : string) : string :=
  if HasSuffix s p then str_take (String.length s - String.length p) s else s.

(** [strings.Index(s, p)], [None] for [-1]. *)
Fixpoint Index (s p : string) : option nat :=
  if HasPrefix s p then Some O
  else match s with
       | EmptyString => None
       | String _ s' => S <$> Index s' p
       end.

(** [strings.SplitN(s, sep, 2)] for a non-empty separator. *)
Definition SplitN2 (s sep : string) : list string :=
  match Index s sep with
  | None => [s]
  | Some i => [str_take i s; str_drop (i + String.length sep) s]
  end.

(** [strings.Split(s, sep)] for a one-byte separator. *)
Fixpoint split_byte (sep : ascii) (s : string) : list string :=
  match s with
  | EmptyString => [""]
  | String c s' =>
      if Ascii.eqb c sep then "" :: split_byte sep s'
      else match split_byte sep s' with
           | [] => [String c ""]
           | w :: ws => String c w :: ws
           end
  end.

Fixpoint Join (l : list string) (sep : string) : string :=
  match l with
  | [] => ""
  | [s] => s
  | s :: l => s +:+ sep +:+ Join l sep
  end.

Fixpoint Repeat (s : string) (n : nat) : string :=
  match n with O => "" | S n => s +:+ Repeat s n end.

Fixpoint str_map (f : ascii → ascii) (s : string) : string :=
  match s with EmptyString => EmptyString | String c s => String (f c) (str_map f s) end.

Fixpoint str_forallb (f : ascii → bool) (s : string) : bool :=
  match s with EmptyString => true | String c s => f c && str_forallb f s end.

Definition byte (c : ascii) : Z := Z.of_N (N_of_ascii c).
Definition chr (z : Z) : ascii := ascii_of_N (Z.to_N z).

Definition in_range (lo hi z : Z) : bool := (lo <=? z) && (z <=? hi).

Definition is_ascii (s : string) : bool := str_forallb (λ c, byte c <? 128) s.

Definition upper_byte (c : ascii) : ascii :=
  if in_range 97 122 (byte c) then chr (byte c - 32) else c.
Definition lower_byte (c : ascii) : ascii :=
  if in_range 65 90 (byte c) then chr (byte c + 32) else c.

(** [strings.ToUpper] and [strings.ToLower] have an ASCII path; what they do on
    other strings follows the Unicode tables, given as functions. *)
Class Unicode := {
  unicode_upper : string → string;
  unicode_lower : string → string;
  unicode_trim_space : string → string;
  unicode_quote : string → string;
}.

Definition ToUpper `{Unicode} (s : string) : string :=
  if is_ascii s then str_map upper_byte s else unicode_upper s.
Definition ToLower `{Unicode} (s : string) : string :=
  if is_ascii s then str_map lower_byte s else unicode_lower s.

Definition is_space (c : ascii) : bool := in_range 9 13 (byte c) || (byte c =? 32).

Fixpoint trim_left (s : string) : string :=
  match s with
  | String c r => if is_space c then trim_left r else s
  | EmptyString => EmptyString
  end.

Fixpoint trim_right (s : string) : string :=
  match s with
  | String c r =>
      match trim_right r with
      | EmptyString => if is_space c then EmptyString else String c EmptyString
      | r => String c r
      end
  | EmptyString => EmptyString
  end.

(** [strings.TrimSpace]. *)
Definition TrimSpace `{Unicode} (s : string) : string :=
  if is_ascii s then trim_right (trim_left s) else unicode_trim_space s.

Definition hex_char (d : Z) : ascii := chr (if d <? 10 then 48 + d else 87 + d).

(** One ASCII byte as [strconv.Quote] prints it. *)
Definition quote_byte (c : ascii) : string :=
  let b := byte c in
  let esc (e : Z) := String (chr 92) (String (chr e) "") in
  if b =? 7 then esc 97 else if b =? 8 then esc 98 else if b =? 9 then esc 116
  else if b =? 10 then esc 110 else if b =? 11 then esc 118 else if b =? 12 then esc 102
  else if b =? 13 then esc 114 else if (b =? 34) || (b =? 92) then esc b
  else if (b <? 32) || (b =? 127) then
    String (chr 92) (String "x"%char (String (hex_char (b / 16)) (String (hex_char (b mod 16)) "")))
  else String c "".

Fixpoint quote_bytes (s : string) : string :=
  match s with EmptyString => "" | String c s => quote_byte c +:+ quote_bytes s end.

(** [%q] of package fmt. *)
Definition Quote `{Unicode} (s : string) : string :=
  if is_ascii s then dquote +:+ quote_bytes s +:+ dquote else unicode_quote s.

(** The table-free instance: non-ASCII strings are left alone. *)
Definition unicode_id : Unicode := {|
  unicode_upper := id; unicode_lower := id; unicode_trim_space := id; unicode_quote := id;
|}.

Lemma str_take_length n s : (n ≤ String.length s)%nat → String.length (str_take n s) = n.
Proof.
  revert s. induction n as [|n IH]; intros [|c s]; simpl; intros; try lia. rewrite IH; lia.
Qed.

Lemma str_drop_length n s : String.length (str_drop n s) = (String.length s - n)%nat.
Proof. revert s. induction n as [|n IH]; intros [|c s]; simpl; try lia. apply IH. Qed.

Lemma str_app_length s t : String.length (s +:+ t) = (String.length s + String.length t)%nat.
Proof. induction s as [|c s IH]; [done|]. change (S (String.length (s +:+ t)) = S (String.length s) + String.length t)%nat. lia. Qed.

Lemma repeat_length s n : String.length (Repeat s n) = (n * String.length s)%nat.
Proof. induction n as [|n IH]; simpl; [done|]. rewrite str_app_length. lia. Qed.

Lemma str_app_cons c s t : String c s +:+ t = String c (s +:+ t).
Proof. done. Qed.

Lemma str_app_nil_l s : "" +:+ s = s.
Proof. done. Qed.

Lemma str_app_nil_r s : s +:+ "" = s.
Proof. induction s as [|c s IH]; [done|]. rewrite str_app_cons. by rewrite IH. Qed.

Lemma str_app_assoc s t u : (s +:+ t) +:+ u = s +:+ (t +:+ u).
Proof. induction s as [|c s IH]; [done|]. rewrite !str_app_cons. by rewrite IH. Qed.

Lemma str_take_app s t : str_take (String.length s) (s +:+ t) = s.
Proof. induction s as [|c s IH]; [by destruct t|]. rewrite str_app_cons. simpl. by rewrite IH. Qed.

Lemma str_drop_app s t : str_drop (String.length s) (s +:+ t) = t.
Proof. induction s as [|c s IH]; [done|]. by rewrite str_app_cons. Qed.

#[export] Hint Rewrite str_take_app str_drop_app str_app_length str_app_nil_r repeat_length : gostr.

Lemma has_prefix_app p s : HasPrefix (p +:+ s) p = true.
Proof.
  unfold HasPrefix. induction p as [|c p IH]; [by destruct s|].
  rewrite str_app_cons. simpl. rewrite IH. by destruct (ascii_dec c c).
Qed.

Lemma trim_prefix_app p s : TrimPrefix (p +:+ s) p = s.
Proof. unfold TrimPrefix. rewrite has_prefix_app. apply str_drop_app. Qed.

(** *** Separators *)

Lemma str_take_drop n s : str_take n s +:+ str_drop n s = s.
Proof. revert s. induction n as [|n IH]; intros [|c s]; try done. cbn [str_take str_drop]. rewrite str_app_cons. by rewrite IH. Qed.

Lemma str_take_length_min n s : String.length (str_take n s) = Nat.min n (String.length s).
Proof. revert s. induction n as [|n IH]; intros [|c s]; cbn; try done. by rewrite IH. Qed.

Lemma str_drop_drop n m s : str_drop m (str_drop n s) = str_drop (n + m) s.
Proof. revert s. induction n as [|n IH]; intros s; [done|]. destruct s as [|c s]; cbn; [by destruct m|]. apply IH. Qed.

Definition lacks (c : ascii) (s : string) : bool := str_forallb (λ d, negb (Ascii.eqb d c)) s.

Lemma str_forallb_app f s t : str_forallb f (s +:+ t) = str_forallb f s && str_forallb f t.
Proof. induction s as [|c s IH]; [done|]. rewrite str_app_cons. cbn. by rewrite IH, andb_assoc. Qed.

Lemma lacks_app c s t : lacks c (s +:+ t) = lacks c s && lacks c t.
Proof. apply str_forallb_app. Qed.

Lemma has_prefix_char c s : HasPrefix s (String c "") = match s with String d _ => Ascii.eqb c d | _ => false end.
Proof.
  unfold HasPrefix. destruct s as [|d s]; [done|]. cbn. destruct (ascii_dec c d) as [->|Hne].
  - rewrite Ascii.eqb_refl. by destruct s.
  - by destruct (Ascii.eqb_spec c d).
Qed.

Lemma index_lacks c s t : lacks c s = true → Index (s +:+ String c t) (String c "") = Some (String.length s).
Proof.
  induction s as [|d s IH]; intros H.
  - change ("" +:+ String c t) with (String c t). cbn [Index]. rewrite has_prefix_char. by rewrite Ascii.eqb_refl.
  - cbn in H. apply andb_prop in H as [Hd Hs]. rewrite str_app_cons. cbn [Index].
    rewrite has_prefix_char. apply negb_true_iff in Hd. rewrite Ascii.eqb_sym, Hd. cbn. by rewrite (IH Hs).
Qed.

Lemma index_spec c s i :
  Index s (String c "") = Some i →
  s = str_take i s +:+ String c (str_drop (i + 1) s) ∧ lacks c (str_take i s) = true.
Proof.
  revert i. induction s as [|d s IH]; intros i; cbn [Index]; rewrite has_prefix_char; [done|].
  destruct (Ascii.eqb_spec c d) as [->|Hne].
  - intros [= <-]. by destruct s.
  - destruct (Index s (String c "")) as [j|]; [|done]. intros [= <-].
    destruct (IH j eq_refl) as [Hs Hl]. split.
    + cbn [str_take str_drop Nat.add]. rewrite str_app_cons. by rewrite <- Hs.
    + unfold lacks in *. cbn. rewrite Hl. destruct (Ascii.eqb_spec d c); [congruence|done].
Qed.

Lemma has_prefix_split s p : HasPrefix s p = true ↔ ∃ r, s = p +:+ r.
Proof.
  unfold HasPrefix. split.
  - revert s. induction p as [|c p IH]; intros s H; [by exists s|]. destruct s as [|d s]; [done|].
    cbn in H. destruct (ascii_dec c d) as [->|]; [|done]. destruct (IH s H) as [r ->]. by exists r.
  - intros [r ->]. apply has_prefix_app.
Qed.

Lemma str_app_inj s t u : s +:+ t = s +:+ u → t = u.
Proof. induction s as [|c s IH]; [done|]. rewrite !str_app_cons. intros [= H]. by apply IH. Qed.

(** A string whose first separator comes after [s] starts with [s], or lacks room for it. *)
Lemma lacks_prefix_split c s t u v :
  lacks c s = true → lacks c u = true → s +:+ t = u +:+ String c v → ∃ r, u = s +:+ r.
Proof.
  revert u. induction s as [|d s IH]; intros u Hs Hu Heq; [by exists u|].
  destruct u as [|e u].
  - rewrite str_app_cons in Heq. injection Heq as -> _. cbn in Hs. by rewrite Ascii.eqb_refl in Hs.
  - rewrite !str_app_cons in Heq. injection Heq as -> Heq. cbn in Hs, Hu.
    apply andb_prop in Hs as [_ Hs]. apply andb_prop in Hu as [_ Hu].
    destruct (IH u Hs Hu Heq) as [r ->]. by exists r.
Qed.

(** Splitting at a byte. *)
Lemma split_byte_ne c s : split_byte c s ≠ [].
Proof. destruct s as [|d s]; [done|]. cbn. destruct (Ascii.eqb d c); [done|]. by destruct (split_byte c s). Qed.

Lemma split_byte_app c a b :
  lacks c a = true → split_byte c (a +:+ String c "" +:+ b) = a :: split_byte c b.
Proof.
  change (String c "" +:+ b) with (String c b).
  induction a as [|d a IH]; intros Ha.
  - change ("" +:+ String c b) with (String c b). cbn [split_byte]. by rewrite Ascii.eqb_refl.
  - unfold lacks in *. cbn in Ha. apply andb_prop in Ha as [Hd Ha]. rewrite str_app_cons. cbn.
    apply negb_true_iff in Hd. by rewrite Hd, IH.
Qed.

Lemma split_byte_lacks c a : lacks c a = true → split_byte c a = [a].
Proof.
  induction a as [|d a IH]; intros Ha; [done|].
  unfold lacks in *. cbn in Ha. apply andb_prop in Ha as [Hd Ha]. cbn.
  apply negb_true_iff in Hd. by rewrite Hd, IH.
Qed.

Lemma join_split c s : Join (split_byte c s) (String c "") = s.
Proof.
  induction s as [|d s IH]; [done|]. cbn. destruct (Ascii.eqb_spec d c) as [->|].
  - destruct (split_byte c s) as [|w ws] eqn:Hs; [by destruct (split_byte_ne c s)|]. by rewrite <- IH.
  - destruct (split_byte c s) as [|w [|w' ws]] eqn:Hs; [by destruct (split_byte_ne c s)|..].
    + by rewrite <- IH.
    + rewrite <- IH. cbn [Join]. by rewrite str_app_cons.
Qed.

(** *** Suffixes *)

Lemma has_suffix_app s p : HasSuffix (s +:+ p) p = true.
Proof.
  unfold HasSuffix. rewrite str_app_length.
  replace (String.length s + String.length p - String.length p)%nat with (String.length s) by lia.
  rewrite str_drop_app, String.eqb_refl.
  by destruct (Nat.leb_spec (String.length p) (String.length s + String.length p)); [|lia].
Qed.

Lemma trim_suffix_app s p : TrimSuffix (s +:+ p) p = s.
Proof.
  unfold TrimSuffix. rewrite has_suffix_app, str_app_length.
  replace (String.length s + String.length p - String.length p)%nat with (String.length s) by lia.
  apply str_take_app.
Qed.

Lemma has_suffix_split s p : HasSuffix s p = true → s = TrimSuffix s p +:+ p.
Proof.
  intros H. unfold TrimSuffix. rewrite H. unfold HasSuffix in H. apply andb_prop in H as [_ H%String.eqb_eq].
  transitivity (str_take (String.length s - String.length p) s +:+ str_drop (String.length s - String.length p) s).
  - by rewrite str_take_drop.
  - by rewrite H.
Qed.

(** A suffix no longer than the end of a string is decided by that end. *)
Lemma has_suffix_end s t p :
  (String.length p ≤ String.length t)%nat → HasSuffix (s +:+ t) p = HasSuffix t p.
Proof.
  intros Hl. unfold HasSuffix. rewrite str_app_length.
  replace (String.length s + String.length t - String.length p)%nat
    with (String.length s + (String.length t - String.length p))%nat by lia.
  rewrite <- str_drop_drop, str_drop_app.
  destruct (Nat.leb_spec (String.length p) (String.length t)),
    (Nat.leb_spec (String.length p) (String.length s + String.length t)); done || lia.
Qed.

(** *** Order *)

Lemma str_compare_refl a : String.compare a a = Eq.
Proof. induction a as [|c a IH]; simpl; [done|]. unfold Ascii.compare. by rewrite N.compare_refl. Qed.

Lemma str_ltb_irrefl a : str_ltb a a = false.
Proof. unfold str_ltb. by rewrite str_compare_refl. Qed.

Lemma str_ltb_total a b : a ≠ b → str_ltb a b = false → str_ltb b a = true.
Proof.
  unfold str_ltb. intros Hne. rewrite (String.compare_antisym b a).
  destruct (String.compare a b) eqn:Hc; simpl; try done.
  apply String.compare_eq_iff in Hc. done.
Qed.

Lemma ascii_compare_lt_trans a b c :
  Ascii.compare a b = Lt → Ascii.compare b c = Lt → Ascii.compare a c = Lt.
Proof. unfold Ascii.compare. rewrite !N.compare_lt_iff. lia. Qed.

Lemma str_ltb_trans a b c : str_ltb a b = true → str_ltb b c = true → str_ltb a c = true.
Proof.
  unfold str_ltb. revert b c. induction a as [|x a IH]; intros [|y b] [|z c]; simpl; try done.
  destruct (Ascii.compare x y) eqn:Hxy; try done.
  - apply Ascii.compare_eq_iff in Hxy as ->. destruct (Ascii.compare y z); [apply IH|done|done].
  - destruct (Ascii.compare y z) eqn:Hyz; try done.
    + apply Ascii.compare_eq_iff in Hyz as ->. by rewrite Hxy.
    + by rewrite (ascii_compare_lt_trans _ _ _ Hxy Hyz).
Qed.

(** ** [strconv] *)

Definition digit (d : Z) : ascii := chr (48 + d).

Fixpoint dec_digits (fuel : nat) (n : Z) (acc : string) : string :=
  match fuel with
  | O => acc
  | S fuel =>
      let acc := String (digit (n mod 10)) acc in
      if n <? 10 then acc else dec_digits fuel (n / 10) acc
  end.

Definition fmt_nat (n : Z) : string := dec_digits (S (Z.to_nat (Z.log2 n))) n "".

(** [strconv.FormatInt(z, 10)], [strconv.FormatUint], [strconv.Itoa]. *)
Definition FormatInt (z : Z) : string :=
  if z <? 0 then "-" +:+ fmt_nat (- z) else fmt_nat z.

Definition is_digit (c : ascii) : bool := in_range 48 57 (byte c).

Fixpoint parse_digits (s : string) (acc : Z) : option Z :=
  match s with
  | EmptyString => Some acc
  | String c s => if is_digit c then parse_digits s (acc * 10 + (byte c - 48)) else None
  end.

(** [strconv.ParseInt(s, 10, 64)], [None] for an error (syntax or range). *)
Definition ParseInt (s : string) : option Z :=
  let range z := if (int64_min <=? z) && (z <=? int64_max) then Some z else None in
  match s with
  | EmptyString => None
  | String c r =>
      if Ascii.eqb c "-"%char then
        match r with EmptyString => None | _ => z ← parse_digits r 0; range (- z) end
      else if Ascii.eqb c "+"%char then
        match r with EmptyString => None | _ => z ← parse_digits r 0; range z end
      else z ← parse_digits s 0; range z
  end.

(** [strconv.Atoi] on a 64-bit platform. *)
Definition Atoi : string → option Z := ParseInt.

Lemma byte_chr z : 0 ≤ z < 256 → byte (chr z) = z.
Proof. intros H. unfold byte, chr. rewrite N_ascii_embedding; lia. Qed.

Lemma is_digit_digit d : 0 ≤ d < 10 → is_digit (digit d) = true ∧ byte (digit d) - 48 = d.
Proof. intros H. unfold is_digit, digit, in_range. rewrite byte_chr by lia. lia. Qed.

Lemma parse_dec_digits fuel n acc a :
  0 ≤ n < 2 ^ Z.of_nat fuel →
  ∃ k, 0 ≤ k ∧ parse_digits (dec_digits fuel n acc) a = parse_digits acc (a * 10 ^ k + n).
Proof.
  revert n acc. induction fuel as [|fuel IH]; intros n acc Hn.
  { exists 0. split; [done|]. simpl in *. f_equal. lia. }
  cbn [dec_digits].
  pose proof (Z.mod_pos_bound n 10 ltac:(lia)) as Hmod.
  pose proof (is_digit_digit (n mod 10) ltac:(lia)) as [Hd Hb].
  pose proof (Z.div_mod n 10 ltac:(lia)) as Hdm.
  destruct (Z.ltb_spec n 10).
  - exists 1. split; [done|]. cbn [parse_digits]. rewrite Hd, Hb. f_equal.
    rewrite (Z.mod_small n 10) by lia. lia.
  - destruct (IH (n / 10) (String (digit (n mod 10)) acc)) as (k & Hk & Heq).
    { split; [apply Z.div_pos; lia|]. rewrite Nat2Z.inj_succ, Z.pow_succ_r in Hn by lia.
      apply Z.div_lt_upper_bound; lia. }
    exists (k + 1). split; [lia|]. rewrite Heq. cbn [parse_digits]. rewrite Hd, Hb.
    f_equal. rewrite Z.pow_add_r by lia. lia.
Qed.

Lemma parse_fmt_nat n : 0 ≤ n → parse_digits (fmt_nat n) 0 = Some n.
Proof.
  intros Hn. unfold fmt_nat.
  destruct (parse_dec_digits (S (Z.to_nat (Z.log2 n))) n "" 0) as (k & _ & ->); [|done].
  split; [done|]. rewrite Nat2Z.inj_succ, Z2Nat.id by apply Z.log2_nonneg.
  destruct (Z.eq_dec n 0) as [->|]; [done|]. apply Z.log2_spec. lia.
Qed.

Lemma dec_digits_head fuel n acc :
  0 ≤ n → fuel ≠ O → ∃ c r, dec_digits fuel n acc = String c r ∧ is_digit c = true.
Proof.
  revert n acc. induction fuel as [|fuel IH]; intros n acc Hn Hf; [done|].
  cbn [dec_digits]. destruct (Z.ltb_spec n 10).
  - eexists _, _. split; [done|]. apply is_digit_digit. apply Z.mod_pos_bound. lia.
  - destruct fuel as [|fuel].
    + eexists _, _. split; [done|]. apply is_digit_digit. apply Z.mod_pos_bound. lia.
    + apply IH; [apply Z.div_pos; lia|done].
Qed.

(** Printing an [int64] and parsing it back is the identity. *)
Lemma parse_format_int z : in_int64 z → ParseInt (FormatInt z) = Some z.
Proof.
  unfold in_int64. intros Hz. unfold FormatInt.
  assert (Hrange : (int64_min <=? z) && (z <=? int64_max) = true) by lia.
  destruct (Z.ltb_spec z 0).
  - pose proof (parse_fmt_nat (- z) ltac:(lia)) as Hp.
    destruct (dec_digits_head (S (Z.to_nat (Z.log2 (- z)))) (- z) "" ltac:(lia) ltac:(done))
      as (c & r & Hc & _).
    unfold ParseInt. rewrite str_app_cons, str_app_nil_l. cbn [Ascii.eqb].
    unfold fmt_nat in *. rewrite Hc in *. rewrite Hp. simpl.
    rewrite Z.opp_involutive. by rewrite Hrange.
  - pose proof (parse_fmt_nat z ltac:(lia)) as Hp.
    destruct (dec_digits_head (S (Z.to_nat (Z.log2 z))) z "" ltac:(lia) ltac:(done))
      as (c & r & Hc & Hd).
    unfold ParseInt, fmt_nat in *. rewrite Hc in *. rewrite Hp. simpl.
    destruct (Ascii.eqb_spec c "-"%char) as [->|]; [done|].
    destruct (Ascii.eqb_spec c "+"%char) as [->|]; [done|]. by rewrite Hrange.
Qed.

(** ** [time] *)

(** A [time.Time] is the number of nanoseconds since the Unix epoch, a
    [time.Duration] an [int64] number of nanoseconds. *)
Definition Time := Z.
Definition Duration := Z.

Definition Millisecond : Duration := 1000000.
Definition Second : Duration := 1000000000.
Definition Hour : Duration := 3600 * Second.

(** The zero [time.Time], January 1 of year 1. *)
Definition zero_time : Time := - 62135596800 * Second.
Definition time_is_zero (t : Time) : bool := t =? zero_time.

(** [t.Sub(u)] saturates at the extreme durations. *)
Definition time_sub (t u : Time) : Duration := Z.max int64_min (Z.min int64_max (t - u)).
Definition time_add (t : Time) (d : Duration) : Time := t + d.
Definition time_before (t u : Time) : bool := t <? u.
Definition time_after (t u : Time) : bool := u <? t.
Definition time_unix (t : Time) : Z := t / Second.
Definition time_unix_milli (t : Time) : Z := wrap64 (t / Millisecond).
Definition time_unix_nano (t : Time) : Z := wrap64 t.
Definition time_of_unix (s : Z) : Time := s * Second.
Definition time_of_unix_milli (ms : Z) : Time := ms * Millisecond.

(** [d.Seconds()]. *)
Definition duration_seconds (d : Duration) : float64 :=
  f64_add (f64_of_int (Z.quot d Second))
          (f64_div (f64_of_int (Z.rem d Second)) (f64_of_int Second)).
