(* ===== verification/World.v ===== *)
(** * Effects: the world the gateway runs in

    What the code cannot decide by itself (the clock, the network, the
    environment, third-party packages) is the class [Env] of oracles, over which
    every theorem quantifies; each answer may depend on everything that was done
    before. What the code does to the outside is appended to the trace of the
    [World]. An effectful Go function is a computation of the state monad [IO]. *)

From S2P Require Export GoBase.

(** ** Observable actions *)

Inductive metric_op :=
  | MInc
  | MSet (v : float64)
  | MObserve (v : float64).

Record http_request := mkReq {
  hr_method : string;
  hr_url : string;
  hr_headers : list (string * string);
  hr_body : string;
}.

(** What [http.DefaultClient.Do] and [io.ReadAll] on the body give. *)
Inductive http_outcome :=
  | HTTPErr (e : error)
  | HTTPBodyErr (status : Z) (headers : string → string) (e : error)
  | HTTPResp (status : Z) (headers : string → string) (body : string).

(** An argument of an SQL statement, or a column of a row. *)
Inductive sql_value :=
  | SText (s : string)
  | STime (t : Time)
  | SBool (b : bool).

Inductive event :=
  | EvMetric (name : string) (labels : list string) (op : metric_op)
  | EvHTTP (r : http_request)
  | EvPublish (subject : string) (data : string)
  | EvKafka (topic : string) (key : string) (value : string)
  | EvSleep (d : Duration)
  | EvVaultRead (path : string)
  | EvVaultRevoke (lease : string)
  | EvProbe
  | EvUUID
  | EvSQL (query : string) (args : list sql_value)
  | EvLog (msg : string).

Record World := mkWorld {
  w_ticks : nat;           (** readings of the clock so far *)
  w_draws : nat;           (** random choices so far *)
  w_trace : list event;    (** actions so far, oldest first *)
}.

Class Env := {
  (** the n-th reading of the clock *)
  env_now : nat → Time;
  (** the order in which a [range] over a map visits its entries, for the n-th
      random choice *)
  env_range : nat → ∀ {A : Type}, list A → list A;
  (** [rand.Int63n(k)] and [rand.Float64()] for the n-th random choice *)
  env_int63n : nat → Z → Z;
  env_float64 : nat → float64;
  (** [http.DefaultClient.Do] *)
  env_http : list event → http_request → http_outcome;
  (** the error of [http.NewRequestWithContext] for a method and URL, if any *)
  env_new_request : string → string → option error;
  (** [Some err] when the context is done before the timer of a [select] *)
  env_sleep : list event → Duration → option error;
  (** [uuid.NewString] of github.com/google/uuid *)
  env_uuid : list event → string;
  (** [os.Getenv] and [os.Environ] *)
  env_getenv : string → string;
  env_environ : list string;
  (** [kafka.Writer.WriteMessages] of segmentio/kafka-go *)
  env_kafka : list event → string → string → string → option error;
  (** the text of the error of [json.Unmarshal] or [Decode] on an input *)
  env_json_error : string → error;
  (** the text of the error of [base64] decoding of an input *)
  env_base64_error : string → error;
  env_unicode :: Unicode;
}.

(** A [range] over a map visits every entry once. *)
Class FairRange (E : Env) : Prop :=
  range_perm : ∀ n A (l : list A), env_range n l ≡ₚ l.

(** [rand.Int63n(k)] is in [0, k). *)
Class RandRange (E : Env) : Prop :=
  int63n_range : ∀ n k, 0 < k → 0 ≤ env_int63n n k < k.

(** The clock does not go backwards. *)
Class MonotoneClock (E : Env) : Prop :=
  clock_mono : ∀ i j, (i ≤ j)%nat → env_now i ≤ env_now j.

(** ** The monad *)

Definition IO (A : Type) : Type := World → A * World.

#[global] Instance io_ret : MRet IO := λ A a w, (a, w).
#[global] Instance io_bind : MBind IO := λ A B f m w, let '(a, w') := m w in f a w'.
#[global] Instance io_fmap : FMap IO := λ A B f m w, let '(a, w') := m w in (f a, w').

Definition trace (e : event) : IO unit :=
  λ w, (tt, mkWorld (w_ticks w) (w_draws w) (w_trace w ++ [e])).

(** Asks an oracle that sees the actions so far. *)
Definition ask {A} (f : list event → A) : IO A := λ w, (f (w_trace w), w).

Definition metric (name : string) (labels : list string) (op : metric_op) : IO unit :=
  trace (EvMetric name labels op).

Section Effects.
Context `{E : Env}.

Definition time_now : IO Time :=
  λ w, (env_now (w_ticks w), mkWorld (S (w_ticks w)) (w_draws w) (w_trace w)).

(** The n-th random choice. *)
Definition draw {A} (f : nat → A) : IO A :=
  λ w, (f (w_draws w), mkWorld (w_ticks w) (S (w_draws w)) (w_trace w)).

Definition range_map {V} (m : gmap string V) : IO (list (string * V)) :=
  draw (λ n, env_range n (map_to_list m)).

Definition new_uuid : IO string := s ← ask env_uuid; _ ← trace EvUUID; mret s.

(** [select { case <-ctx.Done(): case <-time.After(d): }] *)
Definition ctx_sleep (d : Duration) : IO (option error) :=
  r ← ask (λ tr, env_sleep tr d); _ ← trace (EvSleep d); mret r.

Definition http_do (r : http_request) : IO http_outcome :=
  o ← ask (λ tr, env_http tr r); _ ← trace (EvHTTP r); mret o.

Definition kafka_write (topic key value : string) : IO (option error) :=
  o ← ask (λ tr, env_kafka tr topic key value); _ ← trace (EvKafka topic key value); mret o.
End Effects.

(** ** Reasoning about computations *)

(** [w ⟶ w']: the world only ever grows. *)
Definition extends (w w' : World) : Prop :=
  (w_ticks w ≤ w_ticks w')%nat ∧ (w_draws w ≤ w_draws w')%nat ∧ ∃ tr, w_trace w' = w_trace w ++ tr.

#[global] Instance extends_preorder : PreOrder extends.
Proof.
  split.
  - intros w. split; [lia|]. split; [lia|]. exists []. by rewrite app_nil_r.
  - intros w1 w2 w3 (H1 & D1 & t1 & E1) (H2 & D2 & t2 & E2). split; [lia|]. split; [lia|].
    exists (t1 ++ t2). by rewrite E2, E1, app_assoc.
Qed.

Lemma bind_run {A B} (m : IO A) (f : A → IO B) w :
  (m ≫= f) w = f (fst (m w)) (snd (m w)).
Proof. unfold mbind, io_bind. by destruct (m w). Qed.

Lemma http_do_run `{E : Env} r w :
  http_do r w
  = (env_http (w_trace w) r, mkWorld (w_ticks w) (w_draws w) (w_trace w ++ [EvHTTP r])).
Proof. done. Qed.

(** The events a computation adds to the trace. *)
Definition is_http (e : event) : bool := match e with EvHTTP _ => true | _ => false end.
Definition is_sleep (e : event) : bool := match e with EvSleep _ => true | _ => false end.
Definition is_publish (e : event) : bool := match e with EvPublish _ _ => true | _ => false end.
Definition is_metric (e : event) : bool := match e with EvMetric _ _ _ => true | _ => false end.

Definition is_sql (e : event) : bool := match e with EvSQL _ _ => true | _ => false end.

Definition http_events (w : World) : list event := List.filter is_http (w_trace w).

Lemma http_events_trace e w :
  is_http e = false → http_events (snd (trace e w)) = http_events w.
Proof. intros H. unfold http_events, trace. simpl. rewrite List.filter_app. simpl. by rewrite H, app_nil_r. Qed.

(** Unfolds the monad down to the effects. *)
Ltac run_io :=
  repeat (unfold mbind, io_bind, mret, io_ret, fmap, io_fmap, time_now, trace, metric, ask, draw in *; simpl in *).

(** ** A concrete environment, for the witnesses

    The clock ticks every millisecond, the network answers [http], Kafka answers
    [kafka], and [getenv] is the environment. *)
Definition env_with (http : http_request → http_outcome)
    (kafka : string → option error) (getenv : string → string) : Env := {|
  env_now n := 1700000000 * Second + Z.of_nat n * Millisecond;
  env_range _ _ l := l;
  env_int63n _ _ := 0;
  env_float64 _ := f64_zero;
  env_http _ r := http r;
  env_new_request _ _ := None;
  env_sleep _ _ := None;
  env_uuid tr := "uuid-" +:+ FormatInt (Z.of_nat (length tr));
  env_getenv := getenv;
  env_environ := [];
  env_kafka _ _ _ v := kafka v;
  env_json_error _ := "invalid character";
  env_base64_error _ := "illegal base64 data at input byte 0";
  env_unicode := unicode_id;
|}.

Definition demo_env : Env :=
  env_with (λ _, HTTPErr "connection refused") (λ _, None) (λ _, "").

Lemma env_with_clock http kafka getenv : MonotoneClock (env_with http kafka getenv).
Proof. intros i j Hij. simpl. unfold Millisecond. lia. Qed.

Lemma env_with_range http kafka getenv : FairRange (env_with http kafka getenv).
Proof. intros n A l. done. Qed.

Lemma env_with_rand http kafka getenv : RandRange (env_with http kafka getenv).
Proof. intros n k Hk. simpl. lia. Qed.

Definition demo_clock : MonotoneClock demo_env := env_with_clock _ _ _.
Definition demo_range : FairRange demo_env := env_with_range _ _ _.
Definition demo_rand : RandRange demo_env := env_with_rand _ _ _.

Definition world0 : World := mkWorld 0 0 [].
