(* ===== verification/Traces.v ===== *)
(** * Traces: what a computation may do to the outside

    [emits P m]: every event the computation [m] adds to the trace satisfies [P]. One
    rule for each combinator of [IO], and a tactic that applies them along the code. *)

From S2P Require Export World.

Section Emits.
Context (P : event → Prop).

Definition emits {A} (m : IO A) : Prop :=
  ∀ w, ∃ tr, w_trace (snd (m w)) = w_trace w ++ tr ∧ Forall P tr.

Lemma emits_quiet {A} (m : IO A) : (∀ w, w_trace (snd (m w)) = w_trace w) → emits m.
Proof. intros H w. exists []. by rewrite H, app_nil_r. Qed.

Lemma emits_ret {A} (a : A) : emits (mret a).
Proof. by apply emits_quiet. Qed.

Lemma emits_bind {A B} (m : IO A) (f : A → IO B) :
  emits m → (∀ a, emits (f a)) → emits (m ≫= f).
Proof.
  intros Hm Hf w. rewrite bind_run. destruct (Hm w) as (tr & Ht & Hp).
  destruct (Hf (fst (m w)) (snd (m w))) as (tr' & Ht' & Hp').
  exists (tr ++ tr'). rewrite Ht', Ht, app_assoc. split; [done|]. by apply Forall_app.
Qed.

(** What follows [m] is needed only for the results [m] can have. *)
Lemma emits_bind_post {A B} (Q : A → Prop) (m : IO A) (f : A → IO B) :
  emits m → (∀ w, Q (fst (m w))) → (∀ a, Q a → emits (f a)) → emits (m ≫= f).
Proof.
  intros Hm Hq Hf w. rewrite bind_run. destruct (Hm w) as (tr & Ht & Hp).
  destruct (Hf _ (Hq w) (snd (m w))) as (tr' & Ht' & Hp').
  exists (tr ++ tr'). rewrite Ht', Ht, app_assoc. split; [done|]. by apply Forall_app.
Qed.

Lemma emits_trace e : P e → emits (trace e).
Proof. intros H w. exists [e]. split; [done|]. by constructor. Qed.

Lemma emits_metric name labels op : P (EvMetric name labels op) → emits (metric name labels op).
Proof. apply emits_trace. Qed.

Lemma emits_ask {A} (f : list event → A) : emits (ask f).
Proof. by apply emits_quiet. Qed.

Context `{E : Env}.

Lemma emits_time_now : emits time_now.
Proof. by apply emits_quiet. Qed.

Lemma emits_draw {A} (f : nat → A) : emits (draw f).
Proof. by apply emits_quiet. Qed.

Lemma emits_range_map {V} (m : gmap string V) : emits (range_map m).
Proof. apply emits_draw. Qed.

Lemma emits_new_uuid : P EvUUID → emits new_uuid.
Proof. intros. apply emits_bind; [apply emits_ask|]. intros. apply emits_bind; [by apply emits_trace|]. intros. apply emits_ret. Qed.

Lemma emits_ctx_sleep d : P (EvSleep d) → emits (ctx_sleep d).
Proof. intros. apply emits_bind; [apply emits_ask|]. intros. apply emits_bind; [by apply emits_trace|]. intros. apply emits_ret. Qed.

Lemma emits_http_do r : P (EvHTTP r) → emits (http_do r).
Proof. intros. apply emits_bind; [apply emits_ask|]. intros. apply emits_bind; [by apply emits_trace|]. intros. apply emits_ret. Qed.

Lemma emits_kafka_write topic key value : P (EvKafka topic key value) → emits (kafka_write topic key value).
Proof. intros. apply emits_bind; [apply emits_ask|]. intros. apply emits_bind; [by apply emits_trace|]. intros. apply emits_ret. Qed.

End Emits.

(** A larger set of events. *)
Lemma emits_mono (P Q : event → Prop) {A} (m : IO A) : (∀ e, P e → Q e) → emits P m → emits Q m.
Proof. intros H Hm w. destruct (Hm w) as (tr & Ht & Hp). exists tr. split; [done|]. by eapply Forall_impl. Qed.

Create HintDb emits.
#[export] Hint Resolve emits_ret emits_ask emits_time_now emits_draw emits_range_map : emits.
#[export] Hint Resolve emits_trace emits_metric emits_new_uuid emits_ctx_sleep emits_http_do
  emits_kafka_write : emits.
#[export] Hint Extern 1 => reflexivity : emits.

(** Follows the code: binds, branches, and the computations the database knows. *)
Ltac emits_step :=
  match goal with
  | |- emits _ (mret _) => apply emits_ret
  | |- emits _ (_ ≫= _) => apply emits_bind; [|intros ?]
  | |- emits _ (match ?x with _ => _ end) => destruct x
  | |- _ => solve [eauto 3 with emits]
  end.
Ltac solve_emits := repeat (cbv zeta; emits_step).
