(* ===== verification/Programs.v ===== *)
(** * Programs of atomic steps

    What a goroutine does to shared state, as the sequence of its atomic steps: one
    critical section, one atomic operation or one effect each. A program runs without
    interruption, or its steps interleave with those of others. *)

From S2P Require Export World.

(** ** Programs of atomic steps *)

Inductive prog (S A : Type) :=
  | Done (a : A)
  | Atomic (B : Type) (f : S → IO (B * S)) (k : B → prog S A).
Arguments Done {S A} a.
Arguments Atomic {S A} {B} f k.

Section Programs.
Context {S A : Type}.

(** Without interruption. *)
Fixpoint run_prog (p : prog S A) (s : S) : IO (A * S) :=
  match p with
  | Done a => mret (a, s)
  | Atomic f k => '(b, s) ← f s; run_prog (k b) s
  end.

(** One step. *)
Definition step_prog (p : prog S A) (s : S) : IO (prog S A * S) :=
  match p with
  | Done a => mret (Done a, s)
  | Atomic f k => '(b, s) ← f s; mret (k b, s)
  end.

Lemma run_atomic {B} (f : S → IO (B * S)) k s w :
  run_prog (Atomic f k) s w = let '((b, s'), w') := f s w in run_prog (k b) s' w'.
Proof. cbn [run_prog]. rewrite bind_run. by destruct (f s w) as [[b s'] w']. Qed.

Lemma step_atomic {B} (f : S → IO (B * S)) (k : B → prog S A) s w :
  step_prog (Atomic f k) s w = let '((b, s'), w') := f s w in ((k b, s'), w').
Proof. cbn [step_prog]. rewrite bind_run. by destruct (f s w) as [[b s'] w']. Qed.
End Programs.

(** ** Sequential composition *)
Fixpoint bind_prog {S A B : Type} (p : prog S A) (q : A → prog S B) : prog S B :=
  match p with
  | Done a => q a
  | Atomic f k => Atomic f (λ b, bind_prog (k b) q)
  end.

Lemma run_bind_prog {S A B} (p : prog S A) (q : A → prog S B) s w :
  run_prog (bind_prog p q) s w = let '((a, s'), w') := run_prog p s w in run_prog (q a) s' w'.
Proof.
  revert s w. induction p as [a|C f k IH]; intros s w; [done|]. cbn [bind_prog]. rewrite !run_atomic.
  destruct (f s w) as [[b s1] w1]. apply IH.
Qed.

(** ** Goroutines in flight

    [start r] is the program of a goroutine that was given [r]; [background x] is what the
    rest of the process does to the state. *)
Section Pool.
Context {S A R X : Type} (start : R → prog S A) (background : X → S → S).
Implicit Types (ts : list (prog S A)).

Inductive turn :=
  | Arrive (r : R)          (** a goroutine starts *)
  | Run (i : nat)           (** the [i]th that started makes a step *)
  | Background (x : X).

Definition take_turn (t : turn) ts (s : S) : IO (list (prog S A) * S) :=
  match t with
  | Arrive r => mret (ts ++ [start r], s)
  | Run i =>
      match ts !! i with
      | Some q => '(q, s) ← step_prog q s; mret (<[i := q]> ts, s)
      | None => mret (ts, s)
      end
  | Background x => mret (ts, background x s)
  end.

Fixpoint run_turns (turns : list turn) ts (s : S) : IO (list (prog S A) * S) :=
  match turns with
  | [] => mret (ts, s)
  | t :: turns => '(ts, s) ← take_turn t ts s; run_turns turns ts s
  end.

Lemma run_turns_cons t turns ts s w :
  run_turns (t :: turns) ts s w
  = let '((ts1, s1), w1) := take_turn t ts s w in run_turns turns ts1 s1 w1.
Proof. cbn [run_turns]. rewrite bind_run. by destruct (take_turn t ts s w) as [[ts1 s1] w1]. Qed.

Lemma run_turns_app turns turns' ts s w :
  run_turns (turns ++ turns') ts s w
  = let '((ts1, s1), w1) := run_turns turns ts s w in run_turns turns' ts1 s1 w1.
Proof.
  revert ts s w. induction turns as [|t turns IH]; intros ts s w; [done|]. cbn [app]. rewrite !run_turns_cons.
  destruct (take_turn t ts s w) as [[ts1 s1] w1]. apply IH.
Qed.

Lemma take_run i ts s w q :
  ts !! i = Some q →
  take_turn (Run i) ts s w = let '((q', s'), w') := step_prog q s w in ((<[i := q']> ts, s'), w').
Proof. intros Hq. cbn [take_turn]. rewrite Hq, bind_run. by destruct (step_prog q s w) as [[q' s'] w']. Qed.

(** A goroutine that is not interrupted comes to the end of its program. *)
Lemma run_to_end q i ts s w :
  ts !! i = Some q →
  ∃ n, run_turns (repeat (Run i) n) ts s w
       = let '((a, s'), w') := run_prog q s w in ((<[i := Done a]> ts, s'), w').
Proof.
  revert ts s w. induction q as [a|B f k IH]; intros ts s w Hq.
  - exists 0%nat. cbn. by rewrite list_insert_id.
  - rewrite run_atomic. destruct (f s w) as [[b s1] w1] eqn:Hf.
    destruct (IH b (<[i := k b]> ts) s1 w1) as [n Hn].
    { rewrite list_lookup_insert_eq; [done|by eapply lookup_lt_Some]. }
    exists (Datatypes.S n). cbn [repeat]. rewrite run_turns_cons, (take_run _ _ _ _ _ Hq), step_atomic, Hf, Hn.
    destruct (run_prog (k b) s1 w1) as [[a s2] w2]. by rewrite list_insert_insert_eq.
Qed.

(** What survives every turn holds of every interleaving; [I] is given the turns so far. *)
Lemma run_turns_invariant (I : list turn → list (prog S A) → S → World → Prop) turns s w :
  I [] [] s w →
  (∀ before t ts s w, I before ts s w →
     let '((ts', s'), w') := take_turn t ts s w in I (before ++ [t]) ts' s' w') →
  let '((ts', s'), w') := run_turns turns [] s w in I turns ts' s' w'.
Proof.
  intros H0 Hstep. induction turns as [|t turns IH] using rev_ind; [done|]. rewrite run_turns_app.
  destruct (run_turns turns [] s w) as [[ts1 s1] w1]. specialize (Hstep turns t ts1 s1 w1 IH).
  rewrite run_turns_cons. by destruct (take_turn t ts1 s1 w1) as [[ts2 s2] w2].
Qed.

(** What was given to the goroutines, in the order in which they started. *)
Definition arrivals (turns : list turn) : list R :=
  omap (λ t, match t with Arrive r => Some r | _ => None end) turns.

Lemma arrivals_snoc turns t :
  arrivals (turns ++ [t]) = arrivals turns ++ match t with Arrive r => [r] | _ => [] end.
Proof. unfold arrivals. rewrite omap_app. by destruct t. Qed.
End Pool.
Arguments turn R X : clear implicits.
Arguments Arrive {R X} r.
Arguments Run {R X} i.
Arguments Background {R X} x.
