(* ===== verification/Metrics.v ===== *)
(** * internal/metrics: the Prometheus collectors

    The collectors the package declares and registers. The vectors and the registry are
    github.com/prometheus/client_golang's: [WithLabelValues] panics unless it is given
    one value for each label name, all of them valid UTF-8, [MustRegister] panics when a
    registration fails. The values are not followed: some come from the environment
    ([VENUE_FAMILY]) and from the messages of a venue. *)

From S2P Require Export Traces.

(** The bucket boundaries, as the call that makes them. *)
Inductive buckets := ExponentialBuckets (start factor : float64) (count : Z).

Inductive collector_kind :=
  | CounterVec
  | GaugeVec
  | HistogramVec (Buckets : buckets).

Record collector := mkCollector {
  col_Name : string;
  col_Help : string;
  col_kind : collector_kind;
  col_labels : list string;
}.

Definition latency_buckets : buckets :=
  ExponentialBuckets (f64_div (f64_of_int 1) (f64_of_int 1000)) (f64_of_int 2) 12.

Definition WSReconnectCount : collector :=
  mkCollector "ws_reconnect_count" "Number of WebSocket reconnects per venue." CounterVec ["venue"].

Definition WSGapCount : collector :=
  mkCollector "ws_gap_count" "Number of detected sequence gaps per venue." CounterVec ["venue"].

Definition WSBookLagSeconds : collector :=
  mkCollector "ws_book_lag_seconds" "Lag between book update event timestamp and processing time."
    GaugeVec ["venue"; "pair"].

Definition RateLimitHeadroom : collector :=
  mkCollector "rate_limit_headroom" "Remaining rate-limit weight budget per venue." GaugeVec ["venue"].

Definition FillLatencySeconds : collector :=
  mkCollector "fill_latency_seconds" "Latency between fill execution and event emission."
    (HistogramVec latency_buckets) ["venue"].

Definition BalanceSyncLagSeconds : collector :=
  mkCollector "balance_sync_lag_seconds" "Lag between balance snapshot timestamp and processing time."
    (HistogramVec latency_buckets) ["venue"].

Definition EventsPublishedTotal : collector :=
  mkCollector "events_published_total" "Total events published to the event bus." CounterVec
    ["venue"; "type"; "status"].

Definition AuditEventsEmittedTotal : collector :=
  mkCollector "audit_events_emitted_total" "Total audit events successfully emitted." CounterVec
    ["venue"; "type"].

Definition AuditDroppedTotal : collector :=
  mkCollector "audit_dropped_total" "Audit events dropped due to queue overflow." CounterVec
    ["venue"; "type"].

(** What [init] registers with [Registry], in its order. *)
Definition registered : list collector :=
  [WSReconnectCount; WSGapCount; WSBookLagSeconds; RateLimitHeadroom; FillLatencySeconds;
   BalanceSyncLagSeconds; EventsPublishedTotal; AuditEventsEmittedTotal; AuditDroppedTotal].

(** What the initialisers of the package variables register with promauto's default
    registry, in the order of the declarations. *)
Definition declared : list collector :=
  [WSReconnectCount; WSGapCount; WSBookLagSeconds; RateLimitHeadroom; FillLatencySeconds;
   BalanceSyncLagSeconds; EventsPublishedTotal; AuditEventsEmittedTotal; AuditDroppedTotal].

(** ** Registration *)
Section Registration.
(** [Registerer.Register]: [None] for an error. *)
Context {R : Type} (register : R → collector → option R).

(** As documented: registers one after the other and panics ([None]) upon the first
    error. *)
Fixpoint MustRegister (r : R) (cs : list collector) : option R :=
  match cs with
  | [] => Some r
  | c :: cs => match register r c with Some r => MustRegister r cs | None => None end
  end.

Definition init (Registry : R) : option R := MustRegister Registry registered.

(** The initialisation of the package: first the variables, then [init]. *)
Definition package_init (DefaultRegisterer Registry : R) : option (R * R) :=
  d ← MustRegister DefaultRegisterer declared; r ← init Registry; Some (d, r).

(** A registry accepts a collector whose name it does not have yet. *)
Class RegistryLaws (names : R → gset string) : Prop := {
  register_fresh : ∀ r c, col_Name c ∉ names r →
    ∃ r', register r c = Some r' ∧ names r' = {[col_Name c]} ∪ names r;
}.

Lemma must_register_fresh `{!RegistryLaws names} cs r :
  NoDup (map col_Name cs) → (∀ c, c ∈ cs → col_Name c ∉ names r) →
  ∃ r', MustRegister r cs = Some r' ∧ names r' = list_to_set (map col_Name cs) ∪ names r.
Proof.
  revert r. induction cs as [|c cs IH]; intros r Hnd Hf; [exists r; split; [done|set_solver]|].
  cbn [map] in Hnd. apply NoDup_cons in Hnd as [Hc Hnd]. cbn [MustRegister].
  destruct (register_fresh r c) as (r1 & -> & Hr1); [apply Hf; by left|].
  destruct (IH r1 Hnd) as (r2 & -> & Hr2).
  { intros d Hd. rewrite Hr1, not_elem_of_union, not_elem_of_singleton. split.
    - intros He. apply Hc. rewrite <- He. by apply list_elem_of_fmap_2.
    - apply Hf. by right. }
  exists r2. split; [done|]. cbn [map list_to_set]. rewrite Hr2, Hr1. set_solver.
Qed.
End Registration.

(** ** Updates

    The name is that of a declared collector, there is a value for each of its labels,
    and the operation is one of its kind: what the Go code fixes at each call. Whether the
    values are valid UTF-8 is a matter of the input and no part of it. *)
Definition op_fits (k : collector_kind) (op : metric_op) : bool :=
  match k, op with
  | CounterVec, MInc | GaugeVec, MSet _ | HistogramVec _, MObserve _ => true
  | _, _ => false
  end.

Definition well_labelled (e : event) : Prop :=
  match e with
  | EvMetric name labels op =>
      match List.find (λ c, String.eqb (col_Name c) name) registered with
      | Some c => length labels = length (col_labels c) ∧ op_fits (col_kind c) op = true
      | None => False
      end
  | _ => True
  end.

#[export] Hint Extern 1 (well_labelled _) => (exact I || (split; reflexivity)) : emits.
