(* ===== verification/Telemetry.v ===== *)
(** * internal/otel: the OpenTelemetry providers of the process

    [Init] and the shutdown function it returns. The SDK, the exporters and the global
    providers are packages of go.opentelemetry.io: the class [OTel] has the functions
    [Init] calls, and [Globals] what it sets. *)

From S2P Require Export World.

(** ** The SDK *)

(** Options of the exporters over gRPC. *)
Inductive exporter_option := WithEndpoint (endpoint : string) | WithInsecure.

Inductive tracer_option (SpanExporter Resource : Type) :=
  | WithBatcher (exporter : SpanExporter) (BatchTimeout : Duration)
  | TracerResource (res : Resource).
Arguments WithBatcher {SpanExporter Resource}.
Arguments TracerResource {SpanExporter Resource}.

Inductive meter_option (MetricExporter Resource : Type) :=
  | WithPeriodicReader (exporter : MetricExporter) (Interval : Duration)
  | MeterResource (res : Resource).
Arguments WithPeriodicReader {MetricExporter Resource}.
Arguments MeterResource {MetricExporter Resource}.

Inductive propagator := TraceContext | Baggage.

Class OTel := {
  Resource : Type;
  SpanExporter : Type;
  MetricExporter : Type;
  TracerProvider : Type;
  MeterProvider : Type;
  (** package resource, and the constants of semconv *)
  semconv_SchemaURL : string;
  resource_Default : Resource;
  resource_NewWithAttributes : string → string → Resource;   (** schema URL, service name *)
  resource_Merge : Resource → Resource → result Resource;
  (** packages otlptracegrpc and otlpmetricgrpc *)
  otlptracegrpc_New : list exporter_option → IO (result SpanExporter);
  otlpmetricgrpc_New : list exporter_option → IO (result MetricExporter);
  (** packages sdk/trace, sdk/metric and metric/noop *)
  NewTracerProvider : list (tracer_option SpanExporter Resource) → TracerProvider;
  NewMeterProvider : list (meter_option MetricExporter Resource) → MeterProvider;
  noop_NewMeterProvider : MeterProvider;
  TracerProvider_Shutdown : TracerProvider → IO (option error);
  MeterProvider_Shutdown : MeterProvider → IO (option error);
}.

Section Telemetry.
Context `{OTel} `{E : Env}.

(** What [otel.SetTracerProvider], [SetMeterProvider] and [SetTextMapPropagator] set;
    [None] before the first call. *)
Record Globals := mkGlobals {
  g_tracer : option TracerProvider;
  g_meter : option MeterProvider;
  g_propagators : option (list propagator);
}.

(** The function [Init] returns: the closure over the two providers, or the one that
    does nothing. *)
Inductive shutdown_func :=
  | NoShutdown
  | ShutdownProviders (tp : TracerProvider) (mp : MeterProvider).

(** ** Init *)

Definition default_propagators : list propagator := [TraceContext; Baggage].

(** The address given to the exporters. *)
Definition otlp_endpoint (endpoint : string) : string :=
  TrimPrefix (TrimPrefix endpoint "http://") "grpc://".

Definition service_name (serviceName : string) : string :=
  let name := TrimSpace (env_getenv "OTEL_SERVICE_NAME") in
  if String.eqb name "" then serviceName else name.

Definition exporter_options (endpoint : string) : list exporter_option :=
  [WithEndpoint endpoint; WithInsecure].

Definition tracer_options (spanExp : SpanExporter) (res : Resource) :=
  [WithBatcher spanExp (10 * Second); TracerResource res].

Definition meter_options (metricExp : MetricExporter) (res : Resource) :=
  [WithPeriodicReader metricExp (10 * Second); MeterResource res].

Definition Init (serviceName : string) (g : Globals) : IO (result shutdown_func * Globals) :=
  let endpoint := TrimSpace (env_getenv "OTEL_EXPORTER_OTLP_ENDPOINT") in
  if String.eqb endpoint "" then
    mret (Ok NoShutdown,
          mkGlobals (Some (NewTracerProvider [])) (Some noop_NewMeterProvider) (Some default_propagators))
  else
    let serviceName := service_name serviceName in
    let endpoint := otlp_endpoint endpoint in
    match resource_Merge resource_Default (resource_NewWithAttributes semconv_SchemaURL serviceName) with
    | Fail e => mret (Fail ("otel resource: " +:+ e), g)
    | Ok res =>
        spanExp ← otlptracegrpc_New (exporter_options endpoint);
        match spanExp with
        | Fail e => mret (Fail ("otel trace exporter: " +:+ e), g)
        | Ok spanExp =>
            metricExp ← otlpmetricgrpc_New (exporter_options endpoint);
            match metricExp with
            | Fail e => mret (Fail ("otel metric exporter: " +:+ e), g)
            | Ok metricExp =>
                let tp := NewTracerProvider (tracer_options spanExp res) in
                let mp := NewMeterProvider (meter_options metricExp res) in
                mret (Ok (ShutdownProviders tp mp),
                      mkGlobals (Some tp) (Some mp) (Some default_propagators))
            end
        end
    end.

(** The call of the function [Init] returned: both providers are shut down, whatever
    the first answers, and the error of the first goes first. *)
Definition shutdown (f : shutdown_func) : IO (option error) :=
  match f with
  | NoShutdown => mret None
  | ShutdownProviders tp mp =>
      t ← TracerProvider_Shutdown tp;
      let traceErr := (λ e, "trace shutdown: " +:+ e) <$> t in
      m ← MeterProvider_Shutdown mp;
      let metricErr := (λ e, "metric shutdown: " +:+ e) <$> m in
      mret (match traceErr with Some e => Some e | None => metricErr end)
  end.

(** ** Properties *)

(** A provider the shutdown function stops is a global one and conversely, except for
    those of a disabled telemetry, which have nothing to flush. *)
Definition stops (f : shutdown_func) (g : Globals) : Prop :=
  match f with
  | NoShutdown => g_tracer g = Some (NewTracerProvider []) ∧ g_meter g = Some noop_NewMeterProvider
  | ShutdownProviders tp mp => g_tracer g = Some tp ∧ g_meter g = Some mp
  end.

Lemma init_disabled serviceName g w :
  TrimSpace (env_getenv "OTEL_EXPORTER_OTLP_ENDPOINT") = "" →
  ∃ g', Init serviceName g w = ((Ok NoShutdown, g'), w) ∧ stops NoShutdown g'
    ∧ g_propagators g' = Some default_propagators.
Proof. intros Hv. unfold Init. rewrite Hv. cbn. eexists. by split. Qed.

(** The two exporters of an enabled telemetry, in the worlds in which they are made. *)
Lemma init_enabled serviceName g w f g' w' :
  TrimSpace (env_getenv "OTEL_EXPORTER_OTLP_ENDPOINT") ≠ "" →
  Init serviceName g w = ((Ok f, g'), w') →
  let options := exporter_options (otlp_endpoint (TrimSpace (env_getenv "OTEL_EXPORTER_OTLP_ENDPOINT"))) in
  ∃ res spanExp metricExp w1,
    resource_Merge resource_Default (resource_NewWithAttributes semconv_SchemaURL (service_name serviceName)) = Ok res
    ∧ otlptracegrpc_New options w = (Ok spanExp, w1)
    ∧ otlpmetricgrpc_New options w1 = (Ok metricExp, w')
    ∧ f = ShutdownProviders (NewTracerProvider (tracer_options spanExp res))
            (NewMeterProvider (meter_options metricExp res))
    ∧ stops f g' ∧ g_propagators g' = Some default_propagators.
Proof.
  intros Hv%String.eqb_neq. unfold Init. rewrite Hv. cbv zeta.
  destruct (resource_Merge _ _) as [res|e]; [|done]. rewrite bind_run.
  destruct (otlptracegrpc_New _ w) as [[sp|e] w1] eqn:Hsp; [|done]. cbn [fst snd]. rewrite bind_run.
  destruct (otlpmetricgrpc_New _ w1) as [[me|e] w2] eqn:Hme; [|done]. cbn [fst snd mret io_ret].
  intros [= <- <- <-]. by eexists res, sp, me, w1.
Qed.

(** The globals after a failure. *)
Lemma telemetry_unchanged serviceName g w :
  match fst (Init serviceName g w) with (Ok _, _) => True | (Fail _, g') => g' = g end.
Proof.
  unfold Init. destruct (String.eqb _ _); [done|]. cbv zeta. destruct (resource_Merge _ _); [|done].
  rewrite bind_run. destruct (fst (otlptracegrpc_New _ _)); [|done].
  rewrite bind_run. by destruct (fst (otlpmetricgrpc_New _ _)).
Qed.

(** The providers after a success. *)
Lemma telemetry_init_stops serviceName g w :
  match fst (Init serviceName g w) with (Ok f, g') => stops f g' | (Fail _, _) => True end.
Proof.
  destruct (decide (TrimSpace (env_getenv "OTEL_EXPORTER_OTLP_ENDPOINT") = "")) as [Hv|Hv].
  - by destruct (init_disabled serviceName g w Hv) as (g' & -> & Hs & _).
  - destruct (Init serviceName g w) as [[[f|e] g'] w'] eqn:Hi; [|done].
    by destruct (init_enabled serviceName g w f g' w' Hv Hi) as (? & ? & ? & ? & _ & _ & _ & _ & Hs & _).
Qed.

(** The shutdown function shuts down both providers whatever the first answers; the
    error of the tracer goes first. *)
Lemma shutdown_both tp mp w :
  let '(t, w1) := TracerProvider_Shutdown tp w in
  let '(m, w2) := MeterProvider_Shutdown mp w1 in
  shutdown (ShutdownProviders tp mp) w
  = (match t, m with
     | Some e, _ => Some ("trace shutdown: " +:+ e)
     | None, Some e => Some ("metric shutdown: " +:+ e)
     | None, None => None
     end, w2).
Proof.
  unfold shutdown. rewrite bind_run. destruct (TracerProvider_Shutdown tp w) as [t w1]. cbn [fst snd].
  rewrite bind_run. destruct (MeterProvider_Shutdown mp w1) as [m w2]. by destruct t, m.
Qed.

(** The step of [Init] that failed, with the error it is reported as, from [w] to [w']. *)
Definition failed_step (serviceName : string) (e : error) (w w' : World) : Prop :=
  let options := exporter_options (otlp_endpoint (TrimSpace (env_getenv "OTEL_EXPORTER_OTLP_ENDPOINT"))) in
  let merged := resource_Merge resource_Default
                  (resource_NewWithAttributes semconv_SchemaURL (service_name serviceName)) in
  (∃ e0, merged = Fail e0 ∧ w' = w ∧ e = "otel resource: " +:+ e0)
  ∨ (∃ e0, is_ok merged = true ∧ otlptracegrpc_New options w = (Fail e0, w')
       ∧ e = "otel trace exporter: " +:+ e0)
  ∨ (∃ spanExp w1 e0, is_ok merged = true ∧ otlptracegrpc_New options w = (Ok spanExp, w1)
       ∧ otlpmetricgrpc_New options w1 = (Fail e0, w') ∧ e = "otel metric exporter: " +:+ e0).

Lemma init_failed serviceName g w e g' w' :
  TrimSpace (env_getenv "OTEL_EXPORTER_OTLP_ENDPOINT") ≠ "" →
  Init serviceName g w = ((Fail e, g'), w') → g' = g ∧ failed_step serviceName e w w'.
Proof.
  intros Hv%String.eqb_neq. unfold Init, failed_step. rewrite Hv. cbv zeta.
  destruct (resource_Merge _ _) as [res|e1].
  2: { intros [= <- <- <-]. split; [done|]. left. by exists e1. }
  rewrite bind_run. destruct (otlptracegrpc_New _ w) as [[sp|e1] w1] eqn:Hsp; cbn [fst snd].
  2: { intros [= <- <- <-]. split; [done|]. right. left. by exists e1. }
  rewrite bind_run. destruct (otlpmetricgrpc_New _ w1) as [[me|e1] w2] eqn:Hme; cbn [fst snd]; [done|].
  intros [= <- <- <-]. split; [done|]. right. right. by exists sp, w1, e1.
Qed.

(** C40: otel.Init either fails at the resource, the trace exporter or the metric
    exporter, with the error of that step behind its name, leaving the global
    providers as they were, or sets the tracer, the meter and the propagators
    together; the function it then returns shuts down exactly those two providers,
    the second also when the first fails, and gives the error of the first that
    failed; with a blank endpoint it contacts nothing and the function does nothing. *)
Theorem telemetry_init_all_or_nothing serviceName g w :
  let '((r, g'), w') := Init serviceName g w in
  let disabled := TrimSpace (env_getenv "OTEL_EXPORTER_OTLP_ENDPOINT") = "" in
  match r with
  | Ok f => ∃ tp mp, g' = mkGlobals (Some tp) (Some mp) (Some [TraceContext; Baggage])
      ∧ (disabled → w' = w ∧ ∀ w2, shutdown f w2 = (None, w2))
      ∧ (¬ disabled → ∀ w2,
           let '(t, w3) := TracerProvider_Shutdown tp w2 in
           let '(m, w4) := MeterProvider_Shutdown mp w3 in
           shutdown f w2 = (match t, m with
                            | Some e, _ => Some ("trace shutdown: " +:+ e)
                            | None, Some e => Some ("metric shutdown: " +:+ e)
                            | None, None => None
                            end, w4))
  | Fail e => g' = g ∧ ¬ disabled ∧ failed_step serviceName e w w'
  end.
Proof.
  destruct (decide (TrimSpace (env_getenv "OTEL_EXPORTER_OTLP_ENDPOINT") = "")) as [Hv|Hv].
  - destruct (init_disabled serviceName g w Hv) as (g' & -> & [Ht Hm] & Hp).
    destruct g' as [gt gm gp]. cbn in Ht, Hm, Hp. subst gt gm gp. by eexists _, _.
  - destruct (Init serviceName g w) as [[[f|e] g'] w'] eqn:Hi.
    + destruct (init_enabled serviceName g w f g' w' Hv Hi) as (? & ? & ? & ? & _ & _ & _ & -> & [Ht Hm] & Hp).
      destruct g' as [gt gm gp]. cbn in Ht, Hm, Hp. subst gt gm gp. eexists _, _. split; [done|].
      split; [done|]. intros _ w2. apply shutdown_both.
    + destruct (init_failed serviceName g w e g' w' Hv Hi). by split_and!.
Qed.

(** The schemes http and grpc are cut off the endpoint, and an endpoint without them is
    kept. *)
Theorem otlp_endpoint_strips_scheme host :
  HasPrefix host "http://" = false → HasPrefix host "grpc://" = false →
  otlp_endpoint host = host ∧ otlp_endpoint ("http://" +:+ host) = host
  ∧ otlp_endpoint ("grpc://" +:+ host) = host.
Proof.
  intros H1 H2. assert (∀ s p, HasPrefix s p = false → TrimPrefix s p = s) as Hkeep
    by (intros s p H'; unfold TrimPrefix; by rewrite H').
  unfold otlp_endpoint. rewrite (trim_prefix_app "http://"), (Hkeep host "http://" H1), (Hkeep host "grpc://" H2).
  split_and!; [done..|]. rewrite (Hkeep ("grpc://" +:+ host) "http://" eq_refl). apply trim_prefix_app.
Qed.

Lemma otlp_endpoint_strips_scheme_witness :
  otlp_endpoint "grpc://collector:4317" = "collector:4317".
Proof. exact (proj2 (proj2 (otlp_endpoint_strips_scheme "collector:4317" eq_refl eq_refl))). Defined.

End Telemetry.
