(* ===== verification/Decimal.v ===== *)
(** * github.com/shopspring/decimal: the interface

    Decimals come from a third-party package: the development is parametric in
    them. [Decimal] lists the operations the code calls; [DecimalLaws] the
    documented facts a theorem may rely on. [fixed_decimal] is a concrete
    instance, used by the witnesses only. *)

From S2P Require Export World.

Class Decimal := {
  D : Type;
  dec_zero : D;                        (** [decimal.Zero], also the zero value *)
  dec_of_float : float64 → D;          (** [NewFromFloat] *)
  dec_of_int : Z → D;                  (** [NewFromInt] *)
  dec_of_string : string → option D;   (** [NewFromString], [None] for an error *)
  dec_string : D → string;             (** [String] *)
  dec_add : D → D → D;
  dec_sub : D → D → D;
  dec_mul : D → D → D;
  dec_div : D → D → D;                 (** [Div]; panics for a zero divisor *)
  dec_is_zero : D → bool;
  dec_cmp : D → D → comparison;
  dec_float64 : D → float64;           (** [Float64], first result *)
  dec_marshal : D → string;            (** [MarshalJSON] *)
  dec_unmarshal : D → string → option D;  (** [UnmarshalJSON] into a value *)
}.

(** [x, _ := decimal.NewFromString(s)]: an error leaves the zero value. *)
Definition dec_parse `{Decimal} (s : string) : D := default dec_zero (dec_of_string s).

Definition dec_ltb `{Decimal} (a b : D) : bool := match dec_cmp a b with Lt => true | _ => false end.
Definition dec_leb `{Decimal} (a b : D) : bool := match dec_cmp a b with Gt => false | _ => true end.
Definition dec_gtb `{Decimal} (a b : D) : bool := match dec_cmp a b with Gt => true | _ => false end.
Definition dec_eqb `{Decimal} (a b : D) : bool := match dec_cmp a b with Eq => true | _ => false end.

Class DecimalLaws (DD : Decimal) : Prop := {
  dec_is_zero_cmp : ∀ d : D, dec_is_zero d = dec_eqb d dec_zero;
  dec_cmp_antisym : ∀ a b : D, dec_cmp b a = CompOpp (dec_cmp a b);
  dec_zero_is_zero : dec_is_zero dec_zero = true;
}.

(** ** A concrete instance

    [coef * 10 ^ exp], as the package represents a decimal. *)
Record fixed := Fx { coef : Z; exp : Z }.

Module Fixed.

Definition align (a b : fixed) : Z * Z * Z :=
  let e := Z.min (exp a) (exp b) in
  (coef a * 10 ^ (exp a - e), coef b * 10 ^ (exp b - e), e).

Definition add (a b : fixed) : fixed := let '(x, y, e) := align a b in Fx (x + y) e.
Definition sub (a b : fixed) : fixed := let '(x, y, e) := align a b in Fx (x - y) e.
Definition mul (a b : fixed) : fixed := Fx (coef a * coef b) (exp a + exp b).
Definition cmp (a b : fixed) : comparison := let '(x, y, _) := align a b in Z.compare x y.

(** Sixteen digits after the point. *)
Definition div (a b : fixed) : fixed :=
  let '(x, y, _) := align a b in Fx (Z.quot (x * 10 ^ 16) y) (- 16).

Fixpoint frac (s : string) (acc : Z) (e : Z) : option fixed :=
  match s with
  | EmptyString => Some (Fx acc e)
  | String c s => if is_digit c then frac s (acc * 10 + (byte c - 48)) (e - 1) else None
  end.

Fixpoint whole (s : string) (acc : Z) : option fixed :=
  match s with
  | EmptyString => Some (Fx acc 0)
  | String c s =>
      if Ascii.eqb c "."%char then frac s acc 0
      else if is_digit c then whole s (acc * 10 + (byte c - 48)) else None
  end.

Definition of_string (s : string) : option fixed :=
  match s with
  | EmptyString => None
  | String c r =>
      if Ascii.eqb c "-"%char then (λ d, Fx (- coef d) (exp d)) <$> whole r 0 else whole s 0
  end.

Definition to_string (d : fixed) : string :=
  if exp d <? 0 then
    let n := Z.abs (coef d) in
    let p := 10 ^ (- exp d) in
    let f := fmt_nat (n mod p) in
    (if coef d <? 0 then "-" else "") +:+ fmt_nat (n / p) +:+ "." +:+
    Repeat "0" (Z.to_nat (- exp d) - String.length f) +:+ f
  else FormatInt (coef d * 10 ^ exp d).

(** Only the value of a dyadic float with a short decimal expansion is needed. *)
Definition of_float (f : float64) : fixed :=
  match f with
  | SpecFloat.S754_finite s m e =>
      let z := if s then - Zpos m else Zpos m in
      if 0 <=? e then Fx (z * 2 ^ e) 0 else Fx (z * 5 ^ (- e)) e
  | _ => Fx 0 0
  end.

Definition to_float (d : fixed) : float64 :=
  if exp d <? 0 then f64_div (f64_of_int (coef d)) (f64_of_int (10 ^ (- exp d)))
  else f64_of_int (coef d * 10 ^ exp d).

Definition marshal (d : fixed) : string := dquote +:+ to_string d +:+ dquote.

Definition unquote (s : string) : string := TrimSuffix (TrimPrefix s dquote) dquote.

Definition unmarshal (old : fixed) (s : string) : option fixed :=
  if String.eqb s "null" then Some old else of_string (unquote s).

Lemma cmp_antisym a b : cmp b a = CompOpp (cmp a b).
Proof.
  unfold cmp, align. rewrite (Z.min_comm (exp b)). apply Z.compare_antisym.
Qed.

End Fixed.

Definition fixed_decimal : Decimal := {|
  D := fixed;
  dec_zero := Fx 0 0;
  dec_of_float := Fixed.of_float;
  dec_of_int z := Fx z 0;
  dec_of_string := Fixed.of_string;
  dec_string := Fixed.to_string;
  dec_add := Fixed.add;
  dec_sub := Fixed.sub;
  dec_mul := Fixed.mul;
  dec_div := Fixed.div;
  dec_is_zero d := coef d =? 0;
  dec_cmp := Fixed.cmp;
  dec_float64 := Fixed.to_float;
  dec_marshal := Fixed.marshal;
  dec_unmarshal := Fixed.unmarshal;
|}.

Lemma fixed_laws : DecimalLaws fixed_decimal.
Proof.
  split; [|exact Fixed.cmp_antisym|done].
  intros [c e]. cbv [dec_is_zero dec_eqb dec_cmp fixed_decimal Fixed.cmp Fixed.align dec_zero coef exp].
  rewrite Z.mul_0_l.
  pose proof (Z.pow_pos_nonneg 10 (e - Z.min e 0) ltac:(lia) ltac:(lia)).
  destruct (Z.eqb_spec c 0) as [->|]; [by rewrite Z.mul_0_l|].
  destruct (Z.compare_spec (c * 10 ^ (e - Z.min e 0)) 0); try done. nia.
Qed.
