(* ===== verification/Venue.v ===== *)
(** * internal/venue: the types every adapter shares and the connector interface

    The Go string types [Side], [OrderType] and [OrderStatus] are open: an
    adapter may pass on a status it does not know, so they stay strings. *)

From S2P Require Export Decimal.

Definition Side := string.
Definition SideBuy : Side := "buy".
Definition SideSell : Side := "sell".

Definition OrderType := string.
Definition OrderTypeMarket : OrderType := "market".
Definition OrderTypeLimit : OrderType := "limit".

Definition OrderStatus := string.
Definition OrderStatusNew : OrderStatus := "new".
Definition OrderStatusPartial : OrderStatus := "partial".
Definition OrderStatusFilled : OrderStatus := "filled".
Definition OrderStatusCanceled : OrderStatus := "canceled".

Definition ErrOrderNotFound : error := "venue: order not found".

Section Types.
Context `{DD : Decimal}.

Record OrderRequest := mkOrderRequest {
  req_ClientOrderID : string;
  req_Symbol : string;
  req_Side : Side;
  req_Type : OrderType;
  req_Quantity : D;
  req_Price : D;
}.

Record CancelRequest := mkCancelRequest {
  cancel_VenueOrderID : string;
  cancel_ClientOrderID : string;
}.

Record FillQuery := mkFillQuery {
  query_VenueOrderID : string;
  query_Start : Time;
  query_End : Time;
  query_Limit : Z;
}.

Record Fill := mkFill {
  fill_VenueOrderID : string;
  fill_TradeID : string;
  fill_Price : D;
  fill_Quantity : D;
  fill_Fee : D;
  fill_FeeAsset : string;
  fill_Timestamp : Time;
}.

Record OrderResponse := mkOrderResponse {
  resp_VenueOrderID : string;
  resp_ClientOrderID : string;
  resp_Status : OrderStatus;
  resp_FilledQty : D;
  resp_AvgPrice : D;
  resp_Fills : list Fill;
}.

Record Balance := mkBalance {
  bal_Asset : string;
  bal_Free : D;
  bal_Locked : D;
}.

(** [Balances.Assets]. *)
Definition Balances := gmap string Balance.

Record BookLevel := mkBookLevel {
  lvl_Price : D;
  lvl_Size : D;
}.

Record BookUpdate := mkBookUpdate {
  upd_Pair : string;
  upd_Bids : list BookLevel;
  upd_Asks : list BookLevel;
  upd_TS : Time;
}.

End Types.

Record VenueConfig := mkVenueConfig {
  cfg_Name : string;
  cfg_RESTBase : string;
  cfg_WSBase : string;
  cfg_Knobs : gmap string string;   (** never read nor written; a nil map in every connector *)
}.

(** The interface [VenueConnector], for connectors of state type [C]. The channel
    [SubscribeBook] returns is represented by the updates later read from it; here
    only whether the subscription is accepted. What the goroutine it starts does, the
    snapshots it asks for and the stream it reads, runs beside the connector and is in
    BookFeed.v and WsClient.v. *)
Class VenueConnector `{DD : Decimal} (C : Type) := {
  PlaceOrder : C → OrderRequest → IO (result OrderResponse * C);
  CancelOrder : C → CancelRequest → IO (option error * C);
  GetOrder : C → string → IO (result OrderResponse * C);
  GetFills : C → FillQuery → IO (result (list Fill) * C);
  GetBalances : C → IO (result Balances * C);
  SubscribeBook : C → list string → IO (option error * C);
}.

(** [out[:n]] guarded by [n > 0 && len(out) > n], as every [GetFills] ends. *)
Definition apply_limit {A} (limit : Z) (out : list A) : list A :=
  if (0 <? limit) && (limit <? Z.of_nat (length out)) then take (Z.to_nat limit) out else out.

Lemma apply_limit_length {A} limit (out : list A) :
  0 < limit → Z.of_nat (length (apply_limit limit out)) ≤ limit.
Proof.
  intros H. unfold apply_limit. destruct (Z.ltb_spec 0 limit); [|lia].
  destruct (Z.ltb_spec limit (Z.of_nat (length out))); simpl; [|lia]. rewrite length_take. lia.
Qed.

Lemma apply_limit_prefix {A} limit (out : list A) : apply_limit limit out `prefix_of` out.
Proof.
  unfold apply_limit. case_match; [|done]. exists (drop (Z.to_nat limit) out). by rewrite take_drop.
Qed.

Lemma apply_limit_none {A} limit (out : list A) : limit ≤ 0 → apply_limit limit out = out.
Proof. unfold apply_limit. intros. destruct (Z.ltb_spec 0 limit); [lia|done]. Qed.

#[export] Hint Resolve apply_limit_prefix apply_limit_length : gateway.
