(* ===== verification/RateLimit.v ===== *)
(** * internal/ratelimit: the three per-venue limiters

    [Weighted] (Binance), [Counter] (Kraken) and [RPS] (OTC) model
    [WeightedLimiter], [CounterLimiter] and [RPSLimiter]. Each method runs under
    the limiter's mutex, so it is one atomic transformation of the record. *)

From S2P Require Export World.

Definition ErrBudgetExhausted : error := "ratelimit: weight budget exhausted".

Definition rate_limit_headroom : string := "rate_limit_headroom".

(** [float64(a) / float64(b)]. *)
Definition ratio (a b : Z) : float64 := f64_div (f64_of_int a) (f64_of_int b).

(** Total cost of the calls a run granted: those that returned no error. *)
Definition granted (log : list (Z * option error)) : Z :=
  zsum (map (λ '(c, e), match e with None => c | Some _ => 0 end) log).

Definition grants (log : list (Z * option error)) : Z :=
  zsum (map (λ '(_, e), match e with None => 1 | Some _ => 0 end) log).

(** ** The interface the adapters use

    [limiter_until] observes the instant until which a limiter refuses calls
    (the field [backoff] of each struct). *)
Class Limiter (L : Type) := {
  limiter_wait : L → Z → IO (option error * L);
  limiter_backoff : L → string → Duration → IO L;
  limiter_until : L → Time;
}.

(** The clock readings of a computation that takes the world from [w] to [w'] are
    all before [t]. *)
Definition readings_before `{E : Env} (t : Time) (w w' : World) : Prop :=
  ∀ i, (w_ticks w ≤ i < w_ticks w')%nat → env_now i < t.

(** What a limiter promises: a call made before the end of a backoff is denied
    (and does not end the backoff), [Backoff] sets that instant from the clock,
    and neither touches the network. *)
Class LimiterLaws (L : Type) `{E : Env} `{Limiter L} : Prop := {
  wait_ticks : ∀ (l : L) c w, (w_ticks w ≤ w_ticks (snd (limiter_wait l c w)))%nat;
  wait_no_http : ∀ (l : L) c w,
    http_events (snd (limiter_wait l c w)) = http_events w;
  wait_until : ∀ (l : L) c w,
    limiter_until (snd (fst (limiter_wait l c w))) = limiter_until l;
  wait_denied : ∀ (l : L) c w,
    limiter_until l ≠ zero_time →
    readings_before (limiter_until l) w (snd (limiter_wait l c w)) →
    fst (fst (limiter_wait l c w)) = Some ErrBudgetExhausted;
  backoff_until : ∀ (l : L) v d w,
    limiter_until (fst (limiter_backoff l v d w)) = env_now (w_ticks w) + d;
  backoff_ticks : ∀ (l : L) v d w,
    w_ticks (snd (limiter_backoff l v d w)) = S (w_ticks w);
  backoff_no_http : ∀ (l : L) v d w,
    http_events (snd (limiter_backoff l v d w)) = http_events w;
}.

(** A sequence of calls of [Wait], with the answer to each. *)
Fixpoint run `{Limiter L} (l : L) (costs : list Z) : IO (list (Z * option error) * L) :=
  match costs with
  | [] => mret ([], l)
  | c :: costs =>
      '(e, l) ← limiter_wait l c;
      '(log, l) ← run l costs;
      mret ((c, e) :: log, l)
  end.

(** ** WeightedLimiter *)
Module Weighted.

Record WeightedLimiter := mk {
  venue : string;
  budget : Z;
  used : Z;
  refill : Duration;
  lastFill : Time;
  backoff : Time;
}.

Definition set_used (u : Z) (l : WeightedLimiter) : WeightedLimiter :=
  mk (venue l) (budget l) u (refill l) (lastFill l) (backoff l).

Section Ops.
Context `{E : Env}.

Definition NewWeightedLimiter (venue : string) (budget : Z) : IO WeightedLimiter :=
  now ← time_now;
  mret (mk venue budget 0 (60 * Second) now zero_time).

Definition replenish_at (now : Time) (l : WeightedLimiter) : WeightedLimiter :=
  if refill l <=? time_sub now (lastFill l)
  then mk (venue l) (budget l) 0 (refill l) now (backoff l)
  else l.

Definition replenishLocked (l : WeightedLimiter) : IO WeightedLimiter :=
  now ← time_now; mret (replenish_at now l).

(** [!l.backoff.IsZero() && time.Now().Before(l.backoff)] *)
Definition backing_off (l : WeightedLimiter) : IO bool :=
  if time_is_zero (backoff l) then mret false
  else now ← time_now; mret (time_before now (backoff l)).

Definition Wait (l : WeightedLimiter) (weight : Z) : IO (option error * WeightedLimiter) :=
  l ← replenishLocked l;
  blocked ← backing_off l;
  if (blocked : bool) then mret (Some ErrBudgetExhausted, l)
  else if budget l <? wrap64 (used l + weight) then
    _ ← metric rate_limit_headroom [venue l] (MSet f64_zero);
    mret (Some ErrBudgetExhausted, l)
  else
    let l := set_used (wrap64 (used l + weight)) l in
    let headroom := ratio (wrap64 (budget l - used l)) (budget l) in
    _ ← metric rate_limit_headroom [venue l] (MSet headroom);
    mret (None, l).

Definition UpdateUsed (l : WeightedLimiter) (venue : string) (used : Z) : IO WeightedLimiter :=
  let l := mk venue (budget l) used (refill l) (lastFill l) (backoff l) in
  let headroom := f64_of_int (wrap64 (budget l - used)) in
  let headroom := if 0 <? budget l then f64_div headroom (f64_of_int (budget l)) else headroom in
  _ ← metric rate_limit_headroom [venue] (MSet headroom);
  mret l.

Definition Backoff (l : WeightedLimiter) (venue : string) (d : Duration) : IO WeightedLimiter :=
  now ← time_now;
  mret (mk venue (budget l) (used l) (refill l) (lastFill l) (time_add now d)).

Definition Headroom (l : WeightedLimiter) : float64 :=
  if budget l =? 0 then f64_zero else ratio (wrap64 (budget l - used l)) (budget l).

Definition Used (l : WeightedLimiter) : Z := used l.
Definition Budget (l : WeightedLimiter) : Z := budget l.

Definition SetBudget (l : WeightedLimiter) (b : Z) : WeightedLimiter :=
  mk (venue l) b (used l) (refill l) (lastFill l) (backoff l).

#[global] Instance weighted_limiter : Limiter WeightedLimiter := {|
  limiter_wait := Wait;
  limiter_backoff := Backoff;
  limiter_until := backoff;
|}.

End Ops.

(** The accounting invariant: no more is in use than the budget allows. *)
Definition wf (l : WeightedLimiter) : Prop :=
  0 ≤ used l ≤ budget l ∧ budget l ≤ int64_max.

(** A weight that cannot overflow the sum with a used amount within the budget. *)
Definition weight_ok (l : WeightedLimiter) (c : Z) : Prop := 0 ≤ c ≤ int64_max - budget l.

Section Facts.
Context `{E : Env}.

(** [Wait] as a pure function of the two instants at which it reads the clock. *)
Definition wait_at (t1 t2 : Time) (l : WeightedLimiter) (c : Z) : option error * WeightedLimiter :=
  let l := replenish_at t1 l in
  if negb (time_is_zero (backoff l)) && time_before t2 (backoff l)
  then (Some ErrBudgetExhausted, l)
  else if budget l <? wrap64 (used l + c) then (Some ErrBudgetExhausted, l)
  else (None, set_used (wrap64 (used l + c)) l).

Lemma weighted_Wait_wait_at l c w :
  fst (Wait l c w) = wait_at (env_now (w_ticks w)) (env_now (S (w_ticks w))) l c.
Proof.
  unfold Wait, wait_at, replenishLocked, backing_off. run_io.
  destruct (time_is_zero _); simpl; split_cases; done.
Qed.

Lemma weighted_Wait_ticks l c w :
  (S (w_ticks w) ≤ w_ticks (snd (Wait l c w)) ≤ S (S (w_ticks w)))%nat.
Proof.
  unfold Wait, replenishLocked, backing_off. run_io.
  destruct (time_is_zero _); simpl; split_cases; simpl; lia.
Qed.

Lemma weighted_Wait_no_http l c w : http_events (snd (Wait l c w)) = http_events w.
Proof.
  unfold Wait, replenishLocked, backing_off, http_events. run_io.
  destruct (time_is_zero _); simpl; split_cases; simpl;
    rewrite ?List.filter_app; simpl; by rewrite ?app_nil_r.
Qed.

Lemma replenish_wf t l : wf l → wf (replenish_at t l).
Proof. unfold wf, replenish_at. intros. case_match; simpl; lia. Qed.

Lemma replenish_budget t l : budget (replenish_at t l) = budget l.
Proof. unfold replenish_at. by case_match. Qed.

Lemma replenish_backoff t l : backoff (replenish_at t l) = backoff l.
Proof. unfold replenish_at. by case_match. Qed.

Lemma replenish_early t l :
  time_sub t (lastFill l) < refill l → replenish_at t l = l.
Proof. unfold replenish_at. intros. case_match; [lia|done]. Qed.

Lemma wait_at_budget t1 t2 l c : budget (snd (wait_at t1 t2 l c)) = budget l.
Proof. unfold wait_at. repeat case_match; simpl; apply replenish_budget. Qed.

Lemma wait_at_lastFill t1 t2 l c :
  lastFill (snd (wait_at t1 t2 l c)) = lastFill (replenish_at t1 l)
  ∧ refill (snd (wait_at t1 t2 l c)) = refill (replenish_at t1 l).
Proof. unfold wait_at. repeat case_match; done. Qed.

Lemma weighted_wait_at_wf t1 t2 l c : wf l → weight_ok l c → wf (snd (wait_at t1 t2 l c)).
Proof.
  intros Hwf Hc. pose proof (replenish_wf t1 l Hwf) as Hr.
  unfold weight_ok in Hc. rewrite <- (replenish_budget t1 l) in Hc.
  unfold wait_at. repeat case_match; simpl; try done.
  unfold wf in *. simpl. rewrite wrap64_id in *; unfold in_int64, int64_min, int64_max in *; lia.
Qed.

(** A granted call is charged exactly its weight, a denied one nothing. *)
Lemma weighted_wait_at_charge t1 t2 l c :
  wf l → weight_ok l c →
  used (snd (wait_at t1 t2 l c))
  = used (replenish_at t1 l) + match fst (wait_at t1 t2 l c) with None => c | Some _ => 0 end.
Proof.
  intros Hwf Hc. pose proof (replenish_wf t1 l Hwf) as Hr.
  unfold weight_ok in Hc. rewrite <- (replenish_budget t1 l) in Hc.
  unfold wait_at. cbv zeta.
  destruct (_ && _); simpl; [lia|].
  destruct (Z.ltb_spec (budget (replenish_at t1 l)) (wrap64 (used (replenish_at t1 l) + c)));
    simpl; [lia|].
  unfold wf in *. rewrite wrap64_id; [lia|]. unfold in_int64, int64_min, int64_max in *. lia.
Qed.

#[global] Instance weighted_laws : LimiterLaws WeightedLimiter.
Proof.
  split; simpl; [|apply weighted_Wait_no_http| | | | |]; intros.
  - pose proof (weighted_Wait_ticks l c w). lia.
  - rewrite weighted_Wait_wait_at. unfold wait_at. repeat case_match; simpl; apply replenish_backoff.
  - rewrite weighted_Wait_wait_at. unfold wait_at. rewrite replenish_backoff.
    destruct (time_is_zero (backoff l)) eqn:Hz; [apply Z.eqb_eq in Hz; congruence|].
    revert H0. unfold Wait, replenishLocked, backing_off, readings_before. run_io.
    rewrite replenish_backoff, Hz. simpl. intros Hr.
    destruct (time_before (env_now (S (w_ticks w))) (backoff l)) eqn:Hb; simpl; [done|].
    exfalso. apply Z.ltb_ge in Hb. specialize (Hr (S (w_ticks w))).
    destruct (_ <? _); simpl in Hr; lia.
  - done.
  - done.
  - done.
Qed.

End Facts.
End Weighted.


(** ** CounterLimiter *)
Module Counter.

Record CounterLimiter := mk {
  venue : string;
  budget : Z;
  current : Z;
  last : Time;
  decay : Duration;
  backoff : Time;
}.

Definition set_current (c : Z) (l : CounterLimiter) : CounterLimiter :=
  mk (venue l) (budget l) c (last l) (decay l) (backoff l).

Section Ops.
Context `{E : Env}.

Definition NewCounterLimiter (venue : string) (budget : Z) : IO CounterLimiter :=
  now ← time_now;
  mret (mk venue budget 0 now (3 * Second) zero_time).

Definition decay_at (now : Time) (l : CounterLimiter) : CounterLimiter :=
  let elapsed := time_sub now (last l) in
  let ticks := Z.quot elapsed (decay l) in
  if 0 <? ticks then
    let current' := wrap64 (current l - ticks) in
    let current' := if current' <? 0 then 0 else current' in
    mk (venue l) (budget l) current' (time_add (last l) (wrap64 (ticks * decay l)))
       (decay l) (backoff l)
  else l.

Definition decayLocked (l : CounterLimiter) : IO CounterLimiter :=
  now ← time_now; mret (decay_at now l).

Definition backing_off (l : CounterLimiter) : IO bool :=
  if time_is_zero (backoff l) then mret false
  else now ← time_now; mret (time_before now (backoff l)).

Definition Wait (l : CounterLimiter) (cost : Z) : IO (option error * CounterLimiter) :=
  l ← decayLocked l;
  blocked ← backing_off l;
  if (blocked : bool) then mret (Some ErrBudgetExhausted, l)
  else if budget l <? wrap64 (current l + cost) then
    _ ← metric rate_limit_headroom [venue l] (MSet f64_zero);
    mret (Some ErrBudgetExhausted, l)
  else
    let l := set_current (wrap64 (current l + cost)) l in
    let headroom := ratio (wrap64 (budget l - current l)) (budget l) in
    _ ← metric rate_limit_headroom [venue l] (MSet headroom);
    mret (None, l).

Definition Backoff (l : CounterLimiter) (venue : string) (d : Duration) : IO CounterLimiter :=
  now ← time_now;
  mret (mk venue (budget l) (current l) (last l) (decay l) (time_add now d)).

Definition Headroom (l : CounterLimiter) : float64 :=
  if budget l =? 0 then f64_zero else ratio (wrap64 (budget l - current l)) (budget l).

Definition Current (l : CounterLimiter) : Z := current l.

#[global] Instance counter_limiter : Limiter CounterLimiter := {|
  limiter_wait := Wait;
  limiter_backoff := Backoff;
  limiter_until := backoff;
|}.

End Ops.

Definition wf (l : CounterLimiter) : Prop :=
  0 ≤ current l ≤ budget l ∧ budget l ≤ int64_max ∧ 0 < decay l.

Definition cost_ok (l : CounterLimiter) (c : Z) : Prop := 0 ≤ c ≤ int64_max - budget l.

Section Facts.
Context `{E : Env}.

Definition wait_at (t1 t2 : Time) (l : CounterLimiter) (c : Z) : option error * CounterLimiter :=
  let l := decay_at t1 l in
  if negb (time_is_zero (backoff l)) && time_before t2 (backoff l)
  then (Some ErrBudgetExhausted, l)
  else if budget l <? wrap64 (current l + c) then (Some ErrBudgetExhausted, l)
  else (None, set_current (wrap64 (current l + c)) l).

Lemma counter_Wait_wait_at l c w :
  fst (Wait l c w) = wait_at (env_now (w_ticks w)) (env_now (S (w_ticks w))) l c.
Proof.
  unfold Wait, wait_at, decayLocked, backing_off. run_io.
  destruct (time_is_zero _); simpl; split_cases; done.
Qed.

Lemma counter_Wait_ticks l c w :
  (S (w_ticks w) ≤ w_ticks (snd (Wait l c w)) ≤ S (S (w_ticks w)))%nat.
Proof.
  unfold Wait, decayLocked, backing_off. run_io.
  destruct (time_is_zero _); simpl; split_cases; simpl; lia.
Qed.

Lemma counter_Wait_no_http l c w : http_events (snd (Wait l c w)) = http_events w.
Proof.
  unfold Wait, decayLocked, backing_off, http_events. run_io.
  destruct (time_is_zero _); simpl; split_cases; simpl;
    rewrite ?List.filter_app; simpl; by rewrite ?app_nil_r.
Qed.

Lemma decay_backoff t l : backoff (decay_at t l) = backoff l.
Proof. unfold decay_at. by case_match. Qed.

Lemma decay_budget t l : budget (decay_at t l) = budget l ∧ decay (decay_at t l) = decay l.
Proof. unfold decay_at. by case_match. Qed.

(** The counter loses one unit per whole decay period, never more, and [last]
    moves by exactly the periods accounted for, up to the instant of the call. *)
Lemma decay_at_spec t l :
  wf l → ∃ ticks, 0 ≤ ticks
    ∧ last (decay_at t l) = last l + ticks * decay l
    ∧ current (decay_at t l) = Z.max 0 (current l - ticks)
    ∧ (ticks = 0 ∨ last (decay_at t l) ≤ t)
    ∧ (in_int64 (t - last l) → t < last (decay_at t l) + decay l).
Proof.
  intros (Hc & Hb & Hd). unfold decay_at, time_sub. set (el := Z.max _ _).
  assert (Hel : in_int64 (t - last l) → el = t - last l).
  { unfold in_int64, el. lia. }
  assert (int64_min ≤ el ≤ int64_max) as Hr.
  { unfold el, int64_min, int64_max. lia. }
  destruct (Z.ltb_spec 0 (Z.quot el (decay l))) as [Hq|Hq].
  - assert (0 < el) as Hpos.
    { destruct (Z.le_gt_cases el 0) as [Hle|]; [|done].
      assert (Z.quot el (decay l) ≤ 0); [|lia].
      rewrite <- (Z.opp_involutive el), Z.quot_opp_l by lia.
      pose proof (Z.quot_pos (- el) (decay l)). lia. }
    rewrite Z.quot_div_nonneg in * by lia.
    pose proof (Z.mul_div_le el (decay l) Hd) as Hm.
    pose proof (Z.mod_pos_bound el (decay l) Hd) as Hmod.
    pose proof (Z.div_mod el (decay l) ltac:(lia)) as Hdm.
    pose proof (Z.div_le_upper_bound el (decay l) el Hd ltac:(nia)) as Hdle.
    exists (el / decay l). unfold time_add; simpl.
    rewrite (wrap64_id (_ * _)), (wrap64_id (current l - _));
      unfold in_int64, int64_min, int64_max in *; [|lia|lia].
    split; [lia|]. split; [done|]. split; [case_match; lia|].
    split; [right; unfold el in *; lia|]. intros Hin. rewrite Hel in * by done. lia.
  - exists 0. split; [lia|]. split; [lia|]. split; [lia|]. split; [by left|].
    intros Hin. rewrite Hel in * by done.
    destruct (Z.lt_ge_cases t (last l + decay l)); [done|].
    pose proof (Z.quot_le_lower_bound (t - last l) (decay l) 1). lia.
Qed.

Lemma decay_wf t l : wf l → wf (decay_at t l).
Proof.
  intros Hwf. destruct (decay_at_spec t l Hwf) as (k & Hk & _ & Hc & _).
  destruct (decay_budget t l) as [Hb Hd]. unfold wf in *. rewrite Hb, Hd, Hc. lia.
Qed.

(** A granted call adds its cost to the decayed counter, a denied one nothing. *)
Lemma counter_wait_at_charge t1 t2 l c :
  wf l → cost_ok l c →
  current (snd (wait_at t1 t2 l c))
  = current (decay_at t1 l) + match fst (wait_at t1 t2 l c) with None => c | Some _ => 0 end.
Proof.
  intros Hwf Hc. pose proof (decay_wf t1 l Hwf) as Hr.
  unfold cost_ok in Hc. rewrite <- (proj1 (decay_budget t1 l)) in Hc.
  unfold wait_at. cbv zeta. destruct (_ && _); simpl; [lia|].
  destruct (Z.ltb_spec (budget (decay_at t1 l)) (wrap64 (current (decay_at t1 l) + c)));
    simpl; [lia|].
  unfold wf in *. rewrite wrap64_id; [lia|]. unfold in_int64, int64_min, int64_max in *. lia.
Qed.

Lemma counter_wait_at_wf t1 t2 l c : wf l → cost_ok l c → wf (snd (wait_at t1 t2 l c)).
Proof.
  intros Hwf Hc. pose proof (decay_wf t1 l Hwf) as Hr.
  unfold cost_ok in Hc. rewrite <- (proj1 (decay_budget t1 l)) in Hc.
  unfold wait_at. repeat case_match; simpl; try done.
  unfold wf in *. simpl. rewrite wrap64_id in *; unfold in_int64, int64_min, int64_max in *; lia.
Qed.

Lemma wait_at_frame t1 t2 l c :
  let l' := snd (wait_at t1 t2 l c) in
  budget l' = budget l ∧ decay l' = decay l ∧ last l' = last (decay_at t1 l)
  ∧ backoff l' = backoff l.
Proof.
  unfold wait_at. repeat case_match; simpl; rewrite decay_backoff;
    destruct (decay_budget t1 l); done.
Qed.

#[global] Instance counter_laws : LimiterLaws CounterLimiter.
Proof.
  split; simpl; [|apply counter_Wait_no_http| | | | |]; intros.
  - pose proof (counter_Wait_ticks l c w). lia.
  - rewrite counter_Wait_wait_at. apply wait_at_frame.
  - rewrite counter_Wait_wait_at. unfold wait_at. rewrite decay_backoff.
    destruct (time_is_zero (backoff l)) eqn:Hz; [apply Z.eqb_eq in Hz; congruence|].
    revert H0. unfold Wait, decayLocked, backing_off, readings_before. run_io.
    rewrite decay_backoff, Hz. simpl. intros Hr.
    destruct (time_before (env_now (S (w_ticks w))) (backoff l)) eqn:Hb; simpl; [done|].
    exfalso. apply Z.ltb_ge in Hb. specialize (Hr (S (w_ticks w))).
    destruct (_ <? _); simpl in Hr; lia.
  - done.
  - done.
  - done.
Qed.

End Facts.
End Counter.

(** ** RPSLimiter *)
Module RPS.

Record RPSLimiter := mk {
  venue : string;
  limit : Z;
  count : Z;
  window : Duration;
  start : Time;
  backoff : Time;
}.

Definition set_count (c : Z) (l : RPSLimiter) : RPSLimiter :=
  mk (venue l) (limit l) c (window l) (start l) (backoff l).

Section Ops.
Context `{E : Env}.

Definition NewRPSLimiter (venue : string) (rps : Z) : IO RPSLimiter :=
  now ← time_now;
  mret (mk venue rps 0 Second now zero_time).

(** The window test of [Wait]. *)
Definition roll_window (now : Time) (l : RPSLimiter) : RPSLimiter :=
  if window l <=? time_sub now (start l)
  then mk (venue l) (limit l) 0 (window l) now (backoff l)
  else l.

Definition Wait (l : RPSLimiter) (_ : Z) : IO (option error * RPSLimiter) :=
  now ← time_now;
  if negb (time_is_zero (backoff l)) && time_before now (backoff l)
  then mret (Some ErrBudgetExhausted, l)
  else
    let l := roll_window now l in
    if limit l <=? count l then mret (Some ErrBudgetExhausted, l)
    else
      let l := set_count (wrap64 (count l + 1)) l in
      let headroom := ratio (wrap64 (limit l - count l)) (limit l) in
      _ ← metric rate_limit_headroom [venue l] (MSet headroom);
      mret (None, l).

Definition Backoff (l : RPSLimiter) (venue : string) (d : Duration) : IO RPSLimiter :=
  now ← time_now;
  mret (mk venue (limit l) (count l) (window l) (start l) (time_add now d)).

Definition Headroom (l : RPSLimiter) : float64 :=
  if limit l =? 0 then f64_zero else ratio (wrap64 (limit l - count l)) (limit l).

#[global] Instance rps_limiter : Limiter RPSLimiter := {|
  limiter_wait := Wait;
  limiter_backoff := Backoff;
  limiter_until := backoff;
|}.

End Ops.

Definition wf (l : RPSLimiter) : Prop :=
  0 ≤ count l ≤ limit l ∧ limit l ≤ int64_max ∧ 0 < window l.

Section Facts.
Context `{E : Env}.

Lemma Wait_cases l c w :
  let now := env_now (w_ticks w) in
  let r := fst (Wait l c w) in
  (fst r = Some ErrBudgetExhausted ∧ snd r = l)
  ∨ (fst r = Some ErrBudgetExhausted ∧ snd r = roll_window now l)
  ∨ (fst r = None ∧ count (roll_window now l) < limit l
     ∧ snd r = set_count (wrap64 (count (roll_window now l) + 1)) (roll_window now l)).
Proof.
  unfold Wait. run_io. destruct (_ && _); simpl; [by left|].
  destruct (Z.leb_spec (limit (roll_window (env_now (w_ticks w)) l))
                       (count (roll_window (env_now (w_ticks w)) l))); simpl; right; [by left|].
  right. split; [done|]. split; [|done].
  unfold roll_window in *. by destruct (_ <=? _).
Qed.

Lemma Wait_tick l c w : w_ticks (snd (Wait l c w)) = S (w_ticks w).
Proof. unfold Wait. run_io. repeat case_match; simplify_eq/=; done. Qed.

Lemma rps_Wait_no_http l c w : http_events (snd (Wait l c w)) = http_events w.
Proof.
  unfold Wait, http_events. run_io.
  split_cases; simpl; rewrite ?List.filter_app; simpl; by rewrite ?app_nil_r.
Qed.

Lemma roll_frame t l :
  limit (roll_window t l) = limit l ∧ window (roll_window t l) = window l
  ∧ backoff (roll_window t l) = backoff l.
Proof. unfold roll_window. by case_match. Qed.

Lemma roll_wf t l : wf l → wf (roll_window t l).
Proof. unfold wf, roll_window. intros. case_match; simpl; lia. Qed.

Lemma Wait_wf l c w : wf l → wf (snd (fst (Wait l c w))).
Proof.
  intros Hwf. pose proof (roll_wf (env_now (w_ticks w)) l Hwf) as Hr.
  destruct (Wait_cases l c w) as [[_ ->]|[[_ ->]|(_ & Hlt & ->)]]; [done..|].
  unfold wf in *. simpl. destruct (roll_frame (env_now (w_ticks w)) l) as (-> & -> & _).
  destruct Hr as (? & ? & ?). destruct (roll_frame (env_now (w_ticks w)) l) as (Hl & Hw & _).
  rewrite Hl, Hw in *. rewrite wrap64_id; [lia|].
  unfold in_int64, int64_min, int64_max in *. lia.
Qed.

Lemma Wait_frame l c w :
  let l' := snd (fst (Wait l c w)) in
  limit l' = limit l ∧ window l' = window l ∧ backoff l' = backoff l.
Proof.
  destruct (roll_frame (env_now (w_ticks w)) l) as (? & ? & ?).
  destruct (Wait_cases l c w) as [[_ ->]|[[_ ->]|(_ & Hlt & ->)]]; done.
Qed.

#[global] Instance rps_laws : LimiterLaws RPSLimiter.
Proof.
  split; simpl; [|apply rps_Wait_no_http| | | | |]; intros.
  - rewrite Wait_tick. lia.
  - apply Wait_frame.
  - unfold readings_before in *. rewrite Wait_tick in *.
    specialize (H0 (w_ticks w) ltac:(lia)). unfold Wait. run_io.
    unfold time_is_zero, time_before.
    destruct (Z.eqb_spec (backoff l) zero_time); [done|].
    destruct (Z.ltb_spec (env_now (w_ticks w)) (backoff l)); [done|lia].
  - done.
  - done.
  - done.
Qed.

End Facts.
End RPS.

(** ** Runs against the interface *)
Section Runs.
Context {L : Type} `{E : Env} `{!Limiter L} `{!LimiterLaws L}.

Lemma run_cons (l : L) c costs w :
  run l (c :: costs) w =
  let '((e, l1), w1) := limiter_wait l c w in
  let '((log, l2), w2) := run l1 costs w1 in
  (((c, e) :: log, l2), w2).
Proof.
  cbn [run]. unfold mbind, io_bind, mret, io_ret.
  destruct (limiter_wait l c w) as [[e l1] w1]. by destruct (run l1 costs w1) as [[log l2] w2].
Qed.

Lemma run_ticks costs (l : L) w : (w_ticks w ≤ w_ticks (snd (run l costs w)))%nat.
Proof.
  revert l w. induction costs as [|c costs IH]; intros l w; [done|].
  rewrite run_cons. pose proof (wait_ticks l c w) as Ht.
  destruct (limiter_wait l c w) as [[e l1] w1]. specialize (IH l1 w1).
  destruct (run l1 costs w1) as [[log l2] w2]. simpl in *. lia.
Qed.

Lemma run_denied costs (l : L) w :
  limiter_until l ≠ zero_time →
  readings_before (limiter_until l) w (snd (run l costs w)) →
  fst (fst (run l costs w)) = map (λ c, (c, Some ErrBudgetExhausted)) costs.
Proof.
  revert l w. induction costs as [|c costs IH]; intros l w Hz Hr; [done|].
  rewrite run_cons in *.
  pose proof (wait_ticks l c w) as Ht. pose proof (wait_until l c w) as Hu.
  pose proof (wait_denied l c w Hz) as Hd.
  destruct (limiter_wait l c w) as [[e l1] w1]. simpl in *.
  specialize (IH l1 w1). pose proof (run_ticks costs l1 w1) as Ht2.
  destruct (run l1 costs w1) as [[log l2] w2]. simpl in *.
  rewrite Hd, IH; [done|by rewrite Hu| |].
  - rewrite Hu. intros i Hi. apply Hr. lia.
  - intros i Hi. apply Hr. lia.
Qed.

(** After [Backoff], calls of [Wait] whose clock readings come before its end are
    refused. *)
Definition denies_run v d costs (l : L) w : Prop :=
  let '(l1, w1) := limiter_backoff l v d w in
  readings_before (env_now (w_ticks w) + d) w1 (snd (run l1 costs w1)) →
  fst (fst (run l1 costs w1)) = map (λ c, (c, Some ErrBudgetExhausted)) costs.

Lemma laws_deny_run v d costs (l : L) w : env_now (w_ticks w) + d ≠ zero_time → denies_run v d costs l w.
Proof.
  intros Hz. unfold denies_run. pose proof (backoff_until l v d w) as Hu.
  destruct (limiter_backoff l v d w) as [l1 w1]. simpl in *. rewrite <- Hu in *.
  by apply run_denied.
Qed.

End Runs.

(** C9: After Backoff of duration d on a WeightedLimiter, on a CounterLimiter or on an
    RPSLimiter, in any state, every Wait whose clock readings come before the end of
    the backoff is refused with ErrBudgetExhausted, whatever the costs and however
    many calls. The end of the backoff is taken not to be the zero time, which the
    limiters read as no backoff. *)
Theorem backoff_denies_run `{E : Env} (weighted : Weighted.WeightedLimiter) (counter : Counter.CounterLimiter)
    (rps : RPS.RPSLimiter) v d costs w :
  env_now (w_ticks w) + d ≠ zero_time →
  denies_run v d costs weighted w ∧ denies_run v d costs counter w ∧ denies_run v d costs rps w.
Proof. intros Hz. split_and!; by apply laws_deny_run. Qed.

Section WeightedRuns.
Import Weighted.
Context `{E : Env}.

Lemma weighted_step l c w :
  wf l → weight_ok l c →
  let '((e, l'), w') := limiter_wait l c w in
  wf l' ∧ budget l' = budget l
  ∧ (env_now (w_ticks w) < lastFill l + refill l →
     0 < refill l ≤ int64_max →
     lastFill l' = lastFill l ∧ refill l' = refill l
     ∧ used l' = used l + match e with None => c | Some _ => 0 end).
Proof.
  intros Hwf Hc. destruct (limiter_wait l c w) as [[e l'] w'] eqn:Hw.
  assert ((e, l') = wait_at (env_now (w_ticks w)) (env_now (S (w_ticks w))) l c) as Heq.
  { rewrite <- weighted_Wait_wait_at. simpl in Hw. by rewrite Hw. }
  set (t1 := env_now (w_ticks w)) in *. set (t2 := env_now (S (w_ticks w))) in *.
  pose proof (weighted_wait_at_wf t1 t2 l c Hwf Hc) as H1.
  pose proof (wait_at_budget t1 t2 l c) as H2.
  pose proof (weighted_wait_at_charge t1 t2 l c Hwf Hc) as H3.
  pose proof (wait_at_lastFill t1 t2 l c) as H4.
  rewrite <- Heq in H1, H2, H3, H4. simpl in *.
  split; [done|]. split; [done|]. intros Hlt Href.
  assert (replenish_at t1 l = l) as Hr.
  { apply replenish_early. unfold time_sub, int64_min, int64_max in *. lia. }
  rewrite Hr in H3, H4. destruct H4. done.
Qed.

(** C7: WeightedLimiter: over any run of Wait calls read within one refill window from a
    well-formed state, the weight granted is at most the budget left, the used
    weight grows by exactly what was granted, and the state stays well formed.
    Weights are bounded so that the int64 sum cannot wrap. *)
Theorem weighted_window_bound `{!MonotoneClock E} l weights w :
  wf l → 0 < refill l ≤ int64_max → Forall (weight_ok l) weights →
  (let '(_, w') := run l weights w in env_now (w_ticks w') < lastFill l + refill l) →
  let '((log, l'), _) := run l weights w in
  wf l' ∧ used l' = used l + granted log ∧ granted log ≤ budget l - used l.
Proof.
  intros Hwf Href Hws Hend.
  cut (let '(log, l', _) := run l weights w in
       wf l' ∧ budget l' = budget l ∧ used l' = used l + granted log).
  { destruct (run l weights w) as [[log l'] w']. unfold wf. intros. lia. }
  revert l w Hwf Href Hws Hend. induction weights as [|c ws IH]; intros l w Hwf Href Hws Hend.
  { simpl. unfold granted. simpl. split; [done|]. split; [done|lia]. }
  apply Forall_cons in Hws as [Hc Hws]. rewrite run_cons in *.
  pose proof (weighted_step l c w Hwf Hc) as Hstep. pose proof (wait_ticks l c w) as Ht.
  destruct (limiter_wait l c w) as [[e l1] w1]. simpl in Ht.
  pose proof (run_ticks ws l1 w1) as Ht2. specialize (IH l1 w1).
  destruct (run l1 ws w1) as [[log l2] w2]. simpl in Ht2, Hend.
  destruct Hstep as (Hwf1 & Hb1 & Hstep).
  pose proof (clock_mono (w_ticks w) (w_ticks w2) ltac:(lia)) as Hmono.
  destruct Hstep as (Hl & Hr & Hu); [lia|done|].
  destruct IH as (? & ? & Hu2); [done|lia| |lia|].
  { eapply Forall_impl; [done|]. intros x. unfold weight_ok. by rewrite Hb1. }
  split; [done|]. split; [lia|].
  unfold granted in *. simpl. lia.
Qed.

End WeightedRuns.

Section CounterRuns.
Import Counter.
Context `{E : Env}.

Lemma counter_step l c w :
  wf l → cost_ok l c →
  let '((e, l'), w') := limiter_wait l c w in
  wf l' ∧ budget l' = budget l ∧ decay l' = decay l
  ∧ (∃ ticks, 0 ≤ ticks ∧ last l' = last l + ticks * decay l
      ∧ (ticks = 0 ∨ last l' ≤ env_now (w_ticks w))
      ∧ match e with None => c | Some _ => 0 end + current l ≤ current l' + ticks).
Proof.
  intros Hwf Hc. destruct (limiter_wait l c w) as [[e l'] w'] eqn:Hw.
  assert ((e, l') = wait_at (env_now (w_ticks w)) (env_now (S (w_ticks w))) l c) as Heq.
  { rewrite <- counter_Wait_wait_at. simpl in Hw. by rewrite Hw. }
  set (t1 := env_now (w_ticks w)) in *. set (t2 := env_now (S (w_ticks w))) in *.
  pose proof (counter_wait_at_wf t1 t2 l c Hwf Hc) as H1.
  pose proof (counter_wait_at_charge t1 t2 l c Hwf Hc) as H3.
  destruct (wait_at_frame t1 t2 l c) as (H2 & H4 & H5 & _).
  rewrite <- Heq in H1, H2, H3, H4, H5. simpl in *.
  destruct (decay_at_spec t1 l Hwf) as (k & Hk & Hlast & Hcur & Hle & _).
  split; [done|]. split; [done|]. split; [done|].
  exists k. rewrite H5. split; [done|]. split; [done|]. split; [done|]. lia.
Qed.

(** C8: CounterLimiter: over any run of Wait calls, of any length and duration, from a
    well-formed state (a used amount between 0 and the budget, a positive decay
    interval, a last decay not after the clock), under a clock that does not go
    backwards, and with costs from 0 to the largest int64 less the budget, so that
    the sum cannot wrap, the cost granted is at most the counter room at the start
    plus one unit per decay interval elapsed, and the state stays well formed. *)
Theorem counter_rate_bound `{!MonotoneClock E} l costs w :
  wf l → Forall (cost_ok l) costs → last l ≤ env_now (w_ticks w) →
  let '((log, l'), w') := run l costs w in
  wf l'
  ∧ granted log ≤ budget l - current l + (env_now (w_ticks w') - last l) / decay l.
Proof.
  intros Hwf Hcs Hstart.
  cut (let '(log, l', w') := run l costs w in
       wf l' ∧ budget l' = budget l ∧ decay l' = decay l ∧ last l' ≤ env_now (w_ticks w')
       ∧ ∃ ticks, 0 ≤ ticks ∧ last l' = last l + ticks * decay l
          ∧ granted log + current l ≤ current l' + ticks).
  { destruct (run l costs w) as [[log l'] w'].
    intros (Hwf' & Hb & Hd & Hl & k & Hk & Hlast & Hg). split; [done|].
    assert (k ≤ (env_now (w_ticks w') - last l) / decay l).
    { apply Z.div_le_lower_bound; unfold wf in *; lia. }
    unfold wf in *. lia. }
  revert l w Hwf Hcs Hstart. induction costs as [|c cs IH]; intros l w Hwf Hcs Hstart.
  { simpl. do 4 (split; [done|]). exists 0. unfold granted. simpl. lia. }
  apply Forall_cons in Hcs as [Hc Hcs]. rewrite run_cons.
  pose proof (counter_step l c w Hwf Hc) as Hstep. pose proof (wait_ticks l c w) as Ht.
  destruct (limiter_wait l c w) as [[e l1] w1]. simpl in Ht. specialize (IH l1 w1).
  pose proof (clock_mono _ _ Ht) as Hmono.
  destruct (run l1 cs w1) as [[log l2] w2].
  destruct Hstep as (Hwf1 & Hb1 & Hd1 & k & Hk & Hlast & Hle & Hg).
  destruct IH as (? & ? & ? & ? & k2 & Hk2 & Hlast2 & Hg2); [done| | |].
  { eapply Forall_impl; [done|]. intros x. unfold cost_ok. by rewrite Hb1. }
  { destruct Hle; [|lia]. subst k. lia. }
  split; [done|]. split; [lia|]. split; [lia|]. split; [done|].
  exists (k + k2). split; [lia|]. split; [rewrite Hlast2, Hlast, Hd1; lia|].
  unfold granted in *. simpl. lia.
Qed.

End CounterRuns.

Section RPSRuns.
Import RPS.
Context `{E : Env}.

Lemma rps_step l c w :
  wf l →
  let '((e, l'), w') := limiter_wait l c w in
  wf l' ∧ limit l' = limit l ∧ window l' = window l
  ∧ (∃ resets, 0 ≤ resets ∧ start l + resets * window l ≤ start l'
      ∧ (resets = 0 ∧ start l' = start l ∨ start l' = env_now (w_ticks w))
      ∧ match e with None => 1 | Some _ => 0 end + count l ≤ count l' + resets * limit l).
Proof.
  intros Hwf. pose proof (Wait_wf l c w Hwf) as Hwf'.
  destruct (Wait_frame l c w) as (Hl & Hw & _). pose proof (Wait_cases l c w) as Hcases.
  simpl. destruct (Wait l c w) as [[e l'] w']. simpl in *.
  split; [done|]. split; [done|]. split; [done|].
  set (now := env_now (w_ticks w)) in *.
  assert (∃ resets, 0 ≤ resets ∧ start l + resets * window l ≤ start (roll_window now l)
      ∧ (resets = 0 ∧ start (roll_window now l) = start l ∨ start (roll_window now l) = now)
      ∧ count l ≤ count (roll_window now l) + resets * limit l) as (k & Hk & H1 & H2 & H3).
  { unfold roll_window, wf in *. destruct (Z.leb_spec (window l) (time_sub now (start l))).
    - exists 1. simpl. unfold time_sub, int64_max, int64_min in *. lia.
    - exists 0. lia. }
  destruct Hcases as [[-> ->]|[[-> ->]|(-> & Hlt & ->)]].
  - exists 0. lia.
  - exists k. split; [done|]. split; [done|]. split; [done|]. lia.
  - exists k. split; [done|]. split; [done|]. split; [done|]. simpl.
    destruct (roll_wf now l Hwf) as (Hc & Hm & _). destruct (roll_frame now l) as (Hlim & _).
    rewrite Hlim in *.
    rewrite wrap64_id; [lia|]. unfold in_int64, int64_min, int64_max in *. lia.
Qed.

(** RPSLimiter: over any run of Wait calls the number of calls granted is at most what
    the current window has left plus one full limit for every window length elapsed
    since the window started. *)
Theorem rps_rate_bound `{!MonotoneClock E} l costs w :
  wf l → start l ≤ env_now (w_ticks w) →
  let '((log, l'), w') := run l costs w in
  wf l'
  ∧ grants log ≤ limit l - count l
                 + limit l * ((env_now (w_ticks w') - start l) / window l).
Proof.
  intros Hwf Hstart.
  cut (let '(log, l', w') := run l costs w in
       wf l' ∧ limit l' = limit l ∧ window l' = window l ∧ start l' ≤ env_now (w_ticks w')
       ∧ ∃ resets, 0 ≤ resets ∧ start l + resets * window l ≤ start l'
          ∧ grants log + count l ≤ count l' + resets * limit l).
  { destruct (run l costs w) as [[log l'] w'].
    intros (Hwf' & Hb & Hd & Hl & k & Hk & Hlast & Hg). split; [done|].
    assert (k ≤ (env_now (w_ticks w') - start l) / window l).
    { apply Z.div_le_lower_bound; unfold wf in *; lia. }
    unfold wf in *. nia. }
  revert l w Hwf Hstart. induction costs as [|c cs IH]; intros l w Hwf Hstart.
  { simpl. do 4 (split; [done|]). exists 0. unfold grants. simpl. lia. }
  rewrite run_cons.
  pose proof (rps_step l c w Hwf) as Hstep. pose proof (wait_ticks l c w) as Ht.
  destruct (limiter_wait l c w) as [[e l1] w1]. simpl in Ht. specialize (IH l1 w1).
  pose proof (clock_mono _ _ Ht) as Hmono.
  destruct (run l1 cs w1) as [[log l2] w2].
  destruct Hstep as (Hwf1 & Hb1 & Hd1 & k & Hk & Hlast & Hle & Hg).
  destruct IH as (? & ? & ? & ? & k2 & Hk2 & Hlast2 & Hg2); [done|lia|].
  split; [done|]. split; [lia|]. split; [lia|]. split; [done|].
  exists (k + k2). split; [lia|]. rewrite Hd1, Hb1 in *. split; [lia|].
  unfold grants in *. simpl. lia.
Qed.

End RPSRuns.

(** ** Witnesses *)
Section Witnesses.
#[local] Existing Instance demo_env.

Definition demo_weighted : Weighted.WeightedLimiter :=
  fst (Weighted.NewWeightedLimiter "binance" 20 world0).
Definition demo_counter : Counter.CounterLimiter :=
  fst (Counter.NewCounterLimiter "kraken" 10 world0).
Definition demo_rps : RPS.RPSLimiter := fst (RPS.NewRPSLimiter "otc" 2 world0).

Example demo_weighted_run :
  map snd (fst (fst (run demo_weighted [8; 8; 8] world0)))
  = [None; None; Some ErrBudgetExhausted].
Proof. reflexivity. Qed.

Lemma backoff_denies_run_witness :
  let '(l1, w1) := RPS.Backoff demo_rps "otc" (5 * Second) world0 in
  fst (fst (run l1 [1; 1] w1)) = [(1, Some ErrBudgetExhausted); (1, Some ErrBudgetExhausted)].
Proof.
  destruct (backoff_denies_run demo_weighted demo_counter demo_rps "otc" (5 * Second) [1; 1] world0) as (_ & _ & H);
    [vm_compute; discriminate|].
  apply H. intros i Hi. vm_compute in Hi.
  destruct i as [|[|[|i]]]; [vm_compute; reflexivity..|lia].
Defined.

Lemma weighted_window_bound_witness :
  let '((log, l'), _) := run demo_weighted [8; 8; 8] world0 in
  Weighted.wf l' ∧ Weighted.used l' = Weighted.used demo_weighted + granted log
  ∧ granted log ≤ Weighted.budget demo_weighted - Weighted.used demo_weighted.
Proof.
  apply (weighted_window_bound (MonotoneClock0 := demo_clock)
           demo_weighted [8; 8; 8] world0).
  - vm_compute. intuition discriminate.
  - vm_compute. intuition discriminate.
  - repeat constructor; vm_compute; discriminate.
  - vm_compute. reflexivity.
Defined.

Lemma counter_rate_bound_witness :
  let '((log, l'), w') := run demo_counter [6; 6; 2] world0 in
  Counter.wf l'
  ∧ granted log ≤ Counter.budget demo_counter - Counter.current demo_counter
                  + (env_now (w_ticks w') - Counter.last demo_counter) / Counter.decay demo_counter.
Proof.
  apply (counter_rate_bound (MonotoneClock0 := demo_clock) demo_counter [6; 6; 2] world0).
  - vm_compute. intuition discriminate.
  - repeat constructor; vm_compute; discriminate.
  - vm_compute. discriminate.
Defined.

Lemma rps_rate_bound_witness :
  let '((log, l'), w') := run demo_rps [1; 1; 1] world0 in
  RPS.wf l'
  ∧ grants log ≤ RPS.limit demo_rps - RPS.count demo_rps
                 + RPS.limit demo_rps
                   * ((env_now (w_ticks w') - RPS.start demo_rps) / RPS.window demo_rps).
Proof.
  apply (rps_rate_bound (MonotoneClock0 := demo_clock) demo_rps [1; 1; 1] world0).
  - vm_compute. intuition discriminate.
  - vm_compute. discriminate.
Defined.

End Witnesses.
