(* ===== verification/Ws.v ===== *)
(** * internal/ws: order-book reconstruction and reconnect backoff

    [BookReconstructor] and its methods, [collectLevels], [sortLevels] and
    [nextBackoff] of ws.go. *)

From Stdlib Require Import Floats.SpecFloat.
From S2P Require Export World.

(** ** Data *)

(** A Go [[2]string]: price and size. *)
Definition level : Type := string * string.

Record BookReconstructor := mkRecon {
  rc_venue : string;
  rc_pair : string;
  rc_bids : gmap string string;
  rc_asks : gmap string string;
  rc_lastSeq : Z;
  rc_lastUpdate : Time;
  rc_snapshotTTL : Duration;
}.

Definition NewBookReconstructor (venue pair : string) : BookReconstructor :=
  mkRecon venue pair ∅ ∅ 0 zero_time (1 * Second).

(** ** Sorting *)

(** The test [less] of [sortLevels]. *)
Definition level_less (descending : bool) (a b : string) : bool :=
  if descending then str_ltb b a else str_ltb a b.

(** The inner loop: moves entry [j] down until its predecessor is less. *)
Fixpoint sift (descending : bool) (j : nat) (s : list level) : list level :=
  match j with
  | O => s
  | S j' =>
      match s !! j', s !! j with
      | Some a, Some b =>
          if level_less descending (fst a) (fst b) then s
          else sift descending j' (<[j' := b]> (<[j := a]> s))
      | _, _ => s
      end
  end.

Definition sortLevels (s : list level) (descending : bool) : list level :=
  foldl (λ s i, sift descending i s) s (seq 1 (length s - 1)).

(** ** Operations *)

Definition set_level (m : gmap string string) (lvl : level) : gmap string string :=
  <[fst lvl := snd lvl]> m.

(** A size of ["0"] or [""] removes the price. *)
Definition removes (size : string) : bool := String.eqb size "0" || String.eqb size "".

Definition diff_level (m : gmap string string) (lvl : level) : gmap string string :=
  if removes (snd lvl) then delete (fst lvl) m else <[fst lvl := snd lvl]> m.

Definition set_levels (m : gmap string string) (ls : list level) := foldl set_level m ls.
Definition diff_levels (m : gmap string string) (ls : list level) := foldl diff_level m ls.

Section Ops.
Context `{E : Env}.

Definition ApplySnapshot (r : BookReconstructor) (bids asks : list level) : IO BookReconstructor :=
  now ← time_now;
  mret (mkRecon (rc_venue r) (rc_pair r) (set_levels ∅ bids) (set_levels ∅ asks)
          (rc_lastSeq r) now (rc_snapshotTTL r)).

(** The results are (applied, gap). *)
Definition ApplyDiff (r : BookReconstructor) (seq : Z) (bids asks : list level)
    : IO ((bool * bool) * BookReconstructor) :=
  if negb (rc_lastSeq r =? 0) && (seq <=? rc_lastSeq r) then mret ((false, false), r)
  else if negb (rc_lastSeq r =? 0) && (wrap64 (rc_lastSeq r + 1) <? seq)
  then mret ((false, true), r)
  else
    now ← time_now;
    mret ((true, false),
          mkRecon (rc_venue r) (rc_pair r) (diff_levels (rc_bids r) bids)
            (diff_levels (rc_asks r) asks) seq now (rc_snapshotTTL r)).

Definition MarkGap (r : BookReconstructor) : IO BookReconstructor :=
  _ ← metric "ws_gap_count" [rc_venue r] MInc;
  mret (mkRecon (rc_venue r) (rc_pair r) (rc_bids r) (rc_asks r) 0 (rc_lastUpdate r)
          (rc_snapshotTTL r)).

Definition Lag (r : BookReconstructor) : IO float64 :=
  if time_is_zero (rc_lastUpdate r) then mret f64_zero
  else now ← time_now; mret (duration_seconds (time_sub now (rc_lastUpdate r))).

(** The entries of the map, in the order the [range] visits them, sorted and cut. *)
Definition collect (entries : list level) (descending : bool) (n : nat) : list level :=
  let out := sortLevels entries descending in
  if Nat.ltb n (length out) then take n out else out.

Definition collectLevels (m : gmap string string) (descending : bool) (n : nat)
    : IO (list level) :=
  entries ← range_map m; mret (collect entries descending n).

Definition TopN (r : BookReconstructor) (n : nat) : IO (list level * list level) :=
  bids ← collectLevels (rc_bids r) true n;
  asks ← collectLevels (rc_asks r) false n;
  mret (bids, asks).

Definition nextBackoff (prev max : Duration) : IO Duration :=
  let next := f64_to_int64 (f64_mul (f64_of_int prev) (f64_of_int 2)) in
  jitter ← draw (λ n, env_int63n n (wrap64 (prev + 1)));
  let next := wrap64 (next + jitter) in
  mret (if max <? next then max else next).

End Ops.

(** ** The order of levels *)

Lemma level_less_irrefl d a : level_less d a a = false.
Proof. destruct d; apply str_ltb_irrefl. Qed.

Lemma level_less_total d a b : a ≠ b → level_less d a b = false → level_less d b a = true.
Proof. destruct d; simpl; intros; by apply str_ltb_total. Qed.

Lemma level_less_trans d a b c :
  level_less d a b = true → level_less d b c = true → level_less d a c = true.
Proof. destruct d; simpl; intros; by eapply str_ltb_trans. Qed.

(** The order of a sorted side. *)
Definition level_lt (descending : bool) (a b : level) : Prop :=
  level_less descending (fst a) (fst b) = true.

#[export] Instance level_lt_trans d : Transitive (level_lt d).
Proof. intros a b c. apply level_less_trans. Qed.

#[export] Instance level_lt_antisymm d : AntiSymm (=) (level_lt d).
Proof.
  intros a b H1 H2. unfold level_lt in *.
  pose proof (level_less_trans d _ _ _ H1 H2) as H. by rewrite level_less_irrefl in H.
Qed.

(** ** [sortLevels] is an insertion sort *)

(** Insertion into the reversed prefix. *)
Fixpoint ins_rev (d : bool) (x : level) (r : list level) : list level :=
  match r with
  | [] => [x]
  | a :: r' => if level_less d (fst a) (fst x) then x :: r else a :: ins_rev d x r'
  end.

Lemma sift_ins d r x post :
  sift d (length r) (reverse r ++ x :: post) = reverse (ins_rev d x r) ++ post.
Proof.
  revert x post. induction r as [|a r IH]; intros x post; [done|].
  cbn [length sift ins_rev]. rewrite reverse_cons, <- (app_assoc _ [a]). simpl.
  rewrite <- (length_reverse r).
  rewrite lookup_middle, lookup_middle_S.
  destruct (level_less d (fst a) (fst x)).
  - rewrite !reverse_cons, <- !app_assoc. done.
  - rewrite insert_middle_S.
    rewrite insert_middle, length_reverse, IH, reverse_cons, <- app_assoc. done.
Qed.

Lemma sift_fold d rest r :
  foldl (λ s i, sift d i s) (reverse r ++ rest) (seq (length r) (length rest))
  = reverse (foldl (λ r x, ins_rev d x r) r rest).
Proof.
  revert r. induction rest as [|x rest IH]; intros r; [by rewrite app_nil_r|].
  cbn [length seq foldl]. rewrite sift_ins, <- IH.
  f_equal. f_equal. clear. induction r as [|a r IH]; simpl; [done|]. case_match; simpl; lia.
Qed.

Lemma sortLevels_fold s d :
  sortLevels s d = reverse (foldl (λ r x, ins_rev d x r) [] s).
Proof.
  unfold sortLevels. destruct s as [|x s]; [done|].
  cbn [length foldl ins_rev]. rewrite Nat.sub_succ, Nat.sub_0_r.
  apply (sift_fold d s [x]).
Qed.

Lemma ins_rev_perm d x r : ins_rev d x r ≡ₚ x :: r.
Proof.
  induction r as [|a r IH]; simpl; [done|]. case_match; [done|]. rewrite IH. apply Permutation_swap.
Qed.

Lemma ins_rev_sorted d x r :
  fst x ∉ r.*1 → StronglySorted (flip (level_lt d)) r →
  StronglySorted (flip (level_lt d)) (ins_rev d x r).
Proof.
  intros Hx Hs. induction Hs as [|a r Hs IH Hall]; simpl; [repeat constructor|].
  rewrite fmap_cons, not_elem_of_cons in Hx. destruct Hx as [Hne Hx].
  destruct (level_less d (fst a) (fst x)) eqn:Hl.
  - constructor; [by constructor|]. constructor; [done|].
    eapply Forall_impl; [done|]. intros b Hb. unfold flip in *.
    by trans a.
  - constructor; [by apply IH|]. rewrite ins_rev_perm. constructor; [|done].
    by apply level_less_total.
Qed.

Lemma sortLevels_perm s d : sortLevels s d ≡ₚ s.
Proof.
  rewrite sortLevels_fold, reverse_Permutation.
  cut (∀ r, foldl (λ r x, ins_rev d x r) r s ≡ₚ r ++ s); [intros ->; done|].
  induction s as [|x s IH]; intros r; simpl; [by rewrite app_nil_r|].
  rewrite IH, ins_rev_perm. simpl. apply Permutation_middle.
Qed.

Lemma sortLevels_sorted s d : NoDup (s.*1) → StronglySorted (level_lt d) (sortLevels s d).
Proof.
  intros Hnd. rewrite sortLevels_fold. apply strongly_sorted_reverse.
  cut (∀ r, NoDup ((r ++ s).*1) → StronglySorted (flip (level_lt d)) r →
        StronglySorted (flip (level_lt d)) (foldl (λ r x, ins_rev d x r) r s)).
  { intros H. apply H; [done|constructor]. }
  clear Hnd. induction s as [|x s IH]; intros r Hnd Hs; simpl; [done|].
  assert (NoDup ((x :: r ++ s).*1)) as Hnd'.
  { by rewrite Permutation_middle. }
  apply IH.
  - by rewrite ins_rev_perm.
  - apply ins_rev_sorted; [|done]. rewrite fmap_cons, fmap_app, NoDup_cons in Hnd'.
    destruct Hnd' as [Hn _]. rewrite elem_of_app in Hn. tauto.
Qed.

Lemma map_to_list_keys_nodup {V} (m : gmap string V) l : l ≡ₚ map_to_list m → NoDup (l.*1).
Proof. intros ->. apply NoDup_fst_map_to_list. Qed.

(** The sorted side does not depend on the order in which the map was visited. *)
Lemma sortLevels_order_free s s' d :
  NoDup (s.*1) → s ≡ₚ s' → sortLevels s d = sortLevels s' d.
Proof.
  intros Hnd Hp. apply (StronglySorted_unique (level_lt d)).
  - by apply sortLevels_sorted.
  - apply sortLevels_sorted. by rewrite <- Hp.
  - by rewrite !sortLevels_perm.
Qed.

Lemma collect_take entries d n : collect entries d n = take n (sortLevels entries d).
Proof.
  unfold collect. destruct (Nat.ltb_spec n (length (sortLevels entries d))); [done|].
  by rewrite take_ge.
Qed.

(** The reference: the [n] first entries of the side in strict price order. *)
Definition best_levels (m : gmap string string) (d : bool) (n : nat) : list level :=
  take n (sortLevels (map_to_list m) d).

Section Facts.
Context `{E : Env}.

(** [TopN] reads no clock, and the order of the ranges does not matter. *)
Lemma TopN_run `{!FairRange E} r n w :
  fst (TopN r n w) = (best_levels (rc_bids r) true n, best_levels (rc_asks r) false n)
  ∧ w_ticks (snd (TopN r n w)) = w_ticks w ∧ w_trace (snd (TopN r n w)) = w_trace w.
Proof.
  unfold TopN, collectLevels, range_map. run_io. rewrite !collect_take.
  split; [|done]. unfold best_levels.
  f_equal; f_equal; (apply sortLevels_order_free; [|apply range_perm]);
    (eapply map_to_list_keys_nodup, range_perm).
Qed.

(** What the [n] best levels of a side are: entries of the side in strict price
    order, as many as there are up to [n], none worse than one left out. *)
Definition best_of (m : gmap string string) (d : bool) (n : nat) (out : list level) : Prop :=
  StronglySorted (level_lt d) out ∧ length out = Nat.min n (size m)
  ∧ (∀ p s, (p, s) ∈ out → m !! p = Some s)
  ∧ (∀ p s q u, (p, s) ∈ out → m !! q = Some u → (q, u) ∉ out → level_less d p q = true).

Lemma best_levels_best m d n : best_of m d n (best_levels m d n).
Proof.
  unfold best_levels. set (l := sortLevels (map_to_list m) d).
  assert (StronglySorted (level_lt d) (take n l ++ drop n l)) as Hs.
  { rewrite take_drop. by apply sortLevels_sorted, (map_to_list_keys_nodup m). }
  assert (∀ p s, (p, s) ∈ take n l ++ drop n l ↔ m !! p = Some s) as Hin.
  { intros p s. unfold l. by rewrite take_drop, sortLevels_perm, elem_of_map_to_list. }
  split_and!.
  - by eapply StronglySorted_app_1_l.
  - rewrite length_take. f_equal. unfold l. rewrite sortLevels_perm. apply length_map_to_list.
  - intros p s Hp. apply Hin, elem_of_app. by left.
  - intros p s q u Hp [Hq|Hq]%Hin%elem_of_app Hnq; [done|].
    by apply (StronglySorted_app_1_elem_of _ _ _ (p, s) (q, u)) in Hs.
Qed.

(** C12: TopN returns for each side min(n, size) levels of the map in strict price
    order, descending for bids and ascending for asks, none worse than one left out;
    the result is the same for every iteration order of the maps. The order is the
    one of the price strings. *)
Theorem topn_correct `{!FairRange E} r n w :
  let '(bids, asks) := fst (TopN r n w) in
  best_of (rc_bids r) true n bids ∧ best_of (rc_asks r) false n asks
  ∧ ∀ w', fst (TopN r n w') = (bids, asks).
Proof.
  rewrite (proj1 (TopN_run r n w)). split_and!; [apply best_levels_best..|].
  intros w'. apply TopN_run.
Qed.

End Facts.

(** ** Diffs *)

(** The size the last entry for price [p] gives, if any. *)
Definition last_size (p : string) (ls : list level) : option string :=
  foldl (λ acc lvl, if decide (fst lvl = p) then Some (snd lvl) else acc) None ls.

Lemma last_size_from p ls acc :
  foldl (λ acc lvl, if decide (fst lvl = p) then Some (snd lvl) else acc) acc ls
  = match last_size p ls with Some s => Some s | None => acc end.
Proof.
  unfold last_size. revert acc.
  induction ls as [|lvl ls IH]; intros acc; simpl; [done|].
  rewrite IH. case_decide; [|done]. rewrite (IH (Some _)). by case_match.
Qed.

Lemma last_size_cons p lvl ls :
  last_size p (lvl :: ls)
  = match last_size p ls with
    | Some s => Some s
    | None => if decide (fst lvl = p) then Some (snd lvl) else None
    end.
Proof. unfold last_size at 1. simpl. apply last_size_from. Qed.

Lemma set_levels_lookup m ls p :
  set_levels m ls !! p = match last_size p ls with Some s => Some s | None => m !! p end.
Proof.
  revert m. induction ls as [|[q s] ls IH]; intros m; [done|].
  rewrite last_size_cons. unfold set_levels in *. simpl. rewrite IH.
  case_match; [done|]. unfold set_level. simpl. rewrite lookup_insert. by case_decide.
Qed.

Lemma diff_levels_lookup m ls p :
  diff_levels m ls !! p
  = match last_size p ls with
    | Some s => if removes s then None else Some s
    | None => m !! p
    end.
Proof.
  revert m. induction ls as [|[q s] ls IH]; intros m; [done|].
  rewrite last_size_cons. unfold diff_levels in *. simpl. rewrite IH.
  case_match; [done|]. unfold diff_level. simpl.
  destruct (removes s) eqn:Hs; [rewrite lookup_delete|rewrite lookup_insert];
    case_decide; by rewrite ?Hs.
Qed.

(** A side that holds no removal marker. *)
Definition clean_side (m : gmap string string) : Prop := map_Forall (λ _ s, removes s = false) m.

Lemma diff_levels_clean m ls : clean_side m → clean_side (diff_levels m ls).
Proof.
  intros Hm p s. rewrite diff_levels_lookup.
  destruct (last_size p ls) as [u|]; [|apply Hm]. destruct (removes u) eqn:Hu; [done|].
  intros [= <-]. done.
Qed.

Section Diffs.
Context `{E : Env}.

(** A gap: the diff neither follows the last one applied nor repeats the past. *)
Definition is_gap (r : BookReconstructor) (seq : Z) : Prop :=
  rc_lastSeq r ≠ 0 ∧ rc_lastSeq r + 1 < seq.

(** C10: ApplyDiff: it reports a gap exactly for a sequence number beyond the next one,
    applies a diff exactly when nothing was applied before or the number is the next
    one, and otherwise leaves the book untouched. An applied diff sets for each
    price the last size given for it, and removes the price when that size is
    written 0 or is empty. *)
Theorem apply_diff_cases r seq bids asks w :
  in_int64 (rc_lastSeq r + 1) →
  let '((applied, gap), r') := fst (ApplyDiff r seq bids asks w) in
  (gap = true ↔ is_gap r seq)
  ∧ (applied = true ↔ rc_lastSeq r = 0 ∨ seq = rc_lastSeq r + 1)
  ∧ (applied = false → r' = r)
  ∧ (applied = true →
       gap = false ∧ rc_lastSeq r' = seq ∧ rc_lastUpdate r' = env_now (w_ticks w)
       ∧ ∀ p,
         rc_bids r' !! p = match last_size p bids with
                           | Some s => if removes s then None else Some s
                           | None => rc_bids r !! p
                           end
         ∧ rc_asks r' !! p = match last_size p asks with
                             | Some s => if removes s then None else Some s
                             | None => rc_asks r !! p
                             end).
Proof.
  intros Hin. unfold ApplyDiff, is_gap. rewrite wrap64_id by done. run_io.
  destruct (Z.eqb_spec (rc_lastSeq r) 0) as [H0|H0]; simpl.
  - split; [split; [done|lia]|]. split; [tauto|]. split; [done|].
    intros _. split_and!; try done. intros p. by rewrite !diff_levels_lookup.
  - destruct (Z.leb_spec seq (rc_lastSeq r)); simpl.
    { split; [split; [done|lia]|]. split; [split; [done|lia]|done]. }
    destruct (Z.ltb_spec (rc_lastSeq r + 1) seq); simpl.
    { split; [tauto|]. split; [split; [done|lia]|done]. }
    split; [split; [done|lia]|]. split; [lia|]. split; [done|].
    intros _. split_and!; try done. intros p. by rewrite !diff_levels_lookup.
Qed.

(** The diffs a venue numbers consecutively, and a delivery of some of them in
    any order, with repetitions and losses. *)
Fixpoint deliver (f : Z → list level * list level) (r : BookReconstructor) (seqs : list Z)
    : IO BookReconstructor :=
  match seqs with
  | [] => mret r
  | s :: seqs =>
      '(_, r) ← ApplyDiff r s (fst (f s)) (snd (f s));
      deliver f r seqs
  end.

(** The book after diffs [from + 1], ..., [from + n], each applied once. *)
Fixpoint replay (f : Z → list level * list level) (from : Z) (n : nat)
    (book : gmap string string * gmap string string) : gmap string string * gmap string string :=
  match n with
  | O => book
  | S n =>
      let '(bids, asks) := replay f from n book in
      let '(db, da) := f (from + Z.of_nat (S n)) in
      (diff_levels bids db, diff_levels asks da)
  end.

(** C11: However a stream of diffs is delivered to ApplyDiff (lost, repeated, reordered,
    stale), the book is always the replay of a contiguous run of diffs from the
    starting sequence number, each applied once and in order. *)
Theorem deliver_contiguous f r seqs w :
  0 < rc_lastSeq r → rc_lastSeq r ≤ int64_max → Forall in_int64 seqs →
  ∃ n, let r' := fst (deliver f r seqs w) in
    rc_lastSeq r' = rc_lastSeq r + Z.of_nat n
    ∧ (rc_bids r', rc_asks r') = replay f (rc_lastSeq r) n (rc_bids r, rc_asks r).
Proof.
  intros Hpos Hmax Hin.
  cut (∀ r0 n0, 0 < rc_lastSeq r0 ≤ int64_max →
    rc_lastSeq r0 = rc_lastSeq r + Z.of_nat n0 →
    (rc_bids r0, rc_asks r0) = replay f (rc_lastSeq r) n0 (rc_bids r, rc_asks r) →
    ∃ n, let r' := fst (deliver f r0 seqs w) in
    rc_lastSeq r' = rc_lastSeq r + Z.of_nat n
    ∧ (rc_bids r', rc_asks r') = replay f (rc_lastSeq r) n (rc_bids r, rc_asks r)).
  { intros H. apply (H r O); [lia|lia|done]. }
  revert w. induction Hin as [|s seqs Hs Hin IH]; intros w r0 n0 Hr0 Hn0 Hb0; [by exists n0|].
  cbn [deliver]. rewrite bind_run. cbv zeta. unfold in_int64, int64_max in *.
  destruct (ApplyDiff r0 s (fst (f s)) (snd (f s)) w) as [[[ok gap] r1] w1] eqn:Hd. simpl.
  revert Hd. unfold ApplyDiff. run_io.
  assert ((rc_lastSeq r0 =? 0) = false) as -> by lia. simpl.
  destruct (Z.leb_spec s (rc_lastSeq r0)); simpl; [intros [= <- <- <- <-]; by eapply IH|].
  rewrite wrap64_id by (unfold in_int64, int64_min, int64_max; lia).
  destruct (Z.ltb_spec (rc_lastSeq r0 + 1) s); simpl; [intros [= <- <- <- <-]; by eapply IH|].
  intros [= <- <- <- <-].
  assert (s = rc_lastSeq r + Z.of_nat (S n0)) as Hs' by lia.
  apply (IH _ _ (S n0)); simpl; [lia|lia|].
  rewrite <- Hb0. simpl in Hs'. rewrite <- Hs'. by destruct (f s).
Qed.

End Diffs.

(** ** Reconnect backoff *)

Lemma digits2_iter p n :
  digits2_pos (Pos.iter xO p n) = (digits2_pos p + n)%positive.
Proof.
  induction n as [|n IH] using Pos.peano_ind; [simpl; lia|].
  rewrite Pos.iter_succ. simpl. rewrite IH. lia.
Qed.

Lemma iter_xO_mul p n : Zpos (Pos.iter xO p n) = Zpos p * 2 ^ Zpos n.
Proof.
  induction n as [|n IH] using Pos.peano_ind; [simpl; lia|].
  rewrite Pos.iter_succ, Pos2Z.inj_succ, Z.pow_succ_r by lia.
  change (Zpos (Pos.iter xO p n)~0) with (2 * Zpos (Pos.iter xO p n)). rewrite IH. lia.
Qed.

Lemma iter_pos_iter {A} (f : A → A) n x : SpecFloat.iter_pos f n x = Pos.iter f x n.
Proof.
  revert x. induction n as [n IH|n IH|]; intros x; simpl; [|by rewrite !IH|done].
  rewrite !IH. by rewrite !Pos.iter_swap.
Qed.

Lemma shr_iter p n :
  SpecFloat.iter_pos shr_1 n (Build_shr_record (Zpos (Pos.iter xO p n)) false false)
  = Build_shr_record (Zpos p) false false.
Proof.
  rewrite iter_pos_iter. induction n as [|n IH] using Pos.peano_ind; [done|].
  rewrite Pos.iter_succ_r, (Pos.iter_succ n _ xO). simpl. apply IH.
Qed.

Lemma round_exact m e :
  digits2_pos m = 53%positive → -1074 ≤ e ≤ 971 →
  binary_round_aux 53 1024 false (Zpos m) e loc_Exact = S754_finite false m e.
Proof.
  intros Hd He. unfold binary_round_aux, shr_fexp, fexp, SpecFloat.emin. cbn [Zdigits2]. rewrite Hd.
  replace (Z.max _ _ - e) with 0 by lia. cbn [shr shr_m shr_record_of_loc loc_of_shr_record round_nearest_even Zdigits2].
  rewrite Hd. replace (Z.max _ _ - e) with 0 by lia. cbn [shr shr_m].
  by assert ((e <=? 1024 - 53) = true) as -> by lia.
Qed.

Lemma round_shift m n e :
  digits2_pos m = 53%positive → -1074 ≤ e + Zpos n ≤ 971 →
  binary_round_aux 53 1024 false (Zpos (Pos.iter xO m n)) e loc_Exact
  = S754_finite false m (e + Zpos n).
Proof.
  intros Hd He. unfold binary_round_aux, shr_fexp, fexp, SpecFloat.emin. cbn [Zdigits2].
  rewrite digits2_iter, Hd, Pos2Z.inj_add.
  replace (Z.max _ _ - e) with (Zpos n) by lia. cbn [shr].
  cbn [shr_record_of_loc]. rewrite shr_iter.
  cbn [shr_m loc_of_shr_record round_nearest_even Zdigits2 shr_record_of_loc].
  rewrite Hd. replace (Z.max _ _ - _) with 0 by lia. cbn [shr shr_m].
  by assert ((e + Zpos n <=? 1024 - 53) = true) as -> by lia.
Qed.

Lemma digits2_bound p n : Zpos p < 2 ^ Zpos n → (digits2_pos p ≤ n)%positive.
Proof.
  intros Hp. assert (digits2_pos p = Pos.size p) as ->.
  { clear. induction p as [p IH|p IH|]; cbn [digits2_pos Pos.size]; by rewrite ?IH. }
  pose proof (Pos.size_le p) as Hs. apply Pos.lt_succ_r.
  destruct (Pos.lt_total (Pos.size p) (Pos.succ n)) as [|Hge]; [done|].
  assert (2 ^ Zpos (Pos.succ n) ≤ Zpos (p~0)) as Hle.
  { trans (2 ^ Zpos (Pos.size p)).
    - apply Z.pow_le_mono_r; [lia|]. destruct Hge; [subst|]; lia.
    - rewrite <- Pos2Z.inj_pow. exact Hs. }
  rewrite Pos2Z.inj_succ, Z.pow_succ_r in Hle by lia.
  change (Zpos p~0) with (2 * Zpos p) in Hle. lia.
Qed.

(** Integers below [2 ^ 53] are exact in [float64]. *)
Lemma f64_of_int_exact p :
  Zpos p < 2 ^ 53 →
  ∃ m, f64_of_int (Zpos p) = S754_finite false m (Zpos (digits2_pos p) - 53)
       ∧ digits2_pos m = 53%positive
       ∧ Zpos m = Zpos p * 2 ^ (53 - Zpos (digits2_pos p)).
Proof.
  intros Hp. pose proof (digits2_bound p 53 Hp) as Hd. set (d := digits2_pos p) in *.
  unfold f64_of_int, binary_normalize, binary_round, shl_align, fexp, SpecFloat.emin.
  change (digits2_pos p) with d. rewrite Z.add_0_r, Z.sub_0_r.
  replace (Z.max _ _) with (Zpos d - 53) by lia.
  destruct (Zpos d - 53) as [|k|k] eqn:Hk; [|lia|].
  - exists p. rewrite round_exact by (unfold d in *; lia).
    split; [done|]. split; [unfold d in *; lia|].
    replace (53 - Zpos d) with 0 by lia. lia.
  - exists (Pos.iter xO p k).
    assert (digits2_pos (Pos.iter xO p k) = 53%positive) as H53.
    { rewrite digits2_iter. change (digits2_pos p) with d. lia. }
    rewrite round_exact by (done || lia). split; [done|]. split; [done|].
    rewrite iter_xO_mul. do 2 f_equal. lia.
Qed.

(** [time.Duration(float64(prev) * 2)] is [2 * prev]. *)
Lemma f64_double prev :
  0 < prev < 2 ^ 53 →
  f64_to_int64 (f64_mul (f64_of_int prev) (f64_of_int 2)) = 2 * prev.
Proof.
  intros Hp. destruct prev as [|p|p]; [lia| |lia].
  destruct (f64_of_int_exact p) as (m & -> & Hd & Hm); [lia|].
  pose proof (digits2_bound p 53 ltac:(lia)) as Hdp. set (d := digits2_pos p) in *.
  assert (f64_of_int 2 = S754_finite false (Pos.iter xO xH 52) (-51)) as -> by reflexivity.
  unfold f64_mul, SFmul. cbn [xorb].
  assert ((m * Pos.iter xO xH 52)%positive = Pos.iter xO m 52) as ->.
  { apply Pos2Z.inj. rewrite Pos2Z.inj_mul, !iter_xO_mul. lia. }
  rewrite round_shift by (done || lia). unfold f64_to_int64.
  destruct (Z.leb_spec 0 (Zpos d - 53 + -51 + 52)) as [He|He].
  - assert (Zpos m * 2 ^ (Zpos d - 53 + -51 + 52) = 2 * Zpos p) as ->.
    { rewrite Hm, <- Z.mul_assoc, <- Z.pow_add_r by lia.
      replace (53 - Zpos d + _) with 1 by lia. lia. }
    unfold int64_min, int64_max. destruct (_ && _) eqn:?; lia.
  - assert (Zpos m / 2 ^ (- (Zpos d - 53 + -51 + 52)) = 2 * Zpos p) as ->.
    { rewrite Hm. replace (53 - Zpos d) with (1 + - (Zpos d - 53 + -51 + 52)) by lia.
      rewrite Z.pow_add_r, Z.mul_assoc, Z.div_mul by lia. lia. }
    unfold int64_min, int64_max. destruct (_ && _) eqn:?; lia.
Qed.

Section Backoff.
Context `{E : Env}.

Lemma next_backoff_range `{!RandRange E} prev max w :
  0 < prev < 2 ^ 53 →
  Z.min (2 * prev) max ≤ fst (nextBackoff prev max w) ≤ Z.min (3 * prev) max.
Proof.
  intros Hp. unfold nextBackoff. rewrite f64_double by done. run_io.
  rewrite (wrap64_id (prev + 1)) by (unfold in_int64, int64_min, int64_max; lia).
  pose proof (int63n_range (w_draws w) (prev + 1) ltac:(lia)) as Hj.
  rewrite wrap64_id by (unfold in_int64, int64_min, int64_max; lia).
  destruct (Z.ltb_spec max (2 * prev + env_int63n (w_draws w) (prev + 1))); lia.
Qed.

(** The delays of consecutive failures, [n] of them. *)
Fixpoint backoffs (n : nat) (prev max : Duration) : IO (list Duration) :=
  match n with
  | O => mret []
  | S n => b ← nextBackoff prev max; bs ← backoffs n b max; mret (b :: bs)
  end.

(** Successive reconnect delays grow at least by 2 and at most by 3 each time, up to the
    maximum. *)
Theorem backoffs_exponential `{!RandRange E} n prev max w :
  0 < prev ≤ max → max < 2 ^ 53 →
  ∀ k b, fst (backoffs n prev max w) !! k = Some b →
  Z.min (2 ^ (Z.of_nat k + 1) * prev) max ≤ b ≤ Z.min (3 ^ (Z.of_nat k + 1) * prev) max.
Proof.
  revert prev w. induction n as [|n IH]; intros prev w Hp Hm k b Hk; [done|].
  cbn [backoffs] in Hk. revert Hk. unfold mbind, io_bind, mret, io_ret.
  pose proof (next_backoff_range prev max w ltac:(lia)) as Hb.
  destruct (nextBackoff prev max w) as [b0 w0]. simpl in Hb. specialize (IH b0 w0).
  destruct (backoffs n b0 max w0) as [bs w1]. simpl in *.
  destruct k as [|k]; simpl.
  { intros [= <-]. rewrite Z.pow_1_r, Z.pow_1_r. lia. }
  intros Hk. specialize (IH ltac:(lia) Hm k b Hk).
  replace (Z.of_nat (S k) + 1) with (Z.succ (Z.of_nat k + 1)) by lia.
  rewrite !Z.pow_succ_r by lia.
  pose proof (Z.pow_pos_nonneg 2 (Z.of_nat k + 1) ltac:(lia) ltac:(lia)).
  pose proof (Z.pow_pos_nonneg 3 (Z.of_nat k + 1) ltac:(lia) ltac:(lia)).
  set (x := 2 ^ (Z.of_nat k + 1)) in *. set (y := 3 ^ (Z.of_nat k + 1)) in *.
  clearbody x y. split.
  - trans (Z.min (x * b0) max); [|lia].
    destruct (Z.le_gt_cases (2 * prev) max); [nia|].
    assert (b0 = max) as -> by lia. nia.
  - trans (Z.min (y * b0) max); [lia|]. nia.
Qed.

End Backoff.

(** ** Examples and witnesses *)
Section Witnesses.
#[local] Existing Instance demo_env.

Definition demo_recon : BookReconstructor :=
  mkRecon "binance" "BTCUSDT" {["50000" := "1"]} {["50001" := "0.5"]} 5 0 Second.

(** Diff 6 twice, a gap, a stale diff, then diff 7. *)
Definition demo_diffs (seq : Z) : list level * list level :=
  if seq =? 6 then ([("49999", "2")], []) else if seq =? 7 then ([("50000", "0")], [("50002", "1")])
  else ([("1", "1")], [("1", "1")]).

Example demo_deliver :
  let r := fst (deliver demo_diffs demo_recon [6; 6; 9; 3; 7; 6] world0) in
  rc_lastSeq r = 7 ∧ rc_bids r = {["49999" := "2"]}
  ∧ rc_asks r = {["50001" := "0.5"; "50002" := "1"]}.
Proof. vm_compute. done. Qed.

Lemma topn_correct_witness :
  fst (TopN demo_recon 20 world0) = ([("50000", "1")], [("50001", "0.5")])
  ∧ StronglySorted (level_lt true) (fst (fst (TopN demo_recon 20 world0))).
Proof.
  split; [vm_compute; reflexivity|].
  exact (proj1 (proj1 (topn_correct (FairRange0 := demo_range) demo_recon 20 world0))).
Defined.

Lemma apply_diff_cases_witness :
  let '((applied, gap), r') := fst (ApplyDiff demo_recon 9 [] [] world0) in
  gap = true ↔ is_gap demo_recon 9.
Proof.
  refine (proj1 (apply_diff_cases demo_recon 9 [] [] world0 _)).
  vm_compute. split; discriminate.
Defined.

Lemma deliver_contiguous_witness :
  ∃ n, let r' := fst (deliver demo_diffs demo_recon [6; 6; 9; 3; 7; 6] world0) in
    rc_lastSeq r' = 5 + Z.of_nat n
    ∧ (rc_bids r', rc_asks r') = replay demo_diffs 5 n (rc_bids demo_recon, rc_asks demo_recon).
Proof.
  apply (deliver_contiguous demo_diffs demo_recon [6; 6; 9; 3; 7; 6] world0).
  - vm_compute. reflexivity.
  - vm_compute. discriminate.
  - repeat constructor; vm_compute; discriminate.
Defined.

Lemma backoffs_exponential_witness :
  ∃ b, fst (backoffs 3 (100 * Millisecond) (30 * Second) world0) !! 2%nat = Some b
  ∧ Z.min (2 ^ (Z.of_nat 2 + 1) * (100 * Millisecond)) (30 * Second) ≤ b.
Proof.
  exists 800000000. split; [vm_compute; reflexivity|].
  apply (backoffs_exponential (RandRange0 := demo_rand) 3 (100 * Millisecond) (30 * Second) world0
           ltac:(vm_compute; split; [reflexivity|discriminate]) ltac:(vm_compute; reflexivity) 2).
  vm_compute. reflexivity.
Defined.
End Witnesses.
