(* ===== verification/WsClient.v ===== *)
(** * internal/ws: the reconnecting client

    [Client.Run] dials, reads until the connection is lost, waits and dials again,
    while other goroutines may call [Connect], [WriteJSON], [SetHandler] and [Close].
    The system is a transition system: one label for each critical section of [Run]
    with what the environment answers it, one for each call from outside. Connections
    (github.com/gorilla/websocket) are numbered in the order in which they are dialed. *)

From S2P Require Export Ws.

Section Client.
Context `{E : Env} {H : Type}.

Record Client := mkClient {
  c_url : string;
  c_venue : string;
  c_handler : option H;
  c_conn : option nat;
  c_closed : bool;
  c_maxBackoff : Duration;
}.

Definition defaultMaxBackoff : Duration := 30 * Second.
Definition minBackoff : Duration := 100 * Millisecond.

Definition NewClient (url venue : string) : Client :=
  mkClient url venue None None false defaultMaxBackoff.

Definition set_handler (h : option H) (c : Client) : Client :=
  mkClient (c_url c) (c_venue c) h (c_conn c) (c_closed c) (c_maxBackoff c).
Definition set_conn (n : option nat) (c : Client) : Client :=
  mkClient (c_url c) (c_venue c) (c_handler c) n (c_closed c) (c_maxBackoff c).
Definition set_closed (c : Client) : Client :=
  mkClient (c_url c) (c_venue c) (c_handler c) (c_conn c) true (c_maxBackoff c).

(** Where [Run] is: at the head of its loop, dialing, waiting, at the head of the loop of
    [readLoop], blocked in [ReadMessage], about to call the handler with what it returned,
    after [readLoop], or returned. *)
Inductive run_state :=
  | RTop (backoff : Duration)
  | RDialing (backoff : Duration)
  | RWaiting (backoff : Duration)
  | RRead
  | RReading (conn : nat) (h : option H)
  | RHandling (conn : nat) (h : option H) (msg : string)
  | RLost
  | RReturned (err : option error).

Record system := mkSystem {
  client : Client;
  pc : run_state;
  dialed : nat;                        (** connections so far *)
  shut : list nat;                     (** those that were closed *)
  frames : list (nat * string);        (** what was written, with its connection *)
  received : list (nat * string);      (** what the handler was given, with its connection *)
  ctx_err : option error;              (** [ctx.Err()] *)
}.

Definition at_ (p : run_state) (s : system) : system :=
  mkSystem (client s) p (dialed s) (shut s) (frames s) (received s) (ctx_err s).
Definition with_client (c : Client) (s : system) : system :=
  mkSystem c (pc s) (dialed s) (shut s) (frames s) (received s) (ctx_err s).
Definition shut_conn (n : option nat) (s : system) : system :=
  match n with
  | Some n => mkSystem (client s) (pc s) (dialed s) (n :: shut s) (frames s) (received s) (ctx_err s)
  | None => s
  end.

(** A connection is made: [connect] without error. *)
Definition connected (s : system) : system :=
  mkSystem (set_conn (Some (dialed s)) (client s)) (pc s) (S (dialed s)) (shut s) (frames s)
    (received s) (ctx_err s).

(** What the environment answers [Run]: the dialer, the reader, the [select] at the end
    of a wait. [AGo] is for the steps that need no answer. *)
Inductive answer :=
  | AGo
  | ADialed
  | ADialError
  | AMessage (msg : string)
  | AReadError
  | ACancelled.

(** One step of [Run]; [None] when it cannot happen. [ReadMessage] may return a message
    also after the connection was closed: what arrived before is buffered. *)
Definition run_step (s : system) (a : answer) : IO (option system) :=
  let c := client s in
  match pc s, a with
  | RTop b, AGo => mret (Some (at_ (if c_closed c then RReturned None else RDialing b) s))
  | RDialing b, ADialed =>
      _ ← metric "ws_reconnect_count" [c_venue c] MInc;
      mret (Some (at_ RRead (connected s)))
  | RDialing b, ADialError =>
      match ctx_err s with
      | Some e => mret (Some (at_ (RReturned (Some e)) s))
      | None => b ← nextBackoff b (c_maxBackoff c); mret (Some (at_ (RWaiting b) s))
      end
  | RWaiting b, AGo => mret (Some (at_ (RTop b) s))
  | RWaiting b, ACancelled =>
      mret (match ctx_err s with Some e => Some (at_ (RReturned (Some e)) s) | None => None end)
  | RRead, AGo =>
      mret (Some (at_ (match c_conn c with
                       | Some n => if c_closed c then RLost else RReading n (c_handler c)
                       | None => RLost
                       end) s))
  | RReading n h, AMessage msg =>
      mret (Some (at_ (RHandling n h msg) s))
  | RReading n h, AReadError => mret (Some (at_ RLost s))
  | RHandling n h msg, AGo =>
      mret (Some (mkSystem c RRead (dialed s) (shut s) (frames s)
                    (match h with Some _ => received s ++ [(n, msg)] | None => received s end) (ctx_err s)))
  | RLost, AGo =>
      match ctx_err s with
      | Some e => mret (Some (at_ (RReturned (Some e)) s))
      | None =>
          b ← nextBackoff minBackoff (c_maxBackoff c);
          mret (Some (at_ (RWaiting b) (with_client (set_conn None c) (shut_conn (c_conn c) s))))
      end
  | _, _ => mret None
  end.

(** ** Calls from other goroutines *)

Definition SetHandler (h : H) (s : system) : system := with_client (set_handler (Some h) (client s)) s.

Definition Connect (ok : bool) (s : system) : system := if ok then connected s else s.

(** [WriteJSON]: [None] for a client that is not connected. *)
Definition WriteJSON (v : string) (s : system) : option system :=
  match c_conn (client s) with
  | None => None
  | Some n => Some (mkSystem (client s) (pc s) (dialed s) (shut s) (frames s ++ [(n, v)])
                      (received s) (ctx_err s))
  end.

Definition Close (s : system) : system :=
  shut_conn (c_conn (client s)) (with_client (set_closed (client s)) s).

(** The context of [Run] is done. *)
Definition cancel (e : error) (s : system) : system :=
  mkSystem (client s) (pc s) (dialed s) (shut s) (frames s) (received s) (Some e).

(** A client before [Run]. *)
Definition new_system (c : Client) : system := mkSystem c (RTop minBackoff) 0 [] [] [] None.

Inductive label :=
  | LRun (a : answer)
  | LClose
  | LCancel (e : error)
  | LSetHandler (h : H)
  | LWrite (v : string)
  | LConnect (ok : bool).

Definition step (s : system) (l : label) : IO (option system) :=
  match l with
  | LRun a => run_step s a
  | LClose => mret (Some (Close s))
  | LCancel e => mret (Some (cancel e s))
  | LSetHandler h => mret (Some (SetHandler h s))
  | LWrite v => mret (Some (default s (WriteJSON v s)))
  | LConnect ok => mret (Some (Connect ok s))
  end.

(** Interleavings. *)
Inductive steps : system → World → list label → system → World → Prop :=
  | steps_refl s w : steps s w [] s w
  | steps_step s w l s1 w1 ls s2 w2 :
      step s l w = (Some s1, w1) → steps s1 w1 ls s2 w2 → steps s w (l :: ls) s2 w2.

(** The goroutine of the Kraken adapter's [SubscribeBook], up to its call of [Run]. *)
Definition kraken_goroutine (wsBase sub : string) (h : H) : system :=
  default (new_system (NewClient wsBase "kraken"))
    (WriteJSON sub (Connect true (SetHandler h (new_system (NewClient wsBase "kraken"))))).

(** That of the Binance adapter, after it has primed the books. *)
Definition binance_goroutine (url : string) (h : H) : system :=
  SetHandler h (new_system (NewClient url "binance")).

End Client.
Arguments Client H : clear implicits.
Arguments system H : clear implicits.
Arguments label H : clear implicits.
Arguments run_state H : clear implicits.

(** ** Properties *)
Section ClientFacts.
Context `{E : Env} {H : Type}.
Implicit Types (s : system H) (l : label H).

(** [Run] is the only caller of [connect]. *)
Definition only_run_dials l : Prop := match l with LConnect _ => False | _ => True end.

(** The labels of a client nobody else has a reference to. *)
Definition private_label l : Prop :=
  match l with LRun _ | LClose | LCancel _ => True | _ => False end.


(** A property that every step keeps holds along every interleaving. *)
Lemma steps_invariant (P : system H → Prop) (allowed : label H → Prop) :
  (∀ s w l s' w', P s → allowed l → step s l w = (Some s', w') → P s') →
  ∀ s w ls s' w', steps s w ls s' w' → Forall allowed ls → P s → P s'.
Proof.
  intros Hstep s w ls s' w'. induction 1 as [|s w l s1 w1 ls s2 w2 Hs _ IH]; [done|].
  intros [Hl Hls]%Forall_cons Hp. apply IH; [done|]. by eapply Hstep.
Qed.

(** What a step of [Run] does to a system, one case per answer. *)
Inductive run_case : system H → answer → system H → Prop :=
  | run_top s b : pc s = RTop b →
      run_case s AGo (at_ (if c_closed (client s) then RReturned None else RDialing b) s)
  | run_dialed s b : pc s = RDialing b → run_case s ADialed (at_ RRead (connected s))
  | run_refused_done s b e : pc s = RDialing b → ctx_err s = Some e →
      run_case s ADialError (at_ (RReturned (Some e)) s)
  | run_refused s b b' w : pc s = RDialing b → ctx_err s = None →
      fst (nextBackoff b (c_maxBackoff (client s)) w) = b' → run_case s ADialError (at_ (RWaiting b') s)
  | run_waited s b : pc s = RWaiting b → run_case s AGo (at_ (RTop b) s)
  | run_cancelled s b e : pc s = RWaiting b → ctx_err s = Some e →
      run_case s ACancelled (at_ (RReturned (Some e)) s)
  | run_read s n : pc s = RRead → c_conn (client s) = Some n → c_closed (client s) = false →
      run_case s AGo (at_ (RReading n (c_handler (client s))) s)
  | run_no_read s : pc s = RRead → (c_conn (client s) = None ∨ c_closed (client s) = true) →
      run_case s AGo (at_ RLost s)
  | run_message s n h msg : pc s = RReading n h → run_case s (AMessage msg) (at_ (RHandling n h msg) s)
  | run_handle s n h msg : pc s = RHandling n h msg →
      run_case s AGo (mkSystem (client s) RRead (dialed s) (shut s) (frames s)
        (match h with Some _ => received s ++ [(n, msg)] | None => received s end) (ctx_err s))
  | run_read_error s n h : pc s = RReading n h → run_case s AReadError (at_ RLost s)
  | run_lost_done s e : pc s = RLost → ctx_err s = Some e → run_case s AGo (at_ (RReturned (Some e)) s)
  | run_lost s b w : pc s = RLost → ctx_err s = None →
      fst (nextBackoff minBackoff (c_maxBackoff (client s)) w) = b →
      run_case s AGo (at_ (RWaiting b)
        (with_client (set_conn None (client s)) (shut_conn (c_conn (client s)) s))).

Lemma run_step_case s a w s' w' : run_step s a w = (Some s', w') → run_case s a s'.
Proof.
  unfold run_step. destruct (pc s) eqn:Hpc, a; try (intros [=]; fail).
  - intros [= <- _]. by eapply run_top.
  - rewrite bind_run. intros [= <- _]. by eapply run_dialed.
  - destruct (ctx_err s) as [e|] eqn:He.
    + intros [= <- _]. by eapply run_refused_done.
    + rewrite bind_run. intros [= <- _]. by eapply run_refused.
  - intros [= <- _]. by eapply run_waited.
  - destruct (ctx_err s) as [e|] eqn:He; [|done]. intros [= <- _]. by eapply run_cancelled.
  - destruct (c_conn (client s)) as [n|] eqn:Hc; [destruct (c_closed (client s)) eqn:Hcl|];
      intros [= <- _]; [by eapply run_no_read; [|right]|by eapply run_read|by eapply run_no_read; [|left]].
  - intros [= <- _]. by eapply run_message.
  - intros [= <- _]. by eapply run_read_error.
  - intros [= <- _]. by eapply run_handle.
  - destruct (ctx_err s) as [e|] eqn:He.
    + intros [= <- _]. by eapply run_lost_done.
    + rewrite bind_run. destruct (nextBackoff minBackoff (c_maxBackoff (client s)) w) as [b w1] eqn:Hb.
      cbn [fst snd mret io_ret]. intros [= <- _]. eapply (run_lost s b w); [done|done|by rewrite Hb].
Qed.

(** Splits a step into its cases. *)
Ltac step_cases Hs :=
  match type of Hs with step ?s ?l _ = _ =>
    destruct l; cbn [step] in Hs;
    [apply run_step_case in Hs; inversion Hs; subst; clear Hs
    |injection Hs as <- _..] end.

(** *** Closing *)








(** *** The order of messages *)

(** The connection [Run] reads. *)
Definition reading (p : run_state H) : option nat :=
  match p with RReading n _ | RHandling n _ _ => Some n | _ => None end.

Definition ordered s : Prop :=
  (∀ n, c_conn (client s) = Some n → S n = dialed s)
  ∧ (∀ n, reading (pc s) = Some n → c_conn (client s) = Some n)
  ∧ StronglySorted le (map fst (received s)) ∧ Forall (λ m, S (fst m) ≤ dialed s)%nat (received s).

Lemma ordered_step s w l s' w' :
  ordered s → only_run_dials l → step s l w = (Some s', w') → ordered s'.
Proof.
  intros Ho Hl Hs. unfold ordered in *. destruct Ho as (H1 & H2 & H3 & H4).
  assert (Forall (λ m, S (fst m) ≤ S (dialed s))%nat (received s)) as H4'.
  { eapply Forall_impl; [exact H4|]. cbn. lia. }
  step_cases Hs; cbn; repeat match goal with Hpc : pc s = _ |- _ => rewrite Hpc in H2; cbn in H2 end;
    try (split_and!; done).
  - split_and!; try done. intros n. by destruct (c_closed (client s)).
  - split_and!; try done. by intros n [= <-].
  - split_and!; try done. by intros n' [= <-].
  - destruct h; [|by split_and!]. pose proof (H1 _ (H2 n eq_refl)) as Hn. split_and!; try done.
    + rewrite map_app. apply StronglySorted_app_2; [|done|repeat constructor].
      intros x y Hx ->%list_elem_of_singleton. apply list_elem_of_fmap in Hx as (m & -> & Hm).
      rewrite Forall_forall in H4. specialize (H4 m Hm). cbn in *. lia.
    + apply Forall_app. split; [done|]. repeat constructor. cbn. lia.
  - by destruct (c_conn (client s)).
  - unfold Close. by destruct (c_conn (client s)) eqn:Hc; cbn; rewrite ?Hc.
  - unfold WriteJSON. by destruct (c_conn (client s)) eqn:Hc; cbn; rewrite ?Hc.
Qed.

(** If only Run dials, the connections whose messages the handler was given never go
    back: the messages come in the order of the connections, all of connections
    already dialled, and Run reads the connection the client holds. *)
Theorem messages_in_connection_order url venue w ls s w1 :
  steps (new_system (NewClient url venue)) w ls s w1 → Forall only_run_dials ls →
  StronglySorted le (map fst (received s)) ∧ Forall (λ m, (fst m < dialed s)%nat) (received s)
  ∧ ∀ n, reading (pc s) = Some n → c_conn (client s) = Some n ∧ Forall (λ m, (fst m ≤ n)%nat) (received s).
Proof.
  intros Hsteps Hls. assert (ordered s) as (H1 & H2 & H3 & H4).
  { eapply (steps_invariant ordered only_run_dials); [|exact Hsteps|exact Hls|].
    - intros s0 w0 l s1 w3. apply ordered_step.
    - unfold ordered. cbn. split_and!; [done|done|constructor|constructor]. }
  split; [done|]. split; [eapply Forall_impl; [exact H4|]; cbn; lia|].
  intros n Hpc. split; [by apply H2|]. specialize (H1 n (H2 n Hpc)).
  eapply Forall_impl; [exact H4|]. cbn. lia.
Qed.

(** *** The wait between connections *)

Definition backoff_ok s : Prop :=
  c_maxBackoff (client s) = defaultMaxBackoff
  ∧ match pc s with
    | RTop b | RDialing b => minBackoff ≤ b ≤ defaultMaxBackoff
    | RWaiting b => 2 * minBackoff ≤ b ≤ defaultMaxBackoff
    | _ => True
    end.

Lemma backoff_step `{!RandRange E} s w l s' w' :
  backoff_ok s → True → step s l w = (Some s', w') → backoff_ok s'.
Proof.
  intros [Hm Hb] _ Hs. unfold backoff_ok, minBackoff, defaultMaxBackoff, Millisecond, Second in *.
  step_cases Hs; cbn;
    repeat match goal with Hpc : pc s = _ |- _ => rewrite Hpc in Hb; cbn in Hb end; try (split; (done || lia)).
  - split; [done|]. by destruct (c_closed (client s)).
  - split; [done|]. rewrite Hm.
    assert (0 < b < 2 ^ 53) as Hlt by lia.
    match goal with |- _ ≤ fst (nextBackoff ?b ?m ?w0) ≤ _ => pose proof (next_backoff_range b m w0 Hlt) end.
    lia.
  - split; [by destruct (c_conn (client s))|]. rewrite Hm.
    match goal with |- _ ≤ fst (nextBackoff ?b ?m ?w0) ≤ _ =>
      pose proof (next_backoff_range b m w0 ltac:(unfold minBackoff, Millisecond; lia)) end.
    unfold minBackoff, Millisecond in *. lia.
  - unfold Close. by destruct (c_conn (client s)).
  - unfold WriteJSON. by destruct (c_conn (client s)).
  - unfold Connect. by destruct ok.
Qed.

(** C20: Every wait of Run between two connection attempts, in any execution of a new
    client, lasts at least 200 ms and at most 30 s. *)
Theorem client_waits_bounded `{!RandRange E} url venue w ls s w1 b :
  steps (new_system (NewClient url venue)) w ls s w1 → pc s = RWaiting b →
  200 * Millisecond ≤ b ≤ 30 * Second.
Proof.
  intros Hsteps Hpc.
  assert (backoff_ok s) as [_ Hb].
  { eapply (steps_invariant backoff_ok (λ _, True)); [|exact Hsteps|by apply Forall_true|].
    - intros s0 w0 l s1 w3. apply backoff_step.
    - unfold backoff_ok, new_system. cbn [pc client].
      unfold minBackoff, defaultMaxBackoff, Millisecond, Second. split; [done|lia]. }
  rewrite Hpc in Hb. exact Hb.
Qed.

(** *** The Kraken subscription *)

Definition unsubscribed (sub : string) s : Prop :=
  frames s = [(0%nat, sub)] ∧ (1 ≤ dialed s)%nat
  ∧ match pc s with
    | RRead => ∃ n, c_conn (client s) = Some (S n)
    | RReading n _ | RHandling n _ _ => (1 ≤ n)%nat ∧ ∃ n, c_conn (client s) = Some (S n)
    | _ => True
    end
  ∧ Forall (λ m, (1 ≤ fst m)%nat) (received s).

Lemma unsubscribed_step sub s w l s' w' :
  unsubscribed sub s → private_label l → step s l w = (Some s', w') → unsubscribed sub s'.
Proof.
  intros (Hf & Hd & Hp & Hm) Hl Hs. unfold unsubscribed in *. step_cases Hs; cbn; try done;
    repeat match goal with Hpc : pc s = _ |- _ => rewrite Hpc in Hp end; try (split_and!; (done || lia)).
  - split_and!; try done. by destruct (c_closed (client s)).
  - split_and!; try (done || lia). destruct (dialed s) as [|n]; [lia|]. by exists n.
  - destruct Hp as [m Hp]. split_and!; try done; [|by exists m]. simplify_eq. lia.
  - destruct Hp. by split_and!.
  - destruct Hp as [Hn Hp]. split_and!; try done. destruct h; [|done].
    apply Forall_app. split; [done|]. by repeat constructor.
  - by destruct (c_conn (client s)).
  - unfold Close. destruct (c_conn (client s)) eqn:Hc; cbn; rewrite ?Hc; done.
Qed.

(** C19: In every execution of the Kraken goroutine (Connect, WriteJSON, Run), which
    alone uses its client, the subscription is the only frame written and goes out
    on connection 0, while Run dials again and reads connections other than 0 only:
    no message of the subscribed connection ever reaches the handler, and no
    connection that is read was subscribed. *)
Theorem kraken_subscription_not_on_read_connection wsBase sub (h : H) w ls s w1 :
  steps (kraken_goroutine wsBase sub h) w ls s w1 → Forall private_label ls →
  frames s = [(0%nat, sub)] ∧ Forall (λ m, fst m ≠ 0%nat) (received s)
  ∧ ∀ n h', pc s = RReading n h' → n ≠ 0%nat.
Proof.
  intros Hsteps Hls.
  assert (unsubscribed sub s) as (Hf & _ & Hp & Hm).
  { eapply (steps_invariant (unsubscribed sub) private_label); [|exact Hsteps|exact Hls|].
    - intros s0 w0 l s1 w3. apply unsubscribed_step.
    - unfold unsubscribed. cbn. split_and!; [done|lia|done|constructor]. }
  split; [done|]. split; [eapply Forall_impl; [exact Hm|]; cbn; lia|].
  intros n h' Hpc. rewrite Hpc in Hp. lia.
Qed.

(** The messages [Run] reads. *)
Definition message_of l : list string := match l with LRun (AMessage msg) => [msg] | _ => [] end.

(** A message that was read and not yet handled. *)
Definition in_hand (p : run_state H) : list string := match p with RHandling _ _ msg => [msg] | _ => [] end.

(** The handler is set, also in the read that is under way. *)
Definition handled s : Prop :=
  is_Some (c_handler (client s))
  ∧ match pc s with RReading _ h | RHandling _ h _ => is_Some h | _ => True end.

Lemma handled_step s w l s' w' :
  handled s → private_label l → step s l w = (Some s', w') →
  handled s' ∧ map snd (received s') ++ in_hand (pc s') = map snd (received s) ++ in_hand (pc s) ++ message_of l
  ∧ frames s' = frames s.
Proof.
  intros [Hh Hp] Hl Hs. unfold handled. step_cases Hs; cbn [private_label] in Hl; try done; cbn;
    repeat match goal with Hpc : pc s = _ |- _ => rewrite ?Hpc; rewrite Hpc in Hp; cbn in Hp end;
    cbn; rewrite ?app_nil_r; try done.
  - destruct (c_closed (client s)); cbn; by rewrite app_nil_r.
  - destruct Hp as [h' ->]. by rewrite map_app.
  - by destruct (c_conn (client s)); cbn; rewrite ?app_nil_r.
  - unfold Close. by destruct (c_conn (client s)); cbn.
Qed.

(** In every execution of the Binance goroutine, which alone uses its client, the
    handler is given exactly the messages that are read, in order, and nothing is
    written. *)
Theorem binance_messages_reach_handler url (h : H) w ls s w1 :
  steps (binance_goroutine url h) w ls s w1 → Forall private_label ls →
  map snd (received s) ++ in_hand (pc s) = flat_map message_of ls ∧ frames s = [].
Proof.
  assert (∀ s0 w ls s w1, steps s0 w ls s w1 → Forall private_label ls → handled s0 →
    map snd (received s) ++ in_hand (pc s) = (map snd (received s0) ++ in_hand (pc s0)) ++ flat_map message_of ls
    ∧ frames s = frames s0) as Hgen.
  { clear. intros s0 w ls s w1. induction 1 as [|s0 w l s1 w1 ls s2 w2 Hs _ IH]; intros Hls Hh; [by rewrite app_nil_r|].
    apply Forall_cons in Hls as [Hl Hls]. destruct (handled_step s0 w l s1 w1 Hh Hl Hs) as (Hh1 & Hr & Hf).
    destruct (IH Hls Hh1) as [-> ->]. cbn [flat_map]. by rewrite Hr, Hf, <- !app_assoc. }
  intros Hsteps Hls. apply (Hgen _ _ _ _ _ Hsteps Hls). split; [by eexists|done].
Qed.
End ClientFacts.

(** ** Witnesses *)
Section Witnesses.
#[local] Existing Instance demo_env.
#[local] Instance demo_rand_range : RandRange demo_env := demo_rand.

(** Executes labels, for the concrete runs. *)
Fixpoint run_labels (s : system unit) (w : World) (ls : list (label unit)) : option (system unit * World) :=
  match ls with
  | [] => Some (s, w)
  | l :: ls => match step s l w with (Some s, w) => run_labels s w ls | _ => None end
  end.

Lemma run_labels_steps s w ls s' w' : run_labels s w ls = Some (s', w') → steps s w ls s' w'.
Proof.
  revert s w. induction ls as [|l ls IH]; intros s w; cbn; [intros [= -> ->]; constructor|].
  destruct (step s l w) as [[s1|] w1] eqn:Hs; [|done]. intros Hr. by econstructor; [|apply IH].
Qed.

Definition demo_client : system unit := new_system (NewClient "wss://v" "v").

(** Dial, receive two messages, lose the connection, fail to dial twice. *)
Definition demo_labels : list (label unit) :=
  [LSetHandler tt; LRun AGo; LRun ADialed; LRun AGo; LRun (AMessage "m1"); LRun AGo; LRun AGo;
   LRun (AMessage "m2"); LRun AGo; LRun AGo; LRun AReadError; LRun AGo; LRun AGo; LRun AGo; LRun ADialError].

Definition end_of (o : option (system unit * World)) : system unit :=
  match o with Some (s, _) => s | None => demo_client end.
Definition world_of (o : option (system unit * World)) : World :=
  match o with Some (_, w) => w | None => world0 end.

Lemma end_of_steps s ls :
  bool_decide (is_Some (run_labels s world0 ls)) = true →
  steps s world0 ls (end_of (run_labels s world0 ls)) (world_of (run_labels s world0 ls)).
Proof.
  intros H. destruct (run_labels s world0 ls) as [[s' w']|] eqn:Hr; [by apply run_labels_steps|].
  apply bool_decide_eq_true in H as [? H]. done.
Qed.

Lemma messages_in_connection_order_witness :
  let s := end_of (run_labels demo_client world0 demo_labels) in
  received s = [(0%nat, "m1"); (0%nat, "m2")] ∧ StronglySorted le (map fst (received s)).
Proof.
  split; [vm_compute; reflexivity|].
  exact (proj1 (messages_in_connection_order "wss://v" "v" world0 demo_labels _ _
    (end_of_steps demo_client demo_labels eq_refl) ltac:(repeat constructor))).
Defined.

Lemma client_waits_bounded_witness :
  ∃ b, pc (end_of (run_labels demo_client world0 demo_labels)) = RWaiting b
    ∧ 200 * Millisecond ≤ b ≤ 30 * Second.
Proof.
  eexists. split; [vm_compute; reflexivity|].
  apply (client_waits_bounded "wss://v" "v" world0 demo_labels _ _ _
    (end_of_steps demo_client demo_labels eq_refl)). vm_compute. reflexivity.
Defined.




Definition kraken_labels : list (label unit) :=
  [LRun AGo; LRun ADialed; LRun AGo; LRun (AMessage "m"); LRun AGo].

Lemma kraken_subscription_witness_run :
  received (end_of (run_labels (kraken_goroutine "wss://k" "sub" tt) world0 kraken_labels)) = [(1%nat, "m")].
Proof. vm_compute. reflexivity. Qed.

Lemma kraken_subscription_not_on_read_connection_witness :
  frames (end_of (run_labels (kraken_goroutine "wss://k" "sub" tt) world0 kraken_labels)) = [(0%nat, "sub")].
Proof.
  exact (proj1 (kraken_subscription_not_on_read_connection "wss://k" "sub" tt world0 kraken_labels _ _
    (end_of_steps (kraken_goroutine "wss://k" "sub" tt) kraken_labels eq_refl) ltac:(repeat constructor))).
Defined.
End Witnesses.
