(* ===== verification/Json.v ===== *)
(** * encoding/json: what the program uses of it

    A parser of JSON text into a tree that keeps the raw text, the decoding of a
    tree into Go values (field matching, [null], type mismatches that are
    recorded while decoding goes on), and the encoder. *)

From Stdlib Require Import Floats.SpecFloat.
From S2P Require Export World.

#[local] Set Warnings "-register-all".

(** ** Values *)

(** Strings, arrays and objects carry the text they were read from. *)
Inductive json :=
  | JNull
  | JBool (b : bool)
  | JNum (raw : string)
  | JStr (raw : string) (s : string)
  | JArr (raw : string) (l : list json)
  | JObj (raw : string) (l : list (string * json)).

Definition raw_of (j : json) : string :=
  match j with
  | JNull => "null"
  | JBool b => if b then "true" else "false"
  | JNum raw => raw
  | JStr raw _ => raw
  | JArr raw _ => raw
  | JObj raw _ => raw
  end.

(** ** Text *)

Definition is_ws (c : ascii) : bool :=
  let b := byte c in (b =? 32) || (b =? 9) || (b =? 10) || (b =? 13).

Fixpoint skip_ws (s : string) : string :=
  match s with
  | String c r => if is_ws c then skip_ws r else s
  | EmptyString => s
  end.

(** The text consumed between [s] and its suffix [rest]. *)
Definition consumed (s rest : string) : string :=
  str_take (String.length s - String.length rest) s.

Definition nth_byte (s : string) (i : nat) : Z :=
  match String.get i s with Some c => byte c | None => -1 end.

(** The width of the UTF-8 sequence [s] starts with, 0 if it is not valid. *)
Definition utf8_width (s : string) : nat :=
  let b0 := nth_byte s 0 in let b1 := nth_byte s 1 in
  let b2 := nth_byte s 2 in let b3 := nth_byte s 3 in
  let cont b := in_range 128 191 b in
  if in_range 0 127 b0 then 1%nat
  else if in_range 194 223 b0 && cont b1 then 2%nat
  else if (if b0 =? 224 then in_range 160 191 b1
           else if b0 =? 237 then in_range 128 159 b1
           else in_range 225 239 b0 && cont b1) && cont b2 then 3%nat
  else if (if b0 =? 240 then in_range 144 191 b1
           else if b0 =? 244 then in_range 128 143 b1
           else in_range 241 243 b0 && cont b1) && cont b2 && cont b3 then 4%nat
  else 0%nat.

(** U+FFFD. *)
Definition replacement : string := String (chr 239) (String (chr 191) (String (chr 189) "")).

Definition utf8_encode (r : Z) : string :=
  if r <? 128 then String (chr r) ""
  else if r <? 2048 then String (chr (192 + r / 64)) (String (chr (128 + r mod 64)) "")
  else if in_range 55296 57343 r then replacement
  else if r <? 65536 then
    String (chr (224 + r / 4096)) (String (chr (128 + r / 64 mod 64)) (String (chr (128 + r mod 64)) ""))
  else
    String (chr (240 + r / 262144)) (String (chr (128 + r / 4096 mod 64))
      (String (chr (128 + r / 64 mod 64)) (String (chr (128 + r mod 64)) ""))).

Definition hex_value (b : Z) : option Z :=
  if in_range 48 57 b then Some (b - 48)
  else if in_range 97 102 b then Some (b - 87)
  else if in_range 65 70 b then Some (b - 55)
  else None.

(** The code unit of the four hexadecimal digits [s] starts with. *)
Definition hex4 (s : string) : option Z :=
  a ← hex_value (nth_byte s 0); b ← hex_value (nth_byte s 1);
  c ← hex_value (nth_byte s 2); d ← hex_value (nth_byte s 3);
  Some (a * 4096 + b * 256 + c * 16 + d).

Definition simple_escape (b : Z) : option Z :=
  if (b =? 34) || (b =? 92) || (b =? 47) then Some b
  else if b =? 98 then Some 8
  else if b =? 102 then Some 12
  else if b =? 110 then Some 10
  else if b =? 114 then Some 13
  else if b =? 116 then Some 9
  else None.

(** The rest of a string literal after its opening quote: value and remaining text. *)
Fixpoint parse_str (fuel : nat) (s : string) : option (string * string) :=
  match fuel, s with
  | S fuel, String c r =>
      let b := byte c in
      let continue (out : string) (r : string) :=
        '(v, rest) ← parse_str fuel r; Some (out +:+ v, rest) in
      if b =? 34 then Some ("", r)
      else if b =? 92 then
        match r with
        | EmptyString => None
        | String e r' =>
            if byte e =? 117 then
              u ← hex4 r';
              let r'' := str_drop 4 r' in
              if in_range 55296 57343 u then
                let low := if HasPrefix r'' "\u" then hex4 (str_drop 2 r'') else None in
                match low with
                | Some l =>
                    if (u <? 56320) && in_range 56320 57343 l
                    then continue (utf8_encode (65536 + (u - 55296) * 1024 + (l - 56320)))
                                  (str_drop 6 r'')
                    else continue replacement r''
                | None => continue replacement r''
                end
              else continue (utf8_encode u) r''
            else
              v ← simple_escape (byte e);
              continue (String (chr v) "") r'
        end
      else if b <? 32 then None
      else
        match utf8_width s with
        | O => continue replacement r
        | n => continue (str_take n s) (str_drop n s)
        end
  | _, _ => None
  end.

Fixpoint span_digits (s : string) : string * string :=
  match s with
  | String c r => if is_digit c then let '(d, rest) := span_digits r in (String c d, rest) else ("", s)
  | EmptyString => ("", s)
  end.

(** The remaining text after a JSON number, [None] if there is none. *)
Definition skip_number (s : string) : option string :=
  let s := TrimPrefix s "-" in
  let '(int, s) := span_digits s in
  let ok := match int with
            | EmptyString => false
            | String c r => String.eqb r "" || negb (Ascii.eqb c "0"%char)
            end in
  if negb ok then None else
  match
    (if HasPrefix s "." then
       let '(frac, s) := span_digits (str_drop 1 s) in
       if String.eqb frac "" then None else Some s
     else Some s)
  with
  | None => None
  | Some s =>
      if HasPrefix s "e" || HasPrefix s "E" then
        let s := str_drop 1 s in
        let s := if HasPrefix s "+" || HasPrefix s "-" then str_drop 1 s else s in
        let '(ex, s) := span_digits s in
        if String.eqb ex "" then None else Some s
      else Some s
  end.

Definition literal (s lit : string) : option string :=
  if HasPrefix s lit then Some (str_drop (String.length lit) s) else None.

Definition max_depth : Z := 10000.

(** A value and the remaining text. *)
Fixpoint parse_value (fuel : nat) (depth : Z) (s : string) : option (json * string) :=
  match fuel with
  | O => None
  | S fuel =>
      let s := skip_ws s in
      match s with
      | EmptyString => None
      | String c r =>
          let b := byte c in
          if b =? 123 then
            if max_depth <=? depth then None else
            let r1 := skip_ws r in
            if HasPrefix r1 "}" then Some (JObj (consumed s (str_drop 1 r1)) [], str_drop 1 r1)
            else '(ms, rest) ← parse_members fuel (depth + 1) r1;
                 Some (JObj (consumed s rest) ms, rest)
          else if b =? 91 then
            if max_depth <=? depth then None else
            let r1 := skip_ws r in
            if HasPrefix r1 "]" then Some (JArr (consumed s (str_drop 1 r1)) [], str_drop 1 r1)
            else '(l, rest) ← parse_elements fuel (depth + 1) r1;
                 Some (JArr (consumed s rest) l, rest)
          else if b =? 34 then
            '(v, rest) ← parse_str (String.length r) r;
            Some (JStr (consumed s rest) v, rest)
          else if b =? 110 then rest ← literal s "null"; Some (JNull, rest)
          else if b =? 116 then rest ← literal s "true"; Some (JBool true, rest)
          else if b =? 102 then rest ← literal s "false"; Some (JBool false, rest)
          else rest ← skip_number s; Some (JNum (consumed s rest), rest)
      end
  end
with parse_members (fuel : nat) (depth : Z) (s : string) : option (list (string * json) * string) :=
  match fuel with
  | O => None
  | S fuel =>
      let s := skip_ws s in
      if negb (HasPrefix s dquote) then None else
      '(k, r) ← parse_str (String.length s) (str_drop 1 s);
      let r := skip_ws r in
      if negb (HasPrefix r ":") then None else
      '(v, r) ← parse_value fuel depth (str_drop 1 r);
      let r := skip_ws r in
      if HasPrefix r "}" then Some ([(k, v)], str_drop 1 r)
      else if HasPrefix r "," then
        '(ms, r) ← parse_members fuel depth (str_drop 1 r); Some ((k, v) :: ms, r)
      else None
  end
with parse_elements (fuel : nat) (depth : Z) (s : string) : option (list json * string) :=
  match fuel with
  | O => None
  | S fuel =>
      '(v, r) ← parse_value fuel depth s;
      let r := skip_ws r in
      if HasPrefix r "]" then Some ([v], str_drop 1 r)
      else if HasPrefix r "," then
        '(l, r) ← parse_elements fuel depth (str_drop 1 r); Some (v :: l, r)
      else None
  end.

(** Each level of nesting and each member or element consumes a byte. *)
Definition json_fuel (s : string) : nat := S (2 * String.length s).

(** The tree of a complete JSON text, as [json.Unmarshal] checks it. *)
Definition parse_json (s : string) : option json :=
  '(v, rest) ← parse_value (json_fuel s) 0 s;
  if String.eqb (skip_ws rest) "" then Some v else None.

(** The first value of a stream, as [json.Decoder.Decode] reads it. *)
Definition parse_stream (s : string) : option json :=
  '(v, rest) ← parse_value (json_fuel s) 0 s;
  match v, rest with
  | JObj _ _, _ | JArr _ _, _ | _, EmptyString => Some v
  | _, String c _ => if is_ws c then Some v else None
  end.

(** ** Decoding into Go values

    A decoder updates the value in place and says whether every part of the
    text had the right type; a mismatch leaves its part unchanged. *)
Definition decoder (A : Type) : Type := json → A → A * bool.

Definition decode_string : decoder string := λ j old,
  match j with JStr _ s => (s, true) | JNull => (old, true) | _ => (old, false) end.

Definition decode_int64 : decoder Z := λ j old,
  match j with
  | JNum raw => match ParseInt raw with Some z => (z, true) | None => (old, false) end
  | JNull => (old, true)
  | _ => (old, false)
  end.

(** The decimal value of a JSON number: mantissa and power of ten. *)
Definition number_parts (raw : string) : bool * Z * Z :=
  let neg := HasPrefix raw "-" in
  let s := TrimPrefix raw "-" in
  let '(int, s) := span_digits s in
  let '(frac, s) := if HasPrefix s "." then span_digits (str_drop 1 s) else ("", s) in
  let e := if String.eqb s "" then 0
           else let s := str_drop 1 s in
                let v := default 0 (parse_digits (TrimPrefix (TrimPrefix s "-") "+") 0) in
                if HasPrefix s "-" then - v else v in
  (neg, default 0 (parse_digits (int +:+ frac) 0), e - Z.of_nat (String.length frac)).

(** [strconv.ParseFloat], correctly rounded; an overflow is an error. *)
Definition parse_float (raw : string) : option float64 :=
  let '(neg, m, e) := number_parts raw in
  let f :=
    match m with
    | Zpos p =>
        if 0 <=? e then binary_normalize 53 1024 (Zpos p * 10 ^ e) 0 false
        else match 10 ^ (- e) with
             | Zpos q => SFdiv 53 1024 (S754_finite false p 0) (S754_finite false q 0)
             | _ => S754_nan
             end
    | _ => S754_zero false
    end in
  match f with
  | S754_infinity _ => None
  | _ => Some (if neg then SFopp f else f)
  end.

Definition decode_float : decoder float64 := λ j old,
  match j with
  | JNum raw => match parse_float raw with Some f => (f, true) | None => (old, false) end
  | JNull => (old, true)
  | _ => (old, false)
  end.

Fixpoint decode_elems {A} (d : decoder A) (zero : A) (l : list json) (old : list A) : list A * bool :=
  match l with
  | [] => ([], true)
  | j :: l =>
      let '(o, old) := match old with [] => (zero, []) | o :: old => (o, old) end in
      let '(a, ok) := d j o in
      let '(l, oks) := decode_elems d zero l old in
      (a :: l, ok && oks)
  end.

Definition decode_list {A} (d : decoder A) (zero : A) : decoder (list A) := λ j old,
  match j with
  | JArr _ l => decode_elems d zero l old
  | JNull => ([], true)
  | _ => (old, false)
  end.

(** [[2]string]: missing entries are zeroed, further ones skipped. *)
Definition decode_pair : decoder (string * string) := λ j old,
  match j with
  | JArr _ [] => (("", ""), true)
  | JArr _ [a] => let '(x, ok) := decode_string a (fst old) in ((x, ""), ok)
  | JArr _ (a :: b :: _) =>
      let '(x, ok) := decode_string a (fst old) in
      let '(y, ok') := decode_string b (snd old) in ((x, y), ok && ok')
  | JNull => (old, true)
  | _ => (old, false)
  end.

(** Keys match a field name exactly or under case folding; beyond ASCII letters
    only U+212A and U+017F fold into ASCII. *)
Fixpoint fold_from (skip : nat) (s : string) : string :=
  match s with
  | EmptyString => EmptyString
  | String c r =>
      match skip with
      | S skip => fold_from skip r
      | O =>
          if HasPrefix s (utf8_encode 8490) then String "K"%char (fold_from 2 r)
          else if HasPrefix s (utf8_encode 383) then String "S"%char (fold_from 1 r)
          else String (upper_byte c) (fold_from 0 r)
      end
  end.

Definition fold_name : string → string := fold_from 0.

Definition key_is (name key : string) : bool :=
  String.eqb key name || String.eqb (fold_name key) (fold_name name).

Fixpoint decode_members {A} (field : string → json → A → A * bool)
    (ms : list (string * json)) (a : A) : A * bool :=
  match ms with
  | [] => (a, true)
  | (k, j) :: ms =>
      let '(a, ok) := field k j a in
      let '(a, oks) := decode_members field ms a in (a, ok && oks)
  end.

Definition decode_struct {A} (field : string → json → A → A * bool) : decoder A := λ j old,
  match j with
  | JObj _ ms => decode_members field ms old
  | JNull => (old, true)
  | _ => (old, false)
  end.

(** A field of a struct, by its accessors. *)
Definition on_field {A B} (d : decoder B) (get : A → B) (set : B → A → A) (j : json) (a : A)
    : A * bool :=
  let '(b, ok) := d j (get a) in (set b a, ok).

(** A map: every entry is decoded into a fresh element. *)
Definition decode_map {A} (d : decoder A) (zero : A) : decoder (gmap string A) := λ j old,
  match j with
  | JObj _ ms =>
      decode_members (λ k j m, let '(a, ok) := d j zero in (<[k := a]> m, ok)) ms old
  | JNull => (∅, true)
  | _ => (old, false)
  end.

(** [json.Unmarshal(text, &v)]: the value left in [v] and whether there was no error. *)
Definition unmarshal {A} (d : decoder A) (text : string) (v : A) : A * bool :=
  match parse_json text with Some j => d j v | None => (v, false) end.

(** [json.RawMessage]: the text of a value, absent when the key is. *)
Definition raw_message : Type := option json.

Definition decode_raw : decoder raw_message := λ j _, (Some j, true).

(** [json.Unmarshal] of a raw message; the empty one is a syntax error. *)
Definition unmarshal_raw {A} (d : decoder A) (r : raw_message) (v : A) : A * bool :=
  match r with Some j => d j v | None => (v, false) end.

(** ** Encoding *)

Inductive jvalue :=
  | VNull
  | VStr (s : string)
  | VInt (z : Z)
  | VRaw (text : string)
  | VArr (l : list jvalue)
  | VObj (l : list (string * jvalue)).

Definition hex_digit (d : Z) : ascii := chr (if d <? 10 then 48 + d else 87 + d).

(** [\u00XY] for a byte. *)
Definition escape_u (b : Z) : string :=
  "\u00" +:+ String (hex_digit (b / 16)) (String (hex_digit (b mod 16)) "").

Definition escape_byte (b : Z) : string :=
  if (b =? 34) || (b =? 92) then String (chr 92) (String (chr b) "")
  else if b =? 8 then "\b"
  else if b =? 12 then "\f"
  else if b =? 10 then "\n"
  else if b =? 13 then "\r"
  else if b =? 9 then "\t"
  else if (b <? 32) || (b =? 60) || (b =? 62) || (b =? 38) then escape_u b
  else String (chr b) "".

Fixpoint escape (fuel : nat) (s : string) : string :=
  match fuel, s with
  | S fuel, String c r =>
      if byte c <? 128 then escape_byte (byte c) +:+ escape fuel r
      else match utf8_width s with
           | O => "\ufffd" +:+ escape fuel r
           | n =>
               if HasPrefix s (utf8_encode 8232) then "\u2028" +:+ escape fuel (str_drop n s)
               else if HasPrefix s (utf8_encode 8233) then "\u2029" +:+ escape fuel (str_drop n s)
               else str_take n s +:+ escape fuel (str_drop n s)
           end
  | _, _ => ""
  end.

Definition quote (s : string) : string := dquote +:+ escape (String.length s) s +:+ dquote.

Fixpoint print (v : jvalue) : string :=
  match v with
  | VNull => "null"
  | VStr s => quote s
  | VInt z => FormatInt z
  | VRaw t => t
  | VArr l => "[" +:+ Join (map print l) "," +:+ "]"
  | VObj l => "{" +:+ Join (map (λ '(k, v), quote k +:+ ":" +:+ print v) l) "," +:+ "}"
  end.

(** JSON text written with single quotes. *)
Definition jtext (s : string) : string :=
  str_map (λ c, if Ascii.eqb c "'"%char then "034"%char else c) s.

Example jtext_parse : is_Some (parse_json (jtext "{'a': [1, 'b']}")).
Proof. vm_compute. by eexists. Qed.
