(* ===== verification/JsonFacts.v ===== *)
(** * Parsing what was printed

    The round trip of the JSON encoder and parser on flat objects: string members
    (ASCII, with every escape) and integer members. *)

From S2P Require Export Json.

(** ** Strings *)
Lemma parse_escaped_byte c fuel x :
  byte c < 128 →
  parse_str (S fuel) (escape_byte (byte c) +:+ x)
  = ('(v, rest) ← parse_str fuel x; Some (String c v, rest)).
Proof.
  intros H. destruct c as [[] [] [] [] [] [] [] []]; try (vm_compute in H; discriminate H); reflexivity.
Qed.

Lemma escape_cons n c s : byte c < 128 → escape (S n) (String c s) = escape_byte (byte c) +:+ escape n s.
Proof. intros H. cbn [escape]. by destruct (Z.ltb_spec (byte c) 128); [|lia]. Qed.

Lemma is_ascii_cons c s : is_ascii (String c s) = true → byte c < 128 ∧ is_ascii s = true.
Proof. unfold is_ascii. cbn. intros [H1 H2]%andb_prop. split; [lia|done]. Qed.

Lemma parse_escaped s n fuel rest :
  is_ascii s = true → (String.length s ≤ n)%nat → (String.length s < fuel)%nat →
  parse_str fuel (escape n s +:+ dquote +:+ rest) = Some (s, rest).
Proof.
  revert n fuel. induction s as [|c s IH]; intros n fuel Ha Hn Hf.
  - destruct fuel as [|fuel]; [lia|]. destruct n; reflexivity.
  - apply is_ascii_cons in Ha as [Hc Ha]. cbn in Hn, Hf. destruct n as [|n]; [lia|].
    destruct fuel as [|fuel]; [lia|]. rewrite escape_cons, str_app_assoc, parse_escaped_byte by done.
    rewrite IH by (done || lia). done.
Qed.

Lemma escape_length s n : is_ascii s = true → (String.length s ≤ n)%nat →
  (String.length s ≤ String.length (escape n s))%nat.
Proof.
  revert n. induction s as [|c s IH]; intros n Ha Hn; [cbn; lia|].
  apply is_ascii_cons in Ha as [Hc Ha]. cbn in Hn. destruct n as [|n]; [lia|].
  rewrite escape_cons, str_app_length by done. specialize (IH n Ha ltac:(lia)). cbn.
  assert (String.length (escape_byte (byte c)) ≠ O); [|lia].
  unfold escape_byte. repeat case_match; done.
Qed.

(** ** Numbers *)

Definition digits_str (s : string) : bool := str_forallb is_digit s.

Lemma span_digits_app d r :
  digits_str d = true → match r with String c _ => is_digit c = false | _ => True end →
  span_digits (d +:+ r) = (d, r).
Proof.
  induction d as [|c d IH]; intros Hd Hr.
  - change ("" +:+ r) with r. destruct r as [|c r]; [done|]. cbn. by rewrite Hr.
  - cbn in Hd. apply andb_prop in Hd as [Hc Hd]. rewrite str_app_cons. cbn. rewrite Hc.
    by rewrite (IH Hd Hr).
Qed.

Lemma dec_digits_spec fuel n acc :
  0 ≤ n < 2 ^ Z.of_nat fuel → fuel ≠ O →
  ∃ c d, dec_digits fuel n acc = String c d +:+ acc ∧ digits_str (String c d) = true
    ∧ (c = "0"%char → n = 0 ∧ d = "").
Proof.
  revert n acc. induction fuel as [|fuel IH]; intros n acc Hn Hf; [done|].
  cbn [dec_digits].
  pose proof (Z.mod_pos_bound n 10 ltac:(lia)) as Hmod.
  pose proof (is_digit_digit (n mod 10) ltac:(lia)) as [Hd Hb].
  destruct (Z.ltb_spec n 10).
  - exists (digit (n mod 10)), "". split; [done|]. split; [unfold digits_str; cbn; by rewrite Hd|].
    intros Heq. rewrite Heq in Hb. cbn in Hb. rewrite Z.mod_small in Hb by lia. split; [|done].
    change (byte "0"%char) with 48 in Hb. lia.
  - assert (0 ≤ n / 10 < 2 ^ Z.of_nat fuel) as Hn'.
    { rewrite Nat2Z.inj_succ, Z.pow_succ_r in Hn by lia. split; [apply Z.div_pos; lia|].
      apply Z.div_lt_upper_bound; lia. }
    assert (1 ≤ n / 10) by (apply Z.div_le_lower_bound; lia).
    destruct fuel as [|fuel]; [cbn in Hn'; lia|].
    destruct (IH (n / 10) (String (digit (n mod 10)) acc) Hn' ltac:(done)) as (c & d & Heq & Hds & Hz).
    exists c, (d +:+ String (digit (n mod 10)) ""). rewrite Heq. split; [|split].
    + rewrite !str_app_cons, str_app_assoc. done.
    + unfold digits_str in *. cbn in *. apply andb_prop in Hds as [-> Hds].
      rewrite str_forallb_app, Hds. cbn. by rewrite Hd.
    + intros ->. destruct (Hz eq_refl). lia.
Qed.

Lemma fmt_nat_spec n : 0 ≤ n →
  ∃ c d, fmt_nat n = String c d ∧ digits_str (String c d) = true ∧ (c = "0"%char → d = "").
Proof.
  intros Hn. destruct (dec_digits_spec (S (Z.to_nat (Z.log2 n))) n "") as (c & d & Heq & Hd & Hz).
  - split; [done|]. rewrite Nat2Z.inj_succ, Z2Nat.id by apply Z.log2_nonneg.
    destruct (Z.eq_dec n 0) as [->|]; [done|]. apply Z.log2_spec. lia.
  - done.
  - exists c, d. unfold fmt_nat. rewrite Heq, str_app_nil_r. split_and!; [done|done|]. intros Hc. by apply Hz.
Qed.

(** A delimiter that ends a number. *)
Definition delimited (rest : string) : Prop :=
  match rest with
  | String c _ => c = ","%char ∨ c = "}"%char ∨ c = "]"%char
  | EmptyString => False
  end.

Lemma skip_number_nat n rest : 0 ≤ n → delimited rest → skip_number (fmt_nat n +:+ rest) = Some rest.
Proof.
  intros Hn Hr. destruct (fmt_nat_spec n Hn) as (c & d & -> & Hd & Hz). unfold skip_number.
  assert (is_digit c = true) as Hc by (unfold digits_str in Hd; cbn in Hd; by apply andb_prop in Hd as [? _]).
  assert (TrimPrefix (String c d +:+ rest) "-" = String c d +:+ rest) as ->.
  { unfold TrimPrefix. rewrite str_app_cons, has_prefix_char.
    destruct (Ascii.eqb_spec "-" c) as [<-|]; [done|done]. }
  rewrite span_digits_app; [|done|destruct rest; [done|by destruct Hr as [->|[->| ->]]]].
  replace (String.eqb d "" || negb (Ascii.eqb c "0")) with true.
  - destruct rest; [done|]. by destruct Hr as [->|[->| ->]].
  - destruct (Ascii.eqb_spec c "0"%char) as [->|]; [by rewrite Hz|by rewrite orb_true_r].
Qed.

Lemma skip_number_int z rest : delimited rest → skip_number (FormatInt z +:+ rest) = Some rest.
Proof.
  intros Hr. unfold FormatInt. destruct (Z.ltb_spec z 0) as [Hz|Hz]; [|by apply skip_number_nat].
  pose proof (skip_number_nat (- z) rest ltac:(lia) Hr) as H.
  unfold skip_number in *. rewrite str_app_assoc, trim_prefix_app.
  destruct (fmt_nat_spec (- z)) as (c & d & Heq & Hd & _); [lia|]. rewrite Heq in *.
  assert (TrimPrefix (String c d +:+ rest) "-" = String c d +:+ rest) as Ht; [|by rewrite Ht in H].
  unfold TrimPrefix. rewrite str_app_cons, has_prefix_char.
  destruct (Ascii.eqb_spec "-" c) as [<-|]; done.
Qed.

(** ** Scalars and flat objects *)

Definition scalar (v : jvalue) : Prop :=
  match v with VStr s => is_ascii s = true | VInt _ => True | _ => False end.

Definition of_scalar (v : jvalue) : json :=
  match v with
  | VStr s => JStr (quote s) s
  | VInt z => JNum (FormatInt z)
  | _ => JNull
  end.

Lemma consumed_app s rest : consumed (s +:+ rest) rest = s.
Proof.
  unfold consumed. rewrite str_app_length.
  replace (_ + _ - _)%nat with (String.length s) by lia. apply str_take_app.
Qed.

(** The head of a printed integer. *)
Lemma format_int_head z : ∃ c r, FormatInt z = String c r ∧ (c = "-"%char ∨ is_digit c = true).
Proof.
  unfold FormatInt. destruct (Z.ltb_spec z 0).
  - eexists _, _. split; [reflexivity|]. by left.
  - destruct (fmt_nat_spec z ltac:(lia)) as (c & d & -> & Hd & _). exists c, d. split; [done|]. right.
    unfold digits_str in Hd. cbn in Hd. by apply andb_prop in Hd as [? _].
Qed.

Lemma parse_scalar fuel depth v rest :
  scalar v → delimited rest → parse_value (S fuel) depth (print v +:+ rest) = Some (of_scalar v, rest).
Proof.
  intros Hv Hr. destruct v as [|s|z| | |]; try done; cbn [print of_scalar].
  - cbn in Hv. unfold quote. rewrite !str_app_assoc. unfold dquote at 1.
    rewrite str_app_cons, str_app_nil_l. cbn [parse_value skip_ws].
    change (is_ws "034"%char) with false. cbn iota.
    change (byte "034"%char) with 34. cbn [Z.eqb Pos.eqb].
    rewrite parse_escaped; [|done|lia|].
    + cbn [mbind option_bind]. f_equal. f_equal. f_equal.
      change (String "034" (escape (String.length s) s +:+ dquote +:+ rest))
        with (dquote +:+ escape (String.length s) s +:+ dquote +:+ rest).
      replace (dquote +:+ escape (String.length s) s +:+ dquote +:+ rest)
        with ((dquote +:+ escape (String.length s) s +:+ dquote) +:+ rest) by (by rewrite !str_app_assoc).
      apply consumed_app.
    + rewrite !str_app_length. pose proof (escape_length s (String.length s) Hv ltac:(lia)).
      change (String.length dquote) with 1%nat. lia.
  - destruct (format_int_head z) as (c & r & Hz & Hc).
    pose proof (skip_number_int z rest Hr) as Hsk. pose proof (consumed_app (FormatInt z) rest) as Hcs.
    rewrite Hz in *. rewrite str_app_cons in *. cbn [parse_value skip_ws].
    assert (is_ws c = false ∧ byte c ≠ 123 ∧ byte c ≠ 91 ∧ byte c ≠ 34 ∧ byte c ≠ 110 ∧ byte c ≠ 116
            ∧ byte c ≠ 102) as (-> & H1 & H2 & H3 & H4 & H5 & H6).
    { destruct Hc as [->|Hc]; [by vm_compute|]. unfold is_digit, in_range, is_ws in *. lia. }
    cbn iota.
    rewrite (proj2 (Z.eqb_neq _ _) H1), (proj2 (Z.eqb_neq _ _) H2), (proj2 (Z.eqb_neq _ _) H3),
      (proj2 (Z.eqb_neq _ _) H4), (proj2 (Z.eqb_neq _ _) H5), (proj2 (Z.eqb_neq _ _) H6).
    rewrite Hsk. cbn [mbind option_bind]. by rewrite Hcs.
Qed.

Definition print_member (kv : string * jvalue) : string := quote (fst kv) +:+ ":" +:+ print (snd kv).

Lemma print_obj l : print (VObj l) = "{" +:+ Join (map print_member l) "," +:+ "}".
Proof. cbn. do 3 f_equal. apply map_ext. by intros [k v]. Qed.

Definition flat (l : list (string * jvalue)) : Prop :=
  Forall (λ kv, is_ascii (fst kv) = true ∧ scalar (snd kv)) l.

Lemma skip_ws_quote x : skip_ws (dquote +:+ x) = dquote +:+ x.
Proof. done. Qed.

Lemma parse_member_step fuel depth k v rest :
  is_ascii k = true → scalar v → delimited rest →
  parse_members (S (S fuel)) depth (print_member (k, v) +:+ rest)
  = (if HasPrefix rest "}" then Some ([(k, of_scalar v)], str_drop 1 rest)
     else if HasPrefix rest "," then
       '(ms, r) ← parse_members (S fuel) depth (str_drop 1 rest); Some ((k, of_scalar v) :: ms, r)
     else None).
Proof.
  intros Hk Hv Hr. unfold print_member. cbn [fst snd]. unfold quote. rewrite !str_app_assoc.
  change (S (S fuel)) with (S (S fuel)) at 1.
  cbn [parse_members]. rewrite skip_ws_quote, has_prefix_app.
  cbn [negb]. change (str_drop 1 (dquote +:+ escape (String.length k) k +:+ dquote +:+ ":" +:+ print v +:+ rest))
    with (escape (String.length k) k +:+ dquote +:+ ":" +:+ print v +:+ rest).
  rewrite parse_escaped; [|done|lia|].
  2:{ rewrite !str_app_length. pose proof (escape_length k (String.length k) Hk ltac:(lia)).
      change (String.length dquote) with 1%nat. lia. }
  cbn [mbind option_bind].
  change (skip_ws (":" +:+ print v +:+ rest)) with (":" +:+ print v +:+ rest).
  rewrite has_prefix_app. cbn [negb].
  change (str_drop 1 (":" +:+ print v +:+ rest)) with (print v +:+ rest).
  rewrite parse_scalar by done. cbn [mbind option_bind].
  destruct rest as [|c rest]; [done|].
  by destruct Hr as [->|[->| ->]].
Qed.

Lemma delimited_comma x : delimited ("," +:+ x).
Proof. by left. Qed.
Lemma delimited_brace x : delimited ("}" +:+ x).
Proof. by right; left. Qed.

Lemma parse_members_flat fuel depth l rest :
  flat l → l ≠ [] → (length l < fuel)%nat →
  parse_members fuel depth (Join (map print_member l) "," +:+ "}" +:+ rest)
  = Some (map (λ kv, (fst kv, of_scalar (snd kv))) l, rest).
Proof.
  revert fuel. induction l as [|[k v] l IH]; intros fuel Hl Hne Hf; [done|].
  apply Forall_cons in Hl as [[Hk Hv] Hl]. cbn [fst snd] in Hk, Hv. cbn in Hf.
  destruct fuel as [|[|fuel]]; [lia|lia|]. destruct l as [|kv l].
  - cbn [map Join]. rewrite parse_member_step by (done || apply delimited_brace).
    rewrite has_prefix_app. done.
  - cbn [map Join]. rewrite !str_app_assoc, parse_member_step by (done || apply delimited_comma).
    rewrite has_prefix_app.
    change (HasPrefix ("," +:+ Join (print_member kv :: map print_member l) "," +:+ "}" +:+ rest) "}") with false.
    cbn iota.
    change (str_drop 1 ("," +:+ Join (print_member kv :: map print_member l) "," +:+ "}" +:+ rest))
      with (Join (map print_member (kv :: l)) "," +:+ "}" +:+ rest).
    rewrite IH by (done || (cbn in *; lia)). done.
Qed.

(** Parsing what was printed. *)
Lemma parse_print_flat l :
  flat l → l ≠ [] →
  parse_json (print (VObj l))
  = Some (JObj (print (VObj l)) (map (λ kv, (fst kv, of_scalar (snd kv))) l)).
Proof.
  intros Hl Hne. unfold parse_json, json_fuel. rewrite print_obj.
  set (body := Join (map print_member l) "," +:+ "}").
  assert (length l < 2 * String.length ("{" +:+ body))%nat as Hlen.
  { unfold body. clear Hne. rewrite !str_app_length. change (String.length "{") with 1%nat.
    change (String.length "}") with 1%nat.
    assert (length l ≤ S (String.length (Join (map print_member l) ",")))%nat; [|lia].
    clear Hl body. induction l as [|kv [|kv' l] IH]; [cbn; lia| |].
    - cbn. lia.
    - change (Join (map print_member (kv :: kv' :: l)) ",")
        with (print_member kv +:+ "," +:+ Join (map print_member (kv' :: l)) ",").
      rewrite !str_app_length. change (String.length ",") with 1%nat.
      change (length (kv :: kv' :: l)) with (S (length (kv' :: l))). lia. }
  remember (2 * String.length ("{" +:+ body))%nat as n eqn:Hn.
  change ("{" +:+ body) with (String "{" body) at 1. cbn [parse_value skip_ws].
  change (is_ws "{"%char) with false. cbn iota. change (byte "{"%char) with 123. cbn [Z.eqb Pos.eqb].
  change (max_depth <=? 0) with false. cbn iota.
  assert (∃ x, body = dquote +:+ x) as [x Hx].
  { destruct l as [|[k v] l]; [done|]. unfold body. cbn [map].
    destruct l as [|kv l]; cbn [Join map]; unfold print_member at 1, quote; cbn [fst snd];
      rewrite !str_app_assoc; by eexists. }
  assert (skip_ws body = body ∧ HasPrefix body "}" = false) as [-> ->] by (rewrite Hx; done).
  pose proof (parse_members_flat n (0 + 1) l "" Hl Hne Hlen) as Hp.
  change ("}" +:+ "") with "}" in Hp. fold body in Hp. rewrite Hp. cbn [mbind option_bind].
  change (String "{" body) with ("{" +:+ body).
  replace (consumed ("{" +:+ body) "") with ("{" +:+ body); [done|].
  pose proof (consumed_app ("{" +:+ body) "") as Hc. by rewrite str_app_nil_r in Hc.
Qed.
