(* ===== verification/WsMessage.v ===== *)
(** * internal/ws: ParseMessage

    [json.Unmarshal] into a [map[string]interface{}]: the dynamic values it builds. *)

From S2P Require Export JsonFacts.

#[local] Set Warnings "-register-all".

(** What [Unmarshal] stores in an [interface{}]; [IObj] is a [map[string]interface{}]. *)
Inductive iface :=
  | INil
  | IBool (b : bool)
  | INum (f : float64)
  | IStr (s : string)
  | IArr (l : list iface)
  | IObj (m : gmap string iface).

(** A number that overflows float64 is an error. *)
Fixpoint to_iface (j : json) : option iface :=
  match j with
  | JNull => Some INil
  | JBool b => Some (IBool b)
  | JNum raw => INum <$> parse_float raw
  | JStr _ s => Some (IStr s)
  | JArr _ l =>
      (fix go (l : list json) : option (list iface) :=
         match l with [] => Some [] | j :: l => v ← to_iface j; vs ← go l; Some (v :: vs) end) l
      ≫= λ l, Some (IArr l)
  | JObj _ ms =>
      (fix go (ms : list (string * json)) (m : gmap string iface) : option (gmap string iface) :=
         match ms with [] => Some m | (k, j) :: ms => v ← to_iface j; go ms (<[k := v]> m) end) ms ∅
      ≫= λ m, Some (IObj m)
  end.

Section Parse.
Context `{E : Env}.

(** [None] is the nil map: what JSON null leaves. *)
Definition ParseMessage (b : string) : result (option (gmap string iface)) :=
  match parse_json b with
  | Some JNull => Ok None
  | Some (JObj raw ms) =>
      match to_iface (JObj raw ms) with
      | Some (IObj m) => Ok (Some m)
      | _ => Fail (env_json_error b)
      end
  | _ => Fail (env_json_error b)
  end.

(** The members of an object of strings, the last of a key counting. *)
Definition string_members (l : list (string * string)) : list (string * jvalue) :=
  map (λ kv, (fst kv, VStr (snd kv))) l.

Definition members_map (l : list (string * string)) : gmap string iface :=
  foldl (λ m kv, <[fst kv := IStr (snd kv)]> m) ∅ l.

Lemma to_iface_strings raw l :
  to_iface (JObj raw (map (λ kv, (fst kv, of_scalar (snd kv))) (string_members l))) = Some (IObj (members_map l)).
Proof.
  cbn [to_iface]. unfold members_map. generalize (∅ : gmap string iface) as m.
  induction l as [|[k v] l IH]; intros m; [done|]. cbn. apply IH.
Qed.

(** An object of strings is read back as its members, the last value of a key counting. *)
Theorem parse_message_round_trip (l : list (string * string)) :
  l ≠ [] → Forall (λ kv, is_ascii (fst kv) = true ∧ is_ascii (snd kv) = true) l →
  ParseMessage (print (VObj (string_members l))) = Ok (Some (members_map l)).
Proof.
  intros Hne Hl. unfold ParseMessage. rewrite parse_print_flat; [| |by destruct l].
  2: { unfold flat, string_members. apply Forall_map. eapply Forall_impl; [exact Hl|]. by intros kv [? ?]. }
  by rewrite to_iface_strings.
Qed.

Lemma parse_message_round_trip_witness :
  ParseMessage (print (VObj (string_members [("event", "subscribe"); ("pair", "XBT/USD")])))
  = Ok (Some {["event" := IStr "subscribe"; "pair" := IStr "XBT/USD"]}).
Proof.
  rewrite (parse_message_round_trip [("event", "subscribe"); ("pair", "XBT/USD")]); [reflexivity|done|].
  repeat constructor.
Defined.

(** ParseMessage returns the nil map for null, a map with exactly the keys of an object,
    and otherwise the error of the decoder. *)
Theorem parse_message_outcome b :
  match ParseMessage b with
  | Ok None => parse_json b = Some JNull
  | Ok (Some m) => ∃ raw ms, parse_json b = Some (JObj raw ms)
      ∧ ∀ k, (k ∈ dom m ↔ k ∈ map fst ms)
  | Fail e => e = env_json_error b ∧ (∀ raw ms, parse_json b = Some (JObj raw ms) → to_iface (JObj raw ms) = None)
  end.
Proof.
  unfold ParseMessage. destruct (parse_json b) as [[|? |? |? ? |? ? |raw ms]|] eqn:Hp; try done.
  cbn [to_iface]. set (go := fix go (ms : list (string * json)) (m : gmap string iface) := _).
  assert (∀ m m', go ms m = Some m' → ∀ k, k ∈ dom m' ↔ k ∈ map fst ms ∨ k ∈ dom m) as Hgo.
  { clear. induction ms as [|[k j] ms IH]; intros m m'; cbn; [intros [= ->]; set_solver|].
    destruct (to_iface j) as [v|]; [|done]. cbn. intros H k'. rewrite (IH _ _ H k'). set_solver. }
  destruct (go ms ∅) as [m|] eqn:Hm; cbn.
  - exists raw, ms. split; [done|]. intros k. rewrite (Hgo _ _ Hm k). set_solver.
  - split; [done|]. intros raw' ms' [= <- <-]. cbn. fold go. by rewrite Hm.
Qed.
End Parse.
