(* ===== verification/Http.v ===== *)
(** * net/http: the requests the service is given and the responses it writes *)

From S2P Require Export Json.

(** A request as the server hands it over: its path decoded and as it came, the first
    values of the query parameters and of the headers. *)
Record Request := mkRequest {
  rq_Method : string;
  rq_Path : string;
  rq_EscapedPath : string;
  rq_Query : string → string;
  rq_Header : string → string;
  rq_Body : string;
}.

(** A response: the status and the value [json.NewEncoder(w).Encode] is given, of
    whatever type [B] the handlers of a service write. *)
Record Response (B : Type) := mkResponse {
  rs_Status : Z;
  rs_Body : B;
}.
Arguments mkResponse {B} _ _.
Arguments rs_Status {B} _.
Arguments rs_Body {B} _.

(** A handler over a state [S], with what it changes of it. *)
Definition Handler (S B : Type) : Type := S → Request → IO (Response B * S).

(** [writeJSON]. *)
Definition writeJSON {B} (status : Z) (v : B) : Response B := mkResponse status v.

(** [json.NewDecoder(r.Body).Decode(&v)]: the first value of the body. *)
Definition decode_body {A} (d : decoder A) (body : string) (v : A) : A * bool :=
  match parse_stream body with Some j => d j v | None => (v, false) end.

Definition StatusOK : Z := 200.
Definition StatusBadRequest : Z := 400.
Definition StatusUnauthorized : Z := 401.
Definition StatusNotFound : Z := 404.
Definition StatusMethodNotAllowed : Z := 405.
Definition StatusBadGateway : Z := 502.
Definition StatusServiceUnavailable : Z := 503.
Definition StatusMovedPermanently : Z := 301.

(** ** ServeMux

    Patterns without method, host or wildcard: a path, matched exactly, or one with
    a final slash, which matches everything below it. *)
Module Mux.

Definition hex_value (c : ascii) : option Z :=
  let b := byte c in
  if in_range 48 57 b then Some (b - 48)
  else if in_range 65 70 b then Some (b - 55)
  else if in_range 97 102 b then Some (b - 87) else None.

(** [url.PathUnescape]. *)
Fixpoint path_unescape (s : string) : option string :=
  match s with
  | EmptyString => Some ""
  | String c s =>
      if Ascii.eqb c "%"%char then
        match s with
        | String a (String b s) =>
            x ← hex_value a; y ← hex_value b; r ← path_unescape s;
            Some (String (chr (16 * x + y)) r)
        | _ => None
        end
      else r ← path_unescape s; Some (String c r)
  end.

(** The segments left to visit, innermost first, of [path.Clean]. *)
Definition clean_step (stack : list string) (seg : string) : list string :=
  if String.eqb seg "" || String.eqb seg "." then stack
  else if String.eqb seg ".." then tl stack
  else seg :: stack.

Definition clean_segments (p : string) : list string :=
  reverse (foldl clean_step [] (split_byte "/" p)).

(** [cleanPath]. *)
Definition cleanPath (p : string) : string :=
  let np := "/" +:+ Join (clean_segments p) "/" in
  if HasSuffix p "/" && negb (String.eqb np "/") then np +:+ "/" else np.

(** The segments of a path as the tree of patterns is walked: unescaped one by one, and
    a final slash a segment of its own. *)
Definition segments (p : string) : list string :=
  match split_byte "/" p with
  | _ :: segs =>
      let unescaped := map (λ s, default s (path_unescape s)) segs in
      match last segs with
      | Some "" => take (length segs - 1) unescaped ++ ["/"]
      | _ => unescaped
      end
  | [] => []
  end.

(** The segments of a pattern, and whether it has a final slash. *)
Definition pattern_segments (pat : string) : list string * bool :=
  if HasSuffix pat "/" then (tl (split_byte "/" (TrimSuffix pat "/")), true)
  else (tl (split_byte "/" pat), false).

Definition matches (pat : string) (segs : list string) : bool :=
  let '(lits, multi) := pattern_segments pat in
  if multi
  then bool_decide (take (length lits) segs = lits) && Nat.ltb (length lits) (length segs)
  else bool_decide (segs = lits).

(** The path of [pat] itself, without its final slash. *)
Definition matches_bare (pat : string) (segs : list string) : bool :=
  let '(lits, multi) := pattern_segments pat in multi && bool_decide (segs = lits).

Inductive target (H : Type) :=
  | Serve (h : H)
  | Redirect (location : string)
  | NotFound.
Arguments Serve {H} h.
Arguments Redirect {H} location.
Arguments NotFound {H}.

(** The pattern that matches, for patterns that do not overlap. *)
Definition find_pattern {H} (routes : list (string * H)) (segs : list string) : option H :=
  snd <$> List.find (λ r, matches (fst r) segs) routes.

(** [mux.findHandler]. *)
Definition dispatch {H} (routes : list (string * H)) (r : Request) : target H :=
  let connect := String.eqb (rq_Method r) "CONNECT" in
  let path := if connect then rq_EscapedPath r else cleanPath (rq_EscapedPath r) in
  let segs := segments path in
  let found := find_pattern routes segs in
  let exact := existsb (λ p, negb (snd (pattern_segments (fst p))) && matches (fst p) segs) routes in
  if negb exact && existsb (λ p, matches_bare (fst p) segs) routes
  then Redirect (cleanPath (rq_Path r) +:+ "/")
  else if negb (String.eqb path (rq_EscapedPath r)) then Redirect path
  else match found with Some h => Serve h | None => NotFound end.

End Mux.
