(* ===== verification/Store.v ===== *)
(** * internal/store: the order and fill store

    The interface [Store], its in-memory implementation [MemStore], and the
    contract a client of the store may rely on. The maps and slices are only
    reached under the mutex, and orders are stored and returned as copies, so
    the store is a plain value. *)

From S2P Require Export Venue.

Section Types.
Context `{DD : Decimal}.

Record Order := mkOrder {
  o_VenueOrderID : string;
  o_ClientOrderID : string;
  o_Venue : string;
  o_Pair : string;
  o_Side : string;
  o_OrderType : string;
  o_Status : string;
  o_FilledQty : D;
  o_AvgPrice : D;
  o_Quantity : D;
  o_Price : D;
  o_CreatedAt : Time;
  o_UpdatedAt : Time;
}.

(** [store.Fill]. *)
Record StoredFill := mkStoredFill {
  sf_VenueOrderID : string;
  sf_TradeID : string;
  sf_Venue : string;
  sf_Pair : string;
  sf_Price : D;
  sf_Quantity : D;
  sf_Fee : D;
  sf_FeeAsset : string;
  sf_Timestamp : Time;
}.

Definition set_times (created updated : Time) (o : Order) : Order :=
  mkOrder (o_VenueOrderID o) (o_ClientOrderID o) (o_Venue o) (o_Pair o) (o_Side o)
    (o_OrderType o) (o_Status o) (o_FilledQty o) (o_AvgPrice o) (o_Quantity o) (o_Price o)
    created updated.

Definition set_timestamp (t : Time) (f : StoredFill) : StoredFill :=
  mkStoredFill (sf_VenueOrderID f) (sf_TradeID f) (sf_Venue f) (sf_Pair f) (sf_Price f)
    (sf_Quantity f) (sf_Fee f) (sf_FeeAsset f) t.

End Types.

(** The interface [Store]. *)
Class Store `{DD : Decimal} (S : Type) := {
  RecordOrder : S → Order → IO (result bool * S);
  GetOrderByClientID : S → string → IO (option Order * S);
  RecordFill : S → StoredFill → IO (result bool * S);
  FillsForOrder : S → string → IO (result (list StoredFill) * S);
}.

(** ** MemStore *)
Module MemStore.
Section MemStore.
Context `{DD : Decimal} `{E : Env}.

Record MemStore := mk {
  orders : gmap string Order;
  fills : list StoredFill;
}.

Definition New : MemStore := mk ∅ [].

Definition RecordOrder (s : MemStore) (o : Order) : IO (result bool * MemStore) :=
  match orders s !! o_ClientOrderID o with
  | Some _ => mret (Ok false, s)
  | None =>
      created ← (if time_is_zero (o_CreatedAt o) then time_now else mret (o_CreatedAt o));
      updated ← time_now;
      mret (Ok true, mk (<[o_ClientOrderID o := set_times created updated o]> (orders s)) (fills s))
  end.

Definition GetOrderByClientID (s : MemStore) (id : string) : IO (option Order * MemStore) :=
  mret (orders s !! id, s).

Definition same_trade (f g : StoredFill) : bool :=
  String.eqb (sf_Venue f) (sf_Venue g) && String.eqb (sf_TradeID f) (sf_TradeID g).

Definition RecordFill (s : MemStore) (f : StoredFill) : IO (result bool * MemStore) :=
  if existsb (λ g, same_trade g f) (fills s) then mret (Ok false, s)
  else
    ts ← (if time_is_zero (sf_Timestamp f) then time_now else mret (sf_Timestamp f));
    mret (Ok true, mk (orders s) (fills s ++ [set_timestamp ts f])).

Definition FillsForOrder (s : MemStore) (id : string) : IO (result (list StoredFill) * MemStore) :=
  mret (Ok (List.filter (λ f, String.eqb (sf_VenueOrderID f) id) (fills s)), s).

#[global] Instance mem_store : Store MemStore := {|
  Store.RecordOrder := RecordOrder;
  Store.GetOrderByClientID := GetOrderByClientID;
  Store.RecordFill := RecordFill;
  Store.FillsForOrder := FillsForOrder;
|}.

(** Orders are kept under their own client id, and no trade of a venue twice. *)
Definition trade_key (f : StoredFill) : string * string := (sf_Venue f, sf_TradeID f).

Definition wf (s : MemStore) : Prop :=
  map_Forall (λ k o, o_ClientOrderID o = k) (orders s) ∧ NoDup (map trade_key (fills s)).

Lemma same_trade_key f g : same_trade f g = true ↔ trade_key f = trade_key g.
Proof.
  unfold same_trade, trade_key. rewrite andb_true_iff, !String.eqb_eq.
  split; [by intros [-> ->]|by intros [= -> ->]].
Qed.

Lemma existsb_trade s f :
  existsb (λ g, same_trade g f) (fills s) = true ↔ trade_key f ∈ map trade_key (fills s).
Proof.
  rewrite existsb_exists, list_elem_of_In, in_map_iff.
  split; intros (g & H1 & H2); exists g; by rewrite same_trade_key in *.
Qed.

Lemma mem_wf_new : wf New.
Proof. split; [apply map_Forall_empty|constructor]. Qed.

Lemma record_order_wf s o w : wf s → wf (snd (fst (RecordOrder s o w))).
Proof.
  intros [Ho Hf]. unfold RecordOrder. destruct (orders s !! _); [done|].
  run_io. destruct (time_is_zero _); simpl; (split; [|done]);
    apply map_Forall_insert_2; done.
Qed.

Lemma record_fill_wf s f w : wf s → wf (snd (fst (RecordFill s f w))).
Proof.
  intros [Ho Hf]. unfold RecordFill. destruct (existsb _ _) eqn:He; [done|].
  apply not_true_iff_false in He. rewrite existsb_trade in He.
  assert (∀ t, NoDup (map trade_key (fills s ++ [set_timestamp t f]))) as Hnd.
  { intros t. rewrite map_app. apply NoDup_app. split; [done|].
    split; [|apply NoDup_singleton]. intros k Hk Hk'. simpl in Hk'. apply list_elem_of_singleton in Hk' as ->. done. }
  run_io. destruct (time_is_zero _); simpl; (split; [done|apply Hnd]).
Qed.

End MemStore.
End MemStore.

(** ** The contract

    [stored] and [recorded] observe what a store holds: the order of a client id
    and the fills, oldest first. *)
Class StoreLaws `{DD : Decimal} `{E : Env} (S : Type) `{!Store S}
    (inv : S → Prop) (stored : S → string → option Order) (recorded : S → list StoredFill) : Prop := {
  record_order_new : ∀ s o w, inv s → stored s (o_ClientOrderID o) = None →
    ∃ created updated s', fst (RecordOrder s o w) = (Ok true, s') ∧ inv s'
      ∧ (∀ id, stored s' id = if decide (id = o_ClientOrderID o)
                              then Some (set_times created updated o) else stored s id)
      ∧ recorded s' = recorded s
      ∧ (o_CreatedAt o ≠ zero_time → created = o_CreatedAt o);
  record_order_dup : ∀ s o w, inv s → is_Some (stored s (o_ClientOrderID o)) →
    fst (RecordOrder s o w) = (Ok false, s);
  record_fill_new : ∀ s f w, inv s →
    (sf_Venue f, sf_TradeID f) ∉ map (λ g, (sf_Venue g, sf_TradeID g)) (recorded s) →
    ∃ t s', fst (RecordFill s f w) = (Ok true, s') ∧ inv s'
      ∧ recorded s' = recorded s ++ [set_timestamp t f]
      ∧ (∀ id, stored s' id = stored s id)
      ∧ (sf_Timestamp f ≠ zero_time → t = sf_Timestamp f);
  record_fill_dup : ∀ s f w, inv s →
    (sf_Venue f, sf_TradeID f) ∈ map (λ g, (sf_Venue g, sf_TradeID g)) (recorded s) →
    fst (RecordFill s f w) = (Ok false, s);
  get_order_stored : ∀ s id w, inv s → fst (GetOrderByClientID s id w) = (stored s id, s);
  fills_recorded : ∀ s id w, inv s →
    fst (FillsForOrder s id w)
    = (Ok (List.filter (λ f, String.eqb (sf_VenueOrderID f) id) (recorded s)), s);
}.

Section MemStoreLaws.
Import MemStore.
Context `{DD : Decimal} `{E : Env}.

#[export] Instance mem_store_laws :
  StoreLaws MemStore.MemStore MemStore.wf (λ s id, MemStore.orders s !! id) MemStore.fills.
Proof.
  split; simpl.
  - intros s o w Hwf Hn. pose proof (record_order_wf s o w Hwf) as Hwf'.
    revert Hwf'. unfold RecordOrder. rewrite Hn. run_io.
    destruct (time_is_zero (o_CreatedAt o)) eqn:Hz; simpl; intros Hwf';
      eexists _, _, _; (split; [done|]); (split; [done|]); (split; [|split; [done|]]).
    + intros id. simpl. rewrite lookup_insert. do 2 case_decide; (reflexivity || congruence).
    + intros Hne. by apply Z.eqb_eq in Hz.
    + intros id. simpl. rewrite lookup_insert. do 2 case_decide; (reflexivity || congruence).
    + done.
  - intros s o w _ [o' Ho]. unfold RecordOrder. by rewrite Ho.
  - intros s f w Hwf Hn. pose proof (record_fill_wf s f w Hwf) as Hwf'.
    revert Hwf'. unfold RecordFill.
    assert (existsb (λ g, same_trade g f) (fills s) = false) as ->.
    { apply not_true_iff_false. by rewrite existsb_trade. }
    run_io. destruct (time_is_zero (sf_Timestamp f)) eqn:Hz; simpl; intros Hwf';
      eexists _, _; (split; [done|]); (split; [done|]); (split; [done|]); (split; [done|]).
    + intros Hne. by apply Z.eqb_eq in Hz.
    + done.
  - intros s f w _ Hin. unfold RecordFill.
    assert (existsb (λ g, same_trade g f) (fills s) = true) as ->; [|done].
    by rewrite existsb_trade.
  - done.
  - done.
Qed.

(** C34: The in-memory store implements the store contract on its abstract view (orders
    by client id, list of fills): the first order of a client id and the first fill
    of a venue and trade id are kept, repetitions report false and change nothing,
    lookups return what was kept, and the well-formedness invariant is preserved. *)
Theorem mem_store_refines :
  StoreLaws MemStore.MemStore MemStore.wf (λ s id, MemStore.orders s !! id) MemStore.fills.
Proof. exact mem_store_laws. Qed.

End MemStoreLaws.
