(* ===== verification/Dummy.v ===== *)
(** * internal/venue/dummy.go: the in-process connector

    [PlaceOrder] returns the pointer it also stores in its map, so a response in
    the caller's hands is shared with the connector: orders live in a heap of
    responses and a pointer is an index in it. *)

From S2P Require Export Venue.

(** [decimal.NewFromFloat(n / d)] for the literals of the file. *)
Definition float_lit (n d : Z) : float64 := f64_div (f64_of_int n) (f64_of_int d).

Definition set_status `{DD : Decimal} (st : OrderStatus) (o : OrderResponse) : OrderResponse :=
  mkOrderResponse (resp_VenueOrderID o) (resp_ClientOrderID o) st (resp_FilledQty o)
    (resp_AvgPrice o) (resp_Fills o).

Module Dummy.
Section Dummy.
Context `{DD : Decimal} `{E : Env}.

(** A pointer to an [OrderResponse]. *)
Abbreviation ptr := nat.

Record DummyVenueConnector := mk {
  price : D;
  fills : list Fill;
  orders : gmap string ptr;
  heap : list OrderResponse;
}.

Definition NewDummyVenueConnector : DummyVenueConnector :=
  let price := dec_of_float (float_lit 50000 1) in
  let v := env_getenv "DUMMY_PRICE" in
  let price := if String.eqb v "" then price else default price (dec_of_string v) in
  mk price [] ∅ [].

(** The pointer [PlaceOrder] returns. *)
Definition PlaceOrder (d : DummyVenueConnector) (req : OrderRequest)
    : IO (ptr * DummyVenueConnector) :=
  id ← (if String.eqb (req_ClientOrderID req) "" then new_uuid else mret (req_ClientOrderID req));
  let px := if dec_is_zero (req_Price req) then price d else req_Price req in
  let qty := req_Quantity req in
  trade ← new_uuid;
  let fee := dec_mul (dec_mul px qty) (dec_of_float (float_lit 1 1000)) in
  now ← time_now;
  let fill := mkFill id trade px qty fee "USDT" now in
  let resp := mkOrderResponse id id OrderStatusFilled qty px [fill] in
  let p := length (heap d) in
  mret (p, mk (price d) (fills d ++ [fill]) (<[id := p]> (orders d)) (heap d ++ [resp])).

Definition CancelOrder (d : DummyVenueConnector) (req : CancelRequest)
    : IO (option error * DummyVenueConnector) :=
  let id := cancel_VenueOrderID req in
  let id := if String.eqb id "" then cancel_ClientOrderID req else id in
  match orders d !! id with
  | Some p =>
      mret (None, mk (price d) (fills d) (orders d)
                     (alter (set_status OrderStatusCanceled) p (heap d)))
  | None => mret (None, d)
  end.

(** A copy of the order. *)
Definition GetOrder (d : DummyVenueConnector) (venueOrderID : string)
    : IO (result OrderResponse * DummyVenueConnector) :=
  match p ← orders d !! venueOrderID; heap d !! p with
  | Some o => mret (Ok o, d)
  | None => mret (Fail ErrOrderNotFound, d)
  end.

(** The [continue]s of the loop of [GetFills]. *)
Definition fill_matches (q : FillQuery) (f : Fill) : bool :=
  if negb (String.eqb (query_VenueOrderID q) "")
     && negb (String.eqb (fill_VenueOrderID f) (query_VenueOrderID q)) then false
  else if negb (time_is_zero (query_Start q)) && time_before (fill_Timestamp f) (query_Start q) then false
  else if negb (time_is_zero (query_End q)) && time_after (fill_Timestamp f) (query_End q) then false
  else true.

Definition GetFills (d : DummyVenueConnector) (query : FillQuery)
    : IO (result (list Fill) * DummyVenueConnector) :=
  let out := List.filter (fill_matches query) (fills d) in
  mret (Ok (apply_limit (query_Limit query) out), d).

Definition GetBalances (d : DummyVenueConnector) : IO (result Balances * DummyVenueConnector) :=
  let assets : Balances :=
    <["BTC" := mkBalance "BTC" (dec_of_float (float_lit 3 2)) (dec_of_float (float_lit 1 10))]>
    (<["USDT" := mkBalance "USDT" (dec_of_float (float_lit 250000 1)) (dec_of_float (float_lit 1000 1))]>
    (<["ETH" := mkBalance "ETH" (dec_of_float (float_lit 20 1)) dec_zero]> ∅)) in
  mret (Ok assets, d).

(** One update of the ticker goroutine of [SubscribeBook]. *)
Definition tick_update (base : D) (pair : string) : IO BookUpdate :=
  r ← draw env_float64;
  let delta := dec_mul (dec_mul (dec_of_float (SpecFloat.SFsub 53 1024 r (float_lit 1 2))) base)
                       (dec_of_float (float_lit 1 1000)) in
  let mid := dec_add base delta in
  now ← time_now;
  let half := dec_of_float (float_lit 1 2) in
  mret (mkBookUpdate pair [mkBookLevel (dec_sub mid (dec_of_int 1)) half]
          [mkBookLevel (dec_add mid (dec_of_int 1)) half] now).

(** The updates of one tick. *)
Fixpoint tick (base : D) (pairs : list string) : IO (list BookUpdate) :=
  match pairs with
  | [] => mret []
  | p :: pairs => u ← tick_update base p; us ← tick base pairs; mret (u :: us)
  end.

Definition LastFill (d : DummyVenueConnector) : option Fill := last (fills d).

(** The interface; the caller reads the response at once. *)
#[global] Instance dummy_connector : VenueConnector DummyVenueConnector := {|
  Venue.PlaceOrder d req :=
    '(p, d) ← PlaceOrder d req;
    mret (match heap d !! p with Some o => Ok o | None => Fail "" end, d);
  Venue.CancelOrder := CancelOrder;
  Venue.GetOrder := GetOrder;
  Venue.GetFills := GetFills;
  Venue.GetBalances := GetBalances;
  Venue.SubscribeBook d pairs := mret (None, d);
|}.

(** Every stored pointer is valid, points to the order of its key, and no two
    keys share one. *)
Definition wf (d : DummyVenueConnector) : Prop :=
  (∀ id p, orders d !! id = Some p →
     ∃ o, heap d !! p = Some o ∧ resp_VenueOrderID o = id)
  ∧ (∀ id id' p, orders d !! id = Some p → orders d !! id' = Some p → id = id').

Lemma dummy_wf_new : wf NewDummyVenueConnector.
Proof. split; simpl; intros *; by rewrite lookup_empty. Qed.

Lemma place_order_eq d req w :
  ∃ id trade now,
    ((req_ClientOrderID req ≠ "" → id = req_ClientOrderID req)
     ∧ (req_ClientOrderID req = "" → ∃ tr, id = env_uuid tr)) ∧
    let px := if dec_is_zero (req_Price req) then price d else req_Price req in
    let fee := dec_mul (dec_mul px (req_Quantity req)) (dec_of_float (float_lit 1 1000)) in
    let fill := mkFill id trade px (req_Quantity req) fee "USDT" now in
    fst (PlaceOrder d req w)
    = (length (heap d),
       mk (price d) (fills d ++ [fill]) (<[id := length (heap d)]> (orders d))
          (heap d ++ [mkOrderResponse id id OrderStatusFilled (req_Quantity req) px [fill]])).
Proof.
  unfold PlaceOrder, new_uuid. run_io.
  destruct (String.eqb_spec (req_ClientOrderID req) ""); simpl;
    eexists _, _, _; (split; [|reflexivity]); (split; intros; [congruence|]); [by eexists|congruence].
Qed.

Lemma place_order_wf d req w : wf d → wf (snd (fst (PlaceOrder d req w))).
Proof.
  intros [Hp Hinj]. destruct (place_order_eq d req w) as (id & trade & now & _ & Heq).
  cbv zeta in Heq. rewrite Heq. clear Heq. cbn [snd orders heap].
  assert (∀ k p, orders d !! k = Some p → (p < length (heap d))%nat) as Hlt.
  { intros k p Hk. destruct (Hp _ _ Hk) as (o & Ho & _). by eapply lookup_lt_Some. }
  split; cbn [orders heap].
  - intros k p. rewrite lookup_insert. case_decide as Hk.
    + intros [= <-]. eexists. split; [by apply lookup_middle|done].
    + intros Hkp. destruct (Hp _ _ Hkp) as (o & Ho & Hid). exists o. split; [|done].
      rewrite lookup_app_l; [done|by eapply Hlt].
  - intros k k' p. rewrite !lookup_insert. repeat case_decide; try congruence.
    + intros [= <-] Hk'%Hlt. lia.
    + intros Hk'%Hlt [= <-]. lia.
    + apply Hinj.
Qed.

Lemma cancel_order_wf d req w : wf d → wf (snd (fst (CancelOrder d req w))).
Proof.
  intros [Hp Hinj]. unfold CancelOrder. destruct (orders d !! _) as [q|]; [|done].
  split; cbn [orders heap snd fst mret io_ret]; [|done].
  intros k p Hk. destruct (Hp _ _ Hk) as (o & Ho & Hid).
  rewrite list_lookup_alter. case_decide; subst; rewrite Ho; eexists; done.
Qed.

End Dummy.
End Dummy.

Section DummyFacts.
Import Dummy.
Context `{DD : Decimal} `{E : Env}.

(** The id a cancel request names. *)
Definition cancel_target (req : CancelRequest) : string :=
  if String.eqb (cancel_VenueOrderID req) "" then cancel_ClientOrderID req
  else cancel_VenueOrderID req.

(** A placed order is found under its client order id, filled in one fill at the price
    asked for or at the last price, and no other order changes. *)
Theorem dummy_place_then_get d req w :
  wf d → req_ClientOrderID req ≠ "" →
  let '(p, d1, w1) := PlaceOrder d req w in
  wf d1 ∧
  ∃ o f, heap d1 !! p = Some o
    ∧ (∀ w', fst (GetOrder d1 (req_ClientOrderID req) w') = (Ok o, d1))
    ∧ resp_Status o = OrderStatusFilled ∧ resp_ClientOrderID o = req_ClientOrderID req
    ∧ resp_FilledQty o = req_Quantity req ∧ resp_Fills o = [f]
    ∧ fills d1 = fills d ++ [f] ∧ fill_VenueOrderID f = req_ClientOrderID req
    ∧ fill_Price f = (if dec_is_zero (req_Price req) then price d else req_Price req)
    ∧ fill_Fee f = dec_mul (dec_mul (fill_Price f) (req_Quantity req)) (dec_of_float (float_lit 1 1000))
    ∧ (∀ id, id ≠ req_ClientOrderID req → ∀ w',
         fst (fst (GetOrder d1 id w')) = fst (fst (GetOrder d id w'))).
Proof.
  intros Hwf Hid. pose proof (place_order_wf d req w Hwf) as Hwf1.
  destruct (place_order_eq d req w) as (id & trade & now & [Hname _] & Heq).
  cbv zeta in Heq. destruct (PlaceOrder d req w) as [[p d1] w1]. cbn [fst snd] in *.
  rewrite (Hname Hid) in Heq. injection Heq as -> ->.
  split; [done|]. eexists _, _. split; [apply lookup_middle|]. cbn.
  split_and!; try done.
  - intros w'. unfold GetOrder. cbn [orders heap]. rewrite lookup_insert_eq. cbn.
    by rewrite lookup_middle.
  - intros k Hk w'. unfold GetOrder. cbn [orders heap]. rewrite lookup_insert_ne by done.
    destruct (orders d !! k) as [q|] eqn:Hq; [|done]. cbn.
    destruct (proj1 Hwf _ _ Hq) as (o & Ho & _).
    rewrite lookup_app_l by (by eapply lookup_lt_Some). by rewrite Ho.
Qed.

(** A cancellation never fails; it marks the order it names, if there is one, and
    nothing else. *)
Theorem dummy_cancel_effect d req w :
  wf d →
  let '(err, d', _) := CancelOrder d req w in
  err = None ∧ fills d' = fills d ∧ orders d' = orders d
  ∧ (∀ p o, heap d !! p = Some o →
       heap d' !! p = Some (if decide (orders d !! cancel_target req = Some p)
                            then set_status OrderStatusCanceled o else o))
  ∧ (∀ id w', id ≠ cancel_target req → fst (fst (GetOrder d' id w')) = fst (fst (GetOrder d id w'))).
Proof.
  intros [Hp Hinj]. unfold CancelOrder. fold (cancel_target req).
  destruct (orders d !! cancel_target req) as [q|] eqn:Hq; cbn [mret io_ret orders fills heap].
  - split_and!; try done.
    + intros p o Ho. rewrite list_lookup_alter.
      case_decide; subst; rewrite Ho; case_decide; (done || congruence).
    + intros id w' Hne. unfold GetOrder. cbn [orders heap].
      destruct (orders d !! id) as [p|] eqn:Hid; [|done]. cbn.
      rewrite list_lookup_alter. case_decide; [|by destruct (heap d !! p)].
      subst. destruct Hne. by eapply Hinj.
  - split_and!; done.
Qed.

Lemma fill_matches_spec q f :
  fill_matches q f = true ↔
  (query_VenueOrderID q = "" ∨ fill_VenueOrderID f = query_VenueOrderID q)
  ∧ (query_Start q = zero_time ∨ query_Start q ≤ fill_Timestamp f)
  ∧ (query_End q = zero_time ∨ fill_Timestamp f ≤ query_End q).
Proof.
  unfold fill_matches, time_is_zero, time_before, time_after.
  destruct (String.eqb_spec (query_VenueOrderID q) ""), (String.eqb_spec (fill_VenueOrderID f) (query_VenueOrderID q)),
    (Z.eqb_spec (query_Start q) zero_time), (Z.eqb_spec (query_End q) zero_time),
    (Z.ltb_spec (fill_Timestamp f) (query_Start q)), (Z.ltb_spec (query_End q) (fill_Timestamp f));
    simpl; (split; [|intros (Ha & Hb & Hc)]; try done);
    try (destruct Ha; done); try (destruct Hb; [done|lia]); try (destruct Hc; [done|lia]);
    intros _; split_and!; (by left) || (by right) || (right; lia).
Qed.

(** The fills returned are those the query selects, in order, cut at the limit. *)
Theorem dummy_get_fills_correct d q w :
  ∃ out, fst (GetFills d q w) = (Ok out, d)
  ∧ out `prefix_of` List.filter (fill_matches q) (fills d)
  ∧ (∀ f, f ∈ out → f ∈ fills d
       ∧ (query_VenueOrderID q = "" ∨ fill_VenueOrderID f = query_VenueOrderID q)
       ∧ (query_Start q = zero_time ∨ query_Start q ≤ fill_Timestamp f)
       ∧ (query_End q = zero_time ∨ fill_Timestamp f ≤ query_End q))
  ∧ (0 < query_Limit q → Z.of_nat (length out) ≤ query_Limit q)
  ∧ (query_Limit q ≤ 0 → out = List.filter (fill_matches q) (fills d)).
Proof.
  eexists. split; [done|]. split_and!; auto with gateway; [|apply apply_limit_none].
  intros f Hf.
  assert (f ∈ List.filter (fill_matches q) (fills d)) as Hin.
  { eapply elem_of_prefix; [exact Hf|apply apply_limit_prefix]. }
  apply list_elem_of_In, List.filter_In in Hin as [Hin Hm]. split; [by apply list_elem_of_In|].
  by apply fill_matches_spec.
Qed.

(** The response a caller got from a placement changes under it when the order is
    canceled: the connector keeps the pointer it returned. *)
Theorem dummy_cancel_mutates_response d req w :
  wf d → req_ClientOrderID req ≠ "" →
  let '(p, d1, w1) := PlaceOrder d req w in
  let '(_, d2, _) := CancelOrder d1 (mkCancelRequest (req_ClientOrderID req) "") w1 in
  ∃ o, heap d1 !! p = Some o ∧ resp_Status o = OrderStatusFilled
    ∧ heap d2 !! p = Some (set_status OrderStatusCanceled o).
Proof.
  intros Hwf Hid.
  destruct (place_order_eq d req w) as (id & trade & now & [Hname _] & Heq).
  cbv zeta in Heq. destruct (PlaceOrder d req w) as [[p d1] w1]. cbn [fst snd] in *.
  rewrite (Hname Hid) in Heq. injection Heq as -> ->.
  unfold CancelOrder. cbn [cancel_VenueOrderID cancel_ClientOrderID orders].
  destruct (String.eqb_spec (req_ClientOrderID req) ""); [done|].
  rewrite lookup_insert_eq. cbn [mret io_ret heap].
  eexists. split; [apply lookup_middle|]. split; [done|].
  rewrite list_lookup_alter, decide_True by done. by rewrite lookup_middle.
Qed.

End DummyFacts.

(** ** Witnesses *)
Section Witnesses.
Import Dummy.
#[local] Existing Instances fixed_decimal demo_env.

Definition demo_request : OrderRequest :=
  mkOrderRequest "c-1" "BTCUSDT" SideBuy OrderTypeMarket (Fx 2 0) (Fx 0 0).

Lemma dummy_place_then_get_witness :
  let '(p, d1, w1) := PlaceOrder NewDummyVenueConnector demo_request world0 in
  wf d1 ∧ ∃ o, heap d1 !! p = Some o ∧ resp_Status o = OrderStatusFilled.
Proof.
  pose proof (dummy_place_then_get NewDummyVenueConnector demo_request world0 dummy_wf_new
                ltac:(vm_compute; discriminate)) as H.
  destruct (PlaceOrder NewDummyVenueConnector demo_request world0) as [[p d1] w1].
  destruct H as (Hwf & o & f & Ho & _ & Hs & _). split; [exact Hwf|]. exists o. split; [exact Ho|exact Hs].
Defined.

Lemma dummy_cancel_effect_witness :
  let '(err, d', _) := CancelOrder NewDummyVenueConnector (mkCancelRequest "x" "") world0 in
  err = None ∧ fills d' = [].
Proof.
  pose proof (dummy_cancel_effect NewDummyVenueConnector (mkCancelRequest "x" "") world0 dummy_wf_new) as H.
  split; apply H.
Defined.

Lemma dummy_cancel_mutates_response_witness :
  let '(p, d1, w1) := PlaceOrder NewDummyVenueConnector demo_request world0 in
  let '(_, d2, _) := CancelOrder d1 (mkCancelRequest "c-1" "") w1 in
  ∃ o, heap d1 !! p = Some o ∧ resp_Status o = OrderStatusFilled
    ∧ heap d2 !! p = Some (set_status OrderStatusCanceled o).
Proof.
  apply (dummy_cancel_mutates_response NewDummyVenueConnector demo_request world0 dummy_wf_new).
  vm_compute. discriminate.
Defined.
End Witnesses.
