(* ===== verification/GoTime.v ===== *)
(** * time.RFC3339Nano: formatting and parsing of instants in UTC

    What [time.Time] marshals to and unmarshals from in JSON, and what the audit
    envelope prints. *)

From S2P Require Export Json.

(** ** Civil dates (proleptic Gregorian calendar) *)

(** Year, month and day of a number of days since 1970-01-01. *)
Definition civil_of_days (days : Z) : Z * Z * Z :=
  let z := days + 719468 in
  let era := z / 146097 in
  let doe := z mod 146097 in
  let yoe := (doe - doe / 1460 + doe / 36524 - doe / 146096) / 365 in
  let doy := doe - (365 * yoe + yoe / 4 - yoe / 100) in
  let mp := (5 * doy + 2) / 153 in
  let d := doy - (153 * mp + 2) / 5 + 1 in
  let m := if mp <? 10 then mp + 3 else mp - 9 in
  (yoe + era * 400 + (if m <=? 2 then 1 else 0), m, d).

Definition days_of_civil (y m d : Z) : Z :=
  let y := if m <=? 2 then y - 1 else y in
  let era := y / 400 in
  let yoe := y mod 400 in
  let doy := (153 * (m + (if 2 <? m then -3 else 9)) + 2) / 5 + d - 1 in
  let doe := yoe * 365 + yoe / 4 - yoe / 100 + doy in
  era * 146097 + doe - 719468.

(** ** Formatting *)

(** [z] in at least [n] digits. *)
Definition pad (n : nat) (z : Z) : string :=
  let s := fmt_nat z in Repeat "0" (n - String.length s) +:+ s.

(** The fraction of a second, without trailing zeros. *)
Fixpoint trim_zeros (n : nat) (v : Z) : string :=
  match n with
  | O => ""
  | S n' => if v mod 10 =? 0 then trim_zeros n' (v / 10) else "." +:+ pad n v
  end.

Definition format_rfc3339nano (t : Time) : string :=
  let s := t / Second in
  let '(y, m, d) := civil_of_days (s / 86400) in
  let sod := s mod 86400 in
  pad 4 y +:+ "-" +:+ pad 2 m +:+ "-" +:+ pad 2 d +:+ "T" +:+
  pad 2 (sod / 3600) +:+ ":" +:+ pad 2 (sod / 60 mod 60) +:+ ":" +:+ pad 2 (sod mod 60) +:+
  trim_zeros 9 (t mod Second) +:+ "Z".

(** [Time.MarshalJSON]: an error outside the years 0 to 9999. *)
Definition marshal_time (t : Time) : option jvalue :=
  let '(y, _, _) := civil_of_days (t / Second / 86400) in
  if (0 <=? y) && (y <? 10000) then Some (VStr (format_rfc3339nano t)) else None.

(** ** Parsing *)

(** [n] decimal digits at the head of [s]. *)
Definition take_digits (n : nat) (s : string) : option (Z * string) :=
  if Nat.ltb (String.length s) n then None
  else z ← parse_digits (str_take n s) 0; Some (z, str_drop n s).

Definition expect (p : string) (s : string) : option string :=
  if HasPrefix s p then Some (str_drop (String.length p) s) else None.

Definition days_in_month (y m : Z) : Z :=
  if m =? 2 then (if (y mod 4 =? 0) && (negb (y mod 100 =? 0) || (y mod 400 =? 0)) then 29 else 28)
  else if (m =? 4) || (m =? 6) || (m =? 9) || (m =? 11) then 30 else 31.

(** Nanoseconds of a fraction; digits beyond the ninth are dropped. *)
Definition fraction (digits : string) : Z :=
  let ds := str_take 9 digits in
  default 0 (parse_digits ds 0) * 10 ^ (9 - Z.of_nat (String.length ds)).

(** The zone offset in seconds: [Z] or [+hh:mm]. *)
Definition parse_zone (s : string) : option Z :=
  if String.eqb s "Z" then Some 0 else
  sign ← (if HasPrefix s "+" then Some 1 else if HasPrefix s "-" then Some (-1) else None);
  '(h, s) ← take_digits 2 (str_drop 1 s);
  s ← expect ":" s;
  '(m, s) ← take_digits 2 s;
  if String.eqb s "" && (h <? 24) && (m <? 60) then Some (sign * (h * 3600 + m * 60)) else None.

Definition parse_rfc3339 (s : string) : option Time :=
  '(y, s) ← take_digits 4 s; s ← expect "-" s;
  '(mo, s) ← take_digits 2 s; s ← expect "-" s;
  '(d, s) ← take_digits 2 s; s ← expect "T" s;
  '(h, s) ← take_digits 2 s; s ← expect ":" s;
  '(mi, s) ← take_digits 2 s; s ← expect ":" s;
  '(sec, s) ← take_digits 2 s;
  '(ns, s) ← (if HasPrefix s "." then
                let '(f, s) := span_digits (str_drop 1 s) in
                if String.eqb f "" then None else Some (fraction f, s)
              else Some (0, s));
  off ← parse_zone s;
  if in_range 1 12 mo && in_range 1 (days_in_month y mo) d && (h <? 24) && (mi <? 60) && (sec <? 60)
  then Some ((days_of_civil y mo d * 86400 + h * 3600 + mi * 60 + sec - off) * Second + ns)
  else None.

(** [Time.UnmarshalJSON]: [null] leaves the value, anything but a string fails.
    The text between the quotes is parsed as it stands. *)
Definition decode_time : decoder Time := λ j old,
  match j with
  | JNull => (old, true)
  | JStr raw _ =>
      match parse_rfc3339 (str_slice raw 1 (String.length raw - 1)) with
      | Some t => (t, true)
      | None => (old, false)
      end
  | _ => (old, false)
  end.

Example format_epoch : format_rfc3339nano (1700000000 * Second + 120000000) = "2023-11-14T22:13:20.12Z".
Proof. vm_compute. reflexivity. Qed.

Example format_zero : format_rfc3339nano zero_time = "0001-01-01T00:00:00Z".
Proof. vm_compute. reflexivity. Qed.

Example parse_format : parse_rfc3339 "2024-02-29T23:59:59.5+01:30" = Some (1709245799 * Second + 500000000).
Proof. vm_compute. reflexivity. Qed.
