(* ===== verification/Crypto.v ===== *)
(** * crypto/sha256, crypto/sha512, crypto/hmac, encoding/hex, encoding/base64

    The standard-library functions the signatures of the gateway are made of.
    A [[]byte] is a Rocq string; words are [Z]. The hash functions follow
    FIPS 180-4, whose constants are fractional parts of roots of primes. *)

From S2P Require Export World.

(** ** Bytes *)

Fixpoint to_bytes (s : string) : list Z :=
  match s with EmptyString => [] | String c s => byte c :: to_bytes s end.

Fixpoint of_bytes (l : list Z) : string :=
  match l with [] => EmptyString | b :: l => String (chr b) (of_bytes l) end.

(** [n] bytes of [z], the most significant first. *)
Fixpoint be_bytes (n : nat) (z : Z) : list Z :=
  match n with
  | O => []
  | S n => Z.land (Z.shiftr z (8 * Z.of_nat n)) 255 :: be_bytes n z
  end.

Definition be_word (l : list Z) : Z := foldl (λ acc b, acc * 256 + b) 0 l.

Fixpoint chunks (fuel n : nat) (l : list Z) : list (list Z) :=
  match fuel, l with
  | S fuel, _ :: _ => take n l :: chunks fuel n (drop n l)
  | _, _ => []
  end.

(** ** SHA-2 *)

Definition primes80 : list Z := Eval vm_compute in
  take 80 (List.filter (λ n, forallb (λ d, negb (n mod d =? 0)) (seqZ 2 (n - 2))) (seqZ 2 410)).

Fixpoint cbrt_bits (n : nat) (r x : Z) : Z :=
  match n with
  | O => r
  | S n =>
      let r' := r + 2 ^ Z.of_nat n in
      cbrt_bits n (if r' * r' * r' <=? x then r' else r) x
  end.

(** The first [w] bits of the fractional part of the cube and square roots. *)
Definition cbrt_frac (w p : Z) : Z := cbrt_bits (Z.to_nat w + 4) 0 (p * 2 ^ (3 * w)) mod 2 ^ w.
Definition sqrt_frac (w p : Z) : Z := Z.sqrt (p * 2 ^ (2 * w)) mod 2 ^ w.

(** The parameters that distinguish SHA-256 and SHA-512. *)
Record sha2 := mkSha2 {
  word_bits : Z;
  block_bytes : nat;
  round_consts : list Z;
  init_hash : list Z;
  big0 : Z * Z * Z; big1 : Z * Z * Z;        (** rotations *)
  small0 : Z * Z * Z; small1 : Z * Z * Z;    (** two rotations and a shift *)
}.

Definition sha256_params : sha2 := Eval vm_compute in
  mkSha2 32 64 (map (cbrt_frac 32) (take 64 primes80)) (map (sqrt_frac 32) (take 8 primes80))
    (2, 13, 22) (6, 11, 25) (7, 18, 3) (17, 19, 10).

Definition sha512_params : sha2 := Eval vm_compute in
  mkSha2 64 128 (map (cbrt_frac 64) primes80) (map (sqrt_frac 64) (take 8 primes80))
    (28, 34, 39) (14, 18, 41) (1, 8, 7) (19, 61, 6).

Section Sha2.
Variable P : sha2.

Definition wmask (x : Z) : Z := Z.land x (2 ^ word_bits P - 1).
Definition wadd (x y : Z) : Z := wmask (x + y).
Definition rotr (n x : Z) : Z := Z.lor (Z.shiftr x n) (wmask (Z.shiftl x (word_bits P - n))).

Definition sigma_rot (r : Z * Z * Z) (x : Z) : Z :=
  let '(a, b, c) := r in Z.lxor (rotr a x) (Z.lxor (rotr b x) (rotr c x)).
Definition sigma_shift (r : Z * Z * Z) (x : Z) : Z :=
  let '(a, b, c) := r in Z.lxor (rotr a x) (Z.lxor (rotr b x) (Z.shiftr x c)).

Definition wch (x y z : Z) : Z := Z.lxor (Z.land x y) (Z.land (wmask (Z.lnot x)) z).
Definition wmaj (x y z : Z) : Z := Z.lxor (Z.land x y) (Z.lxor (Z.land x z) (Z.land y z)).

(** The message schedule; [w] holds the last sixteen words, oldest first. *)
Fixpoint schedule (n : nat) (w : list Z) : list Z :=
  match n with
  | O => []
  | S n =>
      let nth i := nth i w 0 in
      let new := wadd (wadd (sigma_shift (small1 P) (nth 14%nat)) (nth 9%nat))
                      (wadd (sigma_shift (small0 P) (nth 1%nat)) (nth 0%nat)) in
      nth 0%nat :: schedule n (tail w ++ [new])
  end.

Definition round (st : list Z) (kw : Z * Z) : list Z :=
  match st with
  | [a; b; c; d; e; f; g; h] =>
      let t1 := wadd (wadd (wadd h (sigma_rot (big1 P) e)) (wch e f g)) (wadd (fst kw) (snd kw)) in
      let t2 := wadd (sigma_rot (big0 P) a) (wmaj a b c) in
      [wadd t1 t2; a; b; c; wadd d t1; e; f; g]
  | _ => st
  end.

Definition compress (h : list Z) (block : list Z) : list Z :=
  let wb := Z.to_nat (word_bits P / 8) in
  let w := map be_word (chunks 16 wb block) in
  let ws := schedule (length (round_consts P)) w in
  zip_with wadd h (foldl round h (zip (round_consts P) ws)).

(** Padding: a one bit, zeros, and the length in bits in two words. *)
Definition sha_pad (msg : list Z) : list Z :=
  let bb := block_bytes P in
  let lb := Z.to_nat (word_bits P / 4) in
  let len := length msg in
  let used := Nat.modulo (len + 1 + lb) bb in
  let zeros := Nat.modulo (bb - used) bb in
  msg ++ [128] ++ replicate zeros 0 ++ be_bytes lb (8 * Z.of_nat len).

Definition sha2_sum (msg : string) : string :=
  let padded := sha_pad (to_bytes msg) in
  let h := foldl compress (init_hash P) (chunks (length padded) (block_bytes P) padded) in
  of_bytes (concat (map (be_bytes (Z.to_nat (word_bits P / 8))) h)).

(** ** HMAC *)

Definition xor_pad (b : Z) (key : string) : string :=
  let k := to_bytes key in
  of_bytes (map (Z.lxor b) (k ++ replicate (block_bytes P - length k) 0)).

Definition hmac (key msg : string) : string :=
  let key := if Nat.ltb (block_bytes P) (String.length key) then sha2_sum key else key in
  sha2_sum (xor_pad 92 key +:+ sha2_sum (xor_pad 54 key +:+ msg)).
End Sha2.

Definition sha256 : string → string := sha2_sum sha256_params.
Definition hmac_sha256 : string → string → string := hmac sha256_params.
Definition hmac_sha512 : string → string → string := hmac sha512_params.

(** ** hex and base64 *)

Definition hex_nibble (d : Z) : ascii := chr (if d <? 10 then 48 + d else 87 + d).

Fixpoint hex_encode (s : string) : string :=
  match s with
  | EmptyString => EmptyString
  | String c s => String (hex_nibble (byte c / 16)) (String (hex_nibble (byte c mod 16)) (hex_encode s))
  end.

Definition b64_char (url : bool) (d : Z) : ascii :=
  chr (if d <? 26 then 65 + d else if d <? 52 then 71 + d else if d <? 62 then d - 4
       else if d =? 62 then (if url then 45 else 43) else (if url then 95 else 47)).

Definition b64_value (url : bool) (c : ascii) : option Z :=
  let b := byte c in
  if in_range 65 90 b then Some (b - 65)
  else if in_range 97 122 b then Some (b - 71)
  else if in_range 48 57 b then Some (b + 4)
  else if b =? (if url then 45 else 43) then Some 62
  else if b =? (if url then 95 else 47) then Some 63
  else None.

(** [url]: the URL alphabet without padding ([RawURLEncoding]); otherwise the
    standard alphabet with padding ([StdEncoding]). *)
Fixpoint b64_encode (url : bool) (l : list Z) : string :=
  match l with
  | [] => ""
  | [a] =>
      let n := a * 16 in
      String (b64_char url (n / 64)) (String (b64_char url (n mod 64)) (if url then "" else "=="))
  | [a; b] =>
      let n := (a * 256 + b) * 4 in
      String (b64_char url (n / 4096)) (String (b64_char url (n / 64 mod 64))
        (String (b64_char url (n mod 64)) (if url then "" else "=")))
  | a :: b :: c :: l =>
      let n := (a * 256 + b) * 256 + c in
      String (b64_char url (n / 262144)) (String (b64_char url (n / 4096 mod 64))
        (String (b64_char url (n / 64 mod 64)) (String (b64_char url (n mod 64)) (b64_encode url l))))
  end.

(** Unused low bits of the last character are not checked, and the end-of-line
    characters are skipped, as Go does. *)
Fixpoint b64_decode_raw (url : bool) (s : string) : option (list Z) :=
  match s with
  | EmptyString => Some []
  | String a (String b EmptyString) =>
      x ← b64_value url a; y ← b64_value url b; Some [(x * 64 + y) / 16]
  | String a (String b (String c EmptyString)) =>
      x ← b64_value url a; y ← b64_value url b; z ← b64_value url c;
      let n := ((x * 64 + y) * 64 + z) / 4 in Some [n / 256; n mod 256]
  | String a (String b (String c (String d s))) =>
      x ← b64_value url a; y ← b64_value url b; z ← b64_value url c; u ← b64_value url d;
      l ← b64_decode_raw url s;
      let n := ((x * 64 + y) * 64 + z) * 64 + u in
      Some (n / 65536 :: n / 256 mod 256 :: n mod 256 :: l)
  | _ => None
  end.

Fixpoint drop_eol (s : string) : string :=
  match s with
  | EmptyString => EmptyString
  | String c s => if (byte c =? 10) || (byte c =? 13) then drop_eol s else String c (drop_eol s)
  end.

(** [base64.RawURLEncoding] *)
Definition raw_url_encode (s : string) : string := b64_encode true (to_bytes s).
Definition raw_url_decode (s : string) : option string :=
  of_bytes <$> b64_decode_raw true (drop_eol s).

(** [base64.StdEncoding] *)
Definition std_encode (s : string) : string := b64_encode false (to_bytes s).
(** [StdEncoding.DecodeString]: the bytes decoded before the first corrupt
    group, and whether there was no error. *)
Fixpoint std_decode_groups (s : string) : list Z * bool :=
  match s with
  | EmptyString => ([], true)
  | String a (String b (String c (String d s))) =>
      match b64_value false a, b64_value false b, b64_value false c, b64_value false d with
      | Some x, Some y, Some z, Some u =>
          let n := ((x * 64 + y) * 64 + z) * 64 + u in
          let '(l, ok) := std_decode_groups s in
          (n / 65536 :: n / 256 mod 256 :: n mod 256 :: l, ok)
      | Some x, Some y, Some z, None =>
          let n := ((x * 64 + y) * 64 + z) / 4 in
          if Ascii.eqb d "="%char then ([n / 256; n mod 256], String.eqb s "") else ([], false)
      | Some x, Some y, None, None =>
          if Ascii.eqb c "="%char && Ascii.eqb d "="%char
          then ([(x * 64 + y) / 16], String.eqb s "") else ([], false)
      | _, _, _, _ => ([], false)
      end
  | _ => ([], false)
  end.

Definition std_decode (s : string) : string * bool :=
  let '(l, ok) := std_decode_groups (drop_eol s) in (of_bytes l, ok).

(** ** Test vectors *)

Example sha256_abc :
  hex_encode (sha256 "abc") = "ba7816bf8f01cfea414140de5dae2223b00361a396177a9cb410ff61f20015ad".
Proof. vm_compute. reflexivity. Qed.

Example sha512_abc :
  str_take 32 (hex_encode (sha2_sum sha512_params "abc")) = "ddaf35a193617abacc417349ae204131".
Proof. vm_compute. reflexivity. Qed.

Example hmac_sha256_jefe :
  hex_encode (hmac_sha256 "Jefe" "what do ya want for nothing?")
  = "5bdcc146bf60754e6a042426089575c75a003f089d2739839dec58b964ec3843".
Proof. vm_compute. reflexivity. Qed.

Example hmac_sha512_jefe :
  str_take 32 (hex_encode (hmac_sha512 "Jefe" "what do ya want for nothing?"))
  = "164b7a7bfcf819e2e395fbe73b56e0a3".
Proof. vm_compute. reflexivity. Qed.

(** ** Round trips *)

Definition bytes (l : list Z) : Prop := Forall (λ b, 0 ≤ b < 256) l.

Lemma to_bytes_range s : bytes (to_bytes s).
Proof.
  induction s as [|c s IH]; constructor; [|done].
  unfold byte. pose proof (N_ascii_bounded c). lia.
Qed.

Lemma of_to_bytes s : of_bytes (to_bytes s) = s.
Proof.
  induction s as [|c s IH]; simpl; [done|]. rewrite IH. f_equal.
  unfold chr, byte. by rewrite N2Z.id, ascii_N_embedding.
Qed.

Lemma b64_value_char url d : 0 ≤ d < 64 → b64_value url (b64_char url d) = Some d.
Proof.
  intros Hd. assert (d = Z.of_nat (Z.to_nat d)) as -> by lia.
  assert (Z.to_nat d < 64)%nat as Hn by lia. revert Hn. generalize (Z.to_nat d) as n. clear.
  intros n Hn. do 64 (destruct n as [|n]; [by destruct url|]). lia.
Qed.

Lemma b64_char_range url d : 0 ≤ d < 64 → byte (b64_char url d) ≠ 46 ∧ byte (b64_char url d) ≠ 10 ∧ byte (b64_char url d) ≠ 13.
Proof.
  intros Hd. assert (d = Z.of_nat (Z.to_nat d)) as -> by lia.
  assert (Z.to_nat d < 64)%nat as Hn by lia. revert Hn. generalize (Z.to_nat d) as n. clear.
  intros n Hn. do 64 (destruct n as [|n]; [by destruct url|]). lia.
Qed.

Lemma list_ind3 (P : list Z → Prop) :
  P [] → (∀ a, P [a]) → (∀ a b, P [a; b]) →
  (∀ a b c l, P l → P (a :: b :: c :: l)) → ∀ l, P l.
Proof.
  intros H0 H1 H2 H3. fix IH 1. intros [|a [|b [|c l]]]; [done|apply H1|apply H2|].
  apply H3, IH.
Qed.

#[local] Ltac b64_bounds :=
  repeat match goal with
  | |- 0 ≤ _ / _ < _ => split; [apply Z.div_pos; lia|apply Z.div_lt_upper_bound; lia]
  | |- 0 ≤ _ mod _ < _ => apply Z.mod_pos_bound; lia
  end.

Lemma b64_join2 n : (n / 4096 * 64 + n / 64 mod 64) * 64 + n mod 64 = n.
Proof.
  replace (n / 4096) with (n / 64 / 64) by (by rewrite Z.div_div by lia).
  pose proof (Z.div_mod n 64 ltac:(lia)). pose proof (Z.div_mod (n / 64) 64 ltac:(lia)). lia.
Qed.

Lemma b64_join3 n :
  ((n / 262144 * 64 + n / 4096 mod 64) * 64 + n / 64 mod 64) * 64 + n mod 64 = n.
Proof.
  replace (n / 262144) with (n / 64 / 4096) by (by rewrite Z.div_div by lia).
  replace (n / 4096) with (n / 64 / 64) by (by rewrite Z.div_div by lia).
  rewrite (b64_join2 (n / 64)). pose proof (Z.div_mod n 64 ltac:(lia)). lia.
Qed.

Lemma b64_round_trip l : bytes l → b64_decode_raw true (b64_encode true l) = Some l.
Proof.
  induction l as [|a|a b|a b c l IH] using list_ind3; intros Hl; [done|..];
    repeat (apply Forall_cons in Hl as [? Hl]); cbn [b64_encode b64_decode_raw].
  - rewrite !b64_value_char by b64_bounds. cbn. do 2 f_equal.
    pose proof (Z.div_mod (a * 16) 64 ltac:(lia)).
    replace (a * 16 / 64 * 64 + (a * 16) mod 64) with (a * 16) by lia. by apply Z.div_mul.
  - rewrite !b64_value_char by b64_bounds. cbn. set (n := (a * 256 + b) * 4).
    rewrite b64_join2.
    unfold n. rewrite Z.div_mul by lia.
    rewrite Z.div_add_l, (Z.div_small b), Z.add_0_r by lia.
    rewrite Z.add_comm, Z.mod_add, Z.mod_small by lia. done.
  - rewrite !b64_value_char by b64_bounds. rewrite IH by done. cbn.
    set (n := (a * 256 + b) * 256 + c).
    rewrite b64_join3.
    assert (n / 256 = a * 256 + b) as Hn.
    { unfold n. rewrite Z.div_add_l, (Z.div_small c), Z.add_0_r by lia. done. }
    assert (n / 65536 = a) as ->.
    { change 65536 with (256 * 256). rewrite <- Z.div_div, Hn by lia.
      rewrite Z.div_add_l, (Z.div_small b), Z.add_0_r by lia. done. }
    rewrite Hn. unfold n. rewrite (Z.add_comm _ c), (Z.add_comm _ b), !Z.mod_add, !Z.mod_small by lia.
    done.
Qed.

(** The encoding consists of characters of the alphabet only. *)
Definition b64_ok (c : ascii) : bool :=
  negb ((byte c =? 46) || (byte c =? 10) || (byte c =? 13)).

Lemma b64_char_ok url d : 0 ≤ d < 64 → b64_ok (b64_char url d) = true.
Proof. intros Hd%(b64_char_range url). unfold b64_ok. lia. Qed.

Lemma b64_encode_ok l : bytes l → str_forallb b64_ok (b64_encode true l) = true.
Proof.
  induction l as [|a|a b|a b c l IH] using list_ind3; intros Hl; [done|..];
    repeat (apply Forall_cons in Hl as [? Hl]); cbn [b64_encode str_forallb];
    rewrite !b64_char_ok by b64_bounds; [done|done|by rewrite IH].
Qed.

Lemma drop_eol_id s : str_forallb b64_ok s = true → drop_eol s = s.
Proof.
  induction s as [|c s IH]; simpl; [done|]. intros [Hc Hs]%andb_true_iff.
  unfold b64_ok in Hc. destruct (byte c =? 10), (byte c =? 13); simpl; try (rewrite ?orb_true_r in Hc; done).
  by rewrite IH.
Qed.

Lemma raw_url_round_trip s : raw_url_decode (raw_url_encode s) = Some s.
Proof.
  unfold raw_url_decode, raw_url_encode.
  rewrite drop_eol_id by apply b64_encode_ok, to_bytes_range.
  rewrite b64_round_trip by apply to_bytes_range. simpl. by rewrite of_to_bytes.
Qed.

Lemma raw_url_encode_ok s : str_forallb b64_ok (raw_url_encode s) = true.
Proof. apply b64_encode_ok, to_bytes_range. Qed.
