(* ===== verification/AuditSink.v ===== *)
(** * internal/audit: audit events and their sinks

    [InMemorySink], the asynchronous queue [AsyncSink] as a transition system
    (its channel, its drain loop and [Close] run concurrently), and [KafkaSink]
    with the audit.v1 envelope. *)

From S2P Require Export Venue GoTime Crypto.

(** ** Events *)

Definition EventType := string.
Definition EventOrderPlaced : EventType := "order_placed".
Definition EventOrderCanceled : EventType := "order_canceled".
Definition EventOrderUpdated : EventType := "order_updated".
Definition EventFill : EventType := "fill".
Definition EventBalanceSnapshot : EventType := "balance_snapshot".
Definition EventCredRotation : EventType := "credential_rotation".

Section Types.
Context `{DD : Decimal}.

Record FillDetail := mkFillDetail {
  fd_TradeID : string;
  fd_Price : D;
  fd_Quantity : D;
  fd_Fee : D;
  fd_FeeAsset : string;
  fd_TS : Time;
}.

Record BalanceDetail := mkBalanceDetail {
  bd_Asset : string;
  bd_Free : D;
  bd_Locked : D;
}.

(** [audit.Event]. *)
Record AuditEvent := mkEvent {
  ev_Type : EventType;
  ev_Venue : string;
  ev_Timestamp : Time;
  ev_OrderID : string;
  ev_ClientID : string;
  ev_Pair : string;
  ev_Side : string;
  ev_OrderType : string;
  ev_Quantity : D;
  ev_Price : D;
  ev_Fill : option FillDetail;
  ev_Balance : option BalanceDetail;
  ev_TraceID : string;
}.

(** The composite literal with only type and venue set. *)
Definition empty_event (ty : EventType) (venue : string) : AuditEvent :=
  mkEvent ty venue zero_time "" "" "" "" "" dec_zero dec_zero None None "".

Definition stamp (t : Time) (e : AuditEvent) : AuditEvent :=
  mkEvent (ev_Type e) (ev_Venue e) t (ev_OrderID e) (ev_ClientID e) (ev_Pair e) (ev_Side e)
    (ev_OrderType e) (ev_Quantity e) (ev_Price e) (ev_Fill e) (ev_Balance e) (ev_TraceID e).

Definition set_trace_id (id : string) (e : AuditEvent) : AuditEvent :=
  mkEvent (ev_Type e) (ev_Venue e) (ev_Timestamp e) (ev_OrderID e) (ev_ClientID e) (ev_Pair e)
    (ev_Side e) (ev_OrderType e) (ev_Quantity e) (ev_Price e) (ev_Fill e) (ev_Balance e) id.

(** ** JSON *)

Definition jdec (d : D) : jvalue := VRaw (dec_marshal d).

Definition omit_empty (k s : string) : list (string * jvalue) :=
  if String.eqb s "" then [] else [(k, VStr s)].

Definition fill_detail_json (f : FillDetail) : option jvalue :=
  ts ← marshal_time (fd_TS f);
  Some (VObj [("trade_id", VStr (fd_TradeID f)); ("price", jdec (fd_Price f));
    ("quantity", jdec (fd_Quantity f)); ("fee", jdec (fd_Fee f));
    ("fee_asset", VStr (fd_FeeAsset f)); ("ts", ts)]).

Definition balance_detail_json (b : BalanceDetail) : jvalue :=
  VObj [("asset", VStr (bd_Asset b)); ("free", jdec (bd_Free b)); ("locked", jdec (bd_Locked b))].

(** [json.Marshal(event)]; the error is a time outside the years 0 to 9999. *)
Definition event_json (e : AuditEvent) : option jvalue :=
  ts ← marshal_time (ev_Timestamp e);
  fill ← match ev_Fill e with
         | None => Some []
         | Some f => j ← fill_detail_json f; Some [("fill", j)]
         end;
  Some (VObj ([("type", VStr (ev_Type e)); ("venue", VStr (ev_Venue e)); ("timestamp", ts)]
    ++ omit_empty "order_id" (ev_OrderID e) ++ omit_empty "client_id" (ev_ClientID e)
    ++ omit_empty "pair" (ev_Pair e) ++ omit_empty "side" (ev_Side e)
    ++ omit_empty "order_type" (ev_OrderType e)
    ++ [("quantity", jdec (ev_Quantity e)); ("price", jdec (ev_Price e))] ++ fill
    ++ match ev_Balance e with None => [] | Some b => [("balance", balance_detail_json b)] end
    ++ omit_empty "trace_id" (ev_TraceID e))).

End Types.

(** The interface [Sink]. *)
Class Sink `{DD : Decimal} (K : Type) := Emit : K → AuditEvent → IO K.

(** [if event.Timestamp.IsZero() { event.Timestamp = time.Now().UTC() }] *)
Definition stamped `{DD : Decimal} `{E : Env} (e : AuditEvent) : IO AuditEvent :=
  if time_is_zero (ev_Timestamp e) then now ← time_now; mret (stamp now e) else mret e.

(** ** InMemorySink *)
Module InMemory.
Section InMemory.
Context `{DD : Decimal} `{E : Env}.

Record InMemorySink := mk { events : list AuditEvent }.

Definition NewInMemorySink : InMemorySink := mk [].

Definition Emit (s : InMemorySink) (e : AuditEvent) : IO InMemorySink :=
  e ← stamped e; mret (mk (events s ++ [e])).

Definition Events (s : InMemorySink) : list AuditEvent := events s.
Definition Count (s : InMemorySink) : nat := length (events s).

#[global] Instance in_memory_sink : Sink InMemorySink := Emit.
End InMemory.
End InMemory.

(** ** EmitWithTrace *)

(** [TracePropagator.Extract] applied to the context; [None] for a nil interface. *)
Definition EmitWithTrace `{DD : Decimal} {K : Type} `{!Sink K} (sink : option K) (e : AuditEvent)
    (tp : option string) : IO (option K) :=
  let e := match tp with Some id => set_trace_id id e | None => e end in
  match sink with
  | Some s => s ← Emit s e; mret (Some s)
  | None => mret None
  end.

(** [noopTrace]: what [NewNoopTrace] extracts. *)
Definition noop_trace_extract : string := "".

(** ** The sinks that only count or log *)
Module Logging.
Section Logging.
Context `{DD : Decimal}.

Record gRPCClient := mkGRPC { url : string; venue : string }.

Definition NewgRPCClient (url venue : string) : gRPCClient := mkGRPC url venue.

Definition gRPC_Emit (g : gRPCClient) (e : AuditEvent) : IO gRPCClient :=
  _ ← metric "audit_events_emitted_total" [venue g; ev_Type e] MInc; mret g.

Inductive logSink := NewLogSink.

Definition log_Emit (l : logSink) (e : AuditEvent) : IO logSink :=
  _ ← trace (EvLog ("audit: type=" +:+ ev_Type e +:+ " venue=" +:+ ev_Venue e
                    +:+ " order=" +:+ ev_OrderID e));
  mret l.

#[global] Instance grpc_sink : Sink gRPCClient := gRPC_Emit.
#[global] Instance log_sink : Sink logSink := log_Emit.
End Logging.
End Logging.

(** ** KafkaSink *)
Module Kafka.
Section Kafka.
Context `{DD : Decimal} `{E : Env}.

Definition AuditTopic : string := "audit.v1".

Record KafkaSink := mk {
  venue : string;
  dropped : Z;
}.

Definition errNoBrokers : error := "audit kafka: no brokers provided".

Definition NewKafkaSink (brokers : list string) (venue : string) : result KafkaSink :=
  match brokers with [] => Fail errNoBrokers | _ => Ok (mk venue 0) end.

Definition event_id (e : AuditEvent) : string :=
  if String.eqb (ev_OrderID e) ""
  then ev_Venue e +:+ "-" +:+ format_rfc3339nano (ev_Timestamp e) else ev_OrderID e.

(** The envelope; [json.Marshal] sorts the keys of a map. *)
Definition envelope (e : AuditEvent) (payload : string) : jvalue :=
  VObj [("action", VStr (ev_Type e)); ("actor_id", VStr "exchange-connectors");
    ("id", VStr (event_id e)); ("payload", VRaw payload);
    ("payload_hash", VStr ("sha256:" +:+ hex_encode (sha256 payload)));
    ("schema_version", VStr "1"); ("source_service", VStr "exchange-connectors");
    ("target_id", VStr (ev_OrderID e)); ("target_type", VStr "order");
    ("ts", VStr (format_rfc3339nano (ev_Timestamp e)))].

Definition Emit (s : KafkaSink) (e : AuditEvent) : IO KafkaSink :=
  e ← stamped e;
  match event_json e with
  | None => mret s
  | Some j =>
      let payload := print j in
      let body := print (envelope e payload) in
      err ← kafka_write AuditTopic (event_id e) body;
      match err with
      | Some _ =>
          _ ← metric "audit_dropped_total" [venue s; ev_Type e] MInc;
          mret (mk (venue s) (wrap64 (dropped s + 1)))
      | None =>
          _ ← metric "audit_events_emitted_total" [venue s; ev_Type e] MInc;
          mret s
      end
  end.

(** [Close]; closing the [kafka.Writer], which a sink always has, is the library's. *)
Definition Close (close_writer : KafkaSink → IO (option error)) (s : KafkaSink) : IO (option error) :=
  close_writer s.

Definition Dropped (s : KafkaSink) : Z := dropped s.

#[global] Instance kafka_sink : Sink KafkaSink := Emit.
End Kafka.
End Kafka.

(** ** AsyncSink

    The two Prometheus counters of the sink advance with [dropped] and
    [delivered]. The drain loop is parked at the receive ([LWaiting]), about to receive
    ([LReady]), handing an event to the delegate ([LBusy]) or finished. *)
Module Async.
Section Async.
Context `{DD : Decimal}.

Inductive loop_state :=
  | LReady
  | LWaiting
  | LBusy (e : AuditEvent)
  | LDone.

Record AsyncSink := mk {
  queue : list AuditEvent;        (** the buffered channel *)
  capacity : nat;
  chan_closed : bool;
  loop : loop_state;
  closed : bool;                  (** the field [closed] *)
  closing : bool;                 (** a [Close] is between the flag and the channel *)
  dropped : Z;
  delivered : list AuditEvent;    (** what the delegate was given *)
}.

Definition NewAsyncSink (queueSize : nat) : AsyncSink :=
  mk [] queueSize false LReady false false 0 [].

(** The outcome of an [Emit]: a send on a closed channel panics. *)
Inductive emit_outcome := Accepted | Dropped | Panicked.

(** [select { case s.queue <- event: default: ... }] on a stamped event. *)
Definition emit (s : AsyncSink) (e : AuditEvent) : emit_outcome * AsyncSink :=
  if chan_closed s then (Panicked, s)
  else match loop s with
  | LWaiting =>
      (Accepted, mk (queue s) (capacity s) (chan_closed s) (LBusy e) (closed s) (closing s)
                    (dropped s) (delivered s))
  | _ =>
      if Nat.ltb (length (queue s)) (capacity s) then
        (Accepted, mk (queue s ++ [e]) (capacity s) (chan_closed s) (loop s) (closed s) (closing s)
                      (dropped s) (delivered s))
      else
        (Dropped, mk (queue s) (capacity s) (chan_closed s) (loop s) (closed s) (closing s)
                     (wrap64 (dropped s + 1)) (delivered s))
  end.

Definition set_loop (q : list AuditEvent) (l : loop_state) (d : list AuditEvent) (s : AsyncSink) :=
  mk q (capacity s) (chan_closed s) l (closed s) (closing s) (dropped s) d.

(** One step of [loop]. *)
Definition loop_step (s : AsyncSink) : AsyncSink :=
  match loop s with
  | LReady =>
      match queue s with
      | e :: q => set_loop q (LBusy e) (delivered s) s
      | [] => set_loop [] (if chan_closed s then LDone else LWaiting) (delivered s) s
      end
  | LWaiting => if chan_closed s then set_loop (queue s) LDone (delivered s) s else s
  | LBusy e => set_loop (queue s) LReady (delivered s ++ [e]) s
  | LDone => s
  end.

(** [Close] up to the release of the mutex, and its [close(s.queue)]. *)
Definition close_begin (s : AsyncSink) : AsyncSink :=
  if closed s then s
  else mk (queue s) (capacity s) (chan_closed s) (loop s) true true (dropped s) (delivered s).

Definition close_end (s : AsyncSink) : AsyncSink :=
  if closing s
  then mk (queue s) (capacity s) true (loop s) (closed s) false (dropped s) (delivered s)
  else s.

Inductive action :=
  | AEmit (e : AuditEvent)
  | ALoop
  | ACloseBegin
  | ACloseEnd.

(** An interleaving; a panic ends the process. The log lists the accepted events. *)
Inductive steps : AsyncSink → list action → list AuditEvent → Z → AsyncSink → Prop :=
  | steps_nil s : steps s [] [] 0 s
  | steps_accept s e s1 acts acc n s2 :
      emit s e = (Accepted, s1) → steps s1 acts acc n s2 →
      steps s (AEmit e :: acts) (e :: acc) n s2
  | steps_drop s e s1 acts acc n s2 :
      emit s e = (Dropped, s1) → steps s1 acts acc n s2 →
      steps s (AEmit e :: acts) acc (n + 1) s2
  | steps_loop s acts acc n s2 :
      steps (loop_step s) acts acc n s2 → steps s (ALoop :: acts) acc n s2
  | steps_close_begin s acts acc n s2 :
      steps (close_begin s) acts acc n s2 → steps s (ACloseBegin :: acts) acc n s2
  | steps_close_end s acts acc n s2 :
      steps (close_end s) acts acc n s2 → steps s (ACloseEnd :: acts) acc n s2.

Definition DroppedCount (s : AsyncSink) : Z := dropped s.

(** The event between the queue and the delegate. *)
Definition in_flight (s : AsyncSink) : list AuditEvent :=
  match loop s with LBusy e => [e] | _ => [] end.

(** Everything accepted and not lost, oldest first. *)
Definition contents (s : AsyncSink) : list AuditEvent := delivered s ++ in_flight s ++ queue s.

Definition wf (s : AsyncSink) : Prop :=
  (length (queue s) ≤ capacity s)%nat
  ∧ match loop s with
    | LWaiting => queue s = []
    | LDone => queue s = [] ∧ chan_closed s = true
    | _ => True
    end.

(** Steps of the loop that empty the queue. *)
Definition drain_steps (s : AsyncSink) : nat :=
  match loop s with LBusy _ => 1 | _ => 0 end + 2 * length (queue s).

End Async.
End Async.

Section AsyncFacts.
Import Async.
Context `{DD : Decimal}.

(** What no step changes but by the events it accepts and drops. *)
Definition advances (s s' : AsyncSink) (acc : list AuditEvent) (n : Z) : Prop :=
  wf s' ∧ contents s' = contents s ++ acc
  ∧ (dropped s = wrap64 (dropped s) → dropped s' = wrap64 (dropped s + n)) ∧ capacity s' = capacity s.

Lemma emit_advances s e :
  wf s →
  match emit s e with
  | (Panicked, s') => chan_closed s = true ∧ s' = s
  | (Accepted, s') => chan_closed s = false ∧ advances s s' [e] 0
  | (Dropped, s') => chan_closed s = false ∧ advances s s' [] 1
                     ∧ length (queue s) = capacity s
  end.
Proof.
  intros (Hq & Hl). unfold emit, advances, contents, in_flight, wf.
  destruct (chan_closed s) eqn:Hch; [done|].
  destruct (loop s) as [| |b|] eqn:Hloop; [|..|by destruct Hl].
  - destruct (Nat.ltb_spec (length (queue s)) (capacity s)); cbn; rewrite ?Hloop.
    + rewrite length_app. cbn. rewrite ?Z.add_0_r; split_and!; try done; try lia. by rewrite <- app_assoc.
    + rewrite ?Z.add_0_r; split_and!; try done; try lia. by rewrite app_nil_r.
  - cbn. rewrite Hl. cbn. rewrite ?Z.add_0_r; split_and!; try done; try lia. by rewrite app_nil_r.
  - destruct (Nat.ltb_spec (length (queue s)) (capacity s)); cbn; rewrite ?Hloop.
    + rewrite length_app. cbn. rewrite ?Z.add_0_r; split_and!; try done; try lia. by rewrite <- app_assoc.
    + rewrite ?Z.add_0_r; split_and!; try done; try lia. by rewrite app_nil_r.
Qed.

Lemma loop_step_advances s : wf s → advances s (loop_step s) [] 0.
Proof.
  intros (Hq & Hl). unfold loop_step, advances, contents, in_flight, wf, set_loop.
  rewrite app_nil_r, Z.add_0_r.
  destruct (loop s) as [| |b|] eqn:Hloop; cbn.
  - destruct (queue s) as [|e q] eqn:Hqs; cbn in *; [|split_and!; try done; lia].
    destruct (chan_closed s); cbn; split_and!; try done; lia.
  - destruct (chan_closed s) eqn:Hch; cbn; rewrite ?Hloop; done.
  - split_and!; try done. by rewrite <- app_assoc.
  - by rewrite Hloop.
Qed.

Lemma close_advances s :
  wf s → advances s (close_begin s) [] 0 ∧ advances s (close_end s) [] 0.
Proof.
  intros (Hq & Hl). unfold close_begin, close_end, advances, contents, in_flight, wf.
  rewrite app_nil_r, Z.add_0_r.
  split; [destruct (closed s)|destruct (closing s)]; cbn; split_and!; try done.
  all: destruct (loop s) as [| |b|]; [done|done|done|by destruct Hl].
Qed.

Lemma new_async_wf n : wf (NewAsyncSink n).
Proof. split; cbn; [lia|done]. Qed.

Lemma advances_trans s1 s2 s3 a b n k :
  advances s1 s2 a n → advances s2 s3 b k → advances s1 s3 (a ++ b) (k + n).
Proof.
  intros (_ & Hc & Hd & Hk) (Hw & Hc' & Hd' & Hk'). unfold advances.
  rewrite Hc', Hc, Hk', Hk, app_assoc. split_and!; [done|done| |done].
  intros Hr. rewrite Hd', (Hd Hr), wrap64_add_l; [f_equal; lia|].
  by rewrite (Hd Hr), wrap64_idemp.
Qed.

Lemma steps_advances s acts acc n s' :
  wf s → steps s acts acc n s' → advances s s' acc n.
Proof.
  intros Hwf Hs. revert Hwf.
  induction Hs as [s|s e s1 acts acc n s2 He _ IH|s e s1 acts acc n s2 He _ IH
                  |s acts acc n s2 _ IH|s acts acc n s2 _ IH|s acts acc n s2 _ IH]; intros Hwf.
  - unfold advances. rewrite app_nil_r, Z.add_0_r. done.
  - pose proof (emit_advances s e Hwf) as H. rewrite He in H. destruct H as (_ & H).
    rewrite <- (Z.add_0_r n). apply (advances_trans _ _ _ [e] acc _ _ H), IH, H.
  - pose proof (emit_advances s e Hwf) as H. rewrite He in H. destruct H as (_ & H & _).
    apply (advances_trans _ _ _ [] acc _ _ H), IH, H.
  - pose proof (loop_step_advances s Hwf) as H.
    rewrite <- (Z.add_0_r n). apply (advances_trans _ _ _ [] acc _ _ H), IH, H.
  - pose proof (proj1 (close_advances s Hwf)) as H.
    rewrite <- (Z.add_0_r n). apply (advances_trans _ _ _ [] acc _ _ H), IH, H.
  - pose proof (proj2 (close_advances s Hwf)) as H.
    rewrite <- (Z.add_0_r n). apply (advances_trans _ _ _ [] acc _ _ H), IH, H.
Qed.

(** The loop alone hands over everything that was queued. *)
Lemma drain s :
  wf s → loop s = LReady →
  delivered (Nat.iter (2 * length (queue s)) loop_step s) = contents s
  ∧ chan_closed (Nat.iter (2 * length (queue s)) loop_step s) = chan_closed s.
Proof.
  remember (queue s) as q eqn:Hq. revert s Hq.
  induction q as [|e q IH]; intros s Hq Hwf Hl.
  { cbn. unfold contents, in_flight. by rewrite Hl, <- Hq, !app_nil_r. }
  set (s1 := set_loop q LReady (delivered s ++ [e]) s).
  assert (loop_step (loop_step s) = s1) as Hs1.
  { unfold loop_step at 2. rewrite Hl, <- Hq. done. }
  replace (2 * length (e :: q))%nat with (2 + 2 * length q)%nat by (cbn; lia).
  rewrite Nat.add_comm, Nat.iter_add. cbn [Nat.iter nat_rect]. rewrite Hs1.
  destruct (IH s1) as [Hd Hc]; [done| |done|].
  { destruct Hwf as [Hlen _]. rewrite <- Hq in Hlen. split; cbn in *; [lia|done]. }
  rewrite Hd, Hc. split; [|done]. unfold contents, in_flight. cbn. rewrite Hl, <- Hq. cbn.
  by rewrite <- app_assoc.
Qed.

(** C25: In every interleaving of emitters, the drain loop and Close, the events
    accepted are those delivered, then the one in flight, then the queue, in order
    and without loss; the queue never exceeds its capacity, dropped counts the drops
    modulo 2^64, and an event is dropped only when the queue is full. *)
Theorem async_sink_fifo queueSize acts acc n s :
  steps (NewAsyncSink queueSize) acts acc n s →
  acc = delivered s ++ in_flight s ++ queue s
  ∧ dropped s = wrap64 n
  ∧ (length (queue s) ≤ queueSize)%nat
  ∧ (∀ e, match emit s e with
          | (Dropped, _) => length (queue s) = queueSize
          | (Panicked, _) => chan_closed s = true
          | (Accepted, _) => chan_closed s = false
          end).
Proof.
  intros Hs. destruct (steps_advances _ _ _ _ _ (new_async_wf queueSize) Hs) as (Hwf & Hc & Hd & Hk).
  change (contents s = acc) in Hc. split; [by rewrite <- Hc|]. split; [by apply Hd|]. cbn in Hk.
  split; [rewrite <- Hk; apply Hwf|]. intros e.
  pose proof (emit_advances s e Hwf) as He. destruct (emit s e) as [[] s']; [apply He| |apply He].
  rewrite <- Hk. apply He.
Qed.

(** C26: From every reachable state of the asynchronous sink the drain loop alone, in
    finitely many steps, delivers every event accepted, also after Close. *)
Theorem async_sink_drains queueSize acts acc n s :
  steps (NewAsyncSink queueSize) acts acc n s →
  ∃ k, delivered (Nat.iter k loop_step s) = acc.
Proof.
  intros Hs. destruct (steps_advances _ _ _ _ _ (new_async_wf queueSize) Hs) as (Hwf & Hc & _).
  change (contents s = acc) in Hc. destruct (loop s) as [| |b|] eqn:Hl.
  - exists (2 * length (queue s))%nat. by rewrite (proj1 (drain s Hwf Hl)), Hc.
  - exists O. cbn. unfold contents, in_flight in Hc. destruct Hwf as [_ Hw]. rewrite Hl in *.
    by rewrite <- Hc, Hw, !app_nil_r.
  - set (s1 := set_loop (queue s) LReady (delivered s ++ [b]) s).
    assert (wf s1) as Hw1 by (split; [apply Hwf|done]).
    exists (2 * length (queue s) + 1)%nat. rewrite Nat.iter_add. cbn [Nat.iter nat_rect].
    assert (loop_step s = s1) as -> by (unfold loop_step; by rewrite Hl).
    pose proof (proj1 (drain s1 Hw1 eq_refl)) as Hd. change (queue s1) with (queue s) in Hd.
    rewrite Hd. unfold contents, in_flight in *. cbn. rewrite Hl in Hc.
    by rewrite <- Hc, <- app_assoc.
  - exists O. cbn. unfold contents, in_flight in Hc. destruct Hwf as [_ Hw]. rewrite Hl in *.
    destruct Hw as [Hw _]. by rewrite <- Hc, Hw, !app_nil_r.
Qed.

(** *** Closing

    [sealed] is what a sink has once its [Close] reached the end. *)

(** The channel is closed, or a [Close] is about to close it. *)
Definition close_started (s : AsyncSink) : Prop := closing s = true ∨ chan_closed s = true.

Lemma emit_flags s e :
  let s' := snd (emit s e) in
  closed s' = closed s ∧ closing s' = closing s ∧ chan_closed s' = chan_closed s.
Proof. unfold emit. repeat case_match; done. Qed.

Lemma loop_step_flags s :
  closed (loop_step s) = closed s ∧ closing (loop_step s) = closing s
  ∧ chan_closed (loop_step s) = chan_closed s.
Proof. unfold loop_step. destruct (loop s), (queue s), (chan_closed s) eqn:?; done. Qed.

(** A sink that is [closed] has started closing. *)
Definition close_wf (s : AsyncSink) : Prop := closed s = true → close_started s.

Lemma close_begin_started s : close_wf s → close_started (close_begin s).
Proof. unfold close_begin, close_wf. destruct (closed s); [auto|]. by left. Qed.

Lemma steps_close s acts acc n s' :
  steps s acts acc n s' →
  (close_wf s → close_wf s') ∧ (close_started s → close_started s')
  ∧ (chan_closed s = true → chan_closed s' = true)
  ∧ (chan_closed s = true → ∀ e, AEmit e ∉ acts).
Proof.
  induction 1 as [s|s e s1 acts acc n s2 He _ IH|s e s1 acts acc n s2 He _ IH
                 |s acts acc n s2 _ IH|s acts acc n s2 _ IH|s acts acc n s2 _ IH].
  - split_and!; auto. intros _ e. apply not_elem_of_nil.
  - pose proof (emit_flags s e) as Hf. rewrite He in Hf. destruct Hf as (H1 & H2 & H3). cbn in H1, H2, H3.
    unfold close_wf, close_started in *. rewrite H1, H2, H3 in IH.
    destruct IH as (IH1 & IH2 & IH3 & IH4). split_and!; auto.
    intros Hc. unfold emit in He. by rewrite Hc in He.
  - pose proof (emit_flags s e) as Hf. rewrite He in Hf. destruct Hf as (H1 & H2 & H3). cbn in H1, H2, H3.
    unfold close_wf, close_started in *. rewrite H1, H2, H3 in IH.
    destruct IH as (IH1 & IH2 & IH3 & IH4). split_and!; auto.
    intros Hc. unfold emit in He. by rewrite Hc in He.
  - destruct (loop_step_flags s) as (H1 & H2 & H3).
    unfold close_wf, close_started in *. rewrite H1, H2, H3 in IH.
    destruct IH as (IH1 & IH2 & IH3 & IH4). split_and!; auto.
    intros Hc e. rewrite elem_of_cons. intros [?|?]; [done|by eapply IH4].
  - destruct IH as (IH1 & IH2 & IH3 & IH4). split_and!.
    + intros Hw. apply IH1. intros _. by apply close_begin_started.
    + intros Hs. apply IH2. unfold close_begin, close_started in *. destruct (closed s); [done|].
      by left.
    + intros Hc. apply IH3. unfold close_begin. by destruct (closed s).
    + intros Hc e. rewrite elem_of_cons. intros [?|?]; [done|]. eapply IH4; [|done].
      unfold close_begin. by destruct (closed s).
  - assert (chan_closed s = true → chan_closed (close_end s) = true) as Hc.
    { unfold close_end. by destruct (closing s). }
    assert (close_started s → close_started (close_end s)) as Hs.
    { unfold close_end, close_started. intros [->|H]; [by right|].
      destruct (closing s) eqn:?; [by right|by right]. }
    destruct IH as (IH1 & IH2 & IH3 & IH4). split_and!; auto.
    + intros Hw. apply IH1. intros Hcl. apply Hs, Hw. unfold close_end in Hcl. by destruct (closing s).
    + intros H e. rewrite elem_of_cons. intros [?|?]; [done|]. by eapply IH4; [apply Hc|].
Qed.

Lemma steps_app s a1 a2 acc n s' :
  steps s (a1 ++ a2) acc n s' →
  ∃ s1 acc1 n1 acc2 n2, steps s a1 acc1 n1 s1 ∧ steps s1 a2 acc2 n2 s'.
Proof.
  revert s acc n. induction a1 as [|a a1 IH]; intros s acc n H.
  { eexists _, _, _, _, _. split; [constructor|done]. }
  cbn in H. inversion H; subst;
    [match goal with
     | H : steps _ (a1 ++ a2) _ _ _ |- _ => destruct (IH _ _ _ H) as (? & ? & ? & ? & ? & ? & ?)
     end..];
    eexists _, _, _, _, _; (split; [|eassumption]);
    [eapply steps_accept|eapply steps_drop|eapply steps_loop|eapply steps_close_begin
    |eapply steps_close_end]; eassumption.
Qed.

(** C27: Once a Close of the asynchronous sink has run to its end, no execution can emit
    without panicking: Emit never looks at the closed flag, and a send on the closed
    channel panics. *)
Theorem async_emit_after_close_panics queueSize before middle after acc n s :
  steps (NewAsyncSink queueSize) (before ++ ACloseBegin :: middle ++ ACloseEnd :: after) acc n s →
  (∀ e, AEmit e ∉ after) ∧ ∀ e, fst (emit s e) = Panicked.
Proof.
  intros Hs. apply steps_app in Hs as (s1 & ? & ? & ? & ? & Hs1 & Hs).
  apply steps_close in Hs1 as (Hw & _).
  inversion Hs as [| | | |? ? ? ? ? Hs'|]; subst. clear Hs.
  apply steps_app in Hs' as (s2 & ? & ? & ? & ? & Hs2 & Hs).
  apply steps_close in Hs2 as (_ & Hst & _).
  inversion Hs as [| | | | |? ? ? ? ? Hs']; subst. clear Hs.
  assert (chan_closed (close_end s2) = true) as Hc.
  { destruct Hst as [H|H].
    - apply close_begin_started. apply Hw. intros H. done.
    - unfold close_end. by rewrite H.
    - unfold close_end. destruct (closing s2); done. }
  apply steps_close in Hs' as (_ & _ & Hcc & Hno). split; [by apply Hno|].
  intros e. unfold emit. by rewrite (Hcc Hc).
Qed.

End AsyncFacts.

Section KafkaFacts.
Import Kafka.
Context `{DD : Decimal} `{E : Env}.

(** The instant an event is recorded with. *)
Definition event_time (w : World) (e : AuditEvent) : Time :=
  if time_is_zero (ev_Timestamp e) then env_now (w_ticks w) else ev_Timestamp e.

(** KafkaSink.Emit of an event that can be encoded writes exactly one message, the
    envelope with the hash of the payload, to audit.v1 under the order id (or venue
    and time without one), and then counts it as emitted, or as dropped when the
    write fails; an event that cannot be encoded has no effect. *)
Theorem kafka_emit_correct s e w :
  let e' := stamp (event_time w e) e in
  let '(s', w') := Kafka.Emit s e w in
  match event_json e' with
  | None => s' = s ∧ w_trace w' = w_trace w
  | Some j =>
      let body := print (envelope e' (print j)) in
      ∃ kafka_error labels name,
        w_trace w' = w_trace w ++ [EvKafka AuditTopic (event_id e') body; EvMetric name labels MInc]
        ∧ kafka_error = env_kafka (w_trace w) AuditTopic (event_id e') body
        ∧ labels = [venue s; ev_Type e]
        ∧ match kafka_error with
          | None => name = "audit_events_emitted_total" ∧ s' = s
          | Some _ => name = "audit_dropped_total" ∧ dropped s' = wrap64 (dropped s + 1)
          end
  end.
Proof.
  unfold Kafka.Emit, stamped, event_time, kafka_write. run_io.
  assert (ev_Timestamp e ≠ zero_time → stamp (ev_Timestamp e) e = e) as Hst by (by destruct e).
  destruct (time_is_zero (ev_Timestamp e)) eqn:Hz; simpl.
  - destruct (event_json _) as [j|]; [|done]. simpl.
    destruct (env_kafka _ _ _ _) as [err|] eqn:Hk; simpl; [exists (Some err)|exists None];
      eexists _, _; rewrite <- app_assoc; done.
  - apply Z.eqb_neq in Hz. rewrite (Hst Hz).
    destruct (event_json _) as [j|]; [|done]. simpl.
    destruct (env_kafka _ _ _ _) as [err|] eqn:Hk; simpl; [exists (Some err)|exists None];
      eexists _, _; rewrite <- app_assoc; done.
Qed.

End KafkaFacts.

(** ** Witnesses *)
Section Witnesses.
Import Async.
#[local] Existing Instances fixed_decimal demo_env.

Definition demo_event (id : string) : AuditEvent :=
  set_trace_id id (stamp 1 (empty_event EventOrderPlaced "dummy")).

(** A queue of one: the second event is taken by the loop before the third is sent. *)
Definition demo_actions : list action :=
  [AEmit (demo_event "a"); AEmit (demo_event "b"); ALoop; AEmit (demo_event "c"); ALoop].

Lemma demo_steps :
  ∃ s, steps (NewAsyncSink 1) demo_actions [demo_event "a"; demo_event "c"] 1 s.
Proof.
  eexists. unfold demo_actions. eapply steps_accept; [reflexivity|].
  eapply (steps_drop _ _ _ _ _ 0); [reflexivity|]. apply steps_loop.
  eapply steps_accept; [reflexivity|]. apply steps_loop. apply steps_nil.
Qed.

Lemma async_sink_fifo_witness :
  ∃ s, [demo_event "a"; demo_event "c"] = delivered s ++ in_flight s ++ queue s ∧ dropped s = 1.
Proof.
  destruct demo_steps as [s Hs]. exists s.
  pose proof (async_sink_fifo 1 _ _ _ s Hs) as (H1 & H2 & _). split; [exact H1|exact H2].
Defined.

Lemma async_sink_drains_witness :
  ∃ s k, delivered (Nat.iter k loop_step s) = [demo_event "a"; demo_event "c"].
Proof. destruct demo_steps as [s Hs]. exists s. exact (async_sink_drains 1 _ _ _ s Hs). Defined.

Lemma demo_close_steps :
  steps (NewAsyncSink 1) ([] ++ ACloseBegin :: [] ++ ACloseEnd :: [])
    [] 0 (close_end (close_begin (NewAsyncSink 1))).
Proof. repeat constructor. Qed.

Lemma async_emit_after_close_panics_witness :
  fst (emit (close_end (close_begin (NewAsyncSink 1))) (demo_event "a")) = Panicked.
Proof. exact (proj2 (async_emit_after_close_panics 1 [] [] [] _ _ _ demo_close_steps) _). Defined.
End Witnesses.
