(* ===== verification/Events.v ===== *)
(** * internal/events: fill and balance events and their publication

    [Bus] publishes with up to [maxRetries] retries, a growing delay in between
    and a dead-letter handler. The publisher is an interface; [KafkaPublisher]
    implements it. *)

From S2P Require Export Venue GoTime.

Section Types.
Context `{DD : Decimal}.

Record FillEvent := mkFillEvent {
  fe_VenueOrderID : string;
  fe_InternalID : string;
  fe_Venue : string;
  fe_Pair : string;
  fe_Price : D;
  fe_Size : D;
  fe_Fee : D;
  fe_FeeAsset : string;
  fe_TradeID : string;
  fe_Timestamp : Time;
  fe_EmittedAt : Time;
}.

Record BalanceEvent := mkBalanceEvent {
  be_Venue : string;
  be_Asset : string;
  be_Free : D;
  be_Locked : D;
  be_Timestamp : Time;
  be_EmittedAt : Time;
}.

Definition set_internal_id (id : string) (ev : FillEvent) : FillEvent :=
  mkFillEvent (fe_VenueOrderID ev) id (fe_Venue ev) (fe_Pair ev) (fe_Price ev) (fe_Size ev)
    (fe_Fee ev) (fe_FeeAsset ev) (fe_TradeID ev) (fe_Timestamp ev) (fe_EmittedAt ev).

Definition set_fill_emitted (t : Time) (ev : FillEvent) : FillEvent :=
  mkFillEvent (fe_VenueOrderID ev) (fe_InternalID ev) (fe_Venue ev) (fe_Pair ev) (fe_Price ev)
    (fe_Size ev) (fe_Fee ev) (fe_FeeAsset ev) (fe_TradeID ev) (fe_Timestamp ev) t.

Definition set_balance_emitted (t : Time) (ev : BalanceEvent) : BalanceEvent :=
  mkBalanceEvent (be_Venue ev) (be_Asset ev) (be_Free ev) (be_Locked ev) (be_Timestamp ev) t.

Definition dec_json (d : D) : jvalue := VRaw (dec_marshal d).

(** [json.Marshal] of an event; the error is a time outside the years 0 to 9999. *)
Definition fill_event_json (ev : FillEvent) : option jvalue :=
  ts ← marshal_time (fe_Timestamp ev);
  em ← marshal_time (fe_EmittedAt ev);
  Some (VObj [("venue_order_id", VStr (fe_VenueOrderID ev));
    ("internal_order_id", VStr (fe_InternalID ev)); ("venue", VStr (fe_Venue ev));
    ("pair", VStr (fe_Pair ev)); ("price", dec_json (fe_Price ev)); ("size", dec_json (fe_Size ev));
    ("fee", dec_json (fe_Fee ev)); ("fee_asset", VStr (fe_FeeAsset ev));
    ("trade_id", VStr (fe_TradeID ev)); ("timestamp", ts); ("emitted_at", em)]).

Definition balance_event_json (ev : BalanceEvent) : option jvalue :=
  ts ← marshal_time (be_Timestamp ev);
  em ← marshal_time (be_EmittedAt ev);
  Some (VObj [("venue", VStr (be_Venue ev)); ("asset", VStr (be_Asset ev));
    ("free", dec_json (be_Free ev)); ("locked", dec_json (be_Locked ev));
    ("timestamp", ts); ("emitted_at", em)]).

Definition FillFromVenue (venueName internalID pair : string) (f : Fill) : FillEvent :=
  mkFillEvent (fill_VenueOrderID f) internalID venueName pair (fill_Price f) (fill_Quantity f)
    (fill_Fee f) (fill_FeeAsset f) (fill_TradeID f) (fill_Timestamp f) zero_time.

Definition BalanceFromVenue `{E : Env} (venueName : string) (b : Balance) : IO BalanceEvent :=
  now ← time_now;
  mret (mkBalanceEvent venueName (bal_Asset b) (bal_Free b) (bal_Locked b) now zero_time).

End Types.

(** ** Publishers *)

Class Publisher (P : Type) := Publish : P → string → string → IO (option error).

(** A publisher does not publish through a bus, nor sleep. *)
Definition is_attempt (e : event) : bool := is_publish e || is_sleep e.
Definition attempts_of (w : World) : list event := List.filter is_attempt (w_trace w).

Class PublisherLaws (P : Type) `{Publisher P} : Prop :=
  publish_silent : ∀ (p : P) subject data w,
    attempts_of (snd (Publish p subject data w)) = attempts_of w.

Record KafkaPublisher := mkKafkaPublisher {
  kp_brokers : list string;   (** the address of the [kafka.Writer] *)
  kp_topic : string;
}.

Section KafkaPublisher.
Context `{E : Env}.

Definition NewKafkaPublisher (brokers : list string) (topic : string) : result KafkaPublisher :=
  match brokers with
  | [] => Fail "events: no kafka brokers provided"
  | _ => Ok (mkKafkaPublisher brokers (if String.eqb topic "" then "recon" else topic))
  end.

(** The last parameter [topic=] of a query string. *)
Definition topic_of_query (q : string) : string :=
  foldl (λ topic kv, if HasPrefix kv "topic=" then TrimPrefix kv "topic=" else topic)
    "" (split_byte "&" q).

Definition clean_brokers (rest : string) : list string :=
  List.filter (λ b, negb (String.eqb b "")) (map TrimSpace (split_byte "," rest)).

Definition NewKafkaPublisherFromURL (url : string) : result KafkaPublisher :=
  if negb (HasPrefix url "kafka://")
  then Fail ("events: url must start with kafka://, got " +:+ Quote url)
  else
    let rest := TrimPrefix url "kafka://" in
    let '(rest, topic) :=
      match Index rest "?" with
      | Some i => (str_take i rest, topic_of_query (str_drop (i + 1) rest))
      | None => (rest, "")
      end in
    NewKafkaPublisher (clean_brokers rest) topic.

(** [None] is the nil receiver. *)
Definition kafka_publish (p : option KafkaPublisher) (subject data : string) : IO (option error) :=
  match p with
  | None => mret (Some "events: kafka not connected")
  | Some p => kafka_write (kp_topic p) "" data
  end.

(** [Close]; closing the [kafka.Writer] is the library's. *)
Definition kafka_close (close_writer : KafkaPublisher → IO (option error))
    (p : option KafkaPublisher) : IO (option error) :=
  match p with None => mret None | Some p => close_writer p end.

#[global] Instance kafka_publisher : Publisher (option KafkaPublisher) := kafka_publish.

#[global] Instance kafka_publisher_laws : PublisherLaws (option KafkaPublisher).
Proof.
  intros [p|] subject data w; unfold Publish, kafka_publisher, kafka_publish, kafka_write, attempts_of;
    run_io; [|done].
  rewrite List.filter_app. simpl. by rewrite app_nil_r.
Qed.
End KafkaPublisher.

(** ** The bus *)

Section Bus.
Context `{DD : Decimal} `{E : Env} {P : Type} `{!Publisher P}.

Record Bus := mkBus {
  bus_publisher : P;
  bus_subject : string;
  bus_maxRetries : nat;
  bus_deadLetter : FillEvent → error → IO unit;
}.

Definition NewBus (publisher : P) (subject : string) : Bus :=
  mkBus publisher subject 3 (λ _ _, mret tt).

Definition SetDeadLetterHandler (b : Bus) (h : FillEvent → error → IO unit) : Bus :=
  mkBus (bus_publisher b) (bus_subject b) (bus_maxRetries b) h.

(** How the loop of attempts ends. *)
Inductive attempt_outcome :=
  | Sent
  | Cancelled (e : error)
  | Exhausted (lastErr : error).

(** [time.Duration(attempt+1) * 100 * time.Millisecond] *)
Definition retry_delay (attempt : nat) : Duration := Z.of_nat (attempt + 1) * 100 * Millisecond.

(** One call of the publisher, recorded in the trace. *)
Definition publish_once (b : Bus) (subject data : string) : IO (option error) :=
  _ ← trace (EvPublish subject data); Publish (bus_publisher b) subject data.

(** The loop from [attempt] on, with [more] attempts after this one. *)
Fixpoint attempt_loop (b : Bus) (subject data : string) (attempt more : nat) : IO attempt_outcome :=
  err ← publish_once b subject data;
  match err with
  | None => mret Sent
  | Some lastErr =>
      done ← ctx_sleep (retry_delay attempt);
      match done with
      | Some e => mret (Cancelled e)
      | None =>
          match more with
          | O => mret (Exhausted lastErr)
          | S more => attempt_loop b subject data (S attempt) more
          end
      end
  end.

Definition publish_loop (b : Bus) (subject data : string) : IO attempt_outcome :=
  attempt_loop b subject data 0 (bus_maxRetries b).

(** [time.Since(ts).Seconds()], at least 0. *)
Definition seconds_since (ts : Time) : IO float64 :=
  now ← time_now;
  let s := duration_seconds (time_sub now ts) in
  mret (if f64_ltb s f64_zero then f64_zero else s).

Definition errMarshalTime : error :=
  "json: error calling MarshalJSON for type time.Time: Time.MarshalJSON: year outside of range [0,9999]".

(** The event that is sent: ids and instant filled in. *)
Definition complete_fill (ev : FillEvent) : IO FillEvent :=
  let ev := if String.eqb (fe_InternalID ev) "" then set_internal_id (fe_VenueOrderID ev) ev else ev in
  if time_is_zero (fe_EmittedAt ev) then now ← time_now; mret (set_fill_emitted now ev) else mret ev.

Definition PublishFill (b : Bus) (ev : FillEvent) : IO (option error) :=
  if String.eqb (fe_VenueOrderID ev) "" then mret (Some "events: venue_order_id required") else
  ev ← complete_fill ev;
  match fill_event_json ev with
  | None => mret (Some errMarshalTime)
  | Some j =>
      outcome ← publish_loop b (bus_subject b +:+ ".fills") (print j);
      match outcome with
      | Sent =>
          _ ← metric "events_published_total" [fe_Venue ev; "fill"; "ok"] MInc;
          latency ← seconds_since (fe_Timestamp ev);
          _ ← metric "fill_latency_seconds" [fe_Venue ev] (MObserve latency);
          mret None
      | Cancelled e => mret (Some e)
      | Exhausted lastErr =>
          _ ← metric "events_published_total" [fe_Venue ev; "fill"; "failed"] MInc;
          _ ← bus_deadLetter b ev lastErr;
          mret (Some lastErr)
      end
  end.

Definition complete_balance (ev : BalanceEvent) : IO BalanceEvent :=
  if time_is_zero (be_EmittedAt ev) then now ← time_now; mret (set_balance_emitted now ev) else mret ev.

Definition PublishBalance (b : Bus) (ev : BalanceEvent) : IO (option error) :=
  if String.eqb (be_Venue ev) "" || String.eqb (be_Asset ev) ""
  then mret (Some "events: venue and asset required") else
  ev ← complete_balance ev;
  match balance_event_json ev with
  | None => mret (Some errMarshalTime)
  | Some j =>
      outcome ← publish_loop b (bus_subject b +:+ ".balances") (print j);
      match outcome with
      | Sent =>
          _ ← metric "events_published_total" [be_Venue ev; "balance"; "ok"] MInc;
          lag ← seconds_since (be_Timestamp ev);
          _ ← metric "balance_sync_lag_seconds" [be_Venue ev] (MObserve lag);
          mret None
      | Cancelled e => mret (Some e)
      | Exhausted lastErr =>
          _ ← metric "events_published_total" [be_Venue ev; "balance"; "failed"] MInc;
          mret (Some lastErr)
      end
  end.

End Bus.
Arguments Bus {DD} P.

(** ** Properties *)
Section BusFacts.
Context `{DD : Decimal} `{E : Env} {P : Type} `{!Publisher P} `{!PublisherLaws P}.
Implicit Types (b : Bus P) (ev : FillEvent).

(** [n] failed attempts from number [from] on, each followed by its delay. *)
Definition rounds (subject data : string) (from n : nat) : list event :=
  concat (map (λ i, [EvPublish subject data; EvSleep (retry_delay i)]) (seq from n)).

(** How a loop of attempts ends, and what it did: at most [more] retries, the same
    data each time, one success at the end or none. *)
Definition attempts_end b (subject data : string) (from more : nat) (w : World)
    (o : attempt_outcome) (w' : World) : Prop :=
  match o with
  | Sent => ∃ k w1, (k ≤ more)%nat ∧ Publish (bus_publisher b) subject data w1 = (None, w')
      ∧ attempts_of w' = attempts_of w ++ rounds subject data from k ++ [EvPublish subject data]
  | Cancelled e => ∃ k tr, (k ≤ more)%nat ∧ env_sleep tr (retry_delay (from + k)) = Some e
      ∧ attempts_of w' = attempts_of w ++ rounds subject data from (S k)
  | Exhausted e => (∃ w1, fst (Publish (bus_publisher b) subject data w1) = Some e)
      ∧ attempts_of w' = attempts_of w ++ rounds subject data from (S more)
  end.

Lemma attempts_of_trace e w :
  attempts_of (snd (trace e w)) = attempts_of w ++ (if is_attempt e then [e] else []).
Proof. unfold attempts_of, trace. simpl. rewrite List.filter_app. simpl. by destruct (is_attempt e). Qed.

Lemma publish_once_attempts b subject data w :
  attempts_of (snd (publish_once b subject data w)) = attempts_of w ++ [EvPublish subject data].
Proof. unfold publish_once. rewrite bind_run. rewrite publish_silent. apply attempts_of_trace. Qed.

Lemma ctx_sleep_attempts d w :
  attempts_of (snd (ctx_sleep d w)) = attempts_of w ++ [EvSleep d].
Proof. exact (attempts_of_trace (EvSleep d) w). Qed.

Lemma ctx_sleep_answer d w : fst (ctx_sleep d w) = env_sleep (w_trace w) d.
Proof. done. Qed.

Lemma attempt_loop_end b subject data from more w :
  attempts_end b subject data from more w
    (fst (attempt_loop b subject data from more w)) (snd (attempt_loop b subject data from more w)).
Proof.
  revert from w. induction more as [|more IH]; intros from w;
    cbn [attempt_loop]; rewrite bind_run;
    pose proof (publish_once_attempts b subject data w) as Hp;
    assert (publish_once b subject data w
            = Publish (bus_publisher b) subject data (snd (trace (EvPublish subject data) w))) as Hpo
      by done;
    destruct (publish_once b subject data w) as [[err|] w1] eqn:Hpub; cbn [fst snd] in *;
    try (change (attempts_end b subject data from 0 w Sent w1)
         || change (attempts_end b subject data from (S more) w Sent w1);
         exists O, (snd (trace (EvPublish subject data) w));
         split; [lia|]; split; [done|]; by rewrite Hp).
  all: rewrite bind_run; pose proof (ctx_sleep_attempts (retry_delay from) w1) as Hs;
    pose proof (ctx_sleep_answer (retry_delay from) w1) as Ha;
    destruct (ctx_sleep (retry_delay from) w1) as [[e|] w2] eqn:Hsl; cbn [fst snd] in *;
    try (change (attempts_end b subject data from 0 w (Cancelled e) w2)
         || change (attempts_end b subject data from (S more) w (Cancelled e) w2);
         exists O, (w_trace w1); rewrite Nat.add_0_r; split; [lia|]; split; [done|];
         rewrite Hs, Hp, <- app_assoc; done).
  - cbn. split; [|by rewrite Hs, Hp, <- app_assoc].
    exists (snd (trace (EvPublish subject data) w)). by rewrite <- Hpo.
  - specialize (IH (S from) w2). unfold attempts_end in *.
    destruct (fst (attempt_loop b subject data (S from) more w2)) as [|e|e].
    + destruct IH as (k & w3 & Hk & Hw & Heq). exists (S k), w3. split; [lia|]. split; [done|].
      rewrite Heq, Hs, Hp, <- !app_assoc. done.
    + destruct IH as (k & tr & Hk & He & Heq). exists (S k), tr. split; [lia|].
      replace (from + S k)%nat with (S from + k)%nat by lia. split; [done|].
      rewrite Heq, Hs, Hp, <- !app_assoc. done.
    + destruct IH as (He & Heq). split; [done|]. rewrite Heq, Hs, Hp, <- !app_assoc. done.
Qed.

(** The event [PublishFill] sends, for the instant [now]. *)
Definition completed_fill (now : Time) ev : FillEvent :=
  mkFillEvent (fe_VenueOrderID ev)
    (if String.eqb (fe_InternalID ev) "" then fe_VenueOrderID ev else fe_InternalID ev)
    (fe_Venue ev) (fe_Pair ev) (fe_Price ev) (fe_Size ev) (fe_Fee ev) (fe_FeeAsset ev)
    (fe_TradeID ev) (fe_Timestamp ev)
    (if time_is_zero (fe_EmittedAt ev) then now else fe_EmittedAt ev).

Lemma complete_fill_run ev w :
  fst (complete_fill ev w) = completed_fill (env_now (w_ticks w)) ev
  ∧ attempts_of (snd (complete_fill ev w)) = attempts_of w.
Proof.
  unfold complete_fill, completed_fill, set_internal_id, set_fill_emitted. run_io.
  destruct ev as [a i v p pr sz f fa t ts em]; cbn.
  destruct (String.eqb i ""); cbn; by destruct (time_is_zero em).
Qed.

(** The number of times a publication was attempted. *)
Definition published (tr : list event) : nat := length (List.filter is_publish tr).

Lemma published_app l k : published (l ++ k) = (published l + published k)%nat.
Proof. unfold published. by rewrite List.filter_app, length_app. Qed.

Lemma published_rounds subject data from n : published (rounds subject data from n) = n.
Proof. unfold rounds, published. revert from. induction n as [|n IH]; intros from; [done|]. cbn. by rewrite IH. Qed.

Lemma published_attempts_of w : published (attempts_of w) = published (w_trace w).
Proof.
  unfold published, attempts_of. induction (w_trace w) as [|e l IH]; [done|]. cbn.
  destruct e; cbn; by rewrite ?IH.
Qed.

Lemma attempts_end_count b subject data more w o w' :
  attempts_end b subject data 0 more w o w' →
  (published (w_trace w) < published (w_trace w') ≤ published (w_trace w) + S more)%nat.
Proof.
  rewrite <- !published_attempts_of. destruct o as [|e|e].
  - intros (k & w1 & Hk & _ & ->). rewrite !published_app, published_rounds. cbn. lia.
  - intros (k & tr & Hk & _ & ->). rewrite published_app, published_rounds. lia.
  - intros (_ & ->). rewrite published_app, published_rounds. lia.
Qed.

(** The attempts at publishing one piece of data: the first, then retries of it and delays. *)
Definition publication (subject data : string) (tr : list event) : Prop :=
  ∃ rest, tr = EvPublish subject data :: rest
    ∧ Forall (λ e, e = EvPublish subject data ∨ is_sleep e = true) rest.

Lemma rounds_publication subject data from n rest :
  Forall (λ e, e = EvPublish subject data ∨ is_sleep e = true) rest →
  publication subject data (rounds subject data from (S n) ++ rest).
Proof.
  intros Hr. eexists. split; [done|]. change (concat _ ++ rest) with (rounds subject data (S from) n ++ rest).
  constructor; [by right|]. apply Forall_app. split; [|done].
  unfold rounds. generalize (S from). induction n as [|n IH]; intros k; [constructor|].
  cbn. constructor; [by left|]. constructor; [by right|]. apply IH.
Qed.

Lemma attempts_end_publication b subject data from more w o w' :
  attempts_end b subject data from more w o w' →
  ∃ tr, attempts_of w' = attempts_of w ++ tr ∧ publication subject data tr.
Proof.
  destruct o as [|e|e].
  - intros (k & w1 & _ & _ & ->). eexists. split; [done|]. destruct k as [|k].
    + by exists [].
    + apply rounds_publication. repeat constructor.
  - intros (k & tr & _ & _ & ->). eexists. split; [done|].
    rewrite <- (app_nil_r (rounds _ _ _ _)). by apply rounds_publication.
  - intros (_ & ->). eexists. split; [done|].
    rewrite <- (app_nil_r (rounds _ _ _ _)). by apply rounds_publication.
Qed.

(** What [PublishFill] attempts for an event: nothing without a venue order id or for an
    instant JSON cannot carry. *)
Definition fill_attempts b ev (tr : list event) : Prop :=
  if String.eqb (fe_VenueOrderID ev) "" then tr = [] else
  ∃ now, match fill_event_json (completed_fill now ev) with
         | None => tr = []
         | Some j => publication (bus_subject b +:+ ".fills") (print j) tr
         end.

(** A dead-letter handler that does not publish. *)
Definition quiet_dead_letter b : Prop :=
  ∀ ev e w, attempts_of (snd (bus_deadLetter b ev e w)) = attempts_of w.

Lemma metric_attempts name labels op w :
  attempts_of (snd (metric name labels op w)) = attempts_of w.
Proof. unfold metric. rewrite attempts_of_trace. apply app_nil_r. Qed.

Lemma publish_fill_attempts b ev w :
  quiet_dead_letter b →
  ∃ tr, attempts_of (snd (PublishFill b ev w)) = attempts_of w ++ tr ∧ fill_attempts b ev tr.
Proof.
  intros Hq. unfold PublishFill, fill_attempts.
  destruct (String.eqb (fe_VenueOrderID ev) ""); [exists []; by rewrite app_nil_r|].
  rewrite bind_run. destruct (complete_fill_run ev w) as [He Hw].
  destruct (complete_fill ev w) as [ev1 w0]. cbn [fst snd] in *. subst ev1.
  destruct (fill_event_json (completed_fill (env_now (w_ticks w)) ev)) as [j|] eqn:Hj.
  2:{ exists []. split; [by rewrite app_nil_r|]. exists (env_now (w_ticks w)). by rewrite Hj. }
  rewrite bind_run. unfold publish_loop.
  pose proof (attempt_loop_end b (bus_subject b +:+ ".fills") (print j) 0 (bus_maxRetries b) w0) as Hend.
  destruct (attempt_loop b (bus_subject b +:+ ".fills") (print j) 0 (bus_maxRetries b) w0) as [o w1].
  apply attempts_end_publication in Hend as (tr & Htr & Hp). cbn [fst snd] in *. rewrite Hw in Htr.
  exists tr. split; [|exists (env_now (w_ticks w)); by rewrite Hj].
  rewrite <- Htr. destruct o as [|e|e]; [|done|].
  - rewrite !bind_run. unfold seconds_since. rewrite bind_run. cbn [snd fst mret io_ret].
    rewrite metric_attempts. cbn [snd time_now]. apply (metric_attempts _ _ _ w1).
  - rewrite !bind_run. cbn [snd fst mret io_ret]. rewrite Hq. apply metric_attempts.
Qed.

(** The event [PublishBalance] sends, for the instant [now]. *)
Definition completed_balance (now : Time) (ev : BalanceEvent) : BalanceEvent :=
  if time_is_zero (be_EmittedAt ev) then set_balance_emitted now ev else ev.

Definition balance_attempts b (ev : BalanceEvent) (tr : list event) : Prop :=
  if String.eqb (be_Venue ev) "" || String.eqb (be_Asset ev) "" then tr = [] else
  ∃ now, match balance_event_json (completed_balance now ev) with
         | None => tr = []
         | Some j => publication (bus_subject b +:+ ".balances") (print j) tr
         end.

Lemma publish_balance_attempts b (ev : BalanceEvent) w :
  ∃ tr, attempts_of (snd (PublishBalance b ev w)) = attempts_of w ++ tr ∧ balance_attempts b ev tr.
Proof.
  unfold PublishBalance, balance_attempts.
  destruct (_ || _); [exists []; by rewrite app_nil_r|].
  assert (∃ now w0, complete_balance ev w = (completed_balance now ev, w0) ∧ attempts_of w0 = attempts_of w)
    as (now & w0 & Hc & Hw).
  { unfold complete_balance, completed_balance. destruct (time_is_zero _); [|by exists 0, w].
    by eexists (env_now (w_ticks w)), _. }
  rewrite bind_run, Hc. cbn [fst snd].
  destruct (balance_event_json (completed_balance now ev)) as [j|] eqn:Hj.
  2:{ exists []. split; [by rewrite app_nil_r|]. exists now. by rewrite Hj. }
  rewrite bind_run. unfold publish_loop.
  pose proof (attempt_loop_end b (bus_subject b +:+ ".balances") (print j) 0 (bus_maxRetries b) w0) as Hend.
  destruct (attempt_loop b (bus_subject b +:+ ".balances") (print j) 0 (bus_maxRetries b) w0) as [o w1].
  apply attempts_end_publication in Hend as (tr & Htr & Hp). cbn [fst snd] in *. rewrite Hw in Htr.
  exists tr. split; [|exists now; by rewrite Hj].
  rewrite <- Htr. destruct o as [|e|e]; [|done|].
  - rewrite !bind_run. unfold seconds_since. rewrite bind_run. cbn [snd fst mret io_ret].
    rewrite metric_attempts. cbn [snd time_now]. apply (metric_attempts _ _ _ w1).
  - rewrite !bind_run. cbn [snd fst mret io_ret]. apply metric_attempts.
Qed.

(** C28: PublishFill: without a venue order id it fails with no effect; otherwise it
    completes the event and publishes it at most maxRetries + 1 times (4 for a bus
    of NewBus), waiting 100 ms more after each failed attempt, and stops at the
    first success, which alone is counted as ok; a cancelled wait returns its error;
    when all attempts fail it counts one failure, calls the dead-letter handler once
    with the last error and returns it. *)
Theorem publish_fill_correct b ev w :
  let '(r, w') := PublishFill b ev w in
  let ev' := completed_fill (env_now (w_ticks w)) ev in
  let subject := bus_subject b +:+ ".fills" in
  if String.eqb (fe_VenueOrderID ev) ""
  then r = Some "events: venue_order_id required" ∧ w' = w
  else match fill_event_json ev' with
  | None => r = Some errMarshalTime ∧ attempts_of w' = attempts_of w
  | Some j => ∃ o w1, attempts_end b subject (print j) 0 (bus_maxRetries b) w o w1
      ∧ (published (w_trace w1) ≤ published (w_trace w) + S (bus_maxRetries b))%nat
      ∧ match o with
        | Sent => r = None ∧ ∃ latency, w_trace w' = w_trace w1 ++
            [EvMetric "events_published_total" [fe_Venue ev; "fill"; "ok"] MInc;
             EvMetric "fill_latency_seconds" [fe_Venue ev] (MObserve latency)]
        | Cancelled e => r = Some e ∧ w' = w1
        | Exhausted e => r = Some e ∧ w' = snd (bus_deadLetter b ev' e
            (snd (metric "events_published_total" [fe_Venue ev; "fill"; "failed"] MInc w1)))
        end
  end.
Proof.
  destruct (PublishFill b ev w) as [r w'] eqn:Heq. cbv zeta. unfold PublishFill in Heq.
  destruct (String.eqb (fe_VenueOrderID ev) ""); [by injection Heq as <- <-|].
  rewrite bind_run in Heq.
  destruct (complete_fill_run ev w) as [He Hw].
  destruct (complete_fill ev w) as [ev1 w0]. cbn [fst snd] in *. subst ev1.
  destruct (fill_event_json (completed_fill (env_now (w_ticks w)) ev)) as [j|];
    [|injection Heq as <- <-; done].
  rewrite bind_run in Heq. unfold publish_loop in Heq.
  pose proof (attempt_loop_end b (bus_subject b +:+ ".fills") (print j) 0 (bus_maxRetries b) w0) as Hend.
  destruct (attempt_loop b (bus_subject b +:+ ".fills") (print j) 0 (bus_maxRetries b) w0) as [o w1].
  cbn [fst snd] in *. exists o, w1.
  assert (attempts_end b (bus_subject b +:+ ".fills") (print j) 0 (bus_maxRetries b) w o w1) as Hend'
    by (unfold attempts_end in *; by rewrite Hw in Hend).
  split; [done|]. split; [apply (attempts_end_count _ _ _ _ _ _ _ Hend')|].
  destruct o as [|e|e].
  - cbn -[seconds_since] in Heq. unfold seconds_since in Heq. run_io. simplify_eq. split; [done|].
    eexists. rewrite <- app_assoc. done.
  - by injection Heq as <- <-.
  - rewrite !bind_run in Heq. by injection Heq as <- <-.
Qed.

End BusFacts.

(** ** Witnesses *)
Section Witnesses.
#[local] Existing Instance fixed_decimal.

(** Kafka is down. *)
Definition down_env : Env := env_with (λ _, HTTPErr "no route") (λ _, Some "broker down") (λ _, "").

Definition demo_bus : Bus (option KafkaPublisher) := NewBus (Some (mkKafkaPublisher ["k:9092"] "recon")) "recon".

Definition demo_fill_event : FillEvent :=
  mkFillEvent "v-1" "" "dummy" "BTCUSDT" (Fx 5 0) (Fx 1 0) (Fx 0 0) "USDT" "t-1" (1700000000 * Second) zero_time.

Lemma publish_fill_correct_witness :
  ∃ j o w1, attempts_end (E := down_env) (Publisher0 := kafka_publisher (E := down_env))
    demo_bus "recon.fills" (print j) 0 3 world0 o w1.
Proof.
  pose proof (publish_fill_correct (E := down_env) (Publisher0 := kafka_publisher (E := down_env))
                (PublisherLaws0 := kafka_publisher_laws (E := down_env)) demo_bus demo_fill_event world0) as H.
  destruct (PublishFill (E := down_env) (Publisher0 := kafka_publisher (E := down_env))
              demo_bus demo_fill_event world0) as [r w'].
  cbv zeta in H. change (String.eqb (fe_VenueOrderID demo_fill_event) "") with false in H.
  cbv iota in H. destruct (fill_event_json _) as [j|] eqn:Hj.
  - destruct H as (o & w1 & H & _). exists j, o, w1. exact H.
  - exfalso. vm_compute in Hj. discriminate.
Defined.

(** Four attempts with 100, 200, 300 and 400 milliseconds in between, then failure. *)
Example publish_fill_down :
  let '(r, w') := PublishFill (E := down_env) (Publisher0 := kafka_publisher (E := down_env))
                    demo_bus demo_fill_event world0 in
  r = Some "broker down" ∧ published (w_trace w') = 4%nat
  ∧ List.filter is_sleep (w_trace w') = map (λ ms, EvSleep (ms * Millisecond)) [100; 200; 300; 400].
Proof. vm_compute. done. Qed.
End Witnesses.
