(* ===== verification/Book.v ===== *)
(** * internal/book: the best bid and ask of each pair

    [BookAggregator] keeps the last update of every pair the connector streams. *)

From S2P Require Export Venue.

Record TopOfBook := mkTopOfBook {
  tob_Pair : string;
  tob_Bid : float64;
  tob_Ask : float64;
  tob_TS : Time;
}.

Record BookAggregator := mkBookAggregator { latest : gmap string TopOfBook }.

Section Book.
Context `{DD : Decimal} `{E : Env} {C : Type} `{!VenueConnector C}.

(** [upd.Bids[0].Price.Float64()], 0 for an empty side. *)
Definition best_price (levels : list BookLevel) : float64 :=
  match levels with l :: _ => dec_float64 (lvl_Price l) | [] => f64_zero end.

Definition top_of (upd : BookUpdate) : TopOfBook :=
  mkTopOfBook (upd_Pair upd) (best_price (upd_Bids upd)) (best_price (upd_Asks upd)) (upd_TS upd).

(** One round of the loop of [consume], under the lock. *)
Definition consume_update (a : BookAggregator) (upd : BookUpdate) : BookAggregator :=
  mkBookAggregator (<[upd_Pair upd := top_of upd]> (latest a)).

Definition consume (a : BookAggregator) (upds : list BookUpdate) : BookAggregator :=
  foldl consume_update a upds.

Definition Get (a : BookAggregator) (pair : string) : option TopOfBook := latest a !! pair.

Definition NewBookAggregator (conn : C) (pairs : list string) : IO (result BookAggregator * C) :=
  '(err, conn) ← SubscribeBook conn pairs;
  mret (match err with Some e => Fail e | None => Ok (mkBookAggregator ∅) end, conn).

(** [a.cancel()] cancels a context derived from [ctx] that nothing was given: the
    channel [consume] ranges over belongs to [ctx] itself, and goes on. *)
Definition Close (a : BookAggregator) : BookAggregator := a.

(** The top of book of a pair is that of its last update. *)
Theorem book_get_last_update upds pair :
  Get (consume (mkBookAggregator ∅) upds) pair
  = top_of <$> last (List.filter (λ u, String.eqb (upd_Pair u) pair) upds).
Proof.
  induction upds as [|u upds IH] using rev_ind; [done|].
  unfold consume, Get in *. rewrite foldl_app, List.filter_app. cbn [foldl consume_update latest List.filter].
  destruct (String.eqb_spec (upd_Pair u) pair) as [<-|Hne].
  - rewrite lookup_insert_eq, last_snoc. done.
  - rewrite lookup_insert_ne, app_nil_r by done. exact IH.
Qed.
End Book.
