(* ===== verification/Url.v ===== *)
(** * net/url: query strings

    [url.Values] with one value per key, as every [Set] leaves them, and their
    encoding sorted by key. *)

From S2P Require Export World.

(** ** Sorting strings, as [sort.Strings] *)

Definition str_le (a b : string) : Prop := str_ltb b a = false.

#[global] Instance str_le_dec a b : Decision (str_le a b).
Proof. unfold str_le. apply _. Defined.

#[global] Instance str_le_total : Total str_le.
Proof.
  intros a b. unfold str_le. destruct (str_ltb b a) eqn:H; [right|by left].
  destruct (str_ltb a b) eqn:H'; [|done].
  pose proof (str_ltb_trans _ _ _ H H') as Hf. by rewrite str_ltb_irrefl in Hf.
Qed.

Definition sort_strings (l : list string) : list string := merge_sort str_le l.

Lemma sort_strings_perm l : sort_strings l ≡ₚ l.
Proof. apply merge_sort_Permutation. Qed.

Lemma sort_strings_sorted l : Sorted str_le (sort_strings l).
Proof. apply Sorted_merge_sort, _. Qed.

Lemma str_le_spec a b : str_le a b ↔ a = b ∨ str_ltb a b = true.
Proof.
  unfold str_le. split.
  - intros H. destruct (decide (a = b)) as [|Hne]; [by left|right]. by apply str_ltb_total in H.
  - intros [->|H]; [apply str_ltb_irrefl|]. apply not_true_iff_false. intros H'.
    pose proof (str_ltb_trans _ _ _ H H') as Hf. by rewrite str_ltb_irrefl in Hf.
Qed.

#[global] Instance str_le_trans : Transitive str_le.
Proof.
  intros a b c. rewrite !str_le_spec. intros [->|H1] [->|H2]; auto. right. by eapply str_ltb_trans.
Qed.

#[global] Instance str_le_antisymm : AntiSymm eq str_le.
Proof.
  intros a b Hab Hba. apply str_le_spec in Hab as [->|H]; [done|]. unfold str_le in Hba. by rewrite H in Hba.
Qed.

(** Sorting forgets the order of its input. *)
Lemma sort_strings_unique l k : l ≡ₚ k → sort_strings l = sort_strings k.
Proof.
  intros H. apply (Sorted_unique str_le); [apply sort_strings_sorted..|].
  by rewrite !sort_strings_perm.
Qed.

Lemma sort_strings_strict l :
  NoDup l → StronglySorted (λ a b, str_ltb a b = true) (sort_strings l).
Proof.
  intros Hnd. assert (NoDup (sort_strings l)) as Hs by (by rewrite sort_strings_perm).
  pose proof (Sorted_StronglySorted str_le _ (sort_strings_sorted l)) as Hss.
  induction Hss as [|a k Hk IH Ha]; [constructor|]. apply NoDup_cons in Hs as [Hn Hs].
  constructor; [by apply IH|]. rewrite Forall_forall in *. intros b Hb.
  destruct (proj1 (str_le_spec a b) (Ha b Hb)) as [->|]; done.
Qed.

(** ** Escaping *)

Definition hex_upper (d : Z) : ascii := chr (if d <? 10 then 48 + d else 55 + d).

Definition unreserved (c : ascii) : bool :=
  let b := byte c in
  in_range 97 122 b || in_range 65 90 b || in_range 48 57 b
  || (b =? 45) || (b =? 95) || (b =? 46) || (b =? 126).

Definition escape_query_byte (c : ascii) : string :=
  if unreserved c then String c ""
  else if byte c =? 32 then "+"
  else String "%"%char (String (hex_upper (byte c / 16)) (String (hex_upper (byte c mod 16)) "")).

Fixpoint QueryEscape (s : string) : string :=
  match s with EmptyString => "" | String c s => escape_query_byte c +:+ QueryEscape s end.

(** ** Values *)

Definition encode_pair (kv : string * string) : string :=
  QueryEscape (fst kv) +:+ "=" +:+ QueryEscape (snd kv).

Definition Encode (v : gmap string string) : string :=
  Join (map (λ k, encode_pair (k, default "" (v !! k))) (sort_strings (map_to_list v).*1)) "&".

Example encode_params :
  Encode {["timestamp" := "12"; "symbol" := "BTC/USDT"; "note" := "a b"]}
  = "note=a+b&symbol=BTC%2FUSDT&timestamp=12".
Proof. vm_compute. reflexivity. Qed.
