(* ===== verification/Migrations.v ===== *)
(** * internal/store/migrations: the schema and its migrations

    The embedded SQL files, their pairing by version, and the runner that brings a
    database up or down. Every statement the runner executes is in the trace. *)

From S2P Require Export Url.

Record Migration := mkMigration {
  mig_Version : string;
  mig_Up : string;
  mig_Down : string;
}.

(** A file of the embedded directory, and what reading it gives. *)
Record DirEntry := mkDirEntry {
  de_Name : string;
  de_IsDir : bool;
  de_Content : result string;
}.

(** ** The embedded files *)

Definition init_down_sql : string :=
"DROP TABLE IF EXISTS idempotency_keys;
DROP TABLE IF EXISTS fills;
DROP TABLE IF EXISTS orders;".

Definition init_up_sql : string :=
"CREATE TABLE IF NOT EXISTS orders (
    venue_order_id  TEXT        PRIMARY KEY,
    client_order_id TEXT        NOT NULL,
    venue           TEXT        NOT NULL,
    pair            TEXT        NOT NULL,
    side            TEXT        NOT NULL,
    order_type      TEXT        NOT NULL,
    status          TEXT        NOT NULL,
    filled_qty      NUMERIC     NOT NULL DEFAULT 0,
    avg_price       NUMERIC     NOT NULL DEFAULT 0,
    quantity        NUMERIC     NOT NULL DEFAULT 0,
    price           NUMERIC     NOT NULL DEFAULT 0,
    created_at      TIMESTAMPTZ NOT NULL DEFAULT now(),
    updated_at      TIMESTAMPTZ NOT NULL DEFAULT now(),
    UNIQUE (venue, client_order_id)
);
CREATE INDEX IF NOT EXISTS orders_client_order_id_idx ON orders (client_order_id);
CREATE INDEX IF NOT EXISTS orders_venue_idx ON orders (venue);

CREATE TABLE IF NOT EXISTS fills (
    id              BIGSERIAL   PRIMARY KEY,
    venue_order_id  TEXT        NOT NULL,
    trade_id        TEXT        NOT NULL,
    venue           TEXT        NOT NULL,
    pair            TEXT        NOT NULL,
    price           NUMERIC     NOT NULL DEFAULT 0,
    quantity        NUMERIC     NOT NULL DEFAULT 0,
    fee             NUMERIC     NOT NULL DEFAULT 0,
    fee_asset       TEXT        NOT NULL DEFAULT '',
    ts              TIMESTAMPTZ NOT NULL DEFAULT now(),
    created_at      TIMESTAMPTZ NOT NULL DEFAULT now(),
    UNIQUE (venue, trade_id)
);
CREATE INDEX IF NOT EXISTS fills_venue_order_id_idx ON fills (venue_order_id);

CREATE TABLE IF NOT EXISTS idempotency_keys (
    key        TEXT        PRIMARY KEY,
    response   JSONB,
    created_at TIMESTAMPTZ NOT NULL DEFAULT now(),
    expires_at TIMESTAMPTZ NOT NULL
);
CREATE INDEX IF NOT EXISTS idempotency_keys_expires_at_idx ON idempotency_keys (expires_at);".

Definition fs : result (list DirEntry) :=
  Ok [mkDirEntry "0001_init_down.sql" false (Ok init_down_sql);
      mkDirEntry "0001_init_up.sql" false (Ok init_up_sql)].

(** ** All *)

Definition set_up (b : string) (m : Migration) : Migration := mkMigration (mig_Version m) b (mig_Down m).
Definition set_down (b : string) (m : Migration) : Migration := mkMigration (mig_Version m) (mig_Up m) b.

(** [byVersion[version]], created when missing, with one of its texts set. *)
Definition put_text (version : string) (set : Migration → Migration) (byVersion : gmap string Migration)
    : gmap string Migration :=
  <[version := set (default (mkMigration version "" "") (byVersion !! version))]> byVersion.

Fixpoint read_entries (entries : list DirEntry) (byVersion : gmap string Migration)
    : result (gmap string Migration) :=
  match entries with
  | [] => Ok byVersion
  | e :: entries =>
      if de_IsDir e then read_entries entries byVersion
      else if HasSuffix (de_Name e) "_up.sql" then
        match de_Content e with
        | Fail err => Fail err
        | Ok b => read_entries entries (put_text (TrimSuffix (de_Name e) "_up.sql") (set_up b) byVersion)
        end
      else if HasSuffix (de_Name e) "_down.sql" then
        match de_Content e with
        | Fail err => Fail err
        | Ok b => read_entries entries (put_text (TrimSuffix (de_Name e) "_down.sql") (set_down b) byVersion)
        end
      else read_entries entries byVersion
  end.

(** The last loop of [All]; every version is a key of [byVersion]. *)
Fixpoint collect_versions (byVersion : gmap string Migration) (versions : list string)
    : result (list Migration) :=
  match versions with
  | [] => Ok []
  | v :: versions =>
      let m := default (mkMigration v "" "") (byVersion !! v) in
      if String.eqb (mig_Up m) "" || String.eqb (mig_Down m) ""
      then Fail ("migrations: version " +:+ v +:+ " missing up or down")
      else match collect_versions byVersion versions with
           | Fail e => Fail e
           | Ok out => Ok (m :: out)
           end
  end.

Definition All `{E : Env} (dir : result (list DirEntry)) : IO (result (list Migration)) :=
  match dir with
  | Fail e => mret (Fail e)
  | Ok entries =>
      match read_entries entries ∅ with
      | Fail e => mret (Fail e)
      | Ok byVersion =>
          kvs ← range_map byVersion;
          mret (collect_versions byVersion (sort_strings (map fst kvs)))
      end
  end.

(** ** The runner *)

Definition create_schema_migrations : string :=
"CREATE TABLE IF NOT EXISTS schema_migrations (
		version TEXT PRIMARY KEY,
		applied_at TIMESTAMPTZ NOT NULL DEFAULT now()
	)".

Definition insert_version : string :=
  "INSERT INTO schema_migrations(version, applied_at) VALUES ($1, $2) ON CONFLICT (version) DO NOTHING".

Definition delete_version : string := "DELETE FROM schema_migrations WHERE version=$1".

(** [ExecFunc] and [QueryFunc], over a database of state type [S]. *)
Definition ExecFunc (S : Type) : Type := S → string → list sql_value → IO (option error * S).
Definition QueryFunc (S : Type) : Type := S → string → IO (result bool * S).

Record Runner (S : Type) := NewRunner {
  run_exec : ExecFunc S;
  run_query : option (QueryFunc S);
}.
Arguments NewRunner {S} _ _.
Arguments run_exec {S} _ _ _ _.
Arguments run_query {S} _.

Section Runner.
Context `{E : Env} {S : Type}.

(** [r.exec], recorded. *)
Definition runner_exec (r : Runner S) (s : S) (q : string) (args : list sql_value) : IO (option error * S) :=
  _ ← trace (EvSQL q args); run_exec r s q args.

(** [r.query], with the answer that does not skip when there is no query function. *)
Definition runner_query (r : Runner S) (otherwise : bool) (s : S) (v : string) : IO (result bool * S) :=
  match run_query r with None => mret (Ok otherwise, s) | Some q => q s v end.

Fixpoint up_each (r : Runner S) (migs : list Migration) (s : S) : IO (option error * S) :=
  match migs with
  | [] => mret (None, s)
  | m :: migs =>
      '(applied, s) ← runner_query r false s (mig_Version m);
      match applied with
      | Fail e => mret (Some e, s)
      | Ok true => up_each r migs s
      | Ok false =>
          '(err, s) ← runner_exec r s (mig_Up m) [];
          match err with
          | Some e => mret (Some ("migrations: apply " +:+ mig_Version m +:+ ": " +:+ e), s)
          | None =>
              now ← time_now;
              '(err, s) ← runner_exec r s insert_version [SText (mig_Version m); STime now];
              match err with
              | Some e => mret (Some ("migrations: record " +:+ mig_Version m +:+ ": " +:+ e), s)
              | None => up_each r migs s
              end
          end
      end
  end.

Definition Up (r : Runner S) (dir : result (list DirEntry)) (s : S) : IO (option error * S) :=
  '(err, s) ← runner_exec r s create_schema_migrations [];
  match err with
  | Some e => mret (Some ("migrations: create schema_migrations: " +:+ e), s)
  | None =>
      migs ← All dir;
      match migs with
      | Fail e => mret (Some e, s)
      | Ok migs => up_each r migs s
      end
  end.

(** The loop of [Down] over the migrations, the last one first. *)
Fixpoint down_each (r : Runner S) (migs : list Migration) (s : S) : IO (option error * S) :=
  match migs with
  | [] => mret (None, s)
  | m :: migs =>
      '(applied, s) ← runner_query r true s (mig_Version m);
      match applied with
      | Fail e => mret (Some e, s)
      | Ok false => down_each r migs s
      | Ok true =>
          '(err, s) ← runner_exec r s (mig_Down m) [];
          match err with
          | Some e => mret (Some ("migrations: revert " +:+ mig_Version m +:+ ": " +:+ e), s)
          | None =>
              '(err, s) ← runner_exec r s delete_version [SText (mig_Version m)];
              match err with
              | Some e => mret (Some e, s)
              | None => down_each r migs s
              end
          end
      end
  end.

Definition Down (r : Runner S) (dir : result (list DirEntry)) (s : S) : IO (option error * S) :=
  migs ← All dir;
  match migs with
  | Fail e => mret (Some e, s)
  | Ok migs => down_each r (reverse migs) s
  end.
End Runner.

(** ** What [All] returns *)

(** The text of the file [v suf], or [old] without one. *)
Definition file_text (suf v : string) (entries : list DirEntry) (old : string) : string :=
  foldl (λ t e, if negb (de_IsDir e) && String.eqb (de_Name e) (v +:+ suf)
                then match de_Content e with Ok b => b | Fail _ => t end else t) old entries.

(** A file of version [v]. *)
Definition of_version (v : string) (e : DirEntry) : bool :=
  negb (de_IsDir e)
  && (String.eqb (de_Name e) (v +:+ "_up.sql") || String.eqb (de_Name e) (v +:+ "_down.sql")).

Definition entry_of (v : string) (m : gmap string Migration) : Migration :=
  default (mkMigration v "" "") (m !! v).

Definition named_by_key (m : gmap string Migration) : Prop := ∀ v x, m !! v = Some x → mig_Version x = v.

Lemma entry_version v m : named_by_key m → mig_Version (entry_of v m) = v.
Proof. unfold entry_of. intros H. destruct (m !! v) as [x|] eqn:Hx; [by apply H|done]. Qed.

Lemma name_is_up name v :
  String.eqb name (v +:+ "_up.sql") = HasSuffix name "_up.sql" && String.eqb (TrimSuffix name "_up.sql") v.
Proof.
  destruct (HasSuffix name "_up.sql") eqn:Hs.
  - rewrite (has_suffix_split _ _ Hs) at 1.
    destruct (String.eqb_spec (TrimSuffix name "_up.sql") v) as [->|Hne]; [apply String.eqb_refl|].
    apply String.eqb_neq. intros He. apply Hne. by rewrite <- (trim_suffix_app v "_up.sql"), <- He, trim_suffix_app.
  - apply String.eqb_neq. intros ->. by rewrite has_suffix_app in Hs.
Qed.

Lemma name_is_down name v :
  String.eqb name (v +:+ "_down.sql")
  = negb (HasSuffix name "_up.sql") && HasSuffix name "_down.sql" && String.eqb (TrimSuffix name "_down.sql") v.
Proof.
  destruct (HasSuffix name "_down.sql") eqn:Hs.
  - assert (HasSuffix name "_up.sql" = false) as ->.
    { rewrite (has_suffix_split _ _ Hs), has_suffix_end; [done|cbn; lia]. }
    rewrite (has_suffix_split _ _ Hs) at 1. cbn [negb andb].
    destruct (String.eqb_spec (TrimSuffix name "_down.sql") v) as [->|Hne]; [apply String.eqb_refl|].
    apply String.eqb_neq. intros He. apply Hne. by rewrite <- (trim_suffix_app v "_down.sql"), <- He, trim_suffix_app.
  - rewrite andb_false_r. apply String.eqb_neq. intros ->. by rewrite has_suffix_app in Hs.
Qed.

Lemma entry_of_put v u set m :
  entry_of v (put_text u set m) = if decide (v = u) then set (entry_of v m) else entry_of v m.
Proof.
  unfold entry_of, put_text. rewrite lookup_insert. case_decide as H; case_decide; try congruence.
  by subst.
Qed.

Lemma put_text_some v u set m : is_Some (put_text u set m !! v) ↔ v = u ∨ is_Some (m !! v).
Proof. unfold put_text. rewrite lookup_insert_is_Some. destruct (decide (u = v)); naive_solver. Qed.

Lemma put_text_named u set m :
  (∀ x, mig_Version (set x) = mig_Version x) → named_by_key m → named_by_key (put_text u set m).
Proof.
  intros Hset Hn v x. unfold put_text. rewrite lookup_insert. case_decide as Hv.
  - intros [= <-]. rewrite Hset. subst. by apply entry_version.
  - apply Hn.
Qed.

Lemma read_entries_spec es m0 m :
  read_entries es m0 = Ok m → named_by_key m0 →
  named_by_key m ∧ ∀ v,
  entry_of v m = mkMigration v (file_text "_up.sql" v es (mig_Up (entry_of v m0)))
                               (file_text "_down.sql" v es (mig_Down (entry_of v m0)))
  ∧ (is_Some (m !! v) ↔ is_Some (m0 !! v) ∨ existsb (of_version v) es = true).
Proof.
  revert m0. induction es as [|e es IH]; intros m0; cbn [read_entries].
  { intros [= ->] Hn. split; [done|]. intros v. split; [|cbn; naive_solver].
    pose proof (entry_version v m Hn). cbn. by destruct (entry_of v m); cbn in *; subst. }
  unfold file_text, of_version. cbn [foldl existsb]. fold (file_text "_up.sql") (file_text "_down.sql").
  intros H Hn. destruct (de_IsDir e); [cbn [negb andb orb]; by apply IH|]. cbn [negb andb].
  destruct (HasSuffix (de_Name e) "_up.sql") eqn:Hup.
  - destruct (de_Content e) as [b|] eqn:Hb; [|done].
    destruct (IH _ H (put_text_named _ (set_up b) m0 (λ _, eq_refl) Hn)) as [Hn' Hv]. split; [done|]. intros v.
    destruct (Hv v) as [He Hs]. rewrite He, Hs, entry_of_put, put_text_some, name_is_up, name_is_down, Hup.
    cbn [negb andb]. rewrite orb_false_r.
    destruct (String.eqb_spec (TrimSuffix (de_Name e) "_up.sql") v) as [->|Hne].
    + rewrite decide_True by done. split; [done|]. cbn. naive_solver.
    + rewrite decide_False by done. split; [done|]. cbn. naive_solver.
  - destruct (HasSuffix (de_Name e) "_down.sql") eqn:Hdown.
    + destruct (de_Content e) as [b|] eqn:Hb; [|done].
      destruct (IH _ H (put_text_named _ (set_down b) m0 (λ _, eq_refl) Hn)) as [Hn' Hv]. split; [done|]. intros v.
      destruct (Hv v) as [He Hs]. rewrite He, Hs, entry_of_put, put_text_some, name_is_up, name_is_down, Hup, Hdown.
      cbn [negb andb orb].
      destruct (String.eqb_spec (TrimSuffix (de_Name e) "_down.sql") v) as [->|Hne].
      * rewrite decide_True by done. split; [done|]. cbn. naive_solver.
      * rewrite decide_False by done. split; [done|]. cbn. naive_solver.
    + destruct (IH _ H Hn) as [Hn' Hv]. split; [done|]. intros v. destruct (Hv v) as [He Hs].
      rewrite He, Hs, name_is_up, name_is_down, Hup, Hdown. done.
Qed.

Lemma collect_versions_spec m vs migs :
  collect_versions m vs = Ok migs →
  migs = map (λ v, entry_of v m) vs ∧ Forall (λ x, mig_Up x ≠ "" ∧ mig_Down x ≠ "") migs.
Proof.
  revert migs. induction vs as [|v vs IH]; intros migs; cbn [collect_versions].
  { intros [= <-]. by split. }
  fold (entry_of v m). destruct (_ || _) eqn:Hb; [done|].
  apply orb_false_iff in Hb as [H1%String.eqb_neq H2%String.eqb_neq].
  destruct (collect_versions m vs) as [out|]; [|done]. intros [= <-].
  destruct (IH out eq_refl) as [-> Hf]. split; [done|]. by constructor.
Qed.

(** What [All] finds, whatever the order in which the map is visited. *)
Definition all_of (entries : list DirEntry) : result (list Migration) :=
  match read_entries entries ∅ with
  | Fail e => Fail e
  | Ok m => collect_versions m (sort_strings (map fst (map_to_list m)))
  end.

Lemma All_run `{E : Env} `{!FairRange E} entries w :
  fst (All (Ok entries) w) = all_of entries ∧ w_trace (snd (All (Ok entries) w)) = w_trace w.
Proof.
  unfold All, all_of. destruct (read_entries entries ∅) as [m|]; [|done].
  rewrite bind_run. cbn [fst snd mret io_ret range_map draw]. split; [|done].
  by rewrite (sort_strings_unique _ (map fst (map_to_list m))) by (by apply Permutation_map, range_perm).
Qed.

Lemma all_of_found entries migs :
  all_of entries = Ok migs → ∃ m, read_entries entries ∅ = Ok m ∧ named_by_key m
    ∧ migs = map (λ v, entry_of v m) (map mig_Version migs)
    ∧ Forall (λ x, mig_Up x ≠ "" ∧ mig_Down x ≠ "") migs
    ∧ map mig_Version migs = sort_strings (map fst (map_to_list m)).
Proof.
  unfold all_of. destruct (read_entries entries ∅) as [m|] eqn:Hr; [|done]. intros H.
  destruct (read_entries_spec _ _ _ Hr ltac:(done)) as [Hn _].
  destruct (collect_versions_spec _ _ _ H) as [Hmigs Hf]. exists m.
  assert (map mig_Version migs = sort_strings (map fst (map_to_list m))) as Hvs.
  { rewrite Hmigs, map_map. rewrite <- (map_id (sort_strings _)) at 2. apply map_ext.
    intros v. by apply entry_version. }
  rewrite Hvs. done.
Qed.

Lemma all_of_sorted entries migs :
  all_of entries = Ok migs → StronglySorted (λ a b, str_ltb a b = true) (map mig_Version migs).
Proof.
  intros (m & _ & _ & _ & _ & ->)%all_of_found. apply sort_strings_strict, NoDup_fst_map_to_list.
Qed.

Lemma all_of_nodup entries migs : all_of entries = Ok migs → NoDup (map mig_Version migs).
Proof.
  intros (m & _ & _ & _ & _ & ->)%all_of_found. rewrite sort_strings_perm. apply NoDup_fst_map_to_list.
Qed.

(** The migrations are the versions of the directory in increasing order, each with its
    two non-empty texts, whatever the iteration order of the map. *)
Theorem all_migrations_correct `{E : Env} `{!FairRange E} entries migs w :
  fst (All (Ok entries) w) = Ok migs →
  StronglySorted (λ a b, str_ltb a b = true) (map mig_Version migs)
  ∧ (∀ v, v ∈ map mig_Version migs ↔ existsb (of_version v) entries = true)
  ∧ Forall (λ m, mig_Up m ≠ "" ∧ mig_Down m ≠ ""
      ∧ mig_Up m = file_text "_up.sql" (mig_Version m) entries ""
      ∧ mig_Down m = file_text "_down.sql" (mig_Version m) entries "") migs
  ∧ ∀ w', fst (All (Ok entries) w') = Ok migs.
Proof.
  rewrite (proj1 (All_run entries w)). intros H. split; [by eapply all_of_sorted|].
  destruct (all_of_found _ _ H) as (m & Hr & Hn & Hmigs & Hf & Hvs).
  destruct (read_entries_spec _ _ _ Hr ltac:(done)) as [_ Hv]. split_and!.
  - intros v. rewrite Hvs, sort_strings_perm, list_elem_of_fmap.
    destruct (Hv v) as [_ Hs]. rewrite lookup_empty in Hs.
    trans (is_Some (m !! v)); [|rewrite Hs; split; [intros [[? ?]|]; done|by right]].
    split.
    + intros ([k x] & -> & Hin). apply elem_of_map_to_list in Hin. by eexists.
    + intros [x Hx]. exists (v, x). split; [done|]. by apply elem_of_map_to_list.
  - rewrite Hmigs in Hf |- *. apply Forall_map. apply Forall_map in Hf.
    eapply Forall_impl; [exact Hf|]. intros v [H1 H2]. cbn in *.
    rewrite (entry_version v m Hn). destruct (Hv v) as [He _]. rewrite He in *. done.
  - intros w'. by rewrite (proj1 (All_run entries w')).
Qed.

(** ** What the runner does to a database *)

(** The statements executed, each with its first argument. *)
Definition statement (e : event) : option (string * string) :=
  match e with
  | EvSQL q (SText v :: _) => Some (q, v)
  | EvSQL q _ => Some (q, "")
  | _ => None
  end.

Definition sql_log (w : World) : list (string * string) := omap statement (w_trace w).

(** The versions recorded after a statement of the runner. *)
Definition recorded_versions (q : string) (args : list sql_value) (vs : gset string) : gset string :=
  match args with
  | SText v :: _ =>
      if String.eqb q insert_version then {[v]} ∪ vs
      else if String.eqb q delete_version then vs ∖ {[v]} else vs
  | _ => vs
  end.

(** The functions of a runner work on a database that keeps the recorded versions: a
    statement of the runner that succeeds takes effect; of one that fails it is not
    known whether it did (the connection may be lost after the commit); the query, if
    there is one, answers whether a version is recorded. What the text of a migration
    does is no concern of the runner: see [leaves_versions]. *)
Definition of_runner (q : string) : bool :=
  String.eqb q create_schema_migrations || String.eqb q insert_version || String.eqb q delete_version.

Class RunnerLaws {S : Type} (r : Runner S) (versions : S → gset string) : Prop := {
  exec_log : ∀ s q args w, sql_log (snd (run_exec r s q args w)) = sql_log w;
  exec_law : ∀ s q args w, of_runner q = true →
    let '((err, s'), w') := run_exec r s q args w in
    versions s' = recorded_versions q args (versions s) ∨ is_Some err ∧ versions s' = versions s;
  query_law : match run_query r with
    | None => True
    | Some q => ∀ s v w, let '((res, s'), w') := q s v w in
        sql_log w' = sql_log w ∧ versions s' = versions s
        ∧ match res with Fail _ => True | Ok b => b = bool_decide (v ∈ versions s) end
    end;
}.

Section RunnerFacts.
Context `{E : Env} {S : Type} (r : Runner S) {versions : S → gset string} `{!RunnerLaws r versions}.

(** The text of a migration does not touch the table of versions. *)
Definition leaves_versions (text : string) : Prop :=
  ∀ s w, versions (snd (fst (run_exec r s text [] w))) = versions s.

(** What the runner believes of a version: a runner without a query function takes none
    for applied on the way up, and all on the way down. *)
Definition believed (otherwise : bool) (vs : gset string) (v : string) : bool :=
  match run_query r with None => otherwise | Some _ => bool_decide (v ∈ vs) end.

Lemma runner_exec_log s q args w :
  sql_log (snd (runner_exec r s q args w)) = sql_log w ++ option_list (statement (EvSQL q args)).
Proof.
  unfold runner_exec. rewrite bind_run, exec_log. unfold sql_log. cbn [fst snd trace w_trace].
  rewrite omap_app. cbn [omap list_omap option_list]. by destruct (statement (EvSQL q args)).
Qed.

(** A statement of the runner. *)
Lemma runner_exec_run s q args w :
  of_runner q = true →
  let '((err, s'), w') := runner_exec r s q args w in
  sql_log w' = sql_log w ++ option_list (statement (EvSQL q args))
  ∧ (versions s' = recorded_versions q args (versions s) ∨ is_Some err ∧ versions s' = versions s).
Proof.
  intros Hq. pose proof (runner_exec_log s q args w) as Hl. revert Hl. unfold runner_exec. rewrite bind_run.
  cbn [fst snd trace].
  pose proof (exec_law s q args (mkWorld (w_ticks w) (w_draws w) (w_trace w ++ [EvSQL q args])) Hq) as H.
  by destruct (run_exec r s q args _) as [[err s'] w'].
Qed.

(** The text of a migration. *)
Lemma runner_text_run s text w :
  leaves_versions text →
  let '((err, s'), w') := runner_exec r s text [] w in
  sql_log w' = sql_log w ++ [(text, "")] ∧ versions s' = versions s.
Proof.
  intros Ht. pose proof (runner_exec_log s text [] w) as Hl. revert Hl. unfold runner_exec. rewrite bind_run.
  cbn [fst snd trace statement option_list].
  specialize (Ht s (mkWorld (w_ticks w) (w_draws w) (w_trace w ++ [EvSQL text []]))).
  by destruct (run_exec r s text _ _) as [[err s'] w'].
Qed.

Lemma runner_query_run otherwise s v w :
  let '((res, s'), w') := runner_query r otherwise s v w in
  sql_log w' = sql_log w ∧ versions s' = versions s
  ∧ match res with Fail _ => True | Ok b => b = believed otherwise (versions s) v end.
Proof.
  unfold runner_query, believed. pose proof query_law as Hq. destruct (run_query r) as [q|]; [apply Hq|done].
Qed.

Lemma sql_log_now w : sql_log (snd (time_now w)) = sql_log w.
Proof. done. Qed.

Definition version_set (migs : list Migration) : gset string := list_to_set (map mig_Version migs).

Definition up_log (m : Migration) : list (string * string) :=
  [(mig_Up m, ""); (insert_version, mig_Version m)].
Definition down_log (m : Migration) : list (string * string) :=
  [(mig_Down m, ""); (delete_version, mig_Version m)].

(** The statements of the steps done, then those of the step that failed. *)
Definition log_of (step : Migration → list (string * string)) (completed rest : list Migration)
    (log : list (string * string)) : Prop :=
  ∃ extra, log = concat (map step completed) ++ extra
    ∧ extra `prefix_of` match rest with [] => [] | m :: _ => step m end.

Lemma log_of_skip step completed rest log m :
  log_of step completed rest log → log_of step (m :: completed) rest (step m ++ log).
Proof. intros (extra & -> & Hp). exists extra. split; [|done]. cbn. by rewrite <- app_assoc. Qed.

(** The migrations the runner takes for pending, or for applied. *)
Definition pending (vs : gset string) (migs : list Migration) : list Migration :=
  List.filter (λ m, negb (believed false vs (mig_Version m))) migs.
Definition already (vs : gset string) (migs : list Migration) : list Migration :=
  List.filter (λ m, believed true vs (mig_Version m)) migs.

Lemma believed_ext otherwise vs vs' v :
  (v ∈ vs ↔ v ∈ vs') → believed otherwise vs v = believed otherwise vs' v.
Proof. unfold believed. intros H. destruct (run_query r); [by apply bool_decide_ext|done]. Qed.

Lemma pending_other vs vs' migs :
  (∀ m, m ∈ migs → mig_Version m ∈ vs ↔ mig_Version m ∈ vs') → pending vs migs = pending vs' migs.
Proof.
  unfold pending. induction migs as [|m migs IH]; intros H; [done|]. cbn.
  rewrite (believed_ext _ vs vs') by (apply H; by left). rewrite IH; [done|]. intros x Hx. apply H. by right.
Qed.

Lemma already_other vs vs' migs :
  (∀ m, m ∈ migs → mig_Version m ∈ vs ↔ mig_Version m ∈ vs') → already vs migs = already vs' migs.
Proof.
  unfold already. induction migs as [|m migs IH]; intros H; [done|]. cbn.
  rewrite (believed_ext _ vs vs') by (apply H; by left). rewrite IH; [done|]. intros x Hx. apply H. by right.
Qed.

(** What a run that may have stopped leaves recorded: the effect [eff] of the steps
    done, and perhaps that of the statement that failed, the record of the next step. *)
Definition left_after (eff : list Migration → gset string) (step : Migration → list (string * string))
    (completed rest : list Migration) (log : list (string * string)) (err : option error)
    (vs' : gset string) : Prop :=
  vs' = eff completed
  ∨ ∃ m rest', rest = m :: rest' ∧ is_Some err
      ∧ log = concat (map step (completed ++ [m])) ∧ vs' = eff (completed ++ [m]).

Lemma left_after_skip eff eff' step m completed rest log err vs' :
  (∀ ms, eff' ms = eff (m :: ms)) →
  left_after eff' step completed rest log err vs' →
  left_after eff step (m :: completed) rest (step m ++ log) err vs'.
Proof.
  intros He [->|(x & rest' & -> & Herr & -> & ->)]; [left; apply He|]. right. exists x, rest'.
  split_and!; [done|done|done|apply He].
Qed.

(** Stopped before, or at, the record of the next step [m]. *)
Lemma left_at_record eff step m rest' (err : error) vs' :
  vs' = eff [m] ∨ is_Some (Some err) ∧ vs' = eff [] →
  left_after eff step [] (m :: rest') (step m) (Some err) vs'.
Proof.
  intros [->|[_ ->]]; [right|by left]. exists m, rest'. cbn. by rewrite app_nil_r.
Qed.

Lemma version_neq m migs x :
  mig_Version m ∉ map mig_Version migs → x ∈ migs → mig_Version x ≠ mig_Version m.
Proof. intros Hn Hx He. apply Hn. rewrite <- He. by apply list_elem_of_fmap_2. Qed.

Lemma up_each_run migs s w :
  NoDup (map mig_Version migs) → Forall (λ m, leaves_versions (mig_Up m)) migs →
  let '((err, s'), w') := up_each r migs s w in
  ∃ completed rest log, pending (versions s) migs = completed ++ rest
    ∧ left_after (λ ms, version_set ms ∪ versions s) up_log completed rest log err (versions s')
    ∧ sql_log w' = sql_log w ++ log ∧ log_of up_log completed rest log ∧ (err = None → rest = []).
Proof.
  revert s w. induction migs as [|m migs IH]; intros s w Hnd Htext.
  { exists [], [], []. cbn. rewrite app_nil_r. split_and!; [done|left; set_solver|done|by exists []|done]. }
  cbn [up_each]. apply Forall_cons in Htext as [Hm Htext]. apply NoDup_cons in Hnd as [Hn Hnd]. rewrite bind_run.
  pose proof (runner_query_run false s (mig_Version m) w) as Hq.
  destruct (runner_query r false s (mig_Version m) w) as [[res s1] w1]. destruct Hq as (Hw1 & Hv1 & Hres).
  cbn [fst snd]. destruct res as [[|]|e].
  - (* already applied *)
    specialize (IH s1 w1 Hnd Htext). destruct (up_each r migs s1 w1) as [[err s'] w'].
    unfold pending in *. cbn [List.filter]. rewrite <- Hres. rewrite Hw1, Hv1 in IH. exact IH.
  - (* pending *)
    assert (pending (versions s) (m :: migs) = m :: pending (versions s) migs) as Hp
      by (unfold pending; cbn; by rewrite <- Hres).
    rewrite bind_run. pose proof (runner_text_run s1 (mig_Up m) w1 Hm) as Hx.
    destruct (runner_exec r s1 (mig_Up m) [] w1) as [[err s2] w2]. destruct Hx as [Hw2 Hv2]. cbn [fst snd].
    destruct err as [e|].
    { exists [], (m :: pending (versions s) migs), [(mig_Up m, "")].
      rewrite Hp, Hw2, Hw1, Hv2, Hv1. split_and!; [done|left; set_solver|done| |done].
      eexists. split; [done|]. by exists [(insert_version, mig_Version m)]. }
    rewrite !bind_run. cbn [fst time_now].
    pose proof (runner_exec_run s2 insert_version [SText (mig_Version m); STime (env_now (w_ticks w2))]
                  (snd (time_now w2)) eq_refl) as Hi.
    destruct (runner_exec r s2 insert_version _ _) as [[err s3] w3]. destruct Hi as [Hw3 Hv3]. cbn [fst snd].
    cbn [recorded_versions] in Hv3. rewrite String.eqb_refl, Hv2, Hv1 in Hv3.
    assert (sql_log w3 = sql_log w ++ up_log m) as Hlog.
    { rewrite Hw3, sql_log_now, Hw2, Hw1, <- app_assoc. done. }
    destruct err as [e|].
    { exists [], (m :: pending (versions s) migs), (up_log m).
      rewrite Hp, Hlog. split_and!; [done| |done|by eexists|done]. apply left_at_record.
      destruct Hv3 as [->|[? ->]]; [left|right]; (split; [done|]) || idtac; unfold version_set; cbn; set_solver. }
    destruct Hv3 as [Hvs|[[? [=]] _]].
    specialize (IH s3 w3 Hnd Htext). destruct (up_each r migs s3 w3) as [[err s'] w'].
    destruct IH as (completed & rest & log & Hpend & Hv & Hl & Hlo & He).
    exists (m :: completed), rest, (up_log m ++ log). rewrite Hp. split_and!.
    + cbn [app]. f_equal. rewrite <- Hpend. apply pending_other. intros x Hx. rewrite Hvs.
      pose proof (version_neq m migs x Hn Hx). set_solver.
    + eapply left_after_skip; [|exact Hv]. intros ms. cbn beta. rewrite Hvs. unfold version_set. cbn. set_solver.
    + by rewrite Hl, Hlog, <- app_assoc.
    + by apply log_of_skip.
    + done.
  - exists [], (pending (versions s) (m :: migs)), []. rewrite app_nil_r, Hw1, Hv1.
    split_and!; [done|left; set_solver|done| |done]. exists []. split; [done|]. apply prefix_nil.
Qed.

Lemma down_each_run migs s w :
  NoDup (map mig_Version migs) → Forall (λ m, leaves_versions (mig_Down m)) migs →
  let '((err, s'), w') := down_each r migs s w in
  ∃ completed rest log, already (versions s) migs = completed ++ rest
    ∧ left_after (λ ms, versions s ∖ version_set ms) down_log completed rest log err (versions s')
    ∧ sql_log w' = sql_log w ++ log ∧ log_of down_log completed rest log ∧ (err = None → rest = []).
Proof.
  revert s w. induction migs as [|m migs IH]; intros s w Hnd Htext.
  { exists [], [], []. cbn. rewrite app_nil_r. split_and!; [done|left; set_solver|done|by exists []|done]. }
  cbn [down_each]. apply Forall_cons in Htext as [Hm Htext]. apply NoDup_cons in Hnd as [Hn Hnd]. rewrite bind_run.
  pose proof (runner_query_run true s (mig_Version m) w) as Hq.
  destruct (runner_query r true s (mig_Version m) w) as [[res s1] w1]. destruct Hq as (Hw1 & Hv1 & Hres).
  cbn [fst snd]. destruct res as [[|]|e].
  - (* applied *)
    assert (already (versions s) (m :: migs) = m :: already (versions s) migs) as Hp
      by (unfold already; cbn; by rewrite <- Hres).
    rewrite bind_run. pose proof (runner_text_run s1 (mig_Down m) w1 Hm) as Hx.
    destruct (runner_exec r s1 (mig_Down m) [] w1) as [[err s2] w2]. destruct Hx as [Hw2 Hv2]. cbn [fst snd].
    destruct err as [e|].
    { exists [], (m :: already (versions s) migs), [(mig_Down m, "")].
      rewrite Hp, Hw2, Hw1, Hv2, Hv1. split_and!; [done|left; set_solver|done| |done].
      eexists. split; [done|]. by exists [(delete_version, mig_Version m)]. }
    rewrite bind_run. pose proof (runner_exec_run s2 delete_version [SText (mig_Version m)] w2 eq_refl) as Hi.
    destruct (runner_exec r s2 delete_version _ _) as [[err s3] w3]. destruct Hi as [Hw3 Hv3]. cbn [fst snd].
    cbn [recorded_versions] in Hv3. rewrite String.eqb_refl, Hv2, Hv1 in Hv3.
    change (String.eqb delete_version insert_version) with false in Hv3. cbn iota in Hv3.
    assert (sql_log w3 = sql_log w ++ down_log m) as Hlog by (rewrite Hw3, Hw2, Hw1, <- app_assoc; done).
    destruct err as [e|].
    { exists [], (m :: already (versions s) migs), (down_log m).
      rewrite Hp, Hlog. split_and!; [done| |done|by eexists|done]. apply left_at_record.
      destruct Hv3 as [->|[? ->]]; [left|right]; (split; [done|]) || idtac; unfold version_set; cbn; set_solver. }
    destruct Hv3 as [Hvs|[[? [=]] _]].
    specialize (IH s3 w3 Hnd Htext). destruct (down_each r migs s3 w3) as [[err s'] w'].
    destruct IH as (completed & rest & log & Hpend & Hv & Hl & Hlo & He).
    exists (m :: completed), rest, (down_log m ++ log). rewrite Hp. split_and!.
    + cbn [app]. f_equal. rewrite <- Hpend. apply already_other. intros x Hx. rewrite Hvs.
      pose proof (version_neq m migs x Hn Hx). set_solver.
    + eapply left_after_skip; [|exact Hv]. intros ms. cbn beta. rewrite Hvs. unfold version_set. cbn. set_solver.
    + by rewrite Hl, Hlog, <- app_assoc.
    + by apply log_of_skip.
    + done.
  - specialize (IH s1 w1 Hnd Htext). destruct (down_each r migs s1 w1) as [[err s'] w'].
    unfold already in *. cbn [List.filter]. rewrite <- Hres. rewrite Hw1, Hv1 in IH. exact IH.
  - exists [], (already (versions s) (m :: migs)), []. rewrite app_nil_r, Hw1, Hv1.
    split_and!; [done|left; set_solver|done| |done]. exists []. split; [done|]. apply prefix_nil.
Qed.

Context `{!FairRange E}.

Lemma All_sql_log entries w : sql_log (snd (All (Ok entries) w)) = sql_log w.
Proof. unfold sql_log. by rewrite (proj2 (All_run entries w)). Qed.

(** What a run of [Up] over [migs] leaves, from the recorded versions [vs]. *)
Lemma pending_complete vs migs : version_set migs ⊆ version_set (pending vs migs) ∪ vs.
Proof.
  unfold version_set. intros v Hin%elem_of_list_to_set. apply list_elem_of_fmap in Hin as (m & -> & Hm).
  destruct (believed false vs (mig_Version m)) eqn:Hb.
  - unfold believed in Hb. destruct (run_query r); [|done]. apply bool_decide_eq_true in Hb. set_solver.
  - apply elem_of_union_l, elem_of_list_to_set, list_elem_of_fmap_2, list_elem_of_In, List.filter_In.
    split; [by apply list_elem_of_In|by rewrite Hb].
Qed.

Lemma already_complete vs migs : version_set migs ## vs ∖ version_set (already vs migs).
Proof.
  unfold version_set. intros v Hin%elem_of_list_to_set [Hs Hns]%elem_of_difference.
  apply Hns, elem_of_list_to_set. apply list_elem_of_fmap in Hin as (m & -> & Hm).
  apply list_elem_of_fmap_2, list_elem_of_In, List.filter_In. split; [by apply list_elem_of_In|].
  unfold believed. destruct (run_query r); [by apply bool_decide_eq_true|done].
Qed.

Lemma pending_sorted vs migs :
  StronglySorted (λ a b, str_ltb a b = true) (map mig_Version migs) →
  StronglySorted (λ a b, str_ltb a b = true) (map mig_Version (pending vs migs)).
Proof.
  unfold pending. induction migs as [|m migs IH]; [done|]. cbn [map List.filter].
  intros [Hs Hall]%StronglySorted_inv. destruct (negb _); [|by apply IH]. constructor; [by apply IH|].
  apply Forall_map. apply Forall_map in Hall. rewrite Forall_forall in *. intros x Hx%list_elem_of_In.
  apply List.filter_In in Hx as [Hx _]. by apply Hall, list_elem_of_In.
Qed.

(** C36: Up runs the pending migrations in increasing order of their versions, each
    recorded right after it ran, and skips those recorded before, or none when the
    runner has no query function; an error leaves exactly the completed prefix
    recorded, and perhaps the next one when it was its record that failed, and
    without an error every version is recorded. The texts of the migrations are
    taken not to touch the table of versions. *)
Theorem up_applies_pending_in_order entries migs s w :
  fst (All (Ok entries) w) = Ok migs → Forall (λ m, leaves_versions (mig_Up m)) migs →
  let '((err, s'), w') := Up r (Ok entries) s w in
  StronglySorted (λ a b, str_ltb a b = true) (map mig_Version (pending (versions s) migs))
  ∧ ∃ completed rest log, pending (versions s) migs = completed ++ rest
    ∧ sql_log w' = sql_log w ++ (create_schema_migrations, "") :: log
    ∧ log_of up_log completed rest log
    ∧ left_after (λ ms, version_set ms ∪ versions s) up_log completed rest log err (versions s')
    ∧ (err = None → rest = [] ∧ version_set migs ⊆ versions s').
Proof.
  rewrite (proj1 (All_run entries w)). intros Hall Htext. unfold Up. rewrite bind_run.
  pose proof (pending_sorted (versions s) migs (all_of_sorted _ _ Hall)) as Hsorted.
  pose proof (runner_exec_run s create_schema_migrations [] w eq_refl) as Hx.
  destruct (runner_exec r s create_schema_migrations [] w) as [[err s1] w1]. destruct Hx as [Hw1 Hv1].
  assert (versions s1 = versions s) as Hv1' by (by destruct Hv1 as [?|[_ ?]]). clear Hv1.
  cbn [fst snd]. destruct err as [e|].
  { split; [done|]. exists [], (pending (versions s) migs), []. rewrite Hw1, Hv1'.
    split_and!; [done|done| |left; set_solver|done]. exists []. split; [done|]. apply prefix_nil. }
  rewrite bind_run. rewrite (proj1 (All_run entries w1)), Hall.
  pose proof (up_each_run migs s1 (snd (All (Ok entries) w1)) (all_of_nodup _ _ Hall) Htext) as H.
  destruct (up_each r migs s1 _) as [[err s'] w']. destruct H as (completed & rest & log & Hp & Hv & Hl & Hlo & He).
  rewrite Hv1' in *. split; [done|]. exists completed, rest, log. split_and!; [done| |done|done|].
  - by rewrite Hl, All_sql_log, Hw1, <- app_assoc.
  - intros Hn. specialize (He Hn). split; [done|]. subst rest. rewrite app_nil_r in Hp.
    destruct Hv as [->|(? & ? & [=] & _)]. rewrite <- Hp. apply pending_complete.
Qed.

(** Down reverts the recorded migrations from the last to the first, each forgotten
    right after it was reverted. *)
Theorem down_reverts_in_reverse entries migs s w :
  fst (All (Ok entries) w) = Ok migs → Forall (λ m, leaves_versions (mig_Down m)) migs →
  let '((err, s'), w') := Down r (Ok entries) s w in
  ∃ completed rest log, already (versions s) (reverse migs) = completed ++ rest
    ∧ sql_log w' = sql_log w ++ log ∧ log_of down_log completed rest log
    ∧ left_after (λ ms, versions s ∖ version_set ms) down_log completed rest log err (versions s')
    ∧ (err = None → rest = [] ∧ version_set migs ## versions s').
Proof.
  rewrite (proj1 (All_run entries w)). intros Hall Htext. unfold Down. rewrite bind_run.
  rewrite (proj1 (All_run entries w)), Hall.
  assert (NoDup (map mig_Version (reverse migs))) as Hnd.
  { change (map ?f ?l) with (f <$> l). rewrite fmap_reverse, reverse_Permutation. apply (all_of_nodup _ _ Hall). }
  assert (version_set migs = version_set (reverse migs)) as Hrev.
  { unfold version_set. apply set_eq. intros v. rewrite !elem_of_list_to_set.
    change (map ?f ?l) with (f <$> l). by rewrite fmap_reverse, elem_of_reverse. }
  pose proof (down_each_run (reverse migs) s (snd (All (Ok entries) w)) Hnd) as H.
  destruct (down_each r _ s _) as [[err s'] w']. destruct H as (completed & rest & log & Hp & Hv & Hl & Hlo & He);
    [by apply Forall_reverse|].
  exists completed, rest, log. split_and!; [done| |done|done|].
  - by rewrite Hl, All_sql_log.
  - intros Hn. specialize (He Hn). split; [done|]. subst rest. rewrite app_nil_r in Hp.
    destruct Hv as [->|(? & ? & [=] & _)]. rewrite <- Hp, Hrev. apply already_complete.
Qed.
End RunnerFacts.

(** ** Witnesses *)
Section Witnesses.
#[local] Existing Instance demo_env.

(** A database that is only its set of recorded versions. *)
Definition demo_runner : Runner (gset string) :=
  NewRunner (λ s q args, mret (None, recorded_versions q args s))
    (Some (λ s v, mret (Ok (bool_decide (v ∈ s)), s))).

#[local] Instance demo_runner_laws : RunnerLaws demo_runner id.
Proof. split; [done| |done]. intros s q args w _. by left. Qed.

Lemma embedded_up_leaves :
  Forall (λ m, leaves_versions demo_runner (versions := id) (mig_Up m)) [mkMigration "0001_init" init_up_sql init_down_sql].
Proof. constructor; [done|constructor]. Qed.

Lemma embedded_down_leaves :
  Forall (λ m, leaves_versions demo_runner (versions := id) (mig_Down m)) [mkMigration "0001_init" init_up_sql init_down_sql].
Proof. constructor; [done|constructor]. Qed.

#[local] Instance demo_fair : FairRange demo_env := demo_range.

Definition embedded_migrations : list Migration := [mkMigration "0001_init" init_up_sql init_down_sql].

Definition embedded_entries : list DirEntry := match fs with Ok es => es | Fail _ => [] end.

Lemma embedded_all w : fst (All (Ok embedded_entries) w) = Ok embedded_migrations.
Proof. vm_compute. reflexivity. Qed.

Lemma all_migrations_correct_witness :
  fst (All (Ok embedded_entries) world0) = Ok embedded_migrations
  ∧ map mig_Version embedded_migrations = ["0001_init"]
  ∧ ∀ v, v ∈ ["0001_init"] ↔ existsb (of_version v) embedded_entries = true.
Proof.
  split; [exact (embedded_all world0)|]. split; [reflexivity|].
  exact (proj1 (proj2 (all_migrations_correct embedded_entries embedded_migrations world0 (embedded_all world0)))).
Defined.

Lemma up_applies_pending_in_order_witness :
  let '((err, s'), w') := Up demo_runner (Ok embedded_entries) (∅ : gset string) world0 in
  err = None ∧ version_set embedded_migrations ⊆ s'.
Proof.
  pose proof (up_applies_pending_in_order demo_runner (versions := id) embedded_entries embedded_migrations
    (∅ : gset string) world0 (embedded_all world0) embedded_up_leaves) as H.
  assert (fst (fst (Up demo_runner (Ok embedded_entries) (∅ : gset string) world0)) = None) as He
    by (vm_compute; reflexivity).
  destruct (Up demo_runner (Ok embedded_entries) (∅ : gset string) world0) as [[err s'] w'].
  cbn [fst] in He. destruct H as (_ & c & rest & log & _ & _ & _ & _ & H). split; [exact He|exact (proj2 (H He))].
Defined.

Lemma down_reverts_in_reverse_witness :
  let '((err, s'), w') := Down demo_runner (Ok embedded_entries) ({["0001_init"]} : gset string) world0 in
  err = None ∧ version_set embedded_migrations ## s'.
Proof.
  pose proof (down_reverts_in_reverse demo_runner (versions := id) embedded_entries embedded_migrations
    ({["0001_init"]} : gset string) world0 (embedded_all world0) embedded_down_leaves) as H.
  assert (fst (fst (Down demo_runner (Ok embedded_entries) ({["0001_init"]} : gset string) world0)) = None) as He
    by (vm_compute; reflexivity).
  destruct (Down demo_runner (Ok embedded_entries) _ world0) as [[err s'] w'].
  cbn [fst] in He. destruct H as (c & rest & log & _ & _ & _ & _ & H). split; [exact He|exact (proj2 (H He))].
Defined.
End Witnesses.
