(* ===== verification/Postgres.v ===== *)
(** * internal/store/postgres: the store on PostgreSQL

    The statements [DB] executes and the rows it scans. The pool of
    github.com/jackc/pgx and the server behind it are a parameter ([Pool]); what the
    statements do to the two tables of the schema is [PostgresLaws]. *)

From S2P Require Export Store Migrations.

(** What the code uses of [pgxpool.Pool]: [Exec] gives the number of rows affected,
    [QueryRow] the first row or an error, [Query] the rows and [rows.Err()]. The last
    field is the error of [Scan] for a row that does not fit its destinations. *)
Class Pool (Q : Type) := {
  pool_new : string → IO (result Q);
  pool_ping : Q → IO (option error);
  pool_exec : Q → string → list sql_value → IO (result Z * Q);
  pool_query_row : Q → string → list sql_value → IO (result (list sql_value));
  pool_query : Q → string → list sql_value → IO (result (list (list sql_value) * option error));
  pool_scan_error : list sql_value → error;
}.

(** ** Statements *)

Definition select_version : string :=
  "SELECT EXISTS(SELECT 1 FROM schema_migrations WHERE version=$1)".

Definition insert_order : string :=
"INSERT INTO orders
	(venue_order_id, client_order_id, venue, pair, side, order_type, status, filled_qty, avg_price, quantity, price, created_at, updated_at)
	VALUES ($1,$2,$3,$4,$5,$6,$7,$8,$9,$10,$11,$12,$13)
	ON CONFLICT (venue, client_order_id) DO NOTHING".

Definition insert_fill : string :=
"INSERT INTO fills
	(venue_order_id, trade_id, venue, pair, price, quantity, fee, fee_asset, ts)
	VALUES ($1,$2,$3,$4,$5,$6,$7,$8,$9)
	ON CONFLICT (venue, trade_id) DO NOTHING".

Definition orderSelectSQL : string :=
  "SELECT venue_order_id, client_order_id, venue, pair, side, order_type, status, filled_qty, avg_price, quantity, price, created_at, updated_at FROM orders".

Definition select_order : string := orderSelectSQL +:+ " WHERE client_order_id=$1".

Definition select_fills : string :=
  "SELECT venue_order_id, trade_id, venue, pair, price, quantity, fee, fee_asset, ts FROM fills WHERE venue_order_id=$1 ORDER BY ts ASC".

Section Postgres.
Context `{DD : Decimal} `{E : Env} {Q : Type} `{!Pool Q}.

Record DB := mkDB { pool : Q }.

(** ** Open *)

Definition migration_runner : Runner Q :=
  NewRunner
    (λ q query args,
      '(r, q) ← pool_exec q query args;
      mret (match r with Fail e => Some e | Ok _ => None end, q))
    (Some (λ q version,
      r ← pool_query_row q select_version [SText version];
      mret (match r with
            | Fail e => Fail e
            | Ok [SBool b] => Ok b
            | Ok row => Fail (pool_scan_error row)
            end, q))).

Definition Open (dsn : string) : IO (result DB) :=
  p ← pool_new dsn;
  match p with
  | Fail e => mret (Fail e)
  | Ok q =>
      err ← pool_ping q;
      match err with
      | Some e => mret (Fail e)
      | None =>
          '(err, q) ← Up migration_runner fs q;
          mret (match err with Some e => Fail ("migrate: " +:+ e) | None => Ok (mkDB q) end)
      end
  end.

(** [Close]; closing the pool is the library's. *)
Definition Close (close_pool : Q → IO unit) (d : DB) : IO (option error) :=
  _ ← close_pool (pool d);
  mret None.

Definition Ping (d : DB) : IO (option error) := pool_ping (pool d).

(** ** Rows *)

Definition order_args (o : Order) : list sql_value :=
  [SText (o_VenueOrderID o); SText (o_ClientOrderID o); SText (o_Venue o); SText (o_Pair o);
   SText (o_Side o); SText (o_OrderType o); SText (o_Status o);
   SText (dec_string (o_FilledQty o)); SText (dec_string (o_AvgPrice o));
   SText (dec_string (o_Quantity o)); SText (dec_string (o_Price o));
   STime (o_CreatedAt o); STime (o_UpdatedAt o)].

Definition fill_args (f : StoredFill) : list sql_value :=
  [SText (sf_VenueOrderID f); SText (sf_TradeID f); SText (sf_Venue f); SText (sf_Pair f);
   SText (dec_string (sf_Price f)); SText (dec_string (sf_Quantity f)); SText (dec_string (sf_Fee f));
   SText (sf_FeeAsset f); STime (sf_Timestamp f)].

Definition scanOrder (row : list sql_value) : result Order :=
  match row with
  | [SText id; SText cid; SText venue; SText pr; SText side; SText ty; SText status;
     SText filledQty; SText avgPrice; SText qty; SText price; STime created; STime updated] =>
      Ok (mkOrder id cid venue pr side ty status (dec_parse filledQty) (dec_parse avgPrice)
            (dec_parse qty) (dec_parse price) created updated)
  | _ => Fail (pool_scan_error row)
  end.

Definition scanFill (row : list sql_value) : result StoredFill :=
  match row with
  | [SText id; SText trade; SText venue; SText pr; SText price; SText qty; SText fee;
     SText asset; STime ts] =>
      Ok (mkStoredFill id trade venue pr (dec_parse price) (dec_parse qty) (dec_parse fee) asset ts)
  | _ => Fail (pool_scan_error row)
  end.

(** ** The store *)

Definition RecordOrder (d : DB) (o : Order) : IO (result bool * DB) :=
  created ← (if time_is_zero (o_CreatedAt o) then time_now else mret (o_CreatedAt o));
  updated ← time_now;
  '(tag, q) ← pool_exec (pool d) insert_order (order_args (set_times created updated o));
  mret (match tag with Fail e => Fail e | Ok n => Ok (0 <? n) end, mkDB q).

(** Every error is reported as an order that is not there. *)
Definition GetOrderByClientID (d : DB) (clientOrderID : string) : IO (option Order * DB) :=
  row ← pool_query_row (pool d) select_order [SText clientOrderID];
  mret (match row with
        | Fail _ => None
        | Ok row => match scanOrder row with Fail _ => None | Ok o => Some o end
        end, d).

Definition RecordFill (d : DB) (f : StoredFill) : IO (result bool * DB) :=
  ts ← (if time_is_zero (sf_Timestamp f) then time_now else mret (sf_Timestamp f));
  '(tag, q) ← pool_exec (pool d) insert_fill (fill_args (set_timestamp ts f));
  mret (match tag with Fail e => Fail e | Ok n => Ok (0 <? n) end, mkDB q).

(** The loop over the rows. *)
Fixpoint scan_fills (rows : list (list sql_value)) : result (list StoredFill) :=
  match rows with
  | [] => Ok []
  | row :: rows =>
      match scanFill row with
      | Fail e => Fail e
      | Ok f => match scan_fills rows with Fail e => Fail e | Ok out => Ok (f :: out) end
      end
  end.

Definition FillsForOrder (d : DB) (venueOrderID : string) : IO (result (list StoredFill) * DB) :=
  rows ← pool_query (pool d) select_fills [SText venueOrderID];
  mret (match rows with
        | Fail e => Fail e
        | Ok (rows, err) =>
            match scan_fills rows with
            | Fail e => Fail e
            | Ok out => match err with Some e => Fail e | None => Ok out end
            end
        end, d).

#[global] Instance postgres_store : Store DB := {|
  Store.RecordOrder := RecordOrder;
  Store.GetOrderByClientID := GetOrderByClientID;
  Store.RecordFill := RecordFill;
  Store.FillsForOrder := FillsForOrder;
|}.

End Postgres.
Arguments DB Q : clear implicits.

(** ** What the statements do

    A table is the list of the rows inserted, as their arguments were given. *)

#[export] Instance sql_value_eq_dec : EqDecision sql_value.
Proof. solve_decision. Defined.

(** Two rows agree on the columns [cols]. *)
Definition same_columns (cols : list nat) (r r' : list sql_value) : bool :=
  forallb (λ i, bool_decide (r !! i = r' !! i)) cols.

Definition has_column (i : nat) (v : sql_value) (r : list sql_value) : bool := bool_decide (r !! i = Some v).

(** A timestamptz column keeps microseconds. *)
Definition micro (t : Time) : Time := t / 1000 * 1000.

(** A row as it is read back: the texts of the NUMERIC columns [nums] in the server's
    form, instants in microseconds. *)
Definition as_stored (numeric : string → string) (nums : list nat) (r : list sql_value) : list sql_value :=
  imap (λ i v, match v with
               | SText s => if bool_decide (i ∈ nums) then SText (numeric s) else v
               | STime t => STime (micro t)
               | SBool _ => v
               end) r.

Definition order_nums : list nat := [7; 8; 9; 10]%nat.
Definition fill_nums : list nat := [4; 5; 6]%nat.

(** The instant of the column [ts] of a fill. *)
Definition row_ts (r : list sql_value) : Time := match r !! 8%nat with Some (STime t) => t | _ => 0 end.

(** PostgreSQL on the schema of [init_up_sql], used by this process alone. Any
    statement may fail (a lost connection, a text with a NUL byte, a number the server
    does not read) and nothing is known of the tables after that; the laws are about
    the statements that succeed. An INSERT that succeeds reports one row, stored as
    it was given, or none for a key of the conflict target that was there; a SELECT
    that succeeds finds the rows of its condition, and one that ends in [no_rows]
    ([pgx.ErrNoRows]) has none. *)
Class PostgresLaws (Q : Type) `{Pool Q} (orders fills : Q → list (list sql_value))
    (numeric : string → string) (no_rows : error) : Prop := {
  insert_order_law : ∀ q row w, match pool_exec q insert_order row w with
    | ((Ok n, q'), _) =>
        fills q' = fills q
        ∧ if existsb (same_columns [1; 2]%nat row) (orders q) then n = 0 ∧ orders q' = orders q
          else n = 1 ∧ existsb (same_columns [0]%nat row) (orders q) = false ∧ orders q' = orders q ++ [row]
    | ((Fail _, _), _) => True
    end;
  insert_fill_law : ∀ q row w, match pool_exec q insert_fill row w with
    | ((Ok n, q'), _) =>
        orders q' = orders q
        ∧ if existsb (same_columns [1; 2]%nat row) (fills q) then n = 0 ∧ fills q' = fills q
          else n = 1 ∧ fills q' = fills q ++ [row]
    | ((Fail _, _), _) => True
    end;
  select_order_law : ∀ q cid w, match fst (pool_query_row q select_order [SText cid] w) with
    | Ok row => ∃ r, r ∈ orders q ∧ has_column 1 (SText cid) r = true ∧ row = as_stored numeric order_nums r
    | Fail e => e = no_rows → existsb (has_column 1 (SText cid)) (orders q) = false
    end;
  select_fills_law : ∀ q id w, match fst (pool_query q select_fills [SText id] w) with
    | Ok (rows, None) =>
        rows ≡ₚ map (as_stored numeric fill_nums) (List.filter (has_column 0 (SText id)) (fills q))
        ∧ StronglySorted (λ r r', row_ts r ≤ row_ts r') rows
    | _ => True
    end;
}.

Section PostgresFacts.
Context `{DD : Decimal} `{E : Env} {Q : Type} `{!Pool Q}.
Context {orders fills : Q → list (list sql_value)} {numeric : string → string} {no_rows : error}
  `{!PostgresLaws Q orders fills numeric no_rows}.
Implicit Types (d : DB Q) (o : Order) (f : StoredFill).

(** The server's form of a decimal has its value. *)
Definition keeps (x : D) : Prop :=
  ∃ y, dec_of_string (numeric (dec_string x)) = Some y ∧ dec_cmp y x = Eq.

(** An order read back: same texts, same amounts, instants in microseconds. *)
Definition same_order o o' : Prop :=
  o_VenueOrderID o' = o_VenueOrderID o ∧ o_ClientOrderID o' = o_ClientOrderID o
  ∧ o_Venue o' = o_Venue o ∧ o_Pair o' = o_Pair o ∧ o_Side o' = o_Side o
  ∧ o_OrderType o' = o_OrderType o ∧ o_Status o' = o_Status o
  ∧ dec_cmp (o_FilledQty o') (o_FilledQty o) = Eq ∧ dec_cmp (o_AvgPrice o') (o_AvgPrice o) = Eq
  ∧ dec_cmp (o_Quantity o') (o_Quantity o) = Eq ∧ dec_cmp (o_Price o') (o_Price o) = Eq
  ∧ o_CreatedAt o' = micro (o_CreatedAt o) ∧ o_UpdatedAt o' = micro (o_UpdatedAt o).

Definition same_fill f f' : Prop :=
  sf_VenueOrderID f' = sf_VenueOrderID f ∧ sf_TradeID f' = sf_TradeID f ∧ sf_Venue f' = sf_Venue f
  ∧ sf_Pair f' = sf_Pair f ∧ dec_cmp (sf_Price f') (sf_Price f) = Eq
  ∧ dec_cmp (sf_Quantity f') (sf_Quantity f) = Eq ∧ dec_cmp (sf_Fee f') (sf_Fee f) = Eq
  ∧ sf_FeeAsset f' = sf_FeeAsset f ∧ sf_Timestamp f' = micro (sf_Timestamp f).

Definition order_keeps o : Prop :=
  keeps (o_FilledQty o) ∧ keeps (o_AvgPrice o) ∧ keeps (o_Quantity o) ∧ keeps (o_Price o).
Definition fill_keeps f : Prop := keeps (sf_Price f) ∧ keeps (sf_Quantity f) ∧ keeps (sf_Fee f).

Lemma keeps_parse x : keeps x → dec_cmp (dec_parse (numeric (dec_string x))) x = Eq.
Proof. intros (y & Hy & He). unfold dec_parse. by rewrite Hy. Qed.

Lemma scan_stored_order o :
  order_keeps o → ∃ o', scanOrder (as_stored numeric order_nums (order_args o)) = Ok o' ∧ same_order o o'.
Proof.
  intros (H1 & H2 & H3 & H4). eexists. split; [reflexivity|].
  unfold same_order. cbn [o_VenueOrderID o_ClientOrderID o_Venue o_Pair o_Side o_OrderType o_Status
    o_FilledQty o_AvgPrice o_Quantity o_Price o_CreatedAt o_UpdatedAt].
  split_and!; (done || by apply keeps_parse).
Qed.

Lemma scan_stored_fill f :
  fill_keeps f → ∃ f', scanFill (as_stored numeric fill_nums (fill_args f)) = Ok f' ∧ same_fill f f'.
Proof.
  intros (H1 & H2 & H3). eexists. split; [reflexivity|].
  unfold same_fill. cbn [sf_VenueOrderID sf_TradeID sf_Venue sf_Pair sf_Price sf_Quantity sf_Fee
    sf_FeeAsset sf_Timestamp].
  split_and!; (done || by apply keeps_parse).
Qed.

Lemma existsb_order_key o created updated cols rows :
  forallb (λ i, Nat.ltb i 11) cols = true →
  existsb (same_columns cols (order_args (set_times created updated o))) rows
  = existsb (same_columns cols (order_args o)) rows.
Proof.
  intros Hc. induction rows as [|r rows IH]; [done|]. cbn [existsb]. rewrite IH. f_equal.
  unfold same_columns. clear IH. induction cols as [|i cols IHc]; [done|].
  cbn in Hc. apply andb_prop in Hc as [Hi Hc]. cbn [forallb]. rewrite (IHc Hc). f_equal.
  apply Nat.leb_le in Hi. do 11 (destruct i as [|i]; [done|]). lia.
Qed.

(** The order as [RecordOrder] sends it at [w]: the creation time is the clock when it
    was missing, the time of the update is always the clock. *)
Definition order_stamped o (w : World) : Order :=
  if time_is_zero (o_CreatedAt o)
  then set_times (env_now (w_ticks w)) (env_now (S (w_ticks w))) o
  else set_times (o_CreatedAt o) (env_now (w_ticks w)) o.

Lemma order_stamped_key o w cols rows :
  forallb (λ i, Nat.ltb i 11) cols = true →
  existsb (same_columns cols (order_args (order_stamped o w))) rows = existsb (same_columns cols (order_args o)) rows.
Proof. unfold order_stamped. destruct (time_is_zero _); apply existsb_order_key. Qed.

(** What a recorded order reports, and what it leaves: an error leaves nothing known. *)
Definition recorded d o (w : World) (r : result bool) d' : Prop :=
  match r with
  | Fail _ => True
  | Ok created =>
      fills (pool d') = fills (pool d)
      ∧ if existsb (same_columns [1; 2]%nat (order_args o)) (orders (pool d))
        then created = false ∧ orders (pool d') = orders (pool d)
        else created = true ∧ existsb (same_columns [0]%nat (order_args o)) (orders (pool d)) = false
          ∧ orders (pool d') = orders (pool d) ++ [order_args (order_stamped o w)]
  end.

Lemma record_order_run d o w : let '((r, d'), _) := RecordOrder d o w in recorded d o w r d'.
Proof.
  unfold RecordOrder. rewrite !bind_run.
  assert (∀ w1, let '((tag, q), _) := pool_exec (pool d) insert_order (order_args (order_stamped o w)) w1 in
    recorded d o w (match tag with Fail e => Fail e | Ok n => Ok (0 <? n) end) (mkDB q)) as H.
  { intros w1. pose proof (insert_order_law (pool d) (order_args (order_stamped o w)) w1) as H.
    rewrite !order_stamped_key in H by done.
    destruct (pool_exec (pool d) insert_order _ w1) as [[[n|e] q'] w']; [|done]. cbn [recorded pool].
    destruct H as [Hf H]. split; [done|].
    destruct (existsb (same_columns [1; 2]%nat _) _); [by destruct H as [-> ?]|by destruct H as (-> & ? & ?)]. }
  unfold order_stamped in H. destruct (time_is_zero (o_CreatedAt o)); rewrite ?bind_run; cbn [fst snd time_now mret io_ret] in *;
    match goal with |- context [pool_exec _ _ _ ?w1] => specialize (H w1) end;
    by destruct (pool_exec _ _ _ _) as [[tag q] w'].
Qed.

(** When recording an order succeeds: one whose venue and client id exist is not
    inserted; another one has a new order id and is inserted with its times set. *)
Theorem postgres_record_order_outcomes d o w :
  let '((r, d'), _) := RecordOrder d o w in
  match r with
  | Fail _ => True
  | Ok created =>
      fills (pool d') = fills (pool d)
      ∧ if existsb (same_columns [1; 2]%nat (order_args o)) (orders (pool d))
        then created = false ∧ orders (pool d') = orders (pool d)
        else created = true ∧ existsb (same_columns [0]%nat (order_args o)) (orders (pool d)) = false
          ∧ orders (pool d') = orders (pool d) ++ [order_args (order_stamped o w)]
  end.
Proof. apply record_order_run. Qed.

(** No order has the client id [cid]. *)
Definition fresh_client_id (cid : string) (rows : list (list sql_value)) : Prop :=
  existsb (has_column 1 (SText cid)) rows = false.

Lemma fresh_no_conflict o rows :
  fresh_client_id (o_ClientOrderID o) rows → existsb (same_columns [1; 2]%nat (order_args o)) rows = false.
Proof.
  unfold fresh_client_id. intros H. induction rows as [|r rows IH]; [done|].
  cbn [existsb] in *. apply orb_false_iff in H as [Hr H]. rewrite (IH H), orb_false_r.
  unfold has_column in Hr. apply bool_decide_eq_false in Hr. unfold same_columns. cbn [forallb].
  rewrite bool_decide_eq_false_2; [done|]. cbn. congruence.
Qed.

Lemma same_columns_refl cols r : same_columns cols r r = true.
Proof. unfold same_columns. apply forallb_forall. intros i _. by apply bool_decide_eq_true. Qed.

(** An order just recorded is the one its client id finds, and stays in the way of a
    second one. *)
Lemma read_back d d' o w w2 :
  order_keeps o → fresh_client_id (o_ClientOrderID o) (orders (pool d)) →
  orders (pool d') = orders (pool d) ++ [order_args (order_stamped o w)] →
  match GetOrderByClientID d' (o_ClientOrderID o) w2 with
  | ((Some o', d2), _) => d2 = d' ∧ same_order (order_stamped o w) o'
  | ((None, d2), _) => d2 = d' ∧ ∃ e, e ≠ no_rows
      ∧ fst (pool_query_row (pool d') select_order [SText (o_ClientOrderID o)] w2) = Fail e
  end.
Proof.
  intros Hk Hc Ho. unfold GetOrderByClientID. rewrite bind_run.
  pose proof (select_order_law (pool d') (o_ClientOrderID o) w2) as Hs.
  assert (has_column 1 (SText (o_ClientOrderID o)) (order_args (order_stamped o w)) = true) as Hcol.
  { unfold has_column, order_stamped. by destruct (time_is_zero _); apply bool_decide_eq_true. }
  destruct (pool_query_row (pool d') select_order [SText (o_ClientOrderID o)] w2) as [[row|e] w3];
    cbn [fst snd mret io_ret] in *.
  - destruct Hs as (r & Hin & Hcr & ->). rewrite Ho in Hin. apply elem_of_app in Hin as [Hin|Hin].
    { exfalso. apply (not_true_iff_false (existsb (has_column 1 (SText (o_ClientOrderID o))) (orders (pool d)))); [done|].
      apply existsb_exists. exists r. split; [by apply list_elem_of_In|done]. }
    apply list_elem_of_singleton in Hin as ->.
    destruct (scan_stored_order (order_stamped o w)) as (o' & Hscan & Hsame); [unfold order_stamped; by destruct (time_is_zero _)|].
    by rewrite Hscan.
  - split; [done|]. exists e. split; [|done]. intros He. specialize (Hs He).
    rewrite Ho, existsb_app in Hs. apply orb_false_iff in Hs as [_ Hs]. cbn [existsb] in Hs.
    by rewrite Hcol in Hs.
Qed.

(** C35: When recording an order with a new client id in PostgreSQL succeeds, it reports
    true; the order its client id then finds has the texts and amounts it was
    recorded with, the creation time it had, or the clock if it had none, and as the
    time of update the clock of the recording, whatever it had, both in
    microseconds; it is missed only when the query fails for another reason than no
    row; and recording it again reports false or fails. The statements may fail;
    amounts are taken to keep their value in the text of the server, and the
    database to be used by this process alone. *)
Theorem postgres_order_round_trip d o w :
  order_keeps o → fresh_client_id (o_ClientOrderID o) (orders (pool d)) →
  let '((r, d'), _) := RecordOrder d o w in
  is_ok r = true →
  r = Ok true
  ∧ (∀ w2, match GetOrderByClientID d' (o_ClientOrderID o) w2 with
           | ((Some o', d2), _) => d2 = d' ∧ same_order (order_stamped o w) o'
           | ((None, d2), _) => d2 = d' ∧ ∃ e, e ≠ no_rows
               ∧ fst (pool_query_row (pool d') select_order [SText (o_ClientOrderID o)] w2) = Fail e
           end)
  ∧ (∀ w2, match RecordOrder d' o w2 with
           | ((Ok created, d2), _) => created = false ∧ orders (pool d2) = orders (pool d')
           | ((Fail _, _), _) => True
           end).
Proof.
  intros Hk Hc. pose proof (record_order_run d o w) as H.
  destruct (RecordOrder d o w) as [[[created|e] d'] w']; [|done]. intros _. cbn [recorded] in H.
  destruct H as [_ H]. rewrite (fresh_no_conflict o _ Hc) in H. destruct H as (-> & _ & Ho).
  split; [done|]. split; [intros w2; by eapply read_back|]. intros w2.
  pose proof (record_order_run d' o w2) as H.
  destruct (RecordOrder d' o w2) as [[[created|e] d2] w3]; [|done]. cbn [recorded] in H. destruct H as [_ H].
  rewrite <- (order_stamped_key o w), Ho, existsb_app in H by done. cbn [existsb] in H.
  rewrite same_columns_refl, orb_true_l, orb_true_r in H. by rewrite Ho.
Qed.

Lemma scan_fills_run fs :
  Forall fill_keeps fs →
  ∃ out, scan_fills (map (λ f, as_stored numeric fill_nums (fill_args f)) fs) = Ok out ∧ Forall2 same_fill fs out.
Proof.
  induction 1 as [|f fs Hf _ (out & Hs & Ho)]; [by exists []|].
  destruct (scan_stored_fill f Hf) as (f' & Hf' & Hsame).
  exists (f' :: out). cbn [map scan_fills]. rewrite Hf', Hs. split; [done|by constructor].
Qed.

Lemma row_ts_stored f : row_ts (as_stored numeric fill_nums (fill_args f)) = micro (sf_Timestamp f).
Proof. done. Qed.

(** When they are read, the fills of an order come back complete, with their fields, in
    time order. *)
Theorem postgres_fills_in_time_order d id table w out :
  fills (pool d) = map fill_args table → Forall fill_keeps table →
  fst (fst (FillsForOrder d id w)) = Ok out →
  ∃ kept, kept ≡ₚ List.filter (λ f, String.eqb (sf_VenueOrderID f) id) table
    ∧ Forall2 same_fill kept out
    ∧ StronglySorted (λ f f', sf_Timestamp f ≤ sf_Timestamp f') out.
Proof.
  intros Htab Hk. unfold FillsForOrder. rewrite bind_run.
  pose proof (select_fills_law (pool d) id w) as Hlaw.
  destruct (pool_query (pool d) select_fills [SText id] w) as [[[rows err]|e] w'];
    cbn [fst snd mret io_ret] in *; [|done].
  destruct err as [e|]; [by destruct (scan_fills rows)|]. destruct Hlaw as [Hperm Hsort].
  assert (map (as_stored numeric fill_nums) (List.filter (has_column 0 (SText id)) (fills (pool d)))
    = map (λ f, as_stored numeric fill_nums (fill_args f))
        (List.filter (λ f, String.eqb (sf_VenueOrderID f) id) table)) as Heq.
  { rewrite Htab. clear. induction table as [|f table IH]; [done|]. cbn [map List.filter].
    assert (has_column 0 (SText id) (fill_args f) = String.eqb (sf_VenueOrderID f) id) as ->.
    { unfold has_column. cbn. destruct (String.eqb_spec (sf_VenueOrderID f) id) as [->|Hne].
      - by apply bool_decide_eq_true.
      - apply bool_decide_eq_false. congruence. }
    destruct (String.eqb (sf_VenueOrderID f) id); cbn [map]; by rewrite IH. }
  rewrite Heq in Hperm. apply Permutation_map_inv in Hperm as (kept & -> & Hkept).
  assert (Forall fill_keeps kept) as Hkk.
  { rewrite <- Hkept. rewrite Forall_forall in *. intros f Hf%list_elem_of_In.
    apply List.filter_In in Hf as [Hf _]. by apply Hk, list_elem_of_In. }
  destruct (scan_fills_run kept Hkk) as (out' & Hs & Ho). rewrite Hs. intros [= <-]. exists kept.
  split_and!; [by symmetry|done|].
  clear -Hsort Ho. revert Hsort. induction Ho as [|f f' kept out' Hsame Ho IH]; [constructor|].
  cbn [map]. intros [Hsort Hall]%StronglySorted_inv. constructor; [by apply IH|].
  clear IH Hsort. induction Ho as [|g g' kept out' Hg Ho IH]; [constructor|].
  cbn [map] in Hall. apply Forall_cons in Hall as [Hle Hall]. constructor; [|by apply IH].
  rewrite !row_ts_stored in Hle. unfold same_fill in Hsame, Hg. naive_solver lia.
Qed.

(** Two orders of two venues with one client id: PostgreSQL, when it accepts the
    statements, keeps both, the in-memory store only the first. *)
Theorem stores_disagree_across_venues d o o' w :
  orders (pool d) = [] → o_ClientOrderID o' = o_ClientOrderID o → o_Venue o' ≠ o_Venue o →
  (let '((r, d1), w1) := RecordOrder d o w in
   let '((r', _), _) := RecordOrder d1 o' w1 in r ≠ Ok false ∧ (is_ok r = true → r' ≠ Ok false))
  ∧ (let '((r, s1), w1) := MemStore.RecordOrder MemStore.New o w in
     let '((r', _), _) := MemStore.RecordOrder s1 o' w1 in r = Ok true ∧ r' = Ok false).
Proof.
  intros He Hc Hv. split.
  - pose proof (record_order_run d o w) as H. destruct (RecordOrder d o w) as [[r d1] w1].
    pose proof (record_order_run d1 o' w1) as H2. destruct (RecordOrder d1 o' w1) as [[r' d2] w2].
    destruct r as [created|]; [|done]. cbn [recorded] in H. rewrite He in H. destruct H as (_ & -> & _ & Ho).
    split; [done|]. intros _. destruct r' as [created'|]; [|done]. cbn [recorded] in H2. destruct H2 as [_ H2].
    assert (existsb (same_columns [1; 2]%nat (order_args o')) (orders (pool d1)) = false) as Hno.
    { rewrite Ho. cbn [app existsb]. unfold same_columns. cbn [forallb].
      rewrite (bool_decide_eq_false_2 (order_args o' !! 2%nat = _)), andb_false_r; [done|].
      unfold order_stamped. destruct (time_is_zero _); cbn; congruence. }
    rewrite Hno in H2. by destruct H2 as [-> _].
  - unfold MemStore.RecordOrder at 1. cbn [MemStore.orders MemStore.New]. rewrite lookup_empty, !bind_run.
    cbn [fst snd mret io_ret]. unfold MemStore.RecordOrder. cbn [MemStore.orders].
    rewrite Hc, lookup_insert_eq. done.
Qed.
End PostgresFacts.

(** ** Witnesses: a pool that keeps two tables *)
Section Witnesses.

Record tables := mkTables { t_orders : list (list sql_value); t_fills : list (list sql_value) }.

Definition ts_le (r r' : list sql_value) : Prop := row_ts r ≤ row_ts r'.
#[local] Instance ts_le_dec r r' : Decision (ts_le r r') := Z_le_dec _ _.
#[local] Instance ts_le_total : Total ts_le.
Proof. intros r r'. unfold ts_le. lia. Qed.
#[local] Instance ts_le_trans : Transitive ts_le.
Proof. intros r r' r''. unfold ts_le. lia. Qed.

Definition tables_exec (t : tables) (q : string) (row : list sql_value) : result Z * tables :=
  if String.eqb q insert_order then
    if existsb (same_columns [1; 2]%nat row) (t_orders t) then (Ok 0, t)
    else if existsb (same_columns [0]%nat row) (t_orders t) then (Fail "duplicate key value", t)
    else (Ok 1, mkTables (t_orders t ++ [row]) (t_fills t))
  else if String.eqb q insert_fill then
    if existsb (same_columns [1; 2]%nat row) (t_fills t) then (Ok 0, t)
    else (Ok 1, mkTables (t_orders t) (t_fills t ++ [row]))
  else (Ok 0, t).

#[local] Instance tables_pool : Pool tables := {|
  pool_new _ := mret (Ok (mkTables [] []));
  pool_ping _ := mret None;
  pool_exec t q row := mret (tables_exec t q row);
  pool_query_row t q args := mret
    (if String.eqb q select_version then Ok [SBool true] else match List.find (has_column 1 (default (SBool false) (args !! 0%nat))) (t_orders t) with
     | Some r => Ok (as_stored id order_nums r)
     | None => Fail "no rows in result set"
     end);
  pool_query t _ args := mret (Ok (merge_sort ts_le (map (as_stored id fill_nums)
    (List.filter (has_column 0 (default (SBool false) (args !! 0%nat))) (t_fills t))), None));
  pool_scan_error _ := "can't scan into dest";
|}.

#[local] Instance tables_laws : PostgresLaws tables t_orders t_fills id "no rows in result set".
Proof.
  split.
  - intros t row w. unfold pool_exec, tables_pool, tables_exec, mret, io_ret.
    rewrite String.eqb_refl. do 2 (destruct (existsb _ _); [done|]). done.
  - intros t row w. unfold pool_exec, tables_pool, tables_exec, mret, io_ret.
    change (String.eqb insert_fill insert_order) with false. rewrite String.eqb_refl. cbn iota.
    destruct (existsb _ _); done.
  - intros t cid w. unfold pool_query_row, tables_pool, mret, io_ret. cbn [fst].
    change (String.eqb select_order select_version) with false. cbn iota.
    change (default (SBool false) ([SText cid] !! 0%nat)) with (SText cid).
    destruct (List.find (has_column 1 (SText cid)) (t_orders t)) as [r|] eqn:Hf.
    + apply List.find_some in Hf as [Hin Hc]. exists r. split; [by apply list_elem_of_In|done].
    + intros _. apply not_true_iff_false. intros H. apply existsb_exists in H as (r & Hin & Hc).
      pose proof (List.find_none _ _ Hf r Hin). congruence.
  - intros t id' w. unfold pool_query, tables_pool, mret, io_ret. cbn [fst].
    change (default (SBool false) ([SText id'] !! 0%nat)) with (SText id').
    split; [apply merge_sort_Permutation|].
    apply (Sorted_StronglySorted ts_le), Sorted_merge_sort, _.
Qed.

#[local] Existing Instances fixed_decimal demo_env.

Definition demo_stored (id venue : string) : Order :=
  mkOrder id "c-1" venue "BTCUSDT" "buy" "market" "filled" (Fx 5 (-1)) (Fx 50000 0) (Fx 5 (-1)) (Fx 0 0)
    zero_time zero_time.

Definition demo_trade (trade : string) (ts : Time) : StoredFill :=
  mkStoredFill "v-1" trade "dummy" "BTCUSDT" (Fx 50000 0) (Fx 5 (-1)) (Fx 25 0) "USDT" ts.

Definition no_tables : DB tables := mkDB (mkTables [] []).

Definition demo_trades : list StoredFill := [demo_trade "t-2" 2000; demo_trade "t-1" 1000].


Lemma demo_stored_keeps : order_keeps (numeric := id) (demo_stored "v-1" "dummy").
Proof. unfold order_keeps. split_and!; eexists; vm_compute; done. Qed.

Lemma demo_trades_keep : Forall (fill_keeps (numeric := id)) demo_trades.
Proof. unfold demo_trades. repeat apply Forall_cons_2; [..|constructor]; unfold fill_keeps; split_and!; eexists; vm_compute; done. Qed.

Lemma postgres_order_round_trip_witness :
  fst (fst (RecordOrder no_tables (demo_stored "v-1" "dummy") world0)) = Ok true
  ∧ ∃ o, fst (fst (GetOrderByClientID (snd (fst (RecordOrder no_tables (demo_stored "v-1" "dummy") world0)))
                "c-1" world0)) = Some o ∧ o_VenueOrderID o = "v-1".
Proof.
  pose proof (postgres_order_round_trip (numeric := id) no_tables (demo_stored "v-1" "dummy") world0
    demo_stored_keeps eq_refl) as H.
  assert (bool_decide (is_Some (fst (fst (GetOrderByClientID
      (snd (fst (RecordOrder no_tables (demo_stored "v-1" "dummy") world0))) "c-1" world0)))) = true) as Hfound
    by (vm_compute; reflexivity).
  assert (is_ok (fst (fst (RecordOrder no_tables (demo_stored "v-1" "dummy") world0))) = true) as Hok
    by (vm_compute; reflexivity).
  destruct (RecordOrder no_tables (demo_stored "v-1" "dummy") world0) as [[r d'] w'].
  destruct (H Hok) as (-> & Hg & _). split; [reflexivity|]. specialize (Hg world0). cbn [fst snd] in *.
  change "c-1" with (o_ClientOrderID (demo_stored "v-1" "dummy")) in *.
  destruct (GetOrderByClientID d' (o_ClientOrderID (demo_stored "v-1" "dummy")) world0) as [[[o'|] d2] w2];
    [|discriminate Hfound].
  exists o'. split; [reflexivity|exact (proj1 (proj2 Hg))].
Defined.

Definition demo_filled : DB tables := mkDB (mkTables [] (map fill_args demo_trades)).

Lemma postgres_fills_in_time_order_witness :
  ∃ out, fst (fst (FillsForOrder demo_filled "v-1" world0)) = Ok out ∧ length out = 2%nat.
Proof.
  assert (is_ok (fst (fst (FillsForOrder demo_filled "v-1" world0))) = true) as Hok by (vm_compute; reflexivity).
  destruct (fst (fst (FillsForOrder demo_filled "v-1" world0))) as [out|e] eqn:Hf; [|discriminate Hok].
  exists out. split; [reflexivity|].
  destruct (postgres_fills_in_time_order (numeric := id) demo_filled "v-1" demo_trades world0 out eq_refl
    demo_trades_keep Hf) as (kept & Hp & Hs & _).
  rewrite <- (Forall2_length _ _ _ Hs), (Permutation_length Hp). vm_compute. reflexivity.
Defined.

Lemma stores_disagree_across_venues_witness :
  let '((_, s1), w1) := MemStore.RecordOrder MemStore.New (demo_stored "v-1" "dummy") world0 in
  let '((r', _), _) := MemStore.RecordOrder s1 (demo_stored "v-2" "kraken") w1 in r' = Ok false.
Proof.
  pose proof (proj2 (stores_disagree_across_venues (numeric := id) no_tables (demo_stored "v-1" "dummy")
    (demo_stored "v-2" "kraken") world0 eq_refl eq_refl ltac:(discriminate))) as H.
  exact (proj2 H).
Defined.
End Witnesses.
