(* ===== verification/Rest.v ===== *)
(** * What the REST clients of the venues share

    One HTTP exchange behind a rate limiter, as [Connector.do] of the three
    adapters starts it: the limiter is asked first, then the request is sent and
    the body read. *)

From S2P Require Export RateLimit Venue Json Url.

(** The answer to a request that got past the limiter. *)
Inductive exchange :=
  | Denied (e : error)          (** the limiter refused, nothing was sent *)
  | Broken (e : error)          (** no response, or its body could not be read *)
  | Answered (status : Z) (headers : string → string) (body : string).

Section Rest.
Context `{E : Env} {L : Type} `{!Limiter L}.

Definition exchange_once (l : L) (cost : Z) (req : http_request) : IO (exchange * L) :=
  '(err, l) ← limiter_wait l cost;
  match err with
  | Some e => mret (Denied e, l)
  | None =>
      o ← http_do req;
      mret (match o with
            | HTTPErr e => Broken e
            | HTTPBodyErr _ _ e => Broken e
            | HTTPResp status headers body => Answered status headers body
            end, l)
  end.

Context `{!LimiterLaws L}.

(** While the limiter backs off nothing is sent. *)
Lemma exchange_denied (l : L) cost req w :
  limiter_until l ≠ zero_time →
  readings_before (limiter_until l) w (snd (exchange_once l cost req w)) →
  fst (fst (exchange_once l cost req w)) = Denied ErrBudgetExhausted
  ∧ limiter_until (snd (fst (exchange_once l cost req w))) = limiter_until l
  ∧ http_events (snd (exchange_once l cost req w)) = http_events w.
Proof.
  intros Hz. unfold exchange_once. rewrite !bind_run.
  pose proof (wait_denied l cost w Hz) as Hd. pose proof (wait_until l cost w) as Hu.
  pose proof (wait_no_http l cost w) as Hh.
  destruct (limiter_wait l cost w) as [[[e|] l'] w1]; cbn [fst snd] in *; intros Hr.
  - cbn in *. specialize (Hd Hr). by simplify_eq.
  - exfalso. cut (@None error = Some ErrBudgetExhausted); [done|]. apply Hd.
    rewrite bind_run in Hr. exact Hr.
Qed.

(** At most one request is sent, and only when the limiter grants it. *)
Lemma exchange_http (l : L) cost req w :
  http_events (snd (exchange_once l cost req w))
  = http_events w ++ match fst (fst (exchange_once l cost req w)) with Denied _ => [] | _ => [EvHTTP req] end.
Proof.
  unfold exchange_once. rewrite !bind_run. pose proof (wait_no_http l cost w) as Hh.
  destruct (limiter_wait l cost w) as [[[e|] l'] w1]; cbn [fst snd] in *.
  - cbn. by rewrite Hh, app_nil_r.
  - rewrite bind_run, http_do_run. cbn [fst snd mret io_ret].
    assert (http_events (mkWorld (w_ticks w1) (w_draws w1) (w_trace w1 ++ [EvHTTP req]))
            = http_events w ++ [EvHTTP req]) as Hev.
    { unfold http_events in *. cbn. by rewrite List.filter_app, Hh. }
    by destruct (env_http (w_trace w1) req).
Qed.
End Rest.

(** [fmt.Errorf("%s: rate limited (status %d)", ...)] *)
Definition rate_limited (venue : string) (status : Z) : error :=
  venue +:+ ": rate limited (status " +:+ FormatInt status +:+ ")".

(** ** Sequences of calls on a connector *)

Inductive venue_call `{DD : Decimal} :=
  | CallPlaceOrder (req : OrderRequest)
  | CallCancelOrder (req : CancelRequest)
  | CallGetOrder (id : string)
  | CallGetFills (q : FillQuery)
  | CallGetBalances.

Section Calls.
Context `{DD : Decimal} `{E : Env} {C : Type} `{!VenueConnector C}.

(** The error of a result. *)
Definition failure {A} (r : result A) : option error :=
  match r with Ok _ => None | Fail e => Some e end.

Definition call (c : C) (k : venue_call) : IO (option error * C) :=
  match k with
  | CallPlaceOrder req => '(r, c) ← PlaceOrder c req; mret (failure r, c)
  | CallCancelOrder req => CancelOrder c req
  | CallGetOrder id => '(r, c) ← GetOrder c id; mret (failure r, c)
  | CallGetFills q => '(r, c) ← GetFills c q; mret (failure r, c)
  | CallGetBalances => '(r, c) ← GetBalances c; mret (failure r, c)
  end.

Fixpoint calls (c : C) (ks : list venue_call) : IO (list (option error) * C) :=
  match ks with
  | [] => mret ([], c)
  | k :: ks => '(e, c) ← call c k; '(es, c) ← calls c ks; mret (e :: es, c)
  end.

Lemma calls_cons c k ks w :
  calls c (k :: ks) w
  = let '((e, c1), w1) := call c k w in
    let '((es, c2), w2) := calls c1 ks w1 in ((e :: es, c2), w2).
Proof.
  cbn [calls]. rewrite bind_run. destruct (call c k w) as [[e c1] w1]. cbn [fst snd].
  rewrite bind_run. by destruct (calls c1 ks w1) as [[es c2] w2].
Qed.

(** A connector behind a limiter: [throttle_until] is the instant until which it is
    held back. *)
Class Throttled := throttle_until : C → Time.

(** What such a connector promises: held back, every call fails without a request. *)
Class ThrottledLaws `{!Throttled} : Prop := {
  call_ticks : ∀ c k w, (w_ticks w ≤ w_ticks (snd (call c k w)))%nat;
  call_throttled : ∀ c k w,
    throttle_until c ≠ zero_time →
    readings_before (throttle_until c) w (snd (call c k w)) →
    fst (fst (call c k w)) ≠ None
    ∧ throttle_until (snd (fst (call c k w))) = throttle_until c
    ∧ http_events (snd (call c k w)) = http_events w;
}.

Lemma calls_ticks `{!Throttled} `{!ThrottledLaws} c ks w :
  (w_ticks w ≤ w_ticks (snd (calls c ks w)))%nat.
Proof.
  revert c w. induction ks as [|k ks IH]; intros c w; [cbn; lia|].
  rewrite calls_cons. pose proof (call_ticks c k w) as Hk.
  destruct (call c k w) as [[e c1] w1]. specialize (IH c1 w1).
  destruct (calls c1 ks w1) as [[es c2] w2]. cbn in *. lia.
Qed.

(** All of a sequence of calls fails without a request while the clock stays before
    the end of the backoff. *)
Lemma calls_throttled `{!Throttled} `{!ThrottledLaws} c ks w :
  throttle_until c ≠ zero_time →
  readings_before (throttle_until c) w (snd (calls c ks w)) →
  http_events (snd (calls c ks w)) = http_events w
  ∧ Forall (λ e, e ≠ None) (fst (fst (calls c ks w))).
Proof.
  revert c w. induction ks as [|k ks IH]; intros c w Hz; [by split|].
  rewrite calls_cons. pose proof (call_throttled c k w Hz) as Ht. pose proof (call_ticks c k w) as Hk.
  destruct (call c k w) as [[e c1] w1]. cbn [fst snd] in *.
  pose proof (calls_ticks c1 ks w1) as Hks. specialize (IH c1 w1).
  destruct (calls c1 ks w1) as [[es c2] w2]. cbn [fst snd] in *. intros Hr.
  destruct Ht as (He & Hu & Hh); [intros i Hi; apply Hr; lia|]. rewrite Hu in IH.
  destruct IH as [Hh2 Hall]; [done|intros i Hi; apply Hr; lia|].
  split; [by rewrite Hh2|by constructor].
Qed.
End Calls.
Arguments Throttled : clear implicits.
Arguments ThrottledLaws {DD E} C {_ _}.

(** ** Runs of signed requests

    For a connector that numbers its requests: [X] describes a request, [event_of]
    is the event of sending it under a number, [numbers] the last number used. *)
Section SignedRuns.
Context `{DD : Decimal} `{E : Env} {C : Type} `{!VenueConnector C} {X : Type}.
Context (numbers : C → Z) (identity : relation C) `{!PreOrder identity}.
Context (event_of : C → X * Z → event) (req_of : venue_call → option X) (limit : Z).

(** The request belongs to one of the calls. *)
Definition sent_for (ks : list venue_call) (s : X * Z) : Prop :=
  ∃ k, k ∈ ks ∧ req_of k = Some (fst s).

Context (event_identity : ∀ c c' s, identity c c' → event_of c' s = event_of c s).
Context (call_sent : ∀ c k w, 0 ≤ numbers c < limit →
  let '((e, c'), w') := call c k w in
  identity c c' ∧ numbers c ≤ numbers c' ≤ numbers c + 1
  ∧ (http_events w' = http_events w
     ∨ numbers c' = numbers c + 1 ∧ ∃ x, req_of k = Some x
       ∧ http_events w' = http_events w ++ [event_of c (x, numbers c')])).

(** Everything sent is a request of one of the calls, with strictly increasing
    numbers. *)
Lemma signed_run c ks w :
  0 ≤ numbers c → numbers c + Z.of_nat (length ks) ≤ limit →
  let '((_, c'), w') := calls c ks w in
  identity c c' ∧ ∃ log : list (X * Z),
    http_events w' = http_events w ++ map (event_of c) log
    ∧ StronglySorted Z.lt (numbers c :: map snd log)
    ∧ Forall (sent_for ks) log ∧ (length log ≤ length ks)%nat.
Proof.
  revert c w. induction ks as [|k ks IH]; intros c w Hn Hlen.
  { cbn. split; [done|]. exists []. rewrite app_nil_r. split_and!; try done. repeat constructor. }
  rewrite calls_cons. cbn in Hlen. pose proof (call_sent c k w ltac:(lia)) as Hc.
  destruct (call c k w) as [[e c1] w1]. destruct Hc as (Hi & Hnc & Hh).
  specialize (IH c1 w1 ltac:(lia) ltac:(lia)). destruct (calls c1 ks w1) as [[es c2] w2].
  destruct IH as (Hi2 & log & Hlog & Hsort & Hall & Hll). split; [by etrans|].
  rewrite (map_ext (event_of c1) (event_of c)) in Hlog by (intros s; by apply event_identity).
  apply StronglySorted_inv in Hsort as [Hsort Hlow].
  assert (Forall (sent_for (k :: ks)) log) as Hall'.
  { eapply Forall_impl; [exact Hall|]. intros s (k' & Hk' & Hr). exists k'. split; [by right|done]. }
  assert (Forall (Z.lt (numbers c)) (map snd log)) as Hlow'
    by (eapply Forall_impl; [exact Hlow|]; cbn; lia).
  destruct Hh as [Hh|(Hn1 & x & Hx & Hh)].
  - exists log. rewrite Hlog, Hh. split_and!; [done|by constructor|done|cbn; lia].
  - exists ((x, numbers c1) :: log). rewrite Hlog, Hh, <- app_assoc. split_and!; [done| | |cbn; lia].
    + cbn [map snd]. constructor; [by constructor|]. constructor; [lia|done].
    + constructor; [|done]. exists k. split; [by left|done].
Qed.
End SignedRuns.

Section ExchangeTicks.
Context `{E : Env} {L : Type} `{!Limiter L} `{!LimiterLaws L}.

Lemma exchange_ticks (l : L) cost req w :
  (w_ticks w ≤ w_ticks (snd (exchange_once l cost req w)))%nat.
Proof.
  unfold exchange_once. rewrite bind_run. pose proof (wait_ticks l cost w) as H.
  destruct (limiter_wait l cost w) as [[[e|] l'] w1]; cbn [fst snd] in *; [done|].
  rewrite bind_run, http_do_run. done.
Qed.
End ExchangeTicks.
