(* ===== verification/BookFeed.v ===== *)
(** * internal/adapters/binance/book.go and internal/adapters/kraken/book.go

    What turns the messages of a venue's order book stream into the updates of
    the channel [SubscribeBook] returns: the message handlers, the snapshots over
    REST and [emitUpdate]. *)

From S2P Require Export Ws Venue Json Url.

(** ** The channel of updates and [emitUpdate] *)

Section Emit.
Context `{DD : Decimal} `{E : Env}.

(** [make(chan venue.BookUpdate, 64)] *)
Definition channel_size : nat := 64.

(** [select { case out <- upd: default: }] on the buffered updates. *)
Definition send_update (upd : BookUpdate) (out : list BookUpdate) : list BookUpdate :=
  if Nat.ltb (length out) channel_size then out ++ [upd] else out.

Definition parse_level (lvl : level) : BookLevel := mkBookLevel (dec_parse (fst lvl)) (dec_parse (snd lvl)).

(** [emitUpdate] of both adapters; [shown] is the pair as the update names it. *)
Definition emit_update (venue shown : string) (r : BookReconstructor) (pair : string)
    (out : list BookUpdate) : IO (list BookUpdate) :=
  '(bids, asks) ← TopN r 20;
  now ← time_now;
  let upd := mkBookUpdate shown (map parse_level bids) (map parse_level asks) now in
  if Nat.ltb 0 (length (upd_Bids upd)) && Nat.ltb 0 (length (upd_Asks upd)) then
    lag ← Lag r;
    _ ← metric "ws_book_lag_seconds" [venue; pair] (MSet lag);
    mret (send_update upd out)
  else mret out.

(** The state of a subscription: the books by key and the buffered updates. *)
Record Feed := mkFeed {
  recons : gmap string BookReconstructor;
  out : list BookUpdate;
}.

Definition set_recon (k : string) (r : BookReconstructor) (f : Feed) : Feed :=
  mkFeed (<[k := r]> (recons f)) (out f).
Definition set_out (o : list BookUpdate) (f : Feed) : Feed := mkFeed (recons f) o.

Definition decode_levels : decoder (list level) := decode_list decode_pair ("", "").

End Emit.

(** ** Binance *)
Module BinanceBook.
Section Ops.
Context `{DD : Decimal} `{E : Env}.

Record depthEvent := mkDepthEvent {
  de_Stream : string;
  de_LastUpdateID : Z;
  de_Bids : list level;
  de_Asks : list level;
}.

Definition zero_depth : depthEvent := mkDepthEvent "" 0 [] [].

Definition decode_depth_data : decoder depthEvent := decode_struct (λ k j e,
  let '(mkDepthEvent st id b a) := e in
  if key_is "lastUpdateId" k then on_field decode_int64 de_LastUpdateID (λ v _, mkDepthEvent st v b a) j e
  else if key_is "bids" k then on_field decode_levels de_Bids (λ v _, mkDepthEvent st id v a) j e
  else if key_is "asks" k then on_field decode_levels de_Asks (λ v _, mkDepthEvent st id b v) j e
  else (e, true)).

Definition decode_depth : decoder depthEvent := decode_struct (λ k j e,
  if key_is "stream" k then on_field decode_string de_Stream
    (λ v e, mkDepthEvent v (de_LastUpdateID e) (de_Bids e) (de_Asks e)) j e
  else if key_is "data" k then decode_depth_data j e
  else (e, true)).

Record snapshotResp := mkSnapshotResp {
  sn_LastUpdateID : Z;
  sn_Bids : list level;
  sn_Asks : list level;
}.

Definition decode_snapshot : decoder snapshotResp := decode_struct (λ k j s,
  let '(mkSnapshotResp id b a) := s in
  if key_is "lastUpdateID" k then on_field decode_int64 sn_LastUpdateID (λ v _, mkSnapshotResp v b a) j s
  else if key_is "bids" k then on_field decode_levels sn_Bids (λ v _, mkSnapshotResp id v a) j s
  else if key_is "asks" k then on_field decode_levels sn_Asks (λ v _, mkSnapshotResp id b v) j s
  else (s, true)).

Definition snapshot_request (restBase pair : string) : http_request :=
  mkReq "GET" (restBase +:+ "/api/v3/depth?symbol=" +:+ ToUpper pair +:+ "&limit=100") [] "".

Definition refreshSnapshot (restBase pair : string) (r : BookReconstructor)
    : IO (option error * BookReconstructor) :=
  let req := snapshot_request restBase pair in
  match env_new_request "GET" (hr_url req) with
  | Some e => mret (Some e, r)
  | None =>
      o ← http_do req;
      match o with
      | HTTPErr e | HTTPBodyErr _ _ e => mret (Some e, r)
      | HTTPResp status _ body =>
          if 400 <=? status then mret (Some ("snapshot status " +:+ FormatInt status), r) else
          let '(sn, ok) := unmarshal decode_snapshot body (mkSnapshotResp 0 [] []) in
          if negb ok then mret (Some (env_json_error body), r) else
          r ← ApplySnapshot r (sn_Bids sn) (sn_Asks sn);
          mret (None, r)
      end
  end.

Definition emitUpdate (r : BookReconstructor) (pair : string) (out : list BookUpdate)
    : IO (list BookUpdate) := emit_update "binance" (ToUpper pair) r pair out.

Definition streamToPair (stream : string) : string :=
  match Index stream "@" with
  | Some (S i) => str_take (S i) stream
  | _ => stream
  end.

(** The function given to [client.SetHandler]. *)
Definition handle_message (restBase : string) (f : Feed) (msg : string) : IO Feed :=
  let '(ev, ok) := unmarshal decode_depth msg zero_depth in
  if negb ok then mret f else
  let pair := streamToPair (de_Stream ev) in
  let key := ToLower pair in
  match recons f !! key with
  | None => mret f
  | Some r =>
      '((applied, gap), r) ← ApplyDiff r (de_LastUpdateID ev) (de_Bids ev) (de_Asks ev);
      if (gap : bool) then
        r ← MarkGap r;
        '(err, r) ← refreshSnapshot restBase pair r;
        match err with
        | None => _ ← metric "ws_gap_count" ["binance"] MInc; mret (set_recon key r f)
        | Some _ => mret (set_recon key r f)
        end
      else if negb applied then mret f
      else
        o ← emitUpdate r pair (out f);
        mret (set_out o (set_recon key r f))
  end.

Definition stream_name (pair : string) : string := ToLower pair +:+ "@depth".
Definition stream_url (wsBase : string) (pairs : list string) : string :=
  wsBase +:+ "/" +:+ Join (map stream_name pairs) "/".

Definition new_feed (pairs : list string) : Feed :=
  mkFeed (foldl (λ m p, <[ToLower p := NewBookReconstructor "binance" p]> m) ∅ pairs) [].

(** The goroutine up to [client.Run]: a snapshot and an update of each pair. *)
Fixpoint prime (restBase : string) (pairs : list string) (f : Feed) : IO Feed :=
  match pairs with
  | [] => mret f
  | p :: pairs =>
      match recons f !! ToLower p with
      | None => prime restBase pairs f
      | Some r =>
          '(err, r) ← refreshSnapshot restBase p r;
          match err with
          | Some _ => prime restBase pairs (set_recon (ToLower p) r f)
          | None =>
              o ← emitUpdate r p (out f);
              prime restBase pairs (set_out o (set_recon (ToLower p) r f))
          end
      end
  end.

(** [SubscribeBook]: the error, or the feed before its goroutine starts and the
    address its client connects to. *)
Definition SubscribeBook (wsBase : string) (pairs : list string) : result (Feed * string) :=
  match pairs with
  | [] => Fail "binance: no pairs"
  | _ => Ok (new_feed pairs, stream_url wsBase pairs)
  end.
End Ops.
End BinanceBook.

(** ** Kraken *)
Module KrakenBook.
Section Ops.
Context `{DD : Decimal} `{E : Env}.

(** The pairs with their numbers, from [n] on; a repeated pair keeps the last. *)
Fixpoint number_pairs (n : Z) (pairs : list string) (m : gmap string Z) : gmap string Z :=
  match pairs with
  | [] => m
  | p :: pairs => number_pairs (n + 1) pairs (<[p := n]> m)
  end.

Definition pairToInt (pairs : list string) : gmap string Z := number_pairs 1 pairs ∅.

(** [intToPair[id]]: the numbers are distinct, so the map is the inverse. *)
Definition intToPair (pairs : list string) (id : Z) : option string :=
  fst <$> List.find (λ pi : string * Z, snd pi =? id) (map_to_list (pairToInt pairs)).

Definition new_feed (pairs : list string) : Feed :=
  mkFeed (foldl (λ m p, <[p := NewBookReconstructor "kraken" p]> m) ∅ pairs) [].

Definition emitUpdate (r : BookReconstructor) (pair : string) (out : list BookUpdate)
    : IO (list BookUpdate) := emit_update "kraken" pair r pair out.

(** The message [subs]. *)
Definition subscription (pairs : list string) : jvalue :=
  VObj [("event", VStr "subscribe");
        ("subscription", VObj [("name", VStr "book"); ("depth", VInt 100)]);
        ("pair", VArr (map VStr pairs))].

(** A book message brought to a book: both sides are a snapshot, one is a diff
    numbered by the clock. *)
Definition apply_message (r : BookReconstructor) (bids asks : list level) : IO BookReconstructor :=
  match bids, asks with
  | _ :: _, _ :: _ => ApplySnapshot r bids asks
  | _ :: _, [] =>
      now ← time_now; '(_, r) ← ApplyDiff r (time_unix_nano now) bids []; mret r
  | [], _ :: _ =>
      now ← time_now; '(_, r) ← ApplyDiff r (time_unix_nano now) [] asks; mret r
  | [], [] => mret r
  end.

(** The channel and the two sides of a message, if it is one of a book. *)
Definition decode_message (msg : string) : option (Z * list level * list level) :=
  let '(arr, ok) := unmarshal (decode_list decode_raw None) msg [] in
  if negb ok then None else
  match arr with
  | a0 :: a1 :: a2 :: _ :: _ =>
      let '(channelID, ok) := unmarshal_raw decode_int64 a0 0 in
      if negb ok then None else
      Some (channelID, fst (unmarshal_raw decode_levels a1 []), fst (unmarshal_raw decode_levels a2 []))
  | _ => None
  end.

(** The function given to [client.SetHandler]. *)
Definition handle_message (pairs : list string) (f : Feed) (msg : string) : IO Feed :=
  match decode_message msg with
  | None => mret f
  | Some (channelID, bids, asks) =>
      match intToPair pairs channelID with
      | None => mret f
      | Some p =>
          match recons f !! p with
          | None => mret f   (** not reached: every numbered pair has its book *)
          | Some r =>
              r ← apply_message r bids asks;
              o ← emitUpdate r p (out f);
              mret (set_out o (set_recon p r f))
          end
      end
  end.

Definition SubscribeBook (wsBase : string) (pairs : list string) : result (Feed * string * jvalue) :=
  match pairs with
  | [] => Fail "kraken: no pairs"
  | _ => Ok (new_feed pairs, wsBase, subscription pairs)
  end.
End Ops.
End KrakenBook.

(** A feed over the messages of a connection. *)
Fixpoint handle_all `{DD : Decimal} (handle : Feed → string → IO Feed) (f : Feed) (msgs : list string) : IO Feed :=
  match msgs with
  | [] => mret f
  | msg :: msgs => f ← handle f msg; handle_all handle f msgs
  end.

(** ** Properties *)
Section EmitFacts.
Context `{DD : Decimal} `{E : Env} `{!FairRange E}.

(** The update that shows a book at the instant [t]: its 20 best levels a side. *)
Definition book_update (shown : string) (r : BookReconstructor) (t : Time) : BookUpdate :=
  mkBookUpdate shown (map parse_level (best_levels (rc_bids r) true 20))
    (map parse_level (best_levels (rc_asks r) false 20)) t.

(** Both sides of the book have a level. *)
Definition two_sided (r : BookReconstructor) : bool :=
  bool_decide (rc_bids r ≠ ∅) && bool_decide (rc_asks r ≠ ∅).

Lemma best_levels_nonempty m d n : n ≠ O → Nat.ltb 0 (length (best_levels m d n)) = bool_decide (m ≠ ∅).
Proof.
  intros Hn. unfold best_levels. rewrite length_take.
  assert (length (sortLevels (map_to_list m) d) = size m) as ->
    by (rewrite sortLevels_perm; apply length_map_to_list).
  case_bool_decide as Hm.
  - apply map_size_ne_0 in Hm || (apply map_size_non_empty_iff in Hm). apply Nat.ltb_lt. lia.
  - subst m. rewrite map_size_empty. by destruct n.
Qed.

Lemma emit_update_run venue shown r pair o w :
  let '(o', w') := emit_update venue shown r pair o w in
  o' = (if two_sided r then send_update (book_update shown r (env_now (w_ticks w))) o else o)
  ∧ (w_ticks w ≤ w_ticks w')%nat ∧ http_events w' = http_events w.
Proof.
  unfold emit_update. rewrite bind_run. destruct (TopN_run r 20 w) as (Hf & Ht & Htr).
  destruct (TopN r 20 w) as [[bids asks] w1]. cbn [fst snd] in *. injection Hf as -> ->.
  rewrite bind_run. cbn [fst snd time_now upd_Bids upd_Asks]. rewrite !length_map.
  rewrite !best_levels_nonempty by done. change (bool_decide (rc_bids r ≠ ∅) && bool_decide (rc_asks r ≠ ∅)) with (two_sided r).
  rewrite Ht.
  assert (∀ w2, w_trace w2 = w_trace w → http_events w2 = http_events w) as Hev
    by (intros w2 H2; unfold http_events; by rewrite H2).
  destruct (two_sided r); [|cbn; split_and!; [done|lia|by apply Hev]].
  rewrite bind_run. unfold Lag. destruct (time_is_zero (rc_lastUpdate r)); cbn;
    (split_and!; [done|simpl; lia|]); unfold http_events; simpl; rewrite List.filter_app; simpl;
    by rewrite app_nil_r, Htr.
Qed.

Lemma send_update_bound upd o :
  (length o ≤ channel_size)%nat → (length (send_update upd o) ≤ channel_size)%nat
  ∧ o `prefix_of` send_update upd o.
Proof.
  unfold send_update. destruct (Nat.ltb_spec (length o) channel_size).
  - rewrite length_app. cbn. split; [lia|by eexists].
  - done.
Qed.
End EmitFacts.

Section BinanceFeed.
Import BinanceBook.
Context `{DD : Decimal} `{E : Env} `{!FairRange E}.

(** Whether the request for a snapshot of [p] can be built, and so is sent. *)
Definition snapshot_asked (restBase p : string) : list event :=
  match env_new_request "GET" (hr_url (snapshot_request restBase p)) with
  | Some _ => []
  | None => [EvHTTP (snapshot_request restBase p)]
  end.

(** The snapshot the venue answers with, after [tr], to the request for [p]: the
    decoded body of an answer below 400. *)
Definition snapshot_answer (restBase p : string) (tr : list event) : option snapshotResp :=
  if bool_decide (snapshot_asked restBase p = []) then None else
  match env_http tr (snapshot_request restBase p) with
  | HTTPResp status _ body =>
      let '(sn, ok) := unmarshal decode_snapshot body (mkSnapshotResp 0 [] []) in
      if (status <? 400) && ok then Some sn else None
  | _ => None
  end.

(** The levels of a book are exactly those of a snapshot, the last of each price. *)
Definition shows_snapshot (r : BookReconstructor) (sn : snapshotResp) : Prop :=
  ∀ price, rc_bids r !! price = last_size price (sn_Bids sn)
    ∧ rc_asks r !! price = last_size price (sn_Asks sn).

Lemma ApplySnapshot_shows r sn w : shows_snapshot (fst (ApplySnapshot r (sn_Bids sn) (sn_Asks sn) w)) sn.
Proof.
  intros price. cbn [ApplySnapshot]. unfold ApplySnapshot. rewrite bind_run. cbn [fst snd time_now mret io_ret rc_bids rc_asks].
  rewrite !set_levels_lookup, lookup_empty. by split; case_match.
Qed.

(** A snapshot leaves the sequence number alone and costs at most one request; it is
    refreshed exactly when the venue answers with one, and then shows it. *)
Lemma refreshSnapshot_run restBase p r w :
  let '((err, r'), w') := refreshSnapshot restBase p r w in
  rc_lastSeq r' = rc_lastSeq r ∧ rc_venue r' = rc_venue r
  ∧ http_events w' = http_events w ++ snapshot_asked restBase p
  ∧ match snapshot_answer restBase p (w_trace w) with
    | None => is_Some err ∧ r' = r
    | Some sn => err = None ∧ shows_snapshot r' sn
    end.
Proof.
  unfold refreshSnapshot, snapshot_answer, snapshot_asked.
  destruct (env_new_request _ _) as [e|]; [rewrite app_nil_r; by split_and!|].
  rewrite bool_decide_eq_false_2 by done.
  rewrite bind_run, http_do_run. cbn [fst snd].
  assert (∀ t d, http_events (mkWorld t d (w_trace w ++ [EvHTTP (snapshot_request restBase p)]))
          = http_events w ++ [EvHTTP (snapshot_request restBase p)]) as Hev
    by (intros t d; unfold http_events; cbn; by rewrite List.filter_app).
  destruct (env_http (w_trace w) _) as [e|st h e|st h body]; [by split_and!; try apply Hev..|].
  destruct (unmarshal decode_snapshot body _) as [sn ok]. rewrite Z.ltb_antisym.
  destruct (400 <=? st); [by split_and!; try apply Hev|].
  destruct ok; cbn [negb andb]; [|by split_and!; try apply Hev].
  rewrite bind_run. split_and!; [done|done|apply Hev|done|apply ApplySnapshot_shows].
Qed.

(** The goroutine sends one snapshot request for each pair it has a book of, without
    headers, so unsigned, and whatever the limiter of the connector says: the feed
    has none. *)
Theorem binance_feed_requests_unlimited restBase pairs f w :
  http_events (snd (prime restBase pairs f w))
  = http_events w ++ concat (map (λ p, if bool_decide (is_Some (recons f !! ToLower p))
                                       then snapshot_asked restBase p else []) pairs)
  ∧ ∀ p, hr_headers (snapshot_request restBase p) = [].
Proof.
  split; [|done]. revert f w. induction pairs as [|p pairs IH]; intros f w; [cbn; by rewrite app_nil_r|].
  cbn [prime map concat]. destruct (recons f !! ToLower p) as [r|] eqn:Hr.
  2: { rewrite bool_decide_eq_false_2 by (by intros [? ?]). apply IH. }
  rewrite bool_decide_eq_true_2 by eauto. rewrite bind_run.
  pose proof (refreshSnapshot_run restBase p r w) as Hs.
  destruct (refreshSnapshot restBase p r w) as [[err r1] w1]. destruct Hs as (_ & _ & Hh & _). cbn [fst snd].
  assert (∀ o, map (λ q, if bool_decide (is_Some (recons (set_out o (set_recon (ToLower p) r1 f)) !! ToLower q))
                         then snapshot_asked restBase q else []) pairs
             = map (λ q, if bool_decide (is_Some (recons f !! ToLower q))
                         then snapshot_asked restBase q else []) pairs) as Hkeys.
  { intros o. apply map_ext. intros q. cbn [recons set_out set_recon].
    erewrite bool_decide_ext; [done|]. destruct (decide (ToLower p = ToLower q)) as [<-|Hne].
    - rewrite lookup_insert_eq, Hr. split; eauto.
    - by rewrite lookup_insert_ne. }
  rewrite app_assoc, <- Hh. destruct err as [e|].
  - rewrite IH. f_equal. by rewrite <- (Hkeys (out f)).
  - rewrite bind_run. unfold emitUpdate.
    pose proof (emit_update_run "binance" (ToUpper p) r1 p (out f) w1) as He.
    destruct (emit_update _ _ _ _ _ w1) as [o w2]. destruct He as (_ & _ & He). cbn [fst snd].
    rewrite IH, He. by rewrite Hkeys.
Qed.

(** The book [MarkGap] leaves. *)
Definition forget_seq (r : BookReconstructor) : BookReconstructor :=
  mkRecon (rc_venue r) (rc_pair r) (rc_bids r) (rc_asks r) 0 (rc_lastUpdate r) (rc_snapshotTTL r).

Lemma MarkGap_run r w :
  MarkGap r w = (forget_seq r, snd (trace (EvMetric "ws_gap_count" [rc_venue r] MInc) w)).
Proof. done. Qed.

(** What the handler has recorded when a gap of [r] makes it ask for a snapshot. *)
Definition gap_trace (r : BookReconstructor) (w : World) : list event :=
  w_trace w ++ [EvMetric "ws_gap_count" [rc_venue r] MInc].

(** A gap: the sequence number is forgotten and a snapshot asked for. *)
Lemma handle_gap restBase f msg ev r w :
  unmarshal decode_depth msg zero_depth = (ev, true) →
  recons f !! ToLower (streamToPair (de_Stream ev)) = Some r →
  is_gap r (de_LastUpdateID ev) → in_int64 (rc_lastSeq r + 1) →
  ∃ r1 w', handle_message restBase f msg w
           = (set_recon (ToLower (streamToPair (de_Stream ev))) r1 f, w')
  ∧ rc_lastSeq r1 = 0
  ∧ http_events w' = http_events w ++ snapshot_asked restBase (streamToPair (de_Stream ev))
  ∧ match snapshot_answer restBase (streamToPair (de_Stream ev)) (gap_trace r w) with
    | Some sn => shows_snapshot r1 sn
    | None => rc_bids r1 = rc_bids r ∧ rc_asks r1 = rc_asks r
    end.
Proof.
  intros Hdec Hr [Hg0 Hg] Hin. unfold handle_message. rewrite Hdec. cbn [negb].
  set (p := streamToPair (de_Stream ev)) in *. rewrite Hr, bind_run.
  assert (ApplyDiff r (de_LastUpdateID ev) (de_Bids ev) (de_Asks ev) w = ((false, true), r, w)) as ->.
  { unfold ApplyDiff. rewrite wrap64_id by done.
    destruct (Z.eqb_spec (rc_lastSeq r) 0); [done|]. cbn [negb andb].
    destruct (Z.leb_spec (de_LastUpdateID ev) (rc_lastSeq r)); [lia|].
    by destruct (Z.ltb_spec (rc_lastSeq r + 1) (de_LastUpdateID ev)); [|lia]. }
  cbn [fst snd]. rewrite bind_run, MarkGap_run. cbn [fst snd]. rewrite bind_run.
  pose proof (http_events_trace (EvMetric "ws_gap_count" [rc_venue r] MInc) w eq_refl) as Hev.
  set (w0 := snd (trace _ w)) in *.
  pose proof (refreshSnapshot_run restBase p (forget_seq r) w0) as Hs.
  destruct (refreshSnapshot restBase p (forget_seq r) w0) as [[err r1] w1].
  destruct Hs as (Hseq & _ & Hh & Hbook). rewrite Hev in Hh. cbn [fst snd].
  change (w_trace w0) with (gap_trace r w) in Hbook.
  destruct (snapshot_answer restBase p (gap_trace r w)) as [sn|].
  - destruct Hbook as [-> Hbook]. rewrite bind_run. eexists r1, _. split; [reflexivity|]. split_and!; [done| |done].
    unfold metric. by rewrite (http_events_trace (EvMetric "ws_gap_count" ["binance"] MInc) w1 eq_refl).
  - destruct Hbook as [[e ->] ->]. eexists _, w1. split; [reflexivity|]. by split_and!.
Qed.

(** A diff that is neither stale nor after a gap is applied and shown. *)
Lemma handle_next restBase f msg ev r w :
  unmarshal decode_depth msg zero_depth = (ev, true) →
  recons f !! ToLower (streamToPair (de_Stream ev)) = Some r →
  in_int64 (rc_lastSeq r + 1) →
  rc_lastSeq r = 0 ∨ de_LastUpdateID ev = rc_lastSeq r + 1 →
  let '(f', w') := handle_message restBase f msg w in
  ∃ r', rc_bids r' = diff_levels (rc_bids r) (de_Bids ev)
    ∧ rc_asks r' = diff_levels (rc_asks r) (de_Asks ev) ∧ rc_lastSeq r' = de_LastUpdateID ev
    ∧ recons f' = <[ToLower (streamToPair (de_Stream ev)) := r']> (recons f)
    ∧ http_events w' = http_events w
    ∧ out f' = if two_sided r'
               then send_update (book_update (ToUpper (streamToPair (de_Stream ev))) r'
                                   (env_now (S (w_ticks w)))) (out f)
               else out f.
Proof.
  intros Hdec Hr Hin Hseq. unfold handle_message. rewrite Hdec. cbn [negb].
  set (p := streamToPair (de_Stream ev)) in *. rewrite Hr, bind_run.
  set (r1 := mkRecon (rc_venue r) (rc_pair r) (diff_levels (rc_bids r) (de_Bids ev))
    (diff_levels (rc_asks r) (de_Asks ev)) (de_LastUpdateID ev) (env_now (w_ticks w)) (rc_snapshotTTL r)).
  assert (ApplyDiff r (de_LastUpdateID ev) (de_Bids ev) (de_Asks ev) w
          = ((true, false), r1, mkWorld (S (w_ticks w)) (w_draws w) (w_trace w))) as ->.
  { unfold ApplyDiff. rewrite wrap64_id by done.
    destruct (Z.eqb_spec (rc_lastSeq r) 0); [done|]. cbn [negb andb].
    destruct (Z.leb_spec (de_LastUpdateID ev) (rc_lastSeq r)); [lia|].
    by destruct (Z.ltb_spec (rc_lastSeq r + 1) (de_LastUpdateID ev)); [lia|]. }
  cbn [fst snd negb]. rewrite bind_run. unfold emitUpdate.
  pose proof (emit_update_run "binance" (ToUpper p) r1 p (out f)
                (mkWorld (S (w_ticks w)) (w_draws w) (w_trace w))) as He.
  destruct (emit_update "binance" (ToUpper p) r1 p (out f) _) as [o w1].
  destruct He as (Ho & _ & Hh). cbn [fst snd]. exists r1. by split_and!.
Qed.

(** C13: The Binance handler on a depth message for a subscribed pair, by its update id:
    an old one changes nothing; the first or the next one is applied, and an update
    is put on the bounded channel when both sides are non-empty; one beyond the next
    one resets the sequence, sends the snapshot request (if it can be built), emits
    nothing, and leaves exactly the levels of the snapshot the venue answers with (a
    decodable body with a status below 400), each price with the last size given for
    it and no other price, or the old levels when there is no such answer. *)
Theorem binance_feed_message restBase f msg ev r w :
  unmarshal decode_depth msg zero_depth = (ev, true) →
  let p := streamToPair (de_Stream ev) in
  let seq := de_LastUpdateID ev in
  recons f !! ToLower p = Some r → in_int64 (rc_lastSeq r + 1) →
  let '(f', w') := handle_message restBase f msg w in
  (rc_lastSeq r ≠ 0 → seq ≤ rc_lastSeq r → f' = f ∧ w' = w)
  ∧ (rc_lastSeq r = 0 ∨ seq = rc_lastSeq r + 1 → ∃ r',
       rc_bids r' = diff_levels (rc_bids r) (de_Bids ev) ∧ rc_asks r' = diff_levels (rc_asks r) (de_Asks ev)
       ∧ rc_lastSeq r' = seq ∧ recons f' = <[ToLower p := r']> (recons f)
       ∧ http_events w' = http_events w
       ∧ out f' = if two_sided r'
                  then send_update (book_update (ToUpper p) r' (env_now (S (w_ticks w)))) (out f) else out f)
  ∧ (is_gap r seq → ∃ r',
       rc_lastSeq r' = 0 ∧ recons f' = <[ToLower p := r']> (recons f) ∧ out f' = out f
       ∧ http_events w' = http_events w ++ snapshot_asked restBase p
       ∧ match snapshot_answer restBase p (gap_trace r w) with
         | Some sn => shows_snapshot r' sn
         | None => rc_bids r' = rc_bids r ∧ rc_asks r' = rc_asks r
         end).
Proof.
  intros Hdec p seq Hr Hin. unfold is_gap.
  pose proof (handle_next restBase f msg ev r w Hdec Hr Hin) as Hnext.
  pose proof (handle_gap restBase f msg ev r w Hdec Hr) as Hgap.
  assert (rc_lastSeq r ≠ 0 → seq ≤ rc_lastSeq r → handle_message restBase f msg w = (f, w)) as Hold.
  { intros H0 Hle. unfold handle_message. rewrite Hdec. cbn [negb]. fold p. rewrite Hr, bind_run.
    unfold ApplyDiff. fold seq. destruct (Z.eqb_spec (rc_lastSeq r) 0); [done|].
    by destruct (Z.leb_spec seq (rc_lastSeq r)); [|lia]. }
  destruct (handle_message restBase f msg w) as [f' w'].
  split; [intros H0 Hle; by simplify_eq (Hold H0 Hle)|]. split; [done|].
  intros Hg. destruct (Hgap Hg Hin) as (r1 & w1 & Heq & H1 & Hh & Hb). simplify_eq.
  exists r1. by split_and!.
Qed.

(** C14: After a gap the Binance feed accepts any later message: whatever its update id,
    older than the snapshot or with another gap before it, its levels are merged
    into the refreshed book and its id becomes the sequence number. *)
Theorem binance_gap_forgets_sequence restBase f msg ev r msg2 ev2 w w2 :
  unmarshal decode_depth msg zero_depth = (ev, true) →
  recons f !! ToLower (streamToPair (de_Stream ev)) = Some r →
  is_gap r (de_LastUpdateID ev) → in_int64 (rc_lastSeq r + 1) →
  unmarshal decode_depth msg2 zero_depth = (ev2, true) →
  streamToPair (de_Stream ev2) = streamToPair (de_Stream ev) →
  let f1 := fst (handle_message restBase f msg w) in
  let f2 := fst (handle_message restBase f1 msg2 w2) in
  ∃ r1 r2, recons f1 !! ToLower (streamToPair (de_Stream ev)) = Some r1
    ∧ recons f2 !! ToLower (streamToPair (de_Stream ev)) = Some r2
    ∧ rc_lastSeq r2 = de_LastUpdateID ev2
    ∧ rc_bids r2 = diff_levels (rc_bids r1) (de_Bids ev2)
    ∧ rc_asks r2 = diff_levels (rc_asks r1) (de_Asks ev2).
Proof.
  intros Hdec Hr Hgap Hin Hdec2 Hst. cbv zeta.
  destruct (handle_gap restBase f msg ev r w Hdec Hr Hgap Hin) as (r1 & w1 & -> & H1 & _).
  cbn [fst]. set (f1 := set_recon _ r1 f).
  assert (recons f1 !! ToLower (streamToPair (de_Stream ev)) = Some r1) as Hf1 by apply lookup_insert_eq.
  rewrite <- Hst in *.
  pose proof (handle_next restBase f1 msg2 ev2 r1 w2 Hdec2 Hf1) as Hn.
  destruct (handle_message restBase f1 msg2 w2) as [f2 w3].
  destruct Hn as (r2 & Hb & Ha & Hs & Hrec & _); [rewrite H1; done|by left|].
  exists r1, r2. split_and!; try done. cbn [fst]. rewrite Hrec. apply lookup_insert_eq.
Qed.
End BinanceFeed.

Section KrakenFeed.
Import KrakenBook.
Context `{DD : Decimal} `{E : Env} `{!FairRange E}.


(** A message that carries at most one side of a book. *)
Definition one_sided (msg : string) : Prop :=
  match decode_message msg with
  | Some (_, bids, asks) => bids = [] ∨ asks = []
  | None => True
  end.

Lemma apply_message_ticks r bids asks w :
  (w_ticks w ≤ w_ticks (snd (apply_message r bids asks w)))%nat
  ∧ (¬ (bids = [] ∧ asks = []) → (w_ticks w < w_ticks (snd (apply_message r bids asks w)))%nat).
Proof.
  assert (∀ seq b a w1, (w_ticks w1 ≤ w_ticks (snd (ApplyDiff r seq b a w1)))%nat) as Hd.
  { intros seq b a w1. unfold ApplyDiff. repeat case_match; run_io; lia. }
  destruct bids as [|b bids], asks as [|a asks]; cbn [apply_message]; [split; [run_io; lia|tauto]|..|unfold ApplySnapshot; run_io; split; lia];
    rewrite bind_run; cbn [time_now fst snd]; rewrite bind_run.
  - specialize (Hd (time_unix_nano (env_now (w_ticks w))) [] (a :: asks)
                  (mkWorld (S (w_ticks w)) (w_draws w) (w_trace w))).
    destruct (ApplyDiff _ _ _ _ _) as [[x r1] w1]. cbn in *. split; lia.
  - specialize (Hd (time_unix_nano (env_now (w_ticks w))) (b :: bids) []
                  (mkWorld (S (w_ticks w)) (w_draws w) (w_trace w))).
    destruct (ApplyDiff _ _ _ _ _) as [[x r1] w1]. cbn in *. split; lia.
Qed.

(** What a message does to the book of one pair. *)
Lemma kraken_message pairs f msg w :
  let '(f', w') := handle_message pairs f msg w in
  (w_ticks w ≤ w_ticks w')%nat
  ∧ (f' = f
     ∨ ∃ id bids asks p r o, decode_message msg = Some (id, bids, asks) ∧ recons f !! p = Some r
       ∧ (¬ (bids = [] ∧ asks = []) → (w_ticks w < w_ticks w')%nat)
       ∧ let r' := fst (apply_message r bids asks w) in
         f' = mkFeed (<[p := r']> (recons f)) o ∧ (o = out f ∨ ∃ upd, o = send_update upd (out f))).
Proof.
  unfold handle_message. destruct (decode_message msg) as [[[id bids] asks]|] eqn:Hd; [|split; [done|by left]].
  destruct (intToPair pairs id) as [p|]; [|split; [done|by left]].
  destruct (recons f !! p) as [r|] eqn:Hr; [|split; [done|by left]].
  rewrite bind_run. destruct (apply_message_ticks r bids asks w) as [Ht Hlt].
  destruct (apply_message r bids asks w) as [r1 w1] eqn:Ha. cbn [fst snd] in *. rewrite bind_run.
  unfold emitUpdate. pose proof (emit_update_run "kraken" p r1 p (out f) w1) as He.
  destruct (emit_update "kraken" p r1 p (out f) w1) as [o w2]. destruct He as (Ho & Ht2 & _).
  cbn [fst snd mret io_ret]. split; [lia|]. right. exists id, bids, asks, p, r, o.
  rewrite Ha. split_and!; try done; [intros Hs; specialize (Hlt Hs); lia|]. destruct (two_sided r1); [right|left]; eauto.
Qed.

(** A one-sided message later than the last one is taken for a gap. *)
Lemma one_sided_dropped r bids asks w :
  bids = [] ∨ asks = [] → rc_lastSeq r ≠ 0 → in_int64 (rc_lastSeq r + 1) →
  rc_lastSeq r + 1 < env_now (w_ticks w) ≤ int64_max →
  fst (apply_message r bids asks w) = r.
Proof.
  intros Hone H0 Hin Hnow.
  assert (∀ b a w1, ApplyDiff r (time_unix_nano (env_now (w_ticks w))) b a w1 = ((false, true), r, w1)) as Had.
  { intros b a w1. unfold ApplyDiff, time_unix_nano.
    rewrite !wrap64_id by (done || (unfold in_int64, int64_min, int64_max in *; lia)).
    destruct (Z.eqb_spec (rc_lastSeq r) 0); [done|]. cbn [negb andb].
    destruct (Z.leb_spec (env_now (w_ticks w)) (rc_lastSeq r)); [lia|].
    by destruct (Z.ltb_spec (rc_lastSeq r + 1) (env_now (w_ticks w))); [|lia]. }
  destruct bids as [|b bids], asks as [|a asks]; cbn [apply_message]; try done.
  - rewrite bind_run. cbn [fst snd time_now]. by rewrite bind_run, Had.
  - rewrite bind_run. cbn [fst snd time_now]. by rewrite bind_run, Had.
  - destruct Hone; done.
Qed.

Lemma handle_all_ticks pairs f msgs w : (w_ticks w ≤ w_ticks (snd (handle_all (handle_message pairs) f msgs w)))%nat.
Proof.
  revert f w. induction msgs as [|msg msgs IH]; intros f w; [done|].
  cbn [handle_all]. rewrite bind_run. pose proof (kraken_message pairs f msg w) as Hm.
  destruct (handle_message pairs f msg w) as [f1 w1]. destruct Hm as [Ht _].
  specialize (IH f1 w1). cbn [fst snd]. lia.
Qed.

(** C15: A Kraken book that has applied one diff never changes again under one-sided
    messages: their sequence number is the clock in nanoseconds, always beyond the
    next one, so every further diff is taken for a gap and dropped. *)
Theorem kraken_book_frozen_after_first_diff pairs f msgs p r w :
  recons f !! p = Some r → rc_lastSeq r ≠ 0 → in_int64 (rc_lastSeq r + 1) →
  (∀ i, (w_ticks w ≤ i < w_ticks (snd (handle_all (handle_message pairs) f msgs w)))%nat →
     rc_lastSeq r + 1 < env_now i ≤ int64_max) →
  Forall one_sided msgs →
  recons (fst (handle_all (handle_message pairs) f msgs w)) !! p = Some r.
Proof.
  intros Hr H0 Hin Hclock Hone. revert f w Hr Hclock.
  induction Hone as [|msg msgs Hmsg Hone IH]; intros f w Hr; [done|].
  cbn [handle_all]. rewrite bind_run. pose proof (kraken_message pairs f msg w) as Hm.
  destruct (handle_message pairs f msg w) as [f1 w1]. cbn [fst snd]. intros Hclock.
  destruct Hm as [Ht Hm]. apply IH; [|intros i Hi; apply Hclock; lia].
  destruct Hm as [-> |(id & bids & asks & q & r0 & o & Hd & Hq & Htick & -> & _)]; [done|]. cbn [recons].
  unfold one_sided in Hmsg. rewrite Hd in Hmsg.
  destruct (decide (q = p)) as [->|Hne]; [|by rewrite lookup_insert_ne].
  rewrite Hr in Hq. injection Hq as <-. rewrite lookup_insert_eq. f_equal.
  destruct (decide (bids = [] ∧ asks = [])) as [[-> ->]|Hsome]; [done|].
  apply one_sided_dropped; [done..|]. apply Hclock.
  specialize (Htick Hsome). split; [lia|]. eapply Nat.lt_le_trans; [exact Htick|apply handle_all_ticks].
Qed.

(** Every numbered pair is one of those subscribed to. *)
Lemma number_pairs_keys n pairs m p i :
  number_pairs n pairs m !! p = Some i → p ∈ pairs ∨ is_Some (m !! p).
Proof.
  revert n m. induction pairs as [|q pairs IH]; intros n m H; [right; by eexists|].
  cbn in H. apply IH in H as [H|H]; [left; by right|].
  destruct (decide (q = p)) as [->|Hne]; [left; by left|]. right. by rewrite lookup_insert_ne in H.
Qed.

Lemma intToPair_elem pairs id p : intToPair pairs id = Some p → p ∈ pairs.
Proof.
  unfold intToPair. destruct (List.find _ _) as [[q i]|] eqn:Hf; [|done]. cbn. intros [= ->].
  apply find_some in Hf as [Hin _]. apply list_elem_of_In, elem_of_map_to_list in Hin.
  apply number_pairs_keys in Hin as [?|[? Hem]]; [done|]. by rewrite lookup_empty in Hem.
Qed.

Lemma new_feed_keys pairs p : p ∈ pairs → is_Some (recons (new_feed pairs) !! p).
Proof.
  unfold new_feed. cbn [recons].
  assert (∀ m : gmap string BookReconstructor, p ∈ pairs ∨ is_Some (m !! p) →
    is_Some (foldl (λ m q, <[q := NewBookReconstructor "kraken" q]> m) m pairs !! p)) as H.
  { induction pairs as [|q pairs IH]; intros m [Hp|Hp]; [by apply not_elem_of_nil in Hp|done|..]; cbn; apply IH.
    - apply elem_of_cons in Hp as [->|Hp]; [right; rewrite lookup_insert_eq; eauto|by left].
    - right. destruct (decide (q = p)) as [->|]; [rewrite lookup_insert_eq; eauto|by rewrite lookup_insert_ne]. }
  intros Hp. apply H. by left.
Qed.

(** Every channel number the handler accepts has its book, and the update channel never
    holds more than its 64 places. *)
Theorem kraken_feed_safe pairs msgs w :
  let f := fst (handle_all (handle_message pairs) (new_feed pairs) msgs w) in
  (∀ id p, intToPair pairs id = Some p → is_Some (recons f !! p))
  ∧ (length (out f) ≤ channel_size)%nat.
Proof.
  cbv zeta.
  assert (∀ f, (∀ p, p ∈ pairs → is_Some (recons f !! p)) → (length (out f) ≤ channel_size)%nat →
    (∀ p, p ∈ pairs → is_Some (recons (fst (handle_all (handle_message pairs) f msgs w)) !! p))
    ∧ (length (out (fst (handle_all (handle_message pairs) f msgs w))) ≤ channel_size)%nat) as Hinv.
  { revert w. induction msgs as [|msg msgs IH]; intros w f Hk Ho; [done|].
    cbn [handle_all]. rewrite bind_run. pose proof (kraken_message pairs f msg w) as Hm.
    destruct (handle_message pairs f msg w) as [f1 w1]. destruct Hm as [_ Hm]. cbn [fst snd]. apply IH.
    - intros p Hp. destruct Hm as [-> |(id & bids & asks & q & r0 & o & _ & Hq & _ & -> & _)]; [by apply Hk|].
      cbn [recons]. destruct (decide (q = p)) as [->|]; [rewrite lookup_insert_eq; eauto|].
      rewrite lookup_insert_ne by done. by apply Hk.
    - destruct Hm as [-> |(id & bids & asks & q & r0 & o & _ & Hq & _ & -> & [->|[upd ->]])]; [done..|].
      cbn [out]. by apply send_update_bound. }
  destruct (Hinv (new_feed pairs)) as [Hk Ho]; [apply new_feed_keys|cbn; unfold channel_size; lia|].
  split; [|done]. intros id p Hp. by apply Hk, intToPair_elem with id.
Qed.
End KrakenFeed.

(** ** Witnesses *)
Section Witnesses.
#[local] Existing Instances fixed_decimal demo_env demo_range.

Definition demo_book : BookReconstructor :=
  mkRecon "binance" "BTCUSDT" {["99" := "1"]} {["101" := "2"]} 10 0 Second.
Definition demo_feed : Feed := mkFeed {["btcusdt" := demo_book]} [].

Definition depth_message (seq : string) : string :=
  jtext ("{'stream': 'btcusdt@depth', 'data': {'lastUpdateId': " +:+ seq
         +:+ ", 'bids': [['99', '0'], ['98', '3']], 'asks': []}}").
Definition depth_event (seq : Z) : BinanceBook.depthEvent :=
  BinanceBook.mkDepthEvent "btcusdt@depth" seq [("99", "0"); ("98", "3")] [].

Lemma binance_feed_message_witness :
  let '(f', _) := BinanceBook.handle_message "https://b" demo_feed (depth_message "11") world0 in
  ∃ r', recons f' !! "btcusdt" = Some r' ∧ rc_bids r' !! "98" = Some "3" ∧ rc_bids r' !! "99" = None.
Proof.
  pose proof (binance_feed_message "https://b" demo_feed (depth_message "11") (depth_event 11) demo_book
    world0 ltac:(vm_compute; reflexivity) ltac:(vm_compute; reflexivity) ltac:(vm_compute; split; discriminate)) as H.
  destruct (BinanceBook.handle_message "https://b" demo_feed (depth_message "11") world0) as [f' w'].
  destruct H as (_ & H & _). destruct H as (r' & Hb & _ & _ & Hr & _); [right; reflexivity|].
  exists r'. rewrite Hr, Hb. split; [apply lookup_insert_eq|]. split; vm_compute; reflexivity.
Defined.

(** After a gap at 20 the diff 5, older than all that was seen, is applied. *)
Lemma binance_gap_forgets_sequence_witness :
  let f1 := fst (BinanceBook.handle_message "https://b" demo_feed (depth_message "20") world0) in
  let f2 := fst (BinanceBook.handle_message "https://b" f1 (depth_message "5") world0) in
  ∃ r2, recons f2 !! "btcusdt" = Some r2 ∧ rc_lastSeq r2 = 5.
Proof.
  destruct (binance_gap_forgets_sequence "https://b" demo_feed (depth_message "20") (depth_event 20) demo_book
    (depth_message "5") (depth_event 5) world0 world0) as (r1 & r2 & _ & H2 & H3 & _);
    try (vm_compute; reflexivity); [split; vm_compute; congruence|vm_compute; split; discriminate|].
  exists r2. split; [exact H2|exact H3].
Defined.

Definition kraken_message_text : string := jtext "[1, [['99', '0']], [], 'book-100']".
Definition demo_kraken_feed : Feed :=
  mkFeed {["XBT" := mkRecon "kraken" "XBT" {["99" := "1"]} {["101" := "2"]} 7 0 Second]} [].

(** The removal of the level 99 is lost. *)
Lemma kraken_book_frozen_after_first_diff_witness :
  ∃ r, recons (fst (KrakenBook.handle_message ["XBT"] demo_kraken_feed kraken_message_text world0)) !! "XBT" = Some r
    ∧ rc_bids r !! "99" = Some "1".
Proof.
  eexists. split.
  - change (fst (KrakenBook.handle_message ["XBT"] demo_kraken_feed kraken_message_text world0))
      with (fst (handle_all (KrakenBook.handle_message ["XBT"]) demo_kraken_feed [kraken_message_text] world0)).
    apply (kraken_book_frozen_after_first_diff ["XBT"] demo_kraken_feed [kraken_message_text] "XBT").
    + vm_compute. reflexivity.
    + discriminate.
    + vm_compute. split; discriminate.
    + intros i Hi. vm_compute in Hi.
      cbv [env_now demo_env env_with Second Millisecond rc_lastSeq]. unfold int64_max. lia.
    + constructor; [vm_compute; right; reflexivity|constructor].
  - vm_compute. reflexivity.
Defined.

Lemma kraken_feed_safe_witness :
  (length (out (fst (handle_all (KrakenBook.handle_message ["XBT"]) (KrakenBook.new_feed ["XBT"]) [kraken_message_text] world0)))
   ≤ channel_size)%nat.
Proof. exact (proj2 (kraken_feed_safe ["XBT"] [kraken_message_text] world0)). Defined.
End Witnesses.
