(* ===== verification/Binance.v ===== *)
(** * internal/adapters/binance: the REST connector

    Signed requests behind the weighted limiter, the mapping of the venue's JSON
    to the shared types, and the synchronisation of the limiter with the weight
    the venue reports. The order book feed is in [BinanceBook]. *)

From S2P Require Export Rest Crypto GoTime.
From S2P Require Import BookFeed.

Module Binance.
Import Weighted.

Record Connector := mkConnector {
  cfg : VenueConfig;
  apiKey : string;
  apiSecret : string;
  limiter : WeightedLimiter;
  nonce : Z;
}.

Definition set_limiter (l : WeightedLimiter) (c : Connector) : Connector :=
  mkConnector (cfg c) (apiKey c) (apiSecret c) l (nonce c).
Definition set_nonce (n : Z) (c : Connector) : Connector :=
  mkConnector (cfg c) (apiKey c) (apiSecret c) (limiter c) n.

(** *** The JSON of the venue *)

Record restError := mkRestError { Code : Z; Msg : string }.

Definition decode_rest_error : decoder restError := decode_struct (λ k j e,
  if key_is "code" k then on_field decode_int64 Code (λ v e, mkRestError v (Msg e)) j e
  else if key_is "msg" k then on_field decode_string Msg (λ v e, mkRestError (Code e) v) j e
  else (e, true)).

Record binanceFill := mkBinanceFill {
  bf_Price : string;
  bf_Qty : string;
  bf_Commission : string;
  bf_CommissionAsset : string;
  bf_TradeID : Z;
}.

Definition zero_fill : binanceFill := mkBinanceFill "" "" "" "" 0.

Definition decode_fill : decoder binanceFill := decode_struct (λ k j f,
  if key_is "price" k then on_field decode_string bf_Price
    (λ v f, mkBinanceFill v (bf_Qty f) (bf_Commission f) (bf_CommissionAsset f) (bf_TradeID f)) j f
  else if key_is "qty" k then on_field decode_string bf_Qty
    (λ v f, mkBinanceFill (bf_Price f) v (bf_Commission f) (bf_CommissionAsset f) (bf_TradeID f)) j f
  else if key_is "commission" k then on_field decode_string bf_Commission
    (λ v f, mkBinanceFill (bf_Price f) (bf_Qty f) v (bf_CommissionAsset f) (bf_TradeID f)) j f
  else if key_is "commissionAsset" k then on_field decode_string bf_CommissionAsset
    (λ v f, mkBinanceFill (bf_Price f) (bf_Qty f) (bf_Commission f) v (bf_TradeID f)) j f
  else if key_is "tradeId" k then on_field decode_int64 bf_TradeID
    (λ v f, mkBinanceFill (bf_Price f) (bf_Qty f) (bf_Commission f) (bf_CommissionAsset f) v) j f
  else (f, true)).

Record placeOrderResp := mkPlaceOrderResp {
  po_OrderID : Z;
  po_ClientOrderID : string;
  po_Status : string;
  po_ExecutedQty : string;
  po_CummulativeQuoteQty : string;
  po_Fills : list binanceFill;
  po_Symbol : string;
}.

Definition zero_place : placeOrderResp := mkPlaceOrderResp 0 "" "" "" "" [] "".

Definition decode_place_order : decoder placeOrderResp := decode_struct (λ k j r,
  let '(mkPlaceOrderResp id cid st ex cq fs sy) := r in
  if key_is "orderId" k then on_field decode_int64 po_OrderID (λ v _, mkPlaceOrderResp v cid st ex cq fs sy) j r
  else if key_is "clientOrderId" k then
    on_field decode_string po_ClientOrderID (λ v _, mkPlaceOrderResp id v st ex cq fs sy) j r
  else if key_is "status" k then on_field decode_string po_Status (λ v _, mkPlaceOrderResp id cid v ex cq fs sy) j r
  else if key_is "executedQty" k then
    on_field decode_string po_ExecutedQty (λ v _, mkPlaceOrderResp id cid st v cq fs sy) j r
  else if key_is "cummulativeQuoteQty" k then
    on_field decode_string po_CummulativeQuoteQty (λ v _, mkPlaceOrderResp id cid st ex v fs sy) j r
  else if key_is "fills" k then
    on_field (decode_list decode_fill zero_fill) po_Fills (λ v _, mkPlaceOrderResp id cid st ex cq v sy) j r
  else if key_is "symbol" k then on_field decode_string po_Symbol (λ v _, mkPlaceOrderResp id cid st ex cq fs v) j r
  else (r, true)).

Record orderResp := mkOrderResp {
  or_OrderID : Z;
  or_ClientOrderID : string;
  or_Status : string;
  or_ExecutedQty : string;
  or_CummulativeQuoteQty : string;
  or_Symbol : string;
}.

Definition zero_order : orderResp := mkOrderResp 0 "" "" "" "" "".

Definition decode_order : decoder orderResp := decode_struct (λ k j r,
  let '(mkOrderResp id cid st ex cq sy) := r in
  if key_is "orderId" k then on_field decode_int64 or_OrderID (λ v _, mkOrderResp v cid st ex cq sy) j r
  else if key_is "clientOrderId" k then
    on_field decode_string or_ClientOrderID (λ v _, mkOrderResp id v st ex cq sy) j r
  else if key_is "status" k then on_field decode_string or_Status (λ v _, mkOrderResp id cid v ex cq sy) j r
  else if key_is "executedQty" k then on_field decode_string or_ExecutedQty (λ v _, mkOrderResp id cid st v cq sy) j r
  else if key_is "cummulativeQuoteQty" k then
    on_field decode_string or_CummulativeQuoteQty (λ v _, mkOrderResp id cid st ex v sy) j r
  else if key_is "symbol" k then on_field decode_string or_Symbol (λ v _, mkOrderResp id cid st ex cq v) j r
  else (r, true)).

(** An entry of [fillsResp.Fills]. *)
Record tradeResp := mkTradeResp {
  tr_TradeID : Z;
  tr_Price : string;
  tr_Qty : string;
  tr_Commission : string;
  tr_CommissionAsset : string;
  tr_Time : Z;
}.

Definition zero_trade : tradeResp := mkTradeResp 0 "" "" "" "" 0.

Definition decode_trade : decoder tradeResp := decode_struct (λ k j r,
  let '(mkTradeResp id p q co ca t) := r in
  if key_is "id" k then on_field decode_int64 tr_TradeID (λ v _, mkTradeResp v p q co ca t) j r
  else if key_is "price" k then on_field decode_string tr_Price (λ v _, mkTradeResp id v q co ca t) j r
  else if key_is "qty" k then on_field decode_string tr_Qty (λ v _, mkTradeResp id p v co ca t) j r
  else if key_is "commission" k then on_field decode_string tr_Commission (λ v _, mkTradeResp id p q v ca t) j r
  else if key_is "commissionAsset" k then
    on_field decode_string tr_CommissionAsset (λ v _, mkTradeResp id p q co v t) j r
  else if key_is "time" k then on_field decode_int64 tr_Time (λ v _, mkTradeResp id p q co ca v) j r
  else (r, true)).

Definition fillsResp := list tradeResp.

Definition decode_fills : decoder fillsResp := decode_struct (λ k j r,
  if key_is "fills" k then decode_list decode_trade zero_trade j r else (r, true)).

(** An entry of [accountResp.Balances]. *)
Record assetResp := mkAssetResp { as_Asset : string; as_Free : string; as_Locked : string }.

Definition decode_asset : decoder assetResp := decode_struct (λ k j r,
  if key_is "asset" k then on_field decode_string as_Asset (λ v r, mkAssetResp v (as_Free r) (as_Locked r)) j r
  else if key_is "free" k then on_field decode_string as_Free (λ v r, mkAssetResp (as_Asset r) v (as_Locked r)) j r
  else if key_is "locked" k then on_field decode_string as_Locked (λ v r, mkAssetResp (as_Asset r) (as_Free r) v) j r
  else (r, true)).

Definition accountResp := list assetResp.

Definition decode_account : decoder accountResp := decode_struct (λ k j r,
  if key_is "balances" k then decode_list decode_asset (mkAssetResp "" "" "") j r else (r, true)).

(** *** Construction *)

Section Ops.
Context `{DD : Decimal} `{E : Env}.

(** [os.Getenv(k)] with a default for the empty value. *)
Definition getenv_or (k d : string) : string :=
  if String.eqb (env_getenv k) "" then d else env_getenv k.

Definition readBudget : Z :=
  let b := env_getenv "RATE_LIMIT_WEIGHT_BUDGET" in
  if String.eqb b "" then 1200 else default 1200 (ParseInt b).

(** [None] is the nil limiter. *)
Definition NewConnector (apiKey apiSecret : string) (limiter : option WeightedLimiter) : IO Connector :=
  l ← match limiter with
      | Some l => mret l
      | None => NewWeightedLimiter "binance" readBudget
      end;
  now ← time_now;
  mret (mkConnector
    (mkVenueConfig "binance" (getenv_or "BINANCE_REST_URL" "https://api.binance.com")
       (getenv_or "BINANCE_WS_URL" "wss://stream.binance.com:9443/ws") ∅)
    apiKey apiSecret l (time_unix_milli now)).

(** *** Signed requests *)

Definition sign (c : Connector) (query : string) : string := hex_encode (hmac_sha256 (apiSecret c) query).

(** The limiter after the header [X-MBX-USED-WEIGHT-1M]. *)
Definition sync_used (l : WeightedLimiter) (h : string) : IO WeightedLimiter :=
  if String.eqb h "" then mret l
  else match ParseInt h with
       | Some used => UpdateUsed l "binance" used
       | None => mret l
       end.

Definition status_error (status : Z) (body : string) : error :=
  let '(re, _) := unmarshal decode_rest_error body (mkRestError 0 "") in
  "binance: status " +:+ FormatInt status +:+ " code " +:+ FormatInt (Code re) +:+ " msg " +:+ Msg re.

(** [do]; the response header it also returns is used by no caller. *)
Definition do (c : Connector) (req : http_request) (weight : Z) : IO (result string * Connector) :=
  '(x, l) ← exchange_once (limiter c) weight req;
  match x with
  | Denied e | Broken e => mret (Fail e, set_limiter l c)
  | Answered status headers body =>
      l ← sync_used l (headers "X-MBX-USED-WEIGHT-1M");
      if (status =? 429) || (status =? 418) then
        l ← Backoff l "binance" (30 * Second);
        mret (Fail (rate_limited "binance" status), set_limiter l c)
      else if 400 <=? status then mret (Fail (status_error status body), set_limiter l c)
      else mret (Ok body, set_limiter l c)
  end.

(** The parameters with what every signed request adds. *)
Definition stamp_params (params : gmap string string) (ts : Z) : gmap string string :=
  <["recvWindow" := "5000"]> (<["timestamp" := FormatInt ts]> params).

Definition signed_request (c : Connector) (method path : string) (params : gmap string string) (ts : Z)
    : http_request :=
  let query := Encode (stamp_params params ts) in
  let full := query +:+ "&signature=" +:+ sign c query in
  mkReq method (cfg_RESTBase (cfg c) +:+ path +:+ "?" +:+ full) [("X-MBX-APIKEY", apiKey c)] "".

Definition doSigned (c : Connector) (method path : string) (params : gmap string string) (weight : Z)
    : IO (result string * Connector) :=
  let c := set_nonce (wrap64 (nonce c + 1)) c in
  let req := signed_request c method path params (nonce c) in
  match env_new_request method (hr_url req) with
  | Some e => mret (Fail e, c)
  | None => do c req weight
  end.

(** *** Mapping *)

Definition mapStatus (s : string) : OrderStatus :=
  let u := ToUpper s in
  if String.eqb u "NEW" then OrderStatusNew
  else if String.eqb u "PARTIALLY_FILLED" || String.eqb u "PARTIALLYFILLED" then OrderStatusPartial
  else if String.eqb u "FILLED" then OrderStatusFilled
  else if String.eqb u "CANCELED" || String.eqb u "CANCELLED" then OrderStatusCanceled
  else s.

Definition normalizeSymbol (s : string) : string := ToUpper s.

Fixpoint map_fills (orderID : Z) (fs : list binanceFill) : IO (list Fill) :=
  match fs with
  | [] => mret []
  | f :: fs =>
      now ← time_now;
      out ← map_fills orderID fs;
      mret (mkFill (FormatInt orderID) (FormatInt (bf_TradeID f)) (dec_parse (bf_Price f))
              (dec_parse (bf_Qty f)) (dec_parse (bf_Commission f)) (bf_CommissionAsset f) now :: out)
  end.

Definition mapOrder (r : placeOrderResp) : IO OrderResponse :=
  let exec := dec_parse (po_ExecutedQty r) in
  let avg := if negb (String.eqb (po_CummulativeQuoteQty r) "") && negb (dec_is_zero exec)
             then dec_div (dec_parse (po_CummulativeQuoteQty r)) exec else dec_zero in
  fills ← map_fills (po_OrderID r) (po_Fills r);
  let avg := match fills with
             | f :: _ => if dec_is_zero avg then fill_Price f else avg
             | [] => avg
             end in
  mret (mkOrderResponse (FormatInt (po_OrderID r)) (po_ClientOrderID r) (mapStatus (po_Status r))
          exec avg fills).

Definition mapOrderSimple (r : orderResp) : OrderResponse :=
  let exec := dec_parse (or_ExecutedQty r) in
  let quote := dec_parse (or_CummulativeQuoteQty r) in
  let avg := if negb (dec_is_zero exec) then dec_div quote exec else dec_zero in
  mkOrderResponse (FormatInt (or_OrderID r)) (or_ClientOrderID r) (mapStatus (or_Status r)) exec avg [].

(** *** The operations of the connector *)

Definition place_params (req : OrderRequest) : gmap string string :=
  let p : gmap string string :=
    <["newClientOrderId" := req_ClientOrderID req]>
      (<["quantity" := dec_string (req_Quantity req)]>
        (<["type" := req_Type req]>
          (<["side" := req_Side req]> {["symbol" := normalizeSymbol (req_Symbol req)]}))) in
  if String.eqb (req_Type req) OrderTypeLimit
  then <["timeInForce" := "GTC"]> (<["price" := dec_string (req_Price req)]> p) else p.

Definition PlaceOrder (c : Connector) (req : OrderRequest) : IO (result OrderResponse * Connector) :=
  if String.eqb (req_ClientOrderID req) "" then mret (Fail "binance: client_order_id required", c) else
  '(r, c) ← doSigned c "POST" "/api/v3/order" (place_params req) 1;
  match r with
  | Fail e => mret (Fail e, c)
  | Ok body =>
      let '(r, ok) := unmarshal decode_place_order body zero_place in
      if negb ok then mret (Fail (env_json_error body), c)
      else o ← mapOrder r; mret (Ok o, c)
  end.

Definition GetOrder (c : Connector) (venueOrderID : string) : IO (result OrderResponse * Connector) :=
  '(r, c) ← doSigned c "GET" "/api/v3/order" {["orderId" := venueOrderID]} 1;
  match r with
  | Fail e => mret (Fail e, c)
  | Ok body =>
      let '(r, ok) := unmarshal decode_order body zero_order in
      if negb ok then mret (Fail (env_json_error body), c)
      else mret (Ok (mapOrderSimple r), c)
  end.

Definition cancel_params (req : CancelRequest) : option (gmap string string) :=
  if negb (String.eqb (cancel_VenueOrderID req) "") then Some {["orderId" := cancel_VenueOrderID req]}
  else if negb (String.eqb (cancel_ClientOrderID req) "")
  then Some {["origClientOrderId" := cancel_ClientOrderID req]}
  else None.

Definition CancelOrder (c : Connector) (req : CancelRequest) : IO (option error * Connector) :=
  match cancel_params req with
  | None => mret (Some "binance: cancel requires venue or client order id", c)
  | Some params =>
      '(r, c) ← doSigned c "DELETE" "/api/v3/order" params 1;
      mret (match r with Fail e => Some e | Ok _ => None end, c)
  end.

Definition fills_params (q : FillQuery) : gmap string string :=
  let p : gmap string string := if String.eqb (query_VenueOrderID q) "" then ∅
    else {["orderId" := query_VenueOrderID q]} in
  let p := if time_is_zero (query_Start q) then p
           else <["startTime" := FormatInt (time_unix_milli (query_Start q))]> p in
  let p := if time_is_zero (query_End q) then p
           else <["endTime" := FormatInt (time_unix_milli (query_End q))]> p in
  <["limit" := if 0 <? query_Limit q then FormatInt (query_Limit q) else "500"]> p.

Definition map_trade (orderID : string) (f : tradeResp) : Fill :=
  mkFill orderID (FormatInt (tr_TradeID f)) (dec_parse (tr_Price f)) (dec_parse (tr_Qty f))
    (dec_parse (tr_Commission f)) (tr_CommissionAsset f) (time_of_unix_milli (tr_Time f)).

Definition GetFills (c : Connector) (query : FillQuery) : IO (result (list Fill) * Connector) :=
  '(r, c) ← doSigned c "GET" "/api/v3/myTrades" (fills_params query) 10;
  match r with
  | Fail e => mret (Fail e, c)
  | Ok body =>
      let '(r, ok) := unmarshal decode_fills body [] in
      if negb ok then mret (Fail (env_json_error body), c)
      else mret (Ok (map (map_trade (query_VenueOrderID query)) r), c)
  end.

Definition add_balance (m : Balances) (b : assetResp) : Balances :=
  <[as_Asset b := mkBalance (as_Asset b) (dec_parse (as_Free b)) (dec_parse (as_Locked b))]> m.

Definition GetBalances (c : Connector) : IO (result Balances * Connector) :=
  '(r, c) ← doSigned c "GET" "/api/v3/account" ∅ 5;
  match r with
  | Fail e => mret (Fail e, c)
  | Ok body =>
      let '(r, ok) := unmarshal decode_account body [] in
      if negb ok then mret (Fail (env_json_error body), c)
      else mret (Ok (foldl add_balance (∅ : Balances) r), c)
  end.

(** The feed and the address of its stream. The goroutine it starts sends the requests
    of [BinanceBook.refreshSnapshot], which carry no signature and pass no limiter. *)
Definition SubscribeBook (c : Connector) (pairs : list string) : result (Feed * string) :=
  BinanceBook.SubscribeBook (cfg_WSBase (cfg c)) pairs.

Definition Config (c : Connector) : VenueConfig := cfg c.

#[global] Instance binance_connector : VenueConnector Connector := {|
  Venue.PlaceOrder := PlaceOrder;
  Venue.CancelOrder := CancelOrder;
  Venue.GetOrder := GetOrder;
  Venue.GetFills := GetFills;
  Venue.GetBalances := GetBalances;
  Venue.SubscribeBook c pairs := mret (failure (SubscribeBook c pairs), c);
|}.

#[global] Instance binance_throttled : Throttled Connector := λ c, backoff (limiter c).

End Ops.

(** *** What every call of the connector does *)
Section Facts.
Context `{DD : Decimal} `{E : Env}.

(** The configuration and the credentials never change. *)
Definition same_identity (c c' : Connector) : Prop :=
  cfg c' = cfg c ∧ apiKey c' = apiKey c ∧ apiSecret c' = apiSecret c.

#[global] Instance same_identity_preorder : PreOrder same_identity.
Proof. split; unfold same_identity; [done|]. intros a b c. intuition congruence. Qed.

Lemma sync_used_frame l h w :
  backoff (fst (sync_used l h w)) = backoff l ∧ budget (fst (sync_used l h w)) = budget l
  ∧ w_ticks (snd (sync_used l h w)) = w_ticks w ∧ http_events (snd (sync_used l h w)) = http_events w.
Proof.
  unfold sync_used. destruct (String.eqb h ""); [done|]. destruct (ParseInt h) as [u|]; [|done].
  unfold UpdateUsed. rewrite bind_run. split_and!; try done. by apply http_events_trace.
Qed.

(** [do] sends at most the request it was given. *)
Lemma do_run c req weight w :
  let '((r, c'), w') := do c req weight w in
  same_identity c c' ∧ nonce c' = nonce c ∧ (w_ticks w ≤ w_ticks w')%nat
  ∧ (http_events w' = http_events w ++ [EvHTTP req] ∨ http_events w' = http_events w ∧ is_ok r = false).
Proof.
  unfold do. rewrite bind_run. pose proof (exchange_http (limiter c) weight req w) as Hh.
  pose proof (exchange_ticks (limiter c) weight req w) as Ht.
  destruct (exchange_once (limiter c) weight req w) as [[x l] w1]. cbn [fst snd] in *.
  destruct x as [e|e|status headers body]; cbn [mret io_ret].
  - rewrite app_nil_r in Hh. split_and!; [done..|by right].
  - split_and!; [done..|by left].
  - rewrite bind_run. destruct (sync_used_frame l (headers "X-MBX-USED-WEIGHT-1M") w1) as (_ & _ & Hs & Hsh).
    destruct (sync_used l (headers "X-MBX-USED-WEIGHT-1M") w1) as [l1 w2]. cbn [fst snd] in *.
    rewrite <- Hsh in Hh.
    destruct ((status =? 429) || (status =? 418)).
    + rewrite bind_run. pose proof (backoff_no_http l1 "binance" (30 * Second) w2) as Hb.
      pose proof (backoff_ticks l1 "binance" (30 * Second) w2) as Hbt. cbn in Hb, Hbt |- *.
      split_and!; try done; [lia|]. left. unfold http_events in *. cbn in *. done.
    + destruct (400 <=? status); cbn; split_and!; try done; try lia; by left.
Qed.

Lemma doSigned_run c method path params weight w :
  let '((r, c'), w') := doSigned c method path params weight w in
  same_identity c c' ∧ nonce c' = wrap64 (nonce c + 1) ∧ (w_ticks w ≤ w_ticks w')%nat
  ∧ (http_events w' = http_events w ++ [EvHTTP (signed_request c method path params (nonce c'))]
     ∨ http_events w' = http_events w ∧ is_ok r = false).
Proof.
  unfold doSigned. cbv zeta. cbn [set_nonce nonce].
  set (c1 := set_nonce (wrap64 (nonce c + 1)) c).
  destruct (env_new_request _ _) as [e|]; [cbn; split_and!; try done; by right|].
  pose proof (do_run c1 (signed_request c1 method path params (wrap64 (nonce c + 1))) weight w) as Hd.
  destruct (do c1 _ weight w) as [[r c'] w']. destruct Hd as (Hi & Hn & Ht & Hh).
  split; [destruct Hi as (? & ? & ?); done|]. split; [done|]. split; [done|].
  destruct Hh as [Hh|Hh]; [left|by right]. rewrite Hh, Hn. done.
Qed.

Lemma map_fills_quiet id fs w :
  (w_ticks w ≤ w_ticks (snd (map_fills id fs w)))%nat
  ∧ w_trace (snd (map_fills id fs w)) = w_trace w.
Proof.
  revert w. induction fs as [|f fs IH]; intros w; [cbn; split; [lia|done]|].
  cbn [map_fills]. rewrite bind_run. cbn [time_now fst snd]. rewrite bind_run.
  destruct (IH (mkWorld (S (w_ticks w)) (w_draws w) (w_trace w))) as [Ht Htr].
  destruct (map_fills id fs _) as [out w1]. cbn in *. split; [lia|done].
Qed.

Lemma mapOrder_quiet r w :
  (w_ticks w ≤ w_ticks (snd (mapOrder r w)))%nat
  ∧ http_events (snd (mapOrder r w)) = http_events w.
Proof.
  unfold mapOrder. rewrite bind_run. destruct (map_fills_quiet (po_OrderID r) (po_Fills r) w) as [Ht Htr].
  destruct (map_fills _ _ w) as [fs w1]. cbn in *. split; [done|]. unfold http_events. by rewrite Htr.
Qed.

(** The request a call stands for: method, path, parameters and weight; [None] for
    a call that is refused before anything is sent. *)
Definition request_of (k : venue_call) : option (string * string * gmap string string * Z) :=
  match k with
  | CallPlaceOrder req =>
      if String.eqb (req_ClientOrderID req) "" then None
      else Some ("POST", "/api/v3/order", place_params req, 1)
  | CallCancelOrder req => (λ p, ("DELETE", "/api/v3/order", p, 1)) <$> cancel_params req
  | CallGetOrder id => Some ("GET", "/api/v3/order", {["orderId" := id]}, 1)
  | CallGetFills q => Some ("GET", "/api/v3/myTrades", fills_params q, 10)
  | CallGetBalances => Some ("GET", "/api/v3/account", ∅, 5)
  end.

(** Closes a branch of a call that is over: nothing more was read or sent. *)
Ltac call_over := eexists _, _; split; [reflexivity|]; split; [cbn; lia|]; split; [done|]; by intros ? [=].

Ltac call_over' := eexists _, _; split; [reflexivity|]; split; [cbn; lia|]; split; [done|]; by intros ? [= <-].

(** A call is [doSigned] of its request, then work that neither hides its failure
    nor touches the connector or the network. *)
Lemma call_doSigned c k w :
  match request_of k with
  | None => ∃ e, call c k w = ((Some e, c), w)
  | Some (method, path, params, weight) =>
      let '((r, c1), w1) := doSigned c method path params weight w in
      ∃ e w', call c k w = ((e, c1), w') ∧ (w_ticks w1 ≤ w_ticks w')%nat
        ∧ http_events w' = http_events w1 ∧ (∀ err, r = Fail err → e = Some err)
  end.
Proof.
  destruct k as [req|req|id|q|]; cbn [request_of call].
  - unfold Venue.PlaceOrder, binance_connector, PlaceOrder.
    destruct (String.eqb (req_ClientOrderID req) ""); [by eexists|]. rewrite !bind_run.
    destruct (doSigned c "POST" "/api/v3/order" (place_params req) 1 w) as [[[body|e] c1] w1];
      cbn [fst snd]; [|call_over'].
    destruct (unmarshal decode_place_order body zero_place) as [r []]; cbn [negb]; [|call_over].
    rewrite !bind_run. destruct (mapOrder_quiet r w1) as [Ht Hh].
    destruct (mapOrder r w1) as [o w2]. eexists _, _. split; [reflexivity|]. split; [done|].
    split; [done|]. by intros ? [=].
  - unfold Venue.CancelOrder, binance_connector, CancelOrder.
    destruct (cancel_params req) as [p|]; cbn [fmap option_fmap option_map]; [|by eexists].
    rewrite bind_run.
    destruct (doSigned c "DELETE" "/api/v3/order" p 1 w) as [[[body|e] c1] w1]; [call_over|call_over'].
  - unfold Venue.GetOrder, binance_connector, GetOrder. rewrite !bind_run.
    destruct (doSigned c "GET" _ _ _ w) as [[[body|e] c1] w1]; cbn [fst snd]; [|call_over'].
    destruct (unmarshal decode_order body zero_order) as [r []]; call_over.
  - unfold Venue.GetFills, binance_connector, GetFills. rewrite !bind_run.
    destruct (doSigned c "GET" _ _ _ w) as [[[body|e] c1] w1]; cbn [fst snd]; [|call_over'].
    destruct (unmarshal decode_fills body []) as [r []]; call_over.
  - unfold Venue.GetBalances, binance_connector, GetBalances. rewrite !bind_run.
    destruct (doSigned c "GET" _ _ _ w) as [[[body|e] c1] w1]; cbn [fst snd]; [|call_over'].
    destruct (unmarshal decode_account body []) as [r []]; call_over.
Qed.


(** Held back, [doSigned] sends nothing. *)
Lemma doSigned_throttled c method path params weight w :
  backoff (limiter c) ≠ zero_time →
  readings_before (backoff (limiter c)) w (snd (doSigned c method path params weight w)) →
  let '((r, c'), w') := doSigned c method path params weight w in
  is_ok r = false ∧ backoff (limiter c') = backoff (limiter c) ∧ http_events w' = http_events w.
Proof.
  intros Hz. unfold doSigned. cbv zeta. cbn [set_nonce nonce].
  destruct (env_new_request _ _) as [e|]; [done|].
  unfold do. change (limiter (set_nonce (wrap64 (nonce c + 1)) c)) with (limiter c).
  rewrite !bind_run. pose proof (exchange_denied (limiter c) weight) as Hd.
  set (req := signed_request _ _ _ _ _). specialize (Hd req w Hz).
  pose proof (exchange_ticks (limiter c) weight req w) as Ht.
  change (readings_before (limiter_until (limiter c)) w (snd (exchange_once (limiter c) weight req w)))
    with (readings_before (backoff (limiter c)) w (snd (exchange_once (limiter c) weight req w))) in Hd.
  destruct (exchange_once (limiter c) weight req w) as [[x l] w1]. cbn [fst snd] in *.
  destruct x as [e|e|status headers body].
  - intros Hr. destruct (Hd Hr) as (_ & Hu & Hh). done.
  - intros Hr. by destruct (Hd Hr) as (? & _).
  - rewrite bind_run. destruct (sync_used_frame l (headers "X-MBX-USED-WEIGHT-1M") w1) as (_ & _ & Hs & _).
    destruct (sync_used l _ w1) as [l1 w2]. cbn [fst snd] in *. intros Hr. exfalso.
    destruct Hd as (Hx & _); [|done]. intros i Hi. apply Hr. revert Hr.
    destruct ((status =? 429) || (status =? 418)).
    + rewrite bind_run. pose proof (backoff_ticks l1 "binance" (30 * Second) w2) as Hb. cbn in Hb |- *.
      lia.
    + destruct (400 <=? status); cbn; lia.
Qed.

#[global] Instance binance_throttled_laws : ThrottledLaws Connector.
Proof.
  split.
  - intros c k w. pose proof (call_doSigned c k w) as H. destruct (request_of k) as [[[[m p] ps] wt]|].
    + pose proof (doSigned_run c m p ps wt w) as Hd. destruct (doSigned c m p ps wt w) as [[r c1] w1].
      destruct H as (e & w' & -> & Ht & _). cbn. destruct Hd as (_ & _ & Hk & _). lia.
    + destruct H as [e ->]. cbn. lia.
  - intros c k w Hz. pose proof (call_doSigned c k w) as H. destruct (request_of k) as [[[[m p] ps] wt]|].
    + pose proof (doSigned_throttled c m p ps wt w Hz) as Hd.
      destruct (doSigned c m p ps wt w) as [[r c1] w1].
      destruct H as (e & w' & -> & Ht & Hh & He). cbn [fst snd] in *. intros Hr.
      destruct Hd as (Hok & Hu & Hh1); [intros i Hi; apply Hr; lia|].
      split; [|split; [done|by rewrite Hh, Hh1]].
      destruct r as [|err]; [done|]. by rewrite (He err).
    + destruct H as [e ->]. done.
Qed.
End Facts.
End Binance.

(** ** Properties *)
Section BinanceFacts.
Import Weighted Binance.
Context `{DD : Decimal} `{E : Env}.





(** C30: A 429 or 418 answer makes the Binance REST call fail, starts a backoff of 30 s
    from its reading of the clock, and until then none of the five REST calls
    (PlaceOrder, CancelOrder, GetOrder, GetFills, GetBalances) sends a request: all
    fail. The snapshot requests of the book feed pass no limiter and are not held
    back (BookFeed.binance_feed_requests_unlimited). *)
Theorem binance_rate_limit_backs_off c req weight w status headers body l w1 ks :
  exchange_once (limiter c) weight req w = ((Answered status headers body, l), w1) →
  status = 429 ∨ status = 418 →
  let '((r, c'), w') := do c req weight w in
  let until := env_now (w_ticks w1) + 30 * Second in
  r = Fail (rate_limited "binance" status)
  ∧ backoff (limiter c') = until
  ∧ (until ≠ zero_time → readings_before until w' (snd (calls c' ks w')) →
     http_events (snd (calls c' ks w')) = http_events w'
     ∧ Forall (λ e, e ≠ None) (fst (fst (calls c' ks w')))).
Proof.
  intros Hx Hst. destruct (do c req weight w) as [[r c'] w'] eqn:Hdo. cbv zeta.
  assert (r = Fail (rate_limited "binance" status)
          ∧ backoff (limiter c') = env_now (w_ticks w1) + 30 * Second) as [Hr Hb].
  { unfold do in Hdo. rewrite bind_run, Hx in Hdo. cbn [fst snd] in Hdo. rewrite bind_run in Hdo.
    destruct (sync_used_frame l (headers "X-MBX-USED-WEIGHT-1M") w1) as (_ & _ & Ht & _).
    destruct (sync_used l (headers "X-MBX-USED-WEIGHT-1M") w1) as [l1 w2]. cbn [fst snd] in *.
    replace ((status =? 429) || (status =? 418)) with true in Hdo by lia.
    rewrite bind_run in Hdo. pose proof (backoff_until l1 "binance" (30 * Second) w2) as Hu.
    cbn in Hu, Hdo. injection Hdo as <- <- <-. split; [done|]. cbn. unfold time_add. by rewrite Ht. }
  split; [done|]. split; [done|]. rewrite <- Hb. exact (calls_throttled c' ks w').
Qed.

(** The used weight the venue reports replaces the one the limiter counted. *)
Theorem binance_used_weight_synced c req weight w status headers body l w1 used :
  exchange_once (limiter c) weight req w = ((Answered status headers body, l), w1) →
  ParseInt (headers "X-MBX-USED-WEIGHT-1M") = Some used →
  let '((_, c'), _) := do c req weight w in
  Used (limiter c') = used ∧ Budget (limiter c') = Budget l.
Proof.
  intros Hx Hp. unfold do. rewrite bind_run, Hx. cbn [fst snd]. rewrite bind_run. unfold sync_used.
  destruct (String.eqb_spec (headers "X-MBX-USED-WEIGHT-1M") "") as [He|He]; [by rewrite He in Hp|].
  rewrite Hp. unfold UpdateUsed. rewrite bind_run. cbn [fst snd mret io_ret].
  destruct ((status =? 429) || (status =? 418)); [done|]. by destruct (400 <=? status).
Qed.

(** The status of an order, as the four canonical ones are named by the venue. *)
Lemma map_status_canonical s :
  mapStatus s ∈ [OrderStatusNew; OrderStatusPartial; OrderStatusFilled; OrderStatusCanceled]
  ∨ mapStatus s = s.
Proof.
  unfold mapStatus. cbv zeta. repeat case_match; (by right) || (left; set_solver).
Qed.

(** When Binance PlaceOrder succeeds, the request had a client order id, exactly the
    signed POST of its parameters was made, and the order returned is the decoded
    answer: ids, mapped status, executed quantity, and one fill per fill of the
    answer with its numbers. *)
Theorem binance_place_order_result c req w r c' w' :
  PlaceOrder c req w = ((Ok r, c'), w') →
  req_ClientOrderID req ≠ ""
  ∧ ∃ body p w1, doSigned c "POST" "/api/v3/order" (place_params req) 1 w = ((Ok body, c'), w1)
  ∧ unmarshal decode_place_order body zero_place = (p, true)
  ∧ resp_VenueOrderID r = FormatInt (po_OrderID p) ∧ resp_ClientOrderID r = po_ClientOrderID p
  ∧ resp_Status r = mapStatus (po_Status p) ∧ resp_FilledQty r = dec_parse (po_ExecutedQty p)
  ∧ length (resp_Fills r) = length (po_Fills p)
  ∧ (∀ i f, resp_Fills r !! i = Some f → ∃ b, po_Fills p !! i = Some b
       ∧ fill_VenueOrderID f = resp_VenueOrderID r ∧ fill_TradeID f = FormatInt (bf_TradeID b)
       ∧ fill_Price f = dec_parse (bf_Price b) ∧ fill_Quantity f = dec_parse (bf_Qty b)
       ∧ fill_Fee f = dec_parse (bf_Commission b) ∧ fill_FeeAsset f = bf_CommissionAsset b).
Proof.
  unfold PlaceOrder. destruct (String.eqb_spec (req_ClientOrderID req) "") as [|Hne]; [done|].
  rewrite bind_run.
  destruct (doSigned c "POST" "/api/v3/order" (place_params req) 1 w) as [[[body|e] c1] w1] eqn:Hds;
    cbn [fst snd]; [|done].
  destruct (unmarshal decode_place_order body zero_place) as [p []] eqn:Hu; cbn [negb]; [|done].
  rewrite bind_run. intros H. split; [done|]. exists body, p, w1.
  assert (∀ fs w0, length (fst (map_fills (po_OrderID p) fs w0)) = length fs
    ∧ ∀ i f, fst (map_fills (po_OrderID p) fs w0) !! i = Some f → ∃ b, fs !! i = Some b
      ∧ fill_VenueOrderID f = FormatInt (po_OrderID p) ∧ fill_TradeID f = FormatInt (bf_TradeID b)
      ∧ fill_Price f = dec_parse (bf_Price b) ∧ fill_Quantity f = dec_parse (bf_Qty b)
      ∧ fill_Fee f = dec_parse (bf_Commission b) ∧ fill_FeeAsset f = bf_CommissionAsset b) as Hm.
  { induction fs as [|b fs IH]; intros w0; [done|]. cbn [map_fills]. rewrite bind_run.
    cbn [time_now fst snd]. rewrite bind_run.
    destruct (IH (mkWorld (S (w_ticks w0)) (w_draws w0) (w_trace w0))) as [Hl Hi].
    destruct (map_fills (po_OrderID p) fs _) as [out w2]. cbn [fst snd mret io_ret length] in *.
    split; [by rewrite Hl|]. intros [|i] f Hf; [|by apply Hi]. cbn in Hf. injection Hf as <-. by exists b. }
  specialize (Hm (po_Fills p) w1). unfold mapOrder in H. rewrite bind_run in H.
  destruct (map_fills (po_OrderID p) (po_Fills p) w1) as [out w2]. cbn [fst snd mret io_ret] in *.
  injection H as <- <- <-. by split_and!; try apply Hm.
Qed.
End BinanceFacts.

(** ** Witnesses *)
Section Witnesses.
Import Weighted Binance.
#[local] Existing Instance fixed_decimal.

(** The venue answers every request with [status] and [body], reporting 17 used. *)
Definition answering (status : Z) (body : string) : Env :=
  env_with (λ _, HTTPResp status
              (λ h, if String.eqb h "X-MBX-USED-WEIGHT-1M" then "17" else "") body)
    (λ _, None) (λ _, "").

Definition demo_binance : Connector :=
  mkConnector (mkVenueConfig "binance" "https://b" "wss://b" ∅) "key" "secret"
    (Weighted.mk "binance" 1200 0 (60 * Second) (1700000000 * Second) zero_time) 5.

Definition demo_order : OrderRequest :=
  mkOrderRequest "c-1" "btcusdt" SideBuy OrderTypeMarket (Fx 2 0) (Fx 0 0).

Definition filled_body : string :=
  jtext "{'orderId': 7, 'clientOrderId': 'c-1', 'status': 'FILLED', 'executedQty': '2',
          'cummulativeQuoteQty': '10', 'fills': [{'price': '5', 'qty': '2', 'tradeId': 3}]}".

Section Filled.
#[local] Instance filled_env : Env := answering 200 filled_body.

End Filled.

Definition demo_request : http_request := mkReq "GET" "https://b/api/v3/order" [] "".

Section Limited.
#[local] Instance limited_env : Env := answering 429 "".

Lemma binance_rate_limit_backs_off_witness :
  let '((r, c'), w') := do demo_binance demo_request 1 world0 in
  is_ok r = false
  ∧ http_events (snd (calls c' [CallGetBalances; CallGetOrder "7"] w'))
    = http_events w'.
Proof.
  destruct (exchange_once (limiter demo_binance) 1 demo_request world0)
    as [[x l] w1] eqn:Hx.
  pose proof Hx as Hx'. vm_compute in Hx'. injection Hx' as <- <- <-.
  pose proof (binance_rate_limit_backs_off demo_binance demo_request 1 world0
    429 _ _ _ _ [CallGetBalances; CallGetOrder "7"] Hx ltac:(by left)) as H.
  destruct (do demo_binance demo_request 1 world0) as [[r c'] w'] eqn:Hdo.
  vm_compute in Hdo. injection Hdo as <- <- <-.
  destruct H as (H1 & _ & H3). split; [by rewrite H1|]. apply H3.
  - vm_compute. discriminate.
  - intros i Hi. vm_compute in Hi.
    cbv [env_now limited_env answering env_with w_ticks Second Millisecond]. lia.
Defined.
End Limited.

Section Empty.
#[local] Instance empty_env : Env := answering 200 "{}".

Lemma binance_used_weight_synced_witness :
  let '((_, c'), _) := do demo_binance demo_request 1 world0 in
  Used (limiter c') = 17.
Proof.
  destruct (exchange_once (limiter demo_binance) 1 demo_request world0)
    as [[x l] w1] eqn:Hx.
  pose proof Hx as Hx'. vm_compute in Hx'. injection Hx' as <- <- <-.
  pose proof (binance_used_weight_synced demo_binance demo_request 1 world0
    200 _ _ _ _ 17 Hx ltac:(vm_compute; reflexivity)) as H.
  destruct (do demo_binance demo_request 1 world0) as [[r c'] w'].
  apply H.
Defined.
End Empty.

Section Placed.
#[local] Instance placed_env : Env := answering 200 filled_body.

Lemma binance_place_order_result_witness :
  ∃ r c' w', PlaceOrder demo_binance demo_order world0
             = ((Ok r, c'), w')
    ∧ ∃ p, resp_VenueOrderID r = FormatInt (po_OrderID p) ∧ resp_Status r = mapStatus (po_Status p).
Proof.
  assert (is_ok (fst (fst (PlaceOrder demo_binance demo_order world0))) = true) as Hok
    by (vm_compute; reflexivity).
  destruct (PlaceOrder demo_binance demo_order world0) as [[[r|e] c'] w'] eqn:H; [|discriminate Hok].
  exists r, c', w'. split; [reflexivity|].
  destruct (binance_place_order_result _ _ _ _ _ _ H)
    as (_ & body & p & w1 & _ & _ & H1 & _ & H2 & _).
  exists p. split; [exact H1|exact H2].
Defined.
End Placed.
End Witnesses.
