(* ===== verification/Kraken.v ===== *)
(** * internal/adapters/kraken: the REST connector

    Private requests with a nonce and an HMAC-SHA512 signature behind the counter
    limiter, the response envelope, and the mapping to the shared types. The order
    book feed is in [BookFeed]. *)

From S2P Require Export Rest Crypto GoTime.
From S2P Require Import BookFeed.

Module Kraken.
Import Counter.

Record Connector := mkConnector {
  cfg : VenueConfig;
  apiKey : string;
  apiSecret : string;
  limiter : CounterLimiter;
  nonce : Z;      (** a [uint64] *)
}.

Definition set_limiter (l : CounterLimiter) (c : Connector) : Connector :=
  mkConnector (cfg c) (apiKey c) (apiSecret c) l (nonce c).

(** *** The JSON of the venue *)

Record envelope := mkEnvelope { Error : list string; Result : raw_message }.

Definition decode_envelope : decoder envelope := decode_struct (λ k j e,
  if key_is "error" k then on_field (decode_list decode_string "") Error (λ v e, mkEnvelope v (Result e)) j e
  else if key_is "result" k then on_field decode_raw Result (λ v e, mkEnvelope (Error e) v) j e
  else (e, true)).

Definition addOrderResp := list string.

Definition decode_add_order : decoder addOrderResp := decode_struct (λ k j r,
  if key_is "txid" k then decode_list decode_string "" j r else (r, true)).

Record krakenOrder := mkKrakenOrder {
  ko_Status : string;
  ko_Vol : string;
  ko_VolExec : string;
  ko_Price : string;
  ko_UserRef : string;
}.

Definition zero_order : krakenOrder := mkKrakenOrder "" "" "" "" "".

Definition decode_order : decoder krakenOrder := decode_struct (λ k j o,
  let '(mkKrakenOrder st v x p u) := o in
  if key_is "status" k then on_field decode_string ko_Status (λ s _, mkKrakenOrder s v x p u) j o
  else if key_is "vol" k then on_field decode_string ko_Vol (λ s _, mkKrakenOrder st s x p u) j o
  else if key_is "vol_exec" k then on_field decode_string ko_VolExec (λ s _, mkKrakenOrder st v s p u) j o
  else if key_is "price" k then on_field decode_string ko_Price (λ s _, mkKrakenOrder st v x s u) j o
  else if key_is "userref" k then on_field decode_string ko_UserRef (λ s _, mkKrakenOrder st v x p s) j o
  else (o, true)).

Record tradeEntry := mkTradeEntry {
  te_OrderTxID : string;
  te_Pair : string;
  te_Time : float64;
  te_Type : string;
  te_Price : string;
  te_Vol : string;
  te_Fee : string;
  te_FeeAsset : string;
}.

Definition zero_trade : tradeEntry := mkTradeEntry "" "" f64_zero "" "" "" "" "".

Definition decode_trade : decoder tradeEntry := decode_struct (λ k j r,
  let '(mkTradeEntry o pa t ty p v f fa) := r in
  if key_is "ordertxid" k then on_field decode_string te_OrderTxID (λ s _, mkTradeEntry s pa t ty p v f fa) j r
  else if key_is "pair" k then on_field decode_string te_Pair (λ s _, mkTradeEntry o s t ty p v f fa) j r
  else if key_is "time" k then on_field decode_float te_Time (λ s _, mkTradeEntry o pa s ty p v f fa) j r
  else if key_is "type" k then on_field decode_string te_Type (λ s _, mkTradeEntry o pa t s p v f fa) j r
  else if key_is "price" k then on_field decode_string te_Price (λ s _, mkTradeEntry o pa t ty s v f fa) j r
  else if key_is "vol" k then on_field decode_string te_Vol (λ s _, mkTradeEntry o pa t ty p s f fa) j r
  else if key_is "fee" k then on_field decode_string te_Fee (λ s _, mkTradeEntry o pa t ty p v s fa) j r
  else if key_is "fee_currency" k then on_field decode_string te_FeeAsset (λ s _, mkTradeEntry o pa t ty p v f s) j r
  else (r, true)).

(** An entry of [balanceResp]. *)
Record assetBalance := mkAssetBalance { ab_Available : string; ab_Balance : string }.

Definition decode_asset : decoder assetBalance := decode_struct (λ k j b,
  if key_is "available" k then on_field decode_string ab_Available (λ v b, mkAssetBalance v (ab_Balance b)) j b
  else if key_is "balance" k then on_field decode_string ab_Balance (λ v b, mkAssetBalance (ab_Available b) v) j b
  else (b, true)).

(** *** Construction *)

Section Ops.
Context `{DD : Decimal} `{E : Env}.

Definition getenv_or (k d : string) : string :=
  if String.eqb (env_getenv k) "" then d else env_getenv k.

(** [None] is the nil limiter; the nonce is [uint64(UnixNano) / 1_000_000]. *)
Definition NewConnector (apiKey apiSecret : string) (limiter : option CounterLimiter) : IO Connector :=
  l ← match limiter with Some l => mret l | None => NewCounterLimiter "kraken" 20 end;
  now ← time_now;
  mret (mkConnector
    (mkVenueConfig "kraken" (getenv_or "KRAKEN_REST_URL" "https://api.kraken.com")
       (getenv_or "KRAKEN_WS_URL" "wss://ws.kraken.com") ∅)
    apiKey apiSecret l (uwrap64 (time_unix_nano now) / 1000000)).

(** *** Private requests *)

(** The counter [nextNonce] leaves; the text of the nonce is its decimal form. *)
Definition nextNonce (c : Connector) : string * Connector :=
  let n := uwrap64 (nonce c + 1) in
  (FormatInt n, mkConnector (cfg c) (apiKey c) (apiSecret c) (limiter c) n).

(** An undecodable secret leaves the bytes decoded before the error. *)
Definition sign (c : Connector) (path nonce postData : string) : string :=
  let hash := sha256 (nonce +:+ postData) in
  let secret := fst (std_decode (apiSecret c)) in
  std_encode (hmac_sha512 secret (path +:+ hash)).

(** The same with the secret as an argument. *)
Definition signExample (secret path nonce postData : string) : string :=
  let hash := sha256 (nonce +:+ postData) in
  let sec := fst (std_decode secret) in
  std_encode (hmac_sha512 sec (path +:+ hash)).

Definition do (c : Connector) (req : http_request) (cost : Z) : IO (result raw_message * Connector) :=
  '(x, l) ← exchange_once (limiter c) cost req;
  match x with
  | Denied e | Broken e => mret (Fail e, set_limiter l c)
  | Answered status headers body =>
      if (status =? 429) || (status =? 418) then
        l ← Backoff l "kraken" (30 * Second);
        mret (Fail (rate_limited "kraken" status), set_limiter l c)
      else if 400 <=? status then
        mret (Fail ("kraken: status " +:+ FormatInt status +:+ " body " +:+ body), set_limiter l c)
      else
        let '(env, ok) := unmarshal decode_envelope body (mkEnvelope [] None) in
        if negb ok then mret (Fail ("kraken: bad json: " +:+ env_json_error body), set_limiter l c)
        else match Error env with
        | _ :: _ => mret (Fail ("kraken: " +:+ Join (Error env) "; "), set_limiter l c)
        | [] => mret (Ok (Result env), set_limiter l c)
        end
  end.

Definition private_request (c : Connector) (path : string) (params : gmap string string) (n : string)
    : http_request :=
  let postData := Encode (<["nonce" := n]> params) in
  mkReq "POST" (cfg_RESTBase (cfg c) +:+ path)
    [("API-Key", apiKey c); ("API-Sign", sign c path n postData);
     ("Content-Type", "application/x-www-form-urlencoded")] postData.

Definition doPrivate (c : Connector) (path : string) (params : gmap string string) (cost : Z)
    : IO (result raw_message * Connector) :=
  let '(n, c) := nextNonce c in
  let req := private_request c path params n in
  match env_new_request "POST" (hr_url req) with
  | Some e => mret (Fail e, c)
  | None => do c req cost
  end.

(** *** The operations of the connector *)

(** The error of [json.Unmarshal] on the result of a response. *)
Definition result_error (r : raw_message) : error :=
  env_json_error (match r with Some j => raw_of j | None => "" end).

Definition normalizePair (s : string) : string := s.

Definition place_params (req : OrderRequest) : gmap string string :=
  let p : gmap string string := <["type" := req_Side req]> {["pair" := normalizePair (req_Symbol req)]} in
  let p := if String.eqb (req_Type req) OrderTypeMarket then <["ordertype" := "market"]> p
           else <["price" := dec_string (req_Price req)]> (<["ordertype" := "limit"]> p) in
  <["userref" := req_ClientOrderID req]> (<["volume" := dec_string (req_Quantity req)]> p).

Definition PlaceOrder (c : Connector) (req : OrderRequest) : IO (result OrderResponse * Connector) :=
  if String.eqb (req_ClientOrderID req) "" then mret (Fail "kraken: client_order_id required", c) else
  '(r, c) ← doPrivate c "/0/private/AddOrder" (place_params req) 6;
  match r with
  | Fail e => mret (Fail e, c)
  | Ok body =>
      let '(txids, ok) := unmarshal_raw decode_add_order body [] in
      if negb ok then mret (Fail (result_error body), c)
      else match txids with
      | [] => mret (Fail "kraken: no txid", c)
      | id :: _ => mret (Ok (mkOrderResponse id (req_ClientOrderID req) OrderStatusNew dec_zero dec_zero []), c)
      end
  end.

Definition order_status (status : string) (exec vol : D) : OrderStatus :=
  let s := ToLower status in
  if String.eqb s "pending" then OrderStatusNew
  else if String.eqb s "open" then OrderStatusNew
  else if String.eqb s "closed" then
    if dec_eqb exec vol then OrderStatusFilled
    else if dec_gtb exec dec_zero then OrderStatusPartial
    else OrderStatusCanceled
  else if String.eqb s "canceled" || String.eqb s "cancelled" then OrderStatusCanceled
  else OrderStatusNew.

Definition mapOrder (id : string) (o : krakenOrder) : OrderResponse :=
  let exec := dec_parse (ko_VolExec o) in
  let vol := dec_parse (ko_Vol o) in
  let price := dec_parse (ko_Price o) in
  let avg := if negb (dec_is_zero exec) then price else dec_zero in
  mkOrderResponse id (ko_UserRef o) (order_status (ko_Status o) exec vol) exec avg [].

Definition GetOrder (c : Connector) (venueOrderID : string) : IO (result OrderResponse * Connector) :=
  '(r, c) ← doPrivate c "/0/private/QueryOrders" {["txid" := venueOrderID]} 2;
  match r with
  | Fail e => mret (Fail e, c)
  | Ok body =>
      let '(m, ok) := unmarshal_raw (decode_map decode_order zero_order) body ∅ in
      if negb ok then mret (Fail (result_error body), c)
      else match m !! venueOrderID with
      | None => mret (Fail "kraken: order not found", c)
      | Some o => mret (Ok (mapOrder venueOrderID o), c)
      end
  end.

Definition cancel_params (req : CancelRequest) : option (gmap string string) :=
  if negb (String.eqb (cancel_VenueOrderID req) "") then Some {["txid" := cancel_VenueOrderID req]}
  else if negb (String.eqb (cancel_ClientOrderID req) "")
  then Some {["userref" := cancel_ClientOrderID req]}
  else None.

Definition CancelOrder (c : Connector) (req : CancelRequest) : IO (option error * Connector) :=
  match cancel_params req with
  | None => mret (Some "kraken: cancel requires venue or client order id", c)
  | Some params =>
      '(r, c) ← doPrivate c "/0/private/CancelOrder" params 6;
      mret (match r with Fail e => Some e | Ok _ => None end, c)
  end.

Definition fills_params (q : FillQuery) : gmap string string :=
  let p : gmap string string := if String.eqb (query_VenueOrderID q) "" then ∅
    else {["txid" := query_VenueOrderID q]} in
  let p := if time_is_zero (query_Start q) then p
           else <["start" := FormatInt (time_unix (query_Start q))]> p in
  if time_is_zero (query_End q) then p
  else <["end" := FormatInt (time_unix (query_End q))]> p.

Definition map_trade (e : string * tradeEntry) : Fill :=
  let '(id, tr) := e in
  mkFill (te_OrderTxID tr) id (dec_parse (te_Price tr)) (dec_parse (te_Vol tr)) (dec_parse (te_Fee tr))
    (te_FeeAsset tr) (time_of_unix (f64_to_int64 (te_Time tr))).

Definition GetFills (c : Connector) (query : FillQuery) : IO (result (list Fill) * Connector) :=
  '(r, c) ← doPrivate c "/0/private/QueryTrades" (fills_params query) 2;
  match r with
  | Fail e => mret (Fail e, c)
  | Ok body =>
      let '(m, ok) := unmarshal_raw (decode_map decode_trade zero_trade) body ∅ in
      if negb ok then mret (Fail (result_error body), c)
      else
        entries ← range_map m;
        mret (Ok (apply_limit (query_Limit query) (map map_trade entries)), c)
  end.

(** The amount that is not available, at least 0. *)
Definition locked_amount (b : assetBalance) : D :=
  let locked := dec_sub (dec_parse (ab_Balance b)) (dec_parse (ab_Available b)) in
  if dec_ltb locked dec_zero then dec_zero else locked.

Definition map_balance (asset : string) (b : assetBalance) : Balance :=
  mkBalance asset (dec_parse (ab_Available b)) (locked_amount b).

(** Each asset of the response is visited once, in whatever order. *)
Definition GetBalances (c : Connector) : IO (result Balances * Connector) :=
  '(r, c) ← doPrivate c "/0/private/Balance" ∅ 2;
  match r with
  | Fail e => mret (Fail e, c)
  | Ok body =>
      let '(m, ok) := unmarshal_raw (decode_map decode_asset (mkAssetBalance "" "")) body ∅ in
      if negb ok then mret (Fail (result_error body), c)
      else mret (Ok (map_imap (λ asset b, Some (map_balance asset b)) m), c)
  end.

Definition SubscribeBook (c : Connector) (pairs : list string) : result (Feed * string * jvalue) :=
  KrakenBook.SubscribeBook (cfg_WSBase (cfg c)) pairs.

Definition Config (c : Connector) : VenueConfig := cfg c.

#[global] Instance kraken_connector : VenueConnector Connector := {|
  Venue.PlaceOrder := PlaceOrder;
  Venue.CancelOrder := CancelOrder;
  Venue.GetOrder := GetOrder;
  Venue.GetFills := GetFills;
  Venue.GetBalances := GetBalances;
  Venue.SubscribeBook c pairs := mret (failure (SubscribeBook c pairs), c);
|}.

#[global] Instance kraken_throttled : Throttled Connector := λ c, backoff (limiter c).

End Ops.

(** *** What every call of the connector does *)
Section Facts.
Context `{DD : Decimal} `{E : Env}.

Definition same_identity (c c' : Connector) : Prop :=
  cfg c' = cfg c ∧ apiKey c' = apiKey c ∧ apiSecret c' = apiSecret c.

#[global] Instance same_identity_preorder : PreOrder same_identity.
Proof. split; unfold same_identity; [done|]. intros a b c. intuition congruence. Qed.

(** [do] changes nothing but the limiter, and sends at most the request it was given. *)
Lemma kraken_do_run c req cost w :
  let '((r, c'), w') := do c req cost w in
  (∃ l, c' = set_limiter l c) ∧ (w_ticks w ≤ w_ticks w')%nat
  ∧ (http_events w' = http_events w ++ [EvHTTP req] ∨ http_events w' = http_events w ∧ is_ok r = false).
Proof.
  unfold do. rewrite bind_run. pose proof (exchange_http (limiter c) cost req w) as Hh.
  pose proof (exchange_ticks (limiter c) cost req w) as Ht.
  destruct (exchange_once (limiter c) cost req w) as [[x l] w1]. cbn [fst snd] in *.
  destruct x as [e|e|status headers body]; cbn [mret io_ret].
  - rewrite app_nil_r in Hh. split_and!; [by eexists|done|by right].
  - split_and!; [by eexists|done|by left].
  - destruct ((status =? 429) || (status =? 418)).
    + rewrite bind_run. pose proof (backoff_no_http l "kraken" (30 * Second) w1) as Hb.
      pose proof (backoff_ticks l "kraken" (30 * Second) w1) as Hbt. cbn in Hb, Hbt |- *.
      split_and!; [by eexists|lia|]. left. unfold http_events in *. done.
    + destruct (400 <=? status); [cbn; split_and!; [by eexists|done|by left]|].
      destruct (unmarshal decode_envelope body _) as [env []]; cbn [negb];
        [|cbn; split_and!; [by eexists|done|by left]].
      destruct (Error env); cbn; (split_and!; [by eexists|done|by left]).
Qed.

Lemma doPrivate_run c path params cost w :
  let '((r, c'), w') := doPrivate c path params cost w in
  same_identity c c' ∧ nonce c' = uwrap64 (nonce c + 1) ∧ (w_ticks w ≤ w_ticks w')%nat
  ∧ (http_events w' = http_events w ++ [EvHTTP (private_request c path params (FormatInt (nonce c')))]
     ∨ http_events w' = http_events w ∧ is_ok r = false).
Proof.
  unfold doPrivate, nextNonce. cbv zeta.
  set (c1 := mkConnector (cfg c) (apiKey c) (apiSecret c) (limiter c) (uwrap64 (nonce c + 1))).
  destruct (env_new_request _ _) as [e|]; [cbn; split_and!; try done; by right|].
  pose proof (kraken_do_run c1 (private_request c1 path params (FormatInt (uwrap64 (nonce c + 1)))) cost w) as Hd.
  destruct (do c1 _ cost w) as [[r c'] w']. destruct Hd as ([l ->] & Ht & Hh).
  split; [done|]. split; [done|]. split; [done|].
  destruct Hh as [Hh|Hh]; [left|by right]. exact Hh.
Qed.

(** The request a call stands for: path, parameters and cost. *)
Definition request_of (k : venue_call) : option (string * gmap string string * Z) :=
  match k with
  | CallPlaceOrder req =>
      if String.eqb (req_ClientOrderID req) "" then None
      else Some ("/0/private/AddOrder", place_params req, 6)
  | CallCancelOrder req => (λ p, ("/0/private/CancelOrder", p, 6)) <$> cancel_params req
  | CallGetOrder id => Some ("/0/private/QueryOrders", {["txid" := id]}, 2)
  | CallGetFills q => Some ("/0/private/QueryTrades", fills_params q, 2)
  | CallGetBalances => Some ("/0/private/Balance", ∅, 2)
  end.

(** Closes a branch of a call that is over: nothing more was read or sent. *)
Ltac call_over := eexists _, _; split; [reflexivity|]; split; [cbn; lia|]; split; [done|]; by intros ? [=].
Ltac call_over' := eexists _, _; split; [reflexivity|]; split; [cbn; lia|]; split; [done|]; by intros ? [= <-].

(** A call is [doPrivate] of its request, then work that neither hides its failure
    nor touches the connector or the network. *)
Lemma call_doPrivate c k w :
  match request_of k with
  | None => ∃ e, call c k w = ((Some e, c), w)
  | Some (path, params, cost) =>
      let '((r, c1), w1) := doPrivate c path params cost w in
      ∃ e w', call c k w = ((e, c1), w') ∧ (w_ticks w1 ≤ w_ticks w')%nat
        ∧ http_events w' = http_events w1 ∧ (∀ err, r = Fail err → e = Some err)
  end.
Proof.
  destruct k as [req|req|id|q|]; cbn [request_of call].
  - unfold Venue.PlaceOrder, kraken_connector, PlaceOrder.
    destruct (String.eqb (req_ClientOrderID req) ""); [by eexists|]. rewrite !bind_run.
    destruct (doPrivate c "/0/private/AddOrder" _ 6 w) as [[[body|e] c1] w1]; cbn [fst snd]; [|call_over'].
    destruct (unmarshal_raw decode_add_order body []) as [[|id txids] []]; call_over.
  - unfold Venue.CancelOrder, kraken_connector, CancelOrder.
    destruct (cancel_params req) as [p|]; cbn [fmap option_fmap option_map]; [|by eexists].
    rewrite bind_run.
    destruct (doPrivate c "/0/private/CancelOrder" p 6 w) as [[[body|e] c1] w1]; [call_over|call_over'].
  - unfold Venue.GetOrder, kraken_connector, GetOrder. rewrite !bind_run.
    destruct (doPrivate c _ _ _ w) as [[[body|e] c1] w1]; cbn [fst snd]; [|call_over'].
    destruct (unmarshal_raw _ body ∅) as [m []]; cbn [negb]; [|call_over].
    destruct (m !! id); call_over.
  - unfold Venue.GetFills, kraken_connector, GetFills. rewrite !bind_run.
    destruct (doPrivate c _ _ _ w) as [[[body|e] c1] w1]; cbn [fst snd]; [|call_over'].
    destruct (unmarshal_raw _ body ∅) as [m []]; cbn [negb]; [|call_over].
    rewrite !bind_run. call_over.
  - unfold Venue.GetBalances, kraken_connector, GetBalances. rewrite !bind_run.
    destruct (doPrivate c _ _ _ w) as [[[body|e] c1] w1]; cbn [fst snd]; [|call_over'].
    destruct (unmarshal_raw _ body ∅) as [m []]; call_over.
Qed.

Lemma private_request_identity c c' p ps n :
  same_identity c c' → private_request c' p ps n = private_request c p ps n.
Proof. intros (H1 & H2 & H3). unfold private_request, sign. by rewrite H1, H2, H3. Qed.

(** Held back, [doPrivate] sends nothing. *)
Lemma doPrivate_throttled c path params cost w :
  backoff (limiter c) ≠ zero_time →
  readings_before (backoff (limiter c)) w (snd (doPrivate c path params cost w)) →
  let '((r, c'), w') := doPrivate c path params cost w in
  is_ok r = false ∧ backoff (limiter c') = backoff (limiter c) ∧ http_events w' = http_events w.
Proof.
  intros Hz. unfold doPrivate, nextNonce. cbv zeta.
  destruct (env_new_request _ _) as [e|]; [done|]. unfold do. cbn [limiter].
  rewrite !bind_run. set (req := private_request _ _ _ _).
  pose proof (exchange_denied (limiter c) cost req w Hz) as Hd.
  change (readings_before (limiter_until (limiter c)) w (snd (exchange_once (limiter c) cost req w)))
    with (readings_before (backoff (limiter c)) w (snd (exchange_once (limiter c) cost req w))) in Hd.
  destruct (exchange_once (limiter c) cost req w) as [[x l] w1]. cbn [fst snd] in *.
  destruct x as [e|e|status headers body].
  - intros Hr. destruct (Hd Hr) as (_ & Hu & Hh). done.
  - intros Hr. by destruct (Hd Hr) as (? & _).
  - intros Hr. exfalso. destruct Hd as (Hx & _); [|done]. intros i Hi. apply Hr. revert Hr.
    destruct ((status =? 429) || (status =? 418)).
    + rewrite bind_run. pose proof (backoff_ticks l "kraken" (30 * Second) w1) as Hb. cbn in Hb |- *. lia.
    + destruct (400 <=? status); [cbn; lia|].
      destruct (unmarshal decode_envelope body _) as [env []]; cbn [negb]; [|cbn; lia].
      destruct (Error env); cbn; lia.
Qed.

#[global] Instance kraken_throttled_laws : ThrottledLaws Connector.
Proof.
  split.
  - intros c k w. pose proof (call_doPrivate c k w) as H. destruct (request_of k) as [[[p ps] ct]|].
    + pose proof (doPrivate_run c p ps ct w) as Hd. destruct (doPrivate c p ps ct w) as [[r c1] w1].
      destruct H as (e & w' & -> & Ht & _). cbn. destruct Hd as (_ & _ & Hk & _). lia.
    + destruct H as [e ->]. cbn. lia.
  - intros c k w Hz. pose proof (call_doPrivate c k w) as H. destruct (request_of k) as [[[p ps] ct]|].
    + pose proof (doPrivate_throttled c p ps ct w Hz) as Hd.
      destruct (doPrivate c p ps ct w) as [[r c1] w1].
      destruct H as (e & w' & -> & Ht & Hh & He). cbn [fst snd] in *. intros Hr.
      destruct Hd as (Hok & Hu & Hh1); [intros i Hi; apply Hr; lia|].
      split; [|split; [done|by rewrite Hh, Hh1]].
      destruct r as [|err]; [done|]. by rewrite (He err).
    + destruct H as [e ->]. done.
Qed.
End Facts.
End Kraken.

(** ** Properties *)
Section KrakenFacts.
Import Counter Kraken.
Context `{DD : Decimal} `{E : Env}.

Definition uint64_max : Z := 2 ^ 64 - 1.

(** The event of sending a request (path, parameters) with a nonce. *)
Definition sent_event (c : Connector) (s : string * gmap string string * Z) : event :=
  let '(p, ps, n) := s in EvHTTP (private_request c p ps (FormatInt n)).

Definition sent_request (k : venue_call) : option (string * gmap string string) := fst <$> request_of k.

Lemma kraken_call_sent c k w :
  0 ≤ nonce c < uint64_max →
  let '((e, c'), w') := call c k w in
  same_identity c c' ∧ nonce c ≤ nonce c' ≤ nonce c + 1
  ∧ (http_events w' = http_events w
     ∨ nonce c' = nonce c + 1 ∧ ∃ x, sent_request k = Some x
       ∧ http_events w' = http_events w ++ [sent_event c (x, nonce c')]).
Proof.
  intros Hn. unfold uint64_max in Hn. pose proof (call_doPrivate c k w) as H. unfold sent_request.
  destruct (request_of k) as [[[p ps] ct]|].
  - pose proof (doPrivate_run c p ps ct w) as Hd. destruct (doPrivate c p ps ct w) as [[r c1] w1].
    destruct H as (e & w' & -> & _ & Hh & _). destruct Hd as (Hi & Hnc & _ & Hs).
    unfold uwrap64 in Hnc. rewrite Z.mod_small in Hnc by lia.
    split; [done|]. split; [lia|]. rewrite Hh. destruct Hs as [Hs|[Hs _]]; [right|by left].
    split; [done|]. by exists (p, ps).
  - destruct H as [e ->]. split; [done|]. split; [lia|by left].
Qed.

(** Over any sequence of calls of the Kraken connector, every HTTP request sent is one
    of the calls asked for, signed with the connector secret over its path, nonce
    and body, with strictly increasing nonces, at most one per call; the keys and
    the configuration never change. *)
Theorem kraken_requests_signed c ks w :
  0 ≤ nonce c → nonce c + Z.of_nat (length ks) ≤ uint64_max →
  let '((_, c'), w') := calls c ks w in
  same_identity c c' ∧ ∃ log,
    http_events w' = http_events w ++ map (sent_event c) log
    ∧ StronglySorted Z.lt (nonce c :: map snd log)
    ∧ Forall (sent_for sent_request ks) log ∧ (length log ≤ length ks)%nat.
Proof.
  apply (signed_run nonce same_identity sent_event sent_request uint64_max); [|apply kraken_call_sent].
  intros c0 c1 [[p ps] n] Hi. unfold sent_event. by rewrite (private_request_identity c0 c1).
Qed.

(** A 429 or 418 answer stops every further request for 30 s. *)
Theorem kraken_rate_limit_backs_off c req cost w status headers body l w1 ks :
  exchange_once (limiter c) cost req w = ((Answered status headers body, l), w1) →
  status = 429 ∨ status = 418 →
  let '((r, c'), w') := do c req cost w in
  let until := env_now (w_ticks w1) + 30 * Second in
  r = Fail (rate_limited "kraken" status)
  ∧ backoff (limiter c') = until
  ∧ (until ≠ zero_time → readings_before until w' (snd (calls c' ks w')) →
     http_events (snd (calls c' ks w')) = http_events w'
     ∧ Forall (λ e, e ≠ None) (fst (fst (calls c' ks w')))).
Proof.
  intros Hx Hst. destruct (do c req cost w) as [[r c'] w'] eqn:Hdo. cbv zeta.
  assert (r = Fail (rate_limited "kraken" status)
          ∧ backoff (limiter c') = env_now (w_ticks w1) + 30 * Second) as [Hr Hb].
  { unfold do in Hdo. rewrite bind_run, Hx in Hdo. cbn [fst snd] in Hdo.
    replace ((status =? 429) || (status =? 418)) with true in Hdo by lia.
    rewrite bind_run in Hdo. cbn in Hdo. by injection Hdo as <- <- <-. }
  split; [done|]. split; [done|]. rewrite <- Hb. exact (calls_throttled c' ks w').
Qed.

(** [signExample] of the connector's secret is its signature. *)
Lemma sign_example_correct c path nonce postData :
  sign c path nonce postData = signExample (apiSecret c) path nonce postData.
Proof. done. Qed.

(** When Kraken GetBalances succeeds, it returns for each asset of the decoded answer,
    and for no other, its free amount and a locked amount that is the total less the
    free one, never negative. *)
Theorem kraken_balances_result `{!DecimalLaws DD} c w b c' w' :
  GetBalances c w = ((Ok b, c'), w') →
  ∃ body m, doPrivate c "/0/private/Balance" ∅ 2 w = ((Ok body, c'), w')
  ∧ unmarshal_raw (decode_map decode_asset (mkAssetBalance "" "")) body ∅ = (m, true)
  ∧ ∀ asset, match m !! asset with
      | None => b !! asset = None
      | Some a => ∃ bal, b !! asset = Some bal ∧ bal_Asset bal = asset
          ∧ bal_Free bal = dec_parse (ab_Available a)
          ∧ dec_ltb (bal_Locked bal) dec_zero = false
          ∧ (dec_ltb (dec_sub (dec_parse (ab_Balance a)) (dec_parse (ab_Available a))) dec_zero = false →
             bal_Locked bal = dec_sub (dec_parse (ab_Balance a)) (dec_parse (ab_Available a)))
      end.
Proof.
  intros H. unfold GetBalances in H. rewrite bind_run in H.
  destruct (doPrivate c "/0/private/Balance" ∅ 2 w) as [[[body|e] c1] w1]; cbn [fst snd] in H; [|done].
  destruct (unmarshal_raw _ body ∅) as [m []] eqn:Hu; cbn [negb] in H; [|done].
  injection H as <- <- <-. exists body, m. split; [done|]. split; [done|].
  intros asset. unfold Balances. rewrite map_lookup_imap. destruct (m !! asset) as [a|]; [|done]. cbn.
  eexists. split; [done|]. split_and!; [done|done| |].
  - cbn. unfold locked_amount. destruct (dec_ltb (dec_sub _ _) dec_zero) eqn:Hl; [|done].
    unfold dec_ltb. pose proof (dec_cmp_antisym dec_zero dec_zero) as Ha. by destruct (dec_cmp dec_zero dec_zero).
  - cbn. unfold locked_amount. by intros ->.
Qed.

(** The fills returned are trades of the answer without repetition, all of them when
    they fit the limit; which ones are kept otherwise depends on the iteration order
    of the map. *)
Theorem kraken_fills_result `{!FairRange E} c q w out c' w' :
  GetFills c q w = ((Ok out, c'), w') →
  ∃ body m w1, doPrivate c "/0/private/QueryTrades" (fills_params q) 2 w = ((Ok body, c'), w1)
  ∧ unmarshal_raw (decode_map decode_trade zero_trade) body ∅ = (m, true)
  ∧ NoDup (map fill_TradeID out)
  ∧ (∀ f, f ∈ out → ∃ id tr, m !! id = Some tr ∧ f = map_trade (id, tr))
  ∧ (0 < query_Limit q → Z.of_nat (length out) ≤ query_Limit q)
  ∧ (query_Limit q ≤ 0 ∨ Z.of_nat (size m) ≤ query_Limit q → out ≡ₚ map map_trade (map_to_list m)).
Proof.
  intros H. unfold GetFills in H. rewrite bind_run in H.
  destruct (doPrivate c "/0/private/QueryTrades" (fills_params q) 2 w) as [[[body|e] c1] w1];
    cbn [fst snd] in H; [|done].
  destruct (unmarshal_raw _ body ∅) as [m []] eqn:Hu; cbn [negb] in H; [|done].
  rewrite bind_run in H. unfold range_map, draw in H. cbn [fst snd mret io_ret] in H.
  set (entries := env_range (w_draws w1) (map_to_list m)) in *.
  assert (entries ≡ₚ map_to_list m) as Hp by apply range_perm.
  injection H as <- <- _. exists body, m, w1. split; [done|]. split; [done|].
  assert (map fill_TradeID (map map_trade entries) = entries.*1) as Hids
    by (rewrite map_map; apply map_ext; by intros []).
  assert (apply_limit (query_Limit q) (map map_trade entries) `prefix_of` map map_trade entries) as [rest Hrest]
    by apply apply_limit_prefix.
  split_and!.
  - assert (NoDup (map fill_TradeID (map map_trade entries))) as Hnd
      by (rewrite Hids; rewrite Hp; apply NoDup_fst_map_to_list).
    rewrite Hrest, map_app in Hnd. by apply NoDup_app in Hnd as [? _].
  - intros f Hf. assert (f ∈ map map_trade entries) as Hin.
    { rewrite Hrest. apply elem_of_app. by left. }
    apply list_elem_of_fmap in Hin as ([id tr] & -> & Hin). rewrite Hp in Hin.
    exists id, tr. split; [by apply elem_of_map_to_list|done].
  - apply apply_limit_length.
  - intros Hl. unfold apply_limit. destruct (Z.ltb_spec 0 (query_Limit q)); cbn [andb].
    + destruct Hl as [?|Hl]; [lia|]. destruct (Z.ltb_spec (query_Limit q) (Z.of_nat (length (map map_trade entries)))) as [Hlt|].
      * exfalso. rewrite length_map, Hp, length_map_to_list in Hlt. lia.
      * by rewrite Hp.
    + by rewrite Hp.
Qed.
End KrakenFacts.

(** ** Witnesses *)
Section Witnesses.
Import Counter Kraken.
#[local] Existing Instance fixed_decimal.

Definition answering (status : Z) (body : string) : Env :=
  env_with (λ _, HTTPResp status (λ _, "") body) (λ _, None) (λ _, "").

Definition demo_kraken : Connector :=
  mkConnector (mkVenueConfig "kraken" "https://k" "wss://k" ∅) "key" "c2VjcmV0"
    (Counter.mk "kraken" 20 0 (1700000000 * Second) Second zero_time) 5.

Section Signed.
#[local] Instance signed_env : Env := answering 200 (jtext "{'error': [], 'result': {}}").

Lemma kraken_requests_signed_witness :
  let '((_, _), w') := calls demo_kraken [CallGetBalances; CallGetOrder "O1"] world0 in
  ∃ log, http_events w' = map (sent_event demo_kraken) log ∧ StronglySorted Z.lt (5 :: map snd log).
Proof.
  pose proof (kraken_requests_signed demo_kraken [CallGetBalances; CallGetOrder "O1"] world0
    ltac:(vm_compute; discriminate) ltac:(vm_compute; discriminate)) as H.
  destruct (calls demo_kraken [CallGetBalances; CallGetOrder "O1"] world0) as [[es c'] w'].
  destruct H as (_ & log & H1 & H2 & _). exists log. split; [exact H1|exact H2].
Defined.
End Signed.

Section Limited.
#[local] Instance limited_env : Env := answering 429 "".

Definition demo_request : http_request := mkReq "POST" "https://k/0/private/Balance" [] "".

Lemma kraken_rate_limit_backs_off_witness :
  let '((r, c'), w') := do demo_kraken demo_request 2 world0 in
  is_ok r = false
  ∧ http_events (snd (calls c' [CallGetBalances; CallGetOrder "7"] w')) = http_events w'.
Proof.
  destruct (exchange_once (limiter demo_kraken) 2 demo_request world0) as [[x l] w1] eqn:Hx.
  pose proof Hx as Hx'. vm_compute in Hx'. injection Hx' as <- <- <-.
  pose proof (kraken_rate_limit_backs_off demo_kraken demo_request 2 world0
    429 _ _ _ _ [CallGetBalances; CallGetOrder "7"] Hx ltac:(by left)) as H.
  destruct (do demo_kraken demo_request 2 world0) as [[r c'] w'] eqn:Hdo.
  vm_compute in Hdo. injection Hdo as <- <- <-.
  destruct H as (H1 & _ & H3). split; [by rewrite H1|]. apply H3.
  - vm_compute. discriminate.
  - intros i Hi. vm_compute in Hi.
    cbv [env_now limited_env answering env_with w_ticks Second Millisecond]. lia.
Defined.
End Limited.

Section Balances.
#[local] Instance balances_env : Env := answering 200
  (jtext "{'error': [], 'result': {'XBT': {'available': '2', 'balance': '5'}}}").

Lemma kraken_balances_result_witness :
  ∃ b c' w', GetBalances demo_kraken world0 = ((Ok b, c'), w')
    ∧ ∃ body m, unmarshal_raw (decode_map decode_asset (mkAssetBalance "" "")) body ∅ = (m, true)
      ∧ (b !! "EUR" = None ∨ is_Some (m !! "EUR")).
Proof.
  assert (is_ok (fst (fst (GetBalances demo_kraken world0))) = true) as Hok by (vm_compute; reflexivity).
  destruct (GetBalances demo_kraken world0) as [[[b|e] c'] w'] eqn:H; [|discriminate Hok].
  exists b, c', w'. split; [reflexivity|].
  destruct (kraken_balances_result (DecimalLaws0 := fixed_laws) _ _ _ _ _ H) as (body & m & _ & Hm & Hall).
  exists body, m. split; [exact Hm|]. specialize (Hall "EUR").
  destruct (m !! "EUR"); [right; eexists; reflexivity|left; exact Hall].
Defined.
End Balances.

Section Fills.
#[local] Instance fills_env : Env := answering 200
  (jtext "{'error': [], 'result': {'T1': {'vol': '1', 'time': 1.5}, 'T2': {'vol': '2'}}}").

Lemma kraken_fills_result_witness :
  ∃ out c' w', GetFills demo_kraken (mkFillQuery "" zero_time zero_time 1) world0 = ((Ok out, c'), w')
    ∧ Z.of_nat (length out) ≤ 1.
Proof.
  assert (is_ok (fst (fst (GetFills demo_kraken (mkFillQuery "" zero_time zero_time 1) world0))) = true)
    as Hok by (vm_compute; reflexivity).
  destruct (GetFills demo_kraken (mkFillQuery "" zero_time zero_time 1) world0) as [[[out|e] c'] w'] eqn:H;
    [|discriminate Hok].
  exists out, c', w'. split; [reflexivity|].
  destruct (kraken_fills_result (FairRange0 := env_with_range _ _ _) _ _ _ _ _ _ H)
    as (body & m & w1 & _ & _ & _ & _ & Hl & _).
  apply Hl. reflexivity.
Defined.
End Fills.
End Witnesses.
