(* ===== verification/Otc.v ===== *)
(** * internal/adapters/otc: the connector of the OTC desk

    Orders are a request for quote followed by the acceptance of the quote; every
    request passes the requests-per-second limiter. *)

From S2P Require Export Rest GoTime.
From S2P Require Import Traces.

Module Otc.
Import RPS.

Definition ErrUnsupported : error := "otc: SubscribeOrderBook unsupported".

Section Ops.
Context `{DD : Decimal} `{E : Env}.

(** The pointers of [orders] are never read again, so the map holds the values. *)
Record Connector := mkConnector {
  cfg : VenueConfig;
  apiKey : string;
  limiter : RPSLimiter;
  orders : gmap string OrderResponse;
  fills : list Fill;
  sftpPath : string;
}.

Definition set_limiter (l : RPSLimiter) (c : Connector) : Connector :=
  mkConnector (cfg c) (apiKey c) l (orders c) (fills c) (sftpPath c).
Definition record_order (id : string) (o : OrderResponse) (f : Fill) (c : Connector) : Connector :=
  mkConnector (cfg c) (apiKey c) (limiter c) (<[id := o]> (orders c)) (fills c ++ [f]) (sftpPath c).

(** *** The JSON of the desk *)

Definition decode_decimal : decoder D := λ j old,
  match dec_unmarshal old (raw_of j) with Some d => (d, true) | None => (old, false) end.

Definition rfq_json (req : OrderRequest) : jvalue :=
  VObj [("client_order_id", VStr (req_ClientOrderID req)); ("symbol", VStr (req_Symbol req));
        ("side", VStr (req_Side req)); ("quantity", VRaw (dec_marshal (req_Quantity req)))].

Definition accept_json (clientOrderID : string) : jvalue := VObj [("client_order_id", VStr clientOrderID)].

Record quoteResp := mkQuoteResp {
  q_QuoteID : string;
  q_Price : D;
  q_ExpiresAt : Time;
  q_Status : string;
}.

Definition decode_quote : decoder quoteResp := decode_struct (λ k j q,
  let '(mkQuoteResp id p t s) := q in
  if key_is "quote_id" k then on_field decode_string q_QuoteID (λ v _, mkQuoteResp v p t s) j q
  else if key_is "price" k then on_field decode_decimal q_Price (λ v _, mkQuoteResp id v t s) j q
  else if key_is "expires_at" k then on_field decode_time q_ExpiresAt (λ v _, mkQuoteResp id p v s) j q
  else if key_is "status" k then on_field decode_string q_Status (λ v _, mkQuoteResp id p t v) j q
  else (q, true)).

Definition zero_quote : quoteResp := mkQuoteResp "" dec_zero zero_time "".

Record acceptResp := mkAcceptResp {
  a_OrderID : string;
  a_Status : string;
  a_FilledQty : D;
  a_Price : D;
  a_Fee : D;
  a_FeeAsset : string;
  a_TradeID : string;
}.

Definition decode_accept : decoder acceptResp := decode_struct (λ k j a,
  let '(mkAcceptResp id st fq p fe fa tid) := a in
  if key_is "order_id" k then on_field decode_string a_OrderID (λ v _, mkAcceptResp v st fq p fe fa tid) j a
  else if key_is "status" k then on_field decode_string a_Status (λ v _, mkAcceptResp id v fq p fe fa tid) j a
  else if key_is "filled_qty" k then
    on_field decode_decimal a_FilledQty (λ v _, mkAcceptResp id st v p fe fa tid) j a
  else if key_is "price" k then on_field decode_decimal a_Price (λ v _, mkAcceptResp id st fq v fe fa tid) j a
  else if key_is "fee" k then on_field decode_decimal a_Fee (λ v _, mkAcceptResp id st fq p v fa tid) j a
  else if key_is "fee_asset" k then on_field decode_string a_FeeAsset (λ v _, mkAcceptResp id st fq p fe v tid) j a
  else if key_is "trade_id" k then on_field decode_string a_TradeID (λ v _, mkAcceptResp id st fq p fe fa v) j a
  else (a, true)).

Definition zero_accept : acceptResp := mkAcceptResp "" "" dec_zero dec_zero dec_zero "" "".

Record orderStatusResp := mkOrderStatusResp {
  os_OrderID : string;
  os_Status : string;
  os_FilledQty : D;
  os_Price : D;
  os_SettlementStatus : string;
}.

Definition decode_order_status : decoder orderStatusResp := decode_struct (λ k j o,
  let '(mkOrderStatusResp id st fq p ss) := o in
  if key_is "order_id" k then on_field decode_string os_OrderID (λ v _, mkOrderStatusResp v st fq p ss) j o
  else if key_is "status" k then on_field decode_string os_Status (λ v _, mkOrderStatusResp id v fq p ss) j o
  else if key_is "filled_qty" k then on_field decode_decimal os_FilledQty (λ v _, mkOrderStatusResp id st v p ss) j o
  else if key_is "price" k then on_field decode_decimal os_Price (λ v _, mkOrderStatusResp id st fq v ss) j o
  else if key_is "settlement_status" k then
    on_field decode_string os_SettlementStatus (λ v _, mkOrderStatusResp id st fq p v) j o
  else (o, true)).

Definition zero_order_status : orderStatusResp := mkOrderStatusResp "" "" dec_zero dec_zero "".

(** An entry of [fillsResp.Fills]. *)
Record fillResp := mkFillResp {
  f_TradeID : string;
  f_Price : D;
  f_Qty : D;
  f_Fee : D;
  f_FeeAsset : string;
  f_Time : Time;
}.

Definition zero_fill : fillResp := mkFillResp "" dec_zero dec_zero dec_zero "" zero_time.

Definition decode_fill : decoder fillResp := decode_struct (λ k j f,
  let '(mkFillResp id p q fe fa t) := f in
  if key_is "trade_id" k then on_field decode_string f_TradeID (λ v _, mkFillResp v p q fe fa t) j f
  else if key_is "price" k then on_field decode_decimal f_Price (λ v _, mkFillResp id v q fe fa t) j f
  else if key_is "qty" k then on_field decode_decimal f_Qty (λ v _, mkFillResp id p v fe fa t) j f
  else if key_is "fee" k then on_field decode_decimal f_Fee (λ v _, mkFillResp id p q v fa t) j f
  else if key_is "fee_asset" k then on_field decode_string f_FeeAsset (λ v _, mkFillResp id p q fe v t) j f
  else if key_is "time" k then on_field decode_time f_Time (λ v _, mkFillResp id p q fe fa v) j f
  else (f, true)).

Definition decode_fills : decoder (list fillResp) := decode_struct (λ k j r,
  if key_is "fills" k then decode_list decode_fill zero_fill j r else (r, true)).

(** An entry of [balancesResp.Balances]. *)
Record balanceResp := mkBalanceResp { b_Asset : string; b_Free : D; b_Locked : D }.

Definition decode_balance : decoder balanceResp := decode_struct (λ k j b,
  let '(mkBalanceResp a f l) := b in
  if key_is "asset" k then on_field decode_string b_Asset (λ v _, mkBalanceResp v f l) j b
  else if key_is "free" k then on_field decode_decimal b_Free (λ v _, mkBalanceResp a v l) j b
  else if key_is "locked" k then on_field decode_decimal b_Locked (λ v _, mkBalanceResp a f v) j b
  else (b, true)).

Definition decode_balances : decoder (list balanceResp) := decode_struct (λ k j r,
  if key_is "balances" k then decode_list decode_balance (mkBalanceResp "" dec_zero dec_zero) j r
  else (r, true)).

(** *** Construction *)

Definition getenv_or (k d : string) : string :=
  if String.eqb (env_getenv k) "" then d else env_getenv k.

Definition rps_budget : Z :=
  let v := env_getenv "RATE_LIMIT_WEIGHT_BUDGET" in
  if String.eqb v "" then 10 else default 10 (ParseInt v).

Definition NewConnector (apiKey : string) (limiter : option RPSLimiter) : IO Connector :=
  l ← match limiter with Some l => mret l | None => NewRPSLimiter "otc" rps_budget end;
  mret (mkConnector (mkVenueConfig "otc" (getenv_or "OTC_DESK_URL" "http://localhost:9000") "" ∅)
          apiKey l ∅ [] (env_getenv "OTC_SFTP_PATH")).

(** *** Requests *)

Definition otc_request (c : Connector) (method path : string) (payload : option jvalue) : http_request :=
  mkReq method (cfg_RESTBase (cfg c) +:+ path)
    ((if String.eqb (apiKey c) "" then [] else [("Authorization", "Bearer " +:+ apiKey c)])
     ++ [("Content-Type", "application/json")])
    (match payload with Some v => print v | None => "" end).

(** The limiter is asked before the request is built. *)
Definition guarded_exchange (l : RPSLimiter) (req : http_request) : IO (exchange * RPSLimiter) :=
  match env_new_request (hr_method req) (hr_url req) with
  | None => exchange_once l 1 req
  | Some e =>
      '(err, l) ← limiter_wait l 1;
      mret (match err with Some d => Denied d | None => Broken e end, l)
  end.

Definition do (c : Connector) (method path : string) (payload : option jvalue)
    : IO (result string * Connector) :=
  '(x, l) ← guarded_exchange (limiter c) (otc_request c method path payload);
  match x with
  | Denied e | Broken e => mret (Fail e, set_limiter l c)
  | Answered status _ body =>
      if status =? 429 then
        l ← Backoff l "otc" (5 * Second);
        mret (Fail "otc: rate limited", set_limiter l c)
      else if 400 <=? status then
        mret (Fail ("otc: status " +:+ FormatInt status +:+ " body " +:+ body), set_limiter l c)
      else mret (Ok body, set_limiter l c)
  end.

(** *** The operations of the connector *)

Definition mapStatus (s : string) : OrderStatus :=
  let l := ToLower s in
  if String.eqb l "new" || String.eqb l "pending" || String.eqb l "open" then OrderStatusNew
  else if String.eqb l "partial" || String.eqb l "partially_filled" then OrderStatusPartial
  else if String.eqb l "filled" || String.eqb l "settled" || String.eqb l "completed" then OrderStatusFilled
  else if String.eqb l "canceled" || String.eqb l "cancelled" || String.eqb l "rejected"
  then OrderStatusCanceled
  else s.

Definition quote_refused (q : quoteResp) : bool :=
  String.eqb (ToLower (q_Status q)) "rejected" || String.eqb (ToLower (q_Status q)) "expired".

Definition accepted_fill (a : acceptResp) (now : Time) : Fill :=
  mkFill (a_OrderID a) (a_TradeID a) (a_Price a) (a_FilledQty a) (a_Fee a) (a_FeeAsset a) now.

Definition accepted_order (req : OrderRequest) (a : acceptResp) (now : Time) : OrderResponse :=
  mkOrderResponse (a_OrderID a) (req_ClientOrderID req) (mapStatus (a_Status a)) (a_FilledQty a) (a_Price a)
    [accepted_fill a now].

Definition accept_path (q : quoteResp) : string := "/v1/quotes/" +:+ q_QuoteID q +:+ "/accept".

Definition PlaceOrder (c : Connector) (req : OrderRequest) : IO (result OrderResponse * Connector) :=
  if String.eqb (req_ClientOrderID req) "" then mret (Fail "otc: client_order_id required", c) else
  '(r, c) ← do c "POST" "/v1/rfq" (Some (rfq_json req));
  match r with
  | Fail e => mret (Fail e, c)
  | Ok body =>
      let '(q, ok) := unmarshal decode_quote body zero_quote in
      if negb ok then mret (Fail (env_json_error body), c)
      else if quote_refused q then mret (Fail ("otc: quote " +:+ q_Status q), c) else
      '(r, c) ← do c "POST" (accept_path q) (Some (accept_json (req_ClientOrderID req)));
      match r with
      | Fail e => mret (Fail e, c)
      | Ok acceptBody =>
          let '(a, ok) := unmarshal decode_accept acceptBody zero_accept in
          if negb ok then mret (Fail (env_json_error acceptBody), c) else
          now ← time_now;
          let resp := accepted_order req a now in
          mret (Ok resp, record_order (a_OrderID a) resp (accepted_fill a now) c)
      end
  end.

Definition order_status (r : orderStatusResp) : OrderStatus :=
  let status := mapStatus (os_Status r) in
  if negb (String.eqb (os_SettlementStatus r) "")
     && String.eqb (ToLower (os_SettlementStatus r)) "settled" && String.eqb status OrderStatusNew
  then OrderStatusFilled else status.

Definition GetOrder (c : Connector) (venueOrderID : string) : IO (result OrderResponse * Connector) :=
  '(r, c) ← do c "GET" ("/v1/orders/" +:+ venueOrderID) None;
  match r with
  | Fail e => mret (Fail e, c)
  | Ok body =>
      let '(r, ok) := unmarshal decode_order_status body zero_order_status in
      if negb ok then mret (Fail (env_json_error body), c)
      else mret (Ok (mkOrderResponse (os_OrderID r) "" (order_status r) (os_FilledQty r) (os_Price r) []), c)
  end.

(** The id a cancellation names. *)
Definition cancel_id (req : CancelRequest) : string :=
  if String.eqb (cancel_VenueOrderID req) "" then cancel_ClientOrderID req else cancel_VenueOrderID req.

Definition CancelOrder (c : Connector) (req : CancelRequest) : IO (option error * Connector) :=
  if String.eqb (cancel_id req) "" then mret (Some "otc: cancel requires order id", c) else
  '(r, c) ← do c "POST" ("/v1/orders/" +:+ cancel_id req +:+ "/cancel") None;
  mret (match r with Fail e => Some e | Ok _ => None end, c).

Definition map_fill (orderID : string) (f : fillResp) : Fill :=
  mkFill orderID (f_TradeID f) (f_Price f) (f_Qty f) (f_Fee f) (f_FeeAsset f) (f_Time f).

Definition GetFills (c : Connector) (query : FillQuery) : IO (result (list Fill) * Connector) :=
  '(r, c) ← do c "GET" ("/v1/orders/" +:+ query_VenueOrderID query +:+ "/fills") None;
  match r with
  | Fail e => mret (Fail e, c)
  | Ok body =>
      let '(r, ok) := unmarshal decode_fills body [] in
      if negb ok then mret (Fail (env_json_error body), c)
      else mret (Ok (apply_limit (query_Limit query) (map (map_fill (query_VenueOrderID query)) r)), c)
  end.

Definition add_balance (m : Balances) (b : balanceResp) : Balances :=
  <[b_Asset b := mkBalance (b_Asset b) (b_Free b) (b_Locked b)]> m.

Definition GetBalances (c : Connector) : IO (result Balances * Connector) :=
  '(r, c) ← do c "GET" "/v1/balances" None;
  match r with
  | Fail e => mret (Fail e, c)
  | Ok body =>
      let '(r, ok) := unmarshal decode_balances body [] in
      if negb ok then mret (Fail (env_json_error body), c)
      else mret (Ok (foldl add_balance (∅ : Balances) r), c)
  end.

Definition Config (c : Connector) : VenueConfig := cfg c.

Definition subscribe (c : Connector) (pairs : list string) : IO (option error * Connector) :=
  mret (Some ErrUnsupported, c).

#[global] Instance otc_connector : VenueConnector Connector := {|
  Venue.PlaceOrder := PlaceOrder;
  Venue.CancelOrder := CancelOrder;
  Venue.GetOrder := GetOrder;
  Venue.GetFills := GetFills;
  Venue.GetBalances := GetBalances;
  Venue.SubscribeBook := subscribe;
|}.

#[global] Instance otc_throttled : Throttled Connector := λ c, backoff (limiter c).

End Ops.

(** *** What every call of the connector does *)
Section Facts.
Context `{DD : Decimal} `{E : Env}.

Lemma guarded_ticks l req w : (w_ticks w ≤ w_ticks (snd (guarded_exchange l req w)))%nat.
Proof.
  unfold guarded_exchange. destruct (env_new_request _ _); [|apply exchange_ticks].
  rewrite bind_run. pose proof (wait_ticks l 1 w) as H.
  by destruct (limiter_wait l 1 w) as [[err l'] w1].
Qed.

Lemma guarded_denied (l : RPSLimiter) req w :
  backoff l ≠ zero_time → readings_before (backoff l) w (snd (guarded_exchange l req w)) →
  fst (fst (guarded_exchange l req w)) = Denied ErrBudgetExhausted
  ∧ backoff (snd (fst (guarded_exchange l req w))) = backoff l
  ∧ http_events (snd (guarded_exchange l req w)) = http_events w.
Proof.
  intros Hz. unfold guarded_exchange.
  destruct (env_new_request _ _); [|exact (exchange_denied (l : RPSLimiter) 1 req w Hz)].
  rewrite bind_run. pose proof (wait_denied l 1 w Hz) as Hd. pose proof (wait_until l 1 w) as Hu.
  pose proof (wait_no_http l 1 w) as Hh.
  destruct (limiter_wait l 1 w) as [[err l'] w1]. cbn [fst snd] in *. intros Hr.
  specialize (Hd Hr). subst err. done.
Qed.

Lemma guarded_http l req w :
  let x := fst (fst (guarded_exchange l req w)) in
  let evs := http_events (snd (guarded_exchange l req w)) in
  match x with
  | Answered _ _ _ => evs = http_events w ++ [EvHTTP req]
  | _ => evs = http_events w ++ [EvHTTP req] ∨ evs = http_events w
  end.
Proof.
  cbv zeta. unfold guarded_exchange. destruct (env_new_request _ _) as [e|].
  - rewrite bind_run. pose proof (wait_no_http l 1 w) as Hh.
    destruct (limiter_wait l 1 w) as [[[d|] l'] w1]; by right.
  - pose proof (exchange_http l 1 req w) as Hh.
    destruct (exchange_once l 1 req w) as [[x l'] w1]. cbn [fst snd] in *.
    destruct x; [right|by left|done]. by rewrite app_nil_r in Hh.
Qed.

(** [do] changes nothing but the limiter, and sends at most the request it was given. *)
Lemma otc_do_run c m p payload w :
  let '((r, c'), w') := do c m p payload w in
  (∃ l, c' = set_limiter l c) ∧ (w_ticks w ≤ w_ticks w')%nat
  ∧ (http_events w' = http_events w ++ [EvHTTP (otc_request c m p payload)]
     ∨ http_events w' = http_events w ∧ is_ok r = false).
Proof.
  unfold do. rewrite bind_run. set (req := otc_request c m p payload).
  pose proof (guarded_http (limiter c) req w) as Hh. pose proof (guarded_ticks (limiter c) req w) as Ht.
  destruct (guarded_exchange (limiter c) req w) as [[x l] w1]. cbn [fst snd] in *.
  destruct x as [e|e|status headers body]; cbn [mret io_ret].
  - split_and!; [by eexists|done|]. destruct Hh; [by left|by right].
  - split_and!; [by eexists|done|]. destruct Hh; [by left|by right].
  - destruct (status =? 429).
    + rewrite bind_run. pose proof (backoff_no_http l "otc" (5 * Second) w1) as Hb.
      pose proof (backoff_ticks l "otc" (5 * Second) w1) as Hbt. cbn in Hb, Hbt |- *.
      split_and!; [by eexists|lia|]. left. unfold http_events in *. done.
    + destruct (400 <=? status); (split_and!; [by eexists|done|by left]).
Qed.






(** Held back, [do] sends nothing. *)
Lemma otc_do_throttled c m p payload w :
  backoff (limiter c) ≠ zero_time →
  readings_before (backoff (limiter c)) w (snd (do c m p payload w)) →
  let '((r, c'), w') := do c m p payload w in
  is_ok r = false ∧ backoff (limiter c') = backoff (limiter c) ∧ http_events w' = http_events w.
Proof.
  intros Hz. unfold do. rewrite bind_run. set (req := otc_request c m p payload).
  pose proof (guarded_denied (limiter c) req w Hz) as Hd.
  destruct (guarded_exchange (limiter c) req w) as [[x l] w1]. cbn [fst snd] in *.
  destruct x as [e|e|status headers body].
  - intros Hr. destruct (Hd Hr) as (_ & Hu & Hh). done.
  - intros Hr. by destruct (Hd Hr) as (? & _).
  - intros Hr. exfalso. destruct Hd as (Hx & _); [|done]. intros i Hi. apply Hr. revert Hr.
    destruct (status =? 429).
    + rewrite bind_run. pose proof (backoff_ticks l "otc" (5 * Second) w1) as Hb. cbn in Hb |- *. lia.
    + destruct (400 <=? status); cbn; lia.
Qed.

(** The first request a call stands for. *)
Definition request_of (k : venue_call) : option (string * string * option jvalue) :=
  match k with
  | CallPlaceOrder req =>
      if String.eqb (req_ClientOrderID req) "" then None else Some ("POST", "/v1/rfq", Some (rfq_json req))
  | CallCancelOrder req =>
      if String.eqb (cancel_id req) "" then None
      else Some ("POST", "/v1/orders/" +:+ cancel_id req +:+ "/cancel", None)
  | CallGetOrder id => Some ("GET", "/v1/orders/" +:+ id, None)
  | CallGetFills q => Some ("GET", "/v1/orders/" +:+ query_VenueOrderID q +:+ "/fills", None)
  | CallGetBalances => Some ("GET", "/v1/balances", None)
  end.

(** A call starts with its request, and is over when that fails. *)
Lemma call_first c k w :
  match request_of k with
  | None => ∃ e, call c k w = ((Some e, c), w)
  | Some (m, p, payload) =>
      let '((r, c1), w1) := do c m p payload w in
      (w_ticks w1 ≤ w_ticks (snd (call c k w)))%nat
      ∧ ∀ err, r = Fail err → call c k w = ((Some err, c1), w1)
  end.
Proof.
  destruct k as [req|req|id|q|]; cbn [request_of call].
  - unfold Venue.PlaceOrder, otc_connector, PlaceOrder.
    destruct (String.eqb (req_ClientOrderID req) ""); [by eexists|]. rewrite !bind_run.
    destruct (do c "POST" "/v1/rfq" _ w) as [[[body|e] c1] w1]; cbn [fst snd];
      [|split; [done|by intros ? [= <-]]].
    split; [|by intros ? [=]].
    destruct (unmarshal decode_quote body zero_quote) as [qt []]; cbn [negb]; [|done].
    destruct (quote_refused qt); [done|]. rewrite bind_run.
    pose proof (otc_do_run c1 "POST" (accept_path qt) (Some (accept_json (req_ClientOrderID req))) w1) as Hd.
    destruct (do c1 "POST" (accept_path qt) _ w1) as [[[body2|e] c2] w2]; cbn [fst snd];
      destruct Hd as (_ & Ht & _); [|done].
    destruct (unmarshal decode_accept body2 zero_accept) as [a []]; cbn [negb]; [|done].
    run_io. lia.
  - unfold Venue.CancelOrder, otc_connector, CancelOrder.
    destruct (String.eqb (cancel_id req) ""); [by eexists|]. rewrite bind_run.
    destruct (do c "POST" _ None w) as [[[body|e] c1] w1]; (split; [done|]); [by intros ? [=]|by intros ? [= <-]].
  - unfold Venue.GetOrder, otc_connector, GetOrder. rewrite !bind_run.
    destruct (do c "GET" _ None w) as [[[body|e] c1] w1]; cbn [fst snd]; [|split; [done|by intros ? [= <-]]].
    destruct (unmarshal decode_order_status body _) as [r []]; (split; [done|by intros ? [=]]).
  - unfold Venue.GetFills, otc_connector, GetFills. rewrite !bind_run.
    destruct (do c "GET" _ None w) as [[[body|e] c1] w1]; cbn [fst snd]; [|split; [done|by intros ? [= <-]]].
    destruct (unmarshal decode_fills body []) as [r []]; (split; [done|by intros ? [=]]).
  - unfold Venue.GetBalances, otc_connector, GetBalances. rewrite !bind_run.
    destruct (do c "GET" _ None w) as [[[body|e] c1] w1]; cbn [fst snd]; [|split; [done|by intros ? [= <-]]].
    destruct (unmarshal decode_balances body []) as [r []]; (split; [done|by intros ? [=]]).
Qed.

#[global] Instance otc_throttled_laws : ThrottledLaws Connector.
Proof.
  split.
  - intros c k w. pose proof (call_first c k w) as H. destruct (request_of k) as [[[m p] payload]|].
    + pose proof (otc_do_run c m p payload w) as Hd. destruct (do c m p payload w) as [[r c1] w1].
      destruct Hd as (_ & Hk & _), H as [Ht _]. lia.
    + destruct H as [e ->]. cbn. lia.
  - intros c k w Hz. pose proof (call_first c k w) as H. destruct (request_of k) as [[[m p] payload]|].
    + pose proof (otc_do_throttled c m p payload w Hz) as Hd.
      destruct (do c m p payload w) as [[r c1] w1]. cbn [fst snd] in *. destruct H as [Ht He]. intros Hr.
      destruct Hd as (Hok & Hu & Hh); [intros i Hi; apply Hr; lia|].
      destruct r as [|err]; [done|]. by rewrite (He err).
    + destruct H as [e ->]. done.
Qed.
End Facts.
End Otc.

(** ** Properties *)
Section OtcFacts.
Import RPS Otc.
Context `{DD : Decimal} `{E : Env}.







(** A 429 answer stops every further request for 5 s. *)
Theorem otc_rate_limit_backs_off c m p payload w headers body l w1 ks :
  guarded_exchange (limiter c) (otc_request c m p payload) w = ((Answered 429 headers body, l), w1) →
  let '((r, c'), w') := do c m p payload w in
  let until := env_now (w_ticks w1) + 5 * Second in
  r = Fail "otc: rate limited"
  ∧ backoff (limiter c') = until
  ∧ (until ≠ zero_time → readings_before until w' (snd (calls c' ks w')) →
     http_events (snd (calls c' ks w')) = http_events w'
     ∧ Forall (λ e, e ≠ None) (fst (fst (calls c' ks w')))).
Proof.
  intros Hx. destruct (do c m p payload w) as [[r c'] w'] eqn:Hdo. cbv zeta.
  assert (r = Fail "otc: rate limited" ∧ backoff (limiter c') = env_now (w_ticks w1) + 5 * Second) as [Hr Hb].
  { unfold do in Hdo. rewrite bind_run, Hx in Hdo. cbn in Hdo. by injection Hdo as <- <- <-. }
  split; [done|]. split; [done|]. rewrite <- Hb. exact (calls_throttled c' ks w').
Qed.
End OtcFacts.

(** ** Witnesses *)
Section Witnesses.
Import RPS Otc.
#[local] Existing Instance fixed_decimal.

Definition answering (status : Z) (body : string) : Env :=
  env_with (λ _, HTTPResp status (λ _, "") body) (λ _, None) (λ _, "").

Definition demo_otc : Connector :=
  mkConnector (mkVenueConfig "otc" "https://o" "" ∅) "key" (fst (NewRPSLimiter (E := demo_env) "otc" 10 world0)) ∅ [] "".


Section Placed.
#[local] Instance placed_env : Env := answering 200
  (jtext "{'quote_id': 'q1', 'status': 'filled', 'order_id': 'o1', 'price': '5'}").

End Placed.

Section Limited.
#[local] Instance limited_env : Env := answering 429 "".

Lemma otc_rate_limit_backs_off_witness :
  let '((r, c'), w') := do demo_otc "GET" "/v1/balances" None world0 in
  is_ok r = false
  ∧ http_events (snd (calls c' [CallGetBalances; CallGetOrder "7"] w')) = http_events w'.
Proof.
  destruct (guarded_exchange (limiter demo_otc) (otc_request demo_otc "GET" "/v1/balances" None) world0)
    as [[x l] w1] eqn:Hx.
  pose proof Hx as Hx'. vm_compute in Hx'. injection Hx' as <- <- <-.
  pose proof (otc_rate_limit_backs_off demo_otc "GET" "/v1/balances" None world0
    _ _ _ _ [CallGetBalances; CallGetOrder "7"] Hx) as H.
  set (ks := [CallGetBalances; CallGetOrder "7"]) in *.
  assert (w_ticks (snd (do demo_otc "GET" "/v1/balances" None world0)) = 2%nat
    ∧ w_ticks (snd (calls (snd (fst (do demo_otc "GET" "/v1/balances" None world0))) ks
                      (snd (do demo_otc "GET" "/v1/balances" None world0)))) = 4%nat) as [Ht1 Ht2]
    by (vm_compute; split; reflexivity).
  destruct (do demo_otc "GET" "/v1/balances" None world0) as [[r c'] w']. cbn [fst snd] in Ht1, Ht2.
  destruct H as (H1 & _ & H3). split; [by rewrite H1|]. apply H3.
  - vm_compute. discriminate.
  - intros i Hi. rewrite Ht1, Ht2 in Hi.
    cbv [env_now limited_env answering env_with w_ticks Second Millisecond]. lia.
Defined.
End Limited.
End Witnesses.
