(* ===== verification/Sftp.v ===== *)
(** * internal/adapters/otc/sftp.go: settlement confirmations

    The desk's confirmations are files below a configured directory. Reading a file is
    the operating system's: [read_file] is [os.ReadFile]. *)

From S2P Require Export Otc.

(** ** path/filepath on Unix *)

(** One element of [Clean]: the elements kept so far, the last one first. *)
Definition clean_elem (rooted : bool) (stack : list string) (seg : string) : list string :=
  if String.eqb seg "" || String.eqb seg "." then stack
  else if String.eqb seg ".." then
    match stack with
    | top :: below => if String.eqb top ".." then seg :: stack else below
    | [] => if rooted then [] else [seg]
    end
  else seg :: stack.

(** The elements of a cleaned path. *)
Definition elements (p : string) : list string :=
  reverse (foldl (clean_elem (HasPrefix p "/")) [] (split_byte "/" p)).

Definition render (rooted : bool) (elems : list string) : string :=
  if rooted then "/" +:+ Join elems "/"
  else match elems with [] => "." | _ => Join elems "/" end.

Definition Clean (p : string) : string := render (HasPrefix p "/") (elements p).

(** [filepath.Join] of two elements: the non-empty ones, cleaned. *)
Definition Join2 (a b : string) : string :=
  match List.filter (λ s, negb (String.eqb s "")) [a; b] with
  | [] => ""
  | l => Clean (Join l "/")
  end.

Section Sftp.
Context `{DD : Decimal} (read_file : string → result string).

Definition fetchSFTP (basePath orderID : string) : result string :=
  if String.eqb basePath "" then Fail "otc: sftp path not configured" else
  match read_file (Join2 basePath (orderID +:+ ".json")) with
  | Fail e => Fail ("otc: sftp read: " +:+ e)
  | Ok data => Ok data
  end.

Definition FetchSFTPConfirmation (c : Otc.Connector) (orderID : string) : result string :=
  if String.eqb (Otc.sftpPath c) "" then Fail "otc: sftp not configured"
  else fetchSFTP (Otc.sftpPath c) orderID.
End Sftp.

(** ** Properties *)

(** A name that is one ordinary element of a path. *)
Definition plain (f : string) : Prop := lacks "/" f = true ∧ f ≠ "" ∧ f ≠ "." ∧ f ≠ "..".

Lemma clean_elem_plain rooted stack f : plain f → clean_elem rooted stack f = f :: stack.
Proof.
  intros (_ & H1 & H2 & H3). unfold clean_elem.
  by rewrite (proj2 (String.eqb_neq _ _) H1), (proj2 (String.eqb_neq _ _) H2), (proj2 (String.eqb_neq _ _) H3).
Qed.

Lemma split_byte_snoc c a f : lacks c f = true → split_byte c (a +:+ String c f) = split_byte c a ++ [f].
Proof.
  intros Hf. induction a as [|d a IH].
  - rewrite str_app_nil_l. cbn [split_byte]. by rewrite Ascii.eqb_refl, split_byte_lacks.
  - rewrite str_app_cons. cbn [split_byte]. rewrite IH. destruct (Ascii.eqb d c); [done|].
    pose proof (split_byte_ne c a). by destruct (split_byte c a).
Qed.

Lemma join2_plain base f :
  base ≠ "" → plain f → Join2 base f = render (HasPrefix base "/") (elements base ++ [f]).
Proof.
  intros Hb Hf. unfold Join2. cbn [List.filter].
  rewrite (proj2 (String.eqb_neq _ _) Hb), (proj2 (String.eqb_neq _ _) (proj1 (proj2 Hf))).
  cbn [negb Join]. change ("/" +:+ f) with (String "/" f). unfold Clean, elements.
  assert (HasPrefix (base +:+ String "/" f) "/" = HasPrefix base "/") as ->.
  { destruct base as [|c base]; [done|]. unfold HasPrefix. rewrite str_app_cons. cbn. by destruct base, f. }
  rewrite split_byte_snoc, foldl_app by apply Hf. cbn [foldl].
  by rewrite clean_elem_plain, reverse_cons by done.
Qed.

Lemma confirmation_name_plain id : lacks "/" id = true → plain (id +:+ ".json").
Proof.
  intros H. assert (5 ≤ String.length (id +:+ ".json"))%nat by (rewrite str_app_length; cbn; lia).
  split; [by rewrite lacks_app, H|]. split_and!; intros Hf; rewrite Hf in *; cbn in *; lia.
Qed.

(** For an order id without slashes the file read is one directly in the configured
    directory, named after the order. *)
Theorem confirmation_read_in_directory `{DD : Decimal} read_file (c : Otc.Connector) orderID :
  Otc.sftpPath c ≠ "" → lacks "/" orderID = true →
  FetchSFTPConfirmation read_file c orderID
  = match read_file (render (HasPrefix (Otc.sftpPath c) "/")
                       (elements (Otc.sftpPath c) ++ [orderID +:+ ".json"])) with
    | Fail e => Fail ("otc: sftp read: " +:+ e)
    | Ok data => Ok data
    end.
Proof.
  intros Hp Hid. unfold FetchSFTPConfirmation, fetchSFTP.
  rewrite (proj2 (String.eqb_neq _ _) Hp), join2_plain; [done..|]. by apply confirmation_name_plain.
Qed.

(** With slashes it may be any file ending in [.json]. *)
Example confirmation_id_leaves_directory : Join2 "/data/otc" "../../etc/desk.json" = "/etc/desk.json".
Proof. reflexivity. Qed.

Example clean_paths :
  map Clean ["/a//b/./c/"; "a/../../b"; ""; "/.."; "./x"] = ["/a/b/c"; "../b"; "."; "/"; "x"].
Proof. reflexivity. Qed.
