(* ===== verification/Secrets.v ===== *)
(** * internal/secrets: credentials from a vault, their rotation and redaction

    [Manager] reads the credentials of a venue through the interface
    [VaultClient]; its calls are recorded in the trace, so the order of reads,
    probe and revocation is observable. [EnvVault] is the client backed by the
    process environment. *)

From S2P Require Export World.

Definition ErrSecretNotFound : error := "secrets: secret not found".

Record Credentials := mkCredentials {
  cr_APIKey : string;
  cr_APISecret : string;
  cr_Version : string;
  cr_LeaseID : string;
  cr_LoadedAt : Time;
}.

Record Secret := mkSecret {
  se_Data : gmap string string;
  se_Version : string;
  se_LeaseID : string;
  se_Renewable : bool;
}.

(** The interface [VaultClient]. *)
Class VaultClient (V : Type) := {
  vault_read : V → string → IO (result Secret);
  vault_revoke : V → string → IO (option error);
}.

(** What an observer of the vault sees. *)
Definition is_vault (e : event) : bool :=
  match e with EvVaultRead _ | EvVaultRevoke _ | EvProbe => true | _ => false end.
Definition vault_log (w : World) : list event := List.filter is_vault (w_trace w).

(** A client is only driven by the manager: it records no vault call of its own. *)
Class VaultLaws (V : Type) `{VaultClient V} : Prop := {
  read_silent : ∀ (v : V) path w, vault_log (snd (vault_read v path w)) = vault_log w;
  revoke_silent : ∀ (v : V) lease w, vault_log (snd (vault_revoke v lease w)) = vault_log w;
}.

(** ** Manager *)

Section Manager.
Context `{E : Env} {V : Type} `{!VaultClient V}.

Record Manager := mkManager {
  mgr_venue : string;
  mgr_client : V;
  mgr_current : option Credentials;
}.

Definition NewManager (venue : string) (client : V) : Manager := mkManager venue client None.

Definition key_path (venue : string) : string := "secret/exchange-connectors/" +:+ venue +:+ "/api-key".
Definition secret_path (venue : string) : string := "secret/exchange-connectors/" +:+ venue +:+ "/api-secret".

(** [m.client.Read] and [m.client.Revoke], recorded. *)
Definition client_read (m : Manager) (path : string) : IO (result Secret) :=
  _ ← trace (EvVaultRead path); vault_read (mgr_client m) path.
Definition client_revoke (m : Manager) (lease : string) : IO (option error) :=
  _ ← trace (EvVaultRevoke lease); vault_revoke (mgr_client m) lease.

Definition data_value (s : Secret) : string := default "" (se_Data s !! "value").

Definition Load (m : Manager) : IO (result Credentials * Manager) :=
  k ← client_read m (key_path (mgr_venue m));
  match k with
  | Fail e => mret (Fail ("load api-key: " +:+ e), m)
  | Ok k =>
      s ← client_read m (secret_path (mgr_venue m));
      match s with
      | Fail e => mret (Fail ("load api-secret: " +:+ e), m)
      | Ok s =>
          now ← time_now;
          let creds := mkCredentials (data_value k) (data_value s) (se_Version k) (se_LeaseID k) now in
          mret (Ok creds, mkManager (mgr_venue m) (mgr_client m) (Some creds))
      end
  end.

Definition Current (m : Manager) : option Credentials := mgr_current m.

(** [old != nil && old.LeaseID != "" && old.LeaseID != newCreds.LeaseID] *)
Definition lease_to_revoke (old : option Credentials) (new : Credentials) : option string :=
  match old with
  | Some o => if negb (String.eqb (cr_LeaseID o) "") && negb (String.eqb (cr_LeaseID o) (cr_LeaseID new))
              then Some (cr_LeaseID o) else None
  | None => None
  end.

(** [probe(ctx, newCreds)], recorded; [None] is the nil function. *)
Definition run_probe (probe : option (Credentials → IO (option error))) (c : Credentials)
    : IO (option error) :=
  match probe with
  | None => mret None
  | Some p => _ ← trace EvProbe; p c
  end.

Definition Rotate (m : Manager) (probe : option (Credentials → IO (option error)))
    : IO (result Credentials * Manager) :=
  let old := Current m in
  '(r, m) ← Load m;
  match r with
  | Fail e => mret (Fail e, m)
  | Ok new =>
      err ← run_probe probe new;
      match err with
      | Some e => mret (Fail ("probe failed: " +:+ e), m)
      | None =>
          match lease_to_revoke old new with
          | Some lease => _ ← client_revoke m lease; mret (Ok new, m)
          | None => mret (Ok new, m)
          end
      end
  end.

Definition RevokeOld (m : Manager) : IO (option error) :=
  match mgr_current m with
  | None => mret None
  | Some c => if String.eqb (cr_LeaseID c) "" then mret None else client_revoke m (cr_LeaseID c)
  end.

End Manager.
Arguments Manager V : clear implicits.

(** ** Redaction *)

Definition Redact (s : string) : string :=
  let n := String.length s in
  if Nat.eqb n 0 then ""
  else if Nat.leb n 4 then Repeat "*" n
  else str_slice s 0 2 +:+ Repeat "*" (n - 4) +:+ str_slice s (n - 2) n.

Definition RedactCreds (c : option Credentials) : option Credentials :=
  match c with
  | None => None
  | Some c => Some (mkCredentials (Redact (cr_APIKey c)) (Redact (cr_APISecret c)) (cr_Version c)
                      (cr_LeaseID c) (cr_LoadedAt c))
  end.

(** ** CredentialStore *)

Record CredentialRecord := mkRecord {
  row_Venue : string;
  row_KeyID : string;
  row_VaultPath : string;
  row_Version : string;
  row_RotatedAt : Time;
}.

(** The rows, in the order in which they were recorded. *)
Record CredentialStore := mkCredentialStore { rows : list CredentialRecord }.

Definition NewCredentialStore : CredentialStore := mkCredentialStore [].

Definition Record_ (s : CredentialStore) (venue keyID vaultPath version : string) (rotatedAt : Time)
    : CredentialStore :=
  mkCredentialStore (rows s ++ [mkRecord venue keyID vaultPath version rotatedAt]).

Definition Rows (s : CredentialStore) : list CredentialRecord := rows s.

(** The loop from index [i - 1] down. *)
Fixpoint latest_from (s : list CredentialRecord) (venue : string) (i : nat) : option CredentialRecord :=
  match i with
  | O => None
  | S i =>
      match s !! i with
      | Some r => if String.eqb (row_Venue r) venue then Some r else latest_from s venue i
      | None => None
      end
  end.

Definition Latest (s : CredentialStore) (venue : string) : option CredentialRecord :=
  latest_from (rows s) venue (length (rows s)).

(** [None] is a nil store or nil credentials. *)
Definition RecordCredentials (store : option CredentialStore) (venue : string) (c : option Credentials)
    : option CredentialStore :=
  match store, c with
  | Some s, Some c =>
      Some (Record_ s venue (Redact (cr_APIKey c))
              ("secret/exchange-connectors/" +:+ venue +:+ "/api-key") (cr_Version c) (cr_LoadedAt c))
  | _, _ => store
  end.

(** ** EnvVault *)

Record EnvVault := mkEnvVault { ev_secrets : gmap string Secret }.

Definition env_secret (val : string) : Secret := mkSecret {["value" := val]} "env" "" false.

(** One variable of the environment; the prefix holds no [=], so the name ends
    after it. *)
Definition env_entry (pfx : string) (m : gmap string Secret) (kv : string) : gmap string Secret :=
  if HasPrefix kv pfx then
    match Index kv "=" with
    | None => m
    | Some eq => <[str_slice kv (String.length pfx) eq := env_secret (str_drop (eq + 1) kv)]> m
    end
  else m.

Section EnvVault.
Context `{E : Env}.

Definition NewEnvVaultFromEnv (prefix : string) : EnvVault :=
  let prefix := if String.eqb prefix "" then "SECRETS" else prefix in
  mkEnvVault (foldl (env_entry (prefix +:+ "_")) ∅ env_environ).

Definition env_read (e : EnvVault) (path : string) : IO (result Secret) :=
  mret (match ev_secrets e !! path with Some s => Ok s | None => Fail ErrSecretNotFound end).

Definition env_revoke (e : EnvVault) (leaseID : string) : IO (option error) := mret None.

#[global] Instance env_vault : VaultClient EnvVault :=
  {| vault_read := env_read; vault_revoke := env_revoke |}.

#[global] Instance env_vault_laws : VaultLaws EnvVault.
Proof. by split. Qed.
End EnvVault.

(** ** Properties of the manager *)
Section ManagerFacts.
Context `{E : Env} {V : Type} `{!VaultClient V} `{!VaultLaws V}.
Implicit Types m : Manager V.

Lemma vault_log_trace e w :
  vault_log (snd (trace e w)) = vault_log w ++ (if is_vault e then [e] else []).
Proof. unfold vault_log, trace. simpl. rewrite List.filter_app. simpl. by destruct (is_vault e). Qed.

Lemma client_read_log m path w :
  vault_log (snd (client_read m path w)) = vault_log w ++ [EvVaultRead path].
Proof. unfold client_read. rewrite bind_run, read_silent. apply vault_log_trace. Qed.

Lemma client_revoke_log m lease w :
  vault_log (snd (client_revoke m lease w)) = vault_log w ++ [EvVaultRevoke lease].
Proof. unfold client_revoke. rewrite bind_run, revoke_silent. apply vault_log_trace. Qed.

(** What [Load] reads and leaves behind. *)
Lemma Load_run m w :
  let '(r, m', w') := Load m w in
  mgr_venue m' = mgr_venue m ∧ mgr_client m' = mgr_client m ∧
  match r with
  | Ok c => m' = mkManager (mgr_venue m) (mgr_client m) (Some c)
      ∧ vault_log w' = vault_log w ++ [EvVaultRead (key_path (mgr_venue m));
                                       EvVaultRead (secret_path (mgr_venue m))]
  | Fail _ => m' = m
      ∧ vault_log w' `prefix_of` vault_log w ++ [EvVaultRead (key_path (mgr_venue m));
                                                 EvVaultRead (secret_path (mgr_venue m))]
  end.
Proof.
  unfold Load. rewrite bind_run.
  pose proof (client_read_log m (key_path (mgr_venue m)) w) as H1.
  destruct (client_read m (key_path (mgr_venue m)) w) as [[k|e] w1]; cbn [fst snd] in *.
  - rewrite bind_run. pose proof (client_read_log m (secret_path (mgr_venue m)) w1) as H2.
    destruct (client_read m (secret_path (mgr_venue m)) w1) as [[s|e] w2]; cbn in *.
    + split_and!; try done. change (vault_log w2 = vault_log w ++
        [EvVaultRead (key_path (mgr_venue m)); EvVaultRead (secret_path (mgr_venue m))]).
      by rewrite H2, H1, <- app_assoc.
    + split_and!; try done. rewrite H2, H1, <- app_assoc. done.
  - cbn. split_and!; try done. rewrite H1. exists [EvVaultRead (secret_path (mgr_venue m))].
    by rewrite <- app_assoc.
Qed.

(** The lease revoked when the credentials [c] replace those of [m]. *)
Definition revoked m (c : Credentials) : list event :=
  match mgr_current m with
  | Some old =>
      if bool_decide (cr_LeaseID old ≠ "" ∧ cr_LeaseID old ≠ cr_LeaseID c)
      then [EvVaultRevoke (cr_LeaseID old)] else []
  | None => []
  end.

Lemma revoked_lease m c :
  revoked m c = match lease_to_revoke (mgr_current m) c with Some l => [EvVaultRevoke l] | None => [] end.
Proof.
  unfold revoked, lease_to_revoke. destruct (mgr_current m) as [old|]; [|done].
  destruct (String.eqb_spec (cr_LeaseID old) ""); cbn [negb andb]; [by rewrite bool_decide_eq_false_2 by tauto|].
  destruct (String.eqb_spec (cr_LeaseID old) (cr_LeaseID c)); cbn [negb];
    [by rewrite bool_decide_eq_false_2 by tauto|by rewrite bool_decide_eq_true_2].
Qed.

(** What the probe answers on the credentials just loaded, from the world after the two
    reads. *)
Definition probe_answer m (p : Credentials → IO (option error)) (c : Credentials) (w : World) : option error :=
  fst (p c (snd (trace EvProbe (snd (Load m w))))).

(** C37: Rotate reads the two secrets, then runs the probe on the credentials just read;
    it succeeds only if the probe, when there is one, accepted them, and then
    revokes the lease of the old key, if it had one that differs from the new one,
    and nothing else; when a read fails the credentials stay as they were; when the
    probe fails its error is returned and nothing is revoked, but the unprobed
    credentials stay current. The probe is taken not to use the vault. *)
Theorem rotate_revokes_only_after_probe m probe w :
  (∀ p c w1, probe = Some p → vault_log (snd (p c w1)) = vault_log w1) →
  let '(r, m', w') := Rotate m probe w in
  let reads := [EvVaultRead (key_path (mgr_venue m)); EvVaultRead (secret_path (mgr_venue m))] in
  let probed := match probe with Some _ => [EvProbe] | None => [] end in
  match r with
  | Ok c => fst (fst (Load m w)) = Ok c ∧ mgr_current m' = Some c
      ∧ (∀ p, probe = Some p → probe_answer m p c w = None)
      ∧ vault_log w' = vault_log w ++ reads ++ probed ++ revoked m c
  | Fail e =>
      (m' = m ∧ vault_log w' `prefix_of` vault_log w ++ reads)
      ∨ (∃ c p err, fst (fst (Load m w)) = Ok c ∧ probe = Some p ∧ probe_answer m p c w = Some err
          ∧ e = "probe failed: " +:+ err
          ∧ mgr_current m' = Some c ∧ vault_log w' = vault_log w ++ reads ++ [EvProbe])
  end.
Proof.
  intros Hprobe. unfold Rotate, probe_answer. rewrite bind_run. pose proof (Load_run m w) as HL.
  destruct (Load m w) as [[[c|e] m1] w1]; cbn [fst snd] in *; [|cbn; left; by destruct HL as (_ & _ & ?)].
  destruct HL as (_ & _ & -> & Hlog). rewrite bind_run.
  assert (vault_log (snd (run_probe probe c w1))
          = vault_log w1 ++ match probe with Some _ => [EvProbe] | None => [] end) as Hpl.
  { unfold run_probe. destruct probe as [p|]; [|symmetry; apply app_nil_r].
    rewrite bind_run, (Hprobe p c _ eq_refl). apply (vault_log_trace EvProbe w1). }
  assert (∀ p, probe = Some p → fst (run_probe probe c w1) = fst (p c (snd (trace EvProbe w1)))) as Hans.
  { intros p ->. unfold run_probe. by rewrite bind_run. }
  destruct (run_probe probe c w1) as [[err|] w2] eqn:Hr; cbn [fst snd] in *.
  - cbn [fst snd mret io_ret]. right. destruct probe as [p|]; [|done].
    exists c, p, err. split_and!; try done; [symmetry; by apply Hans|]. by rewrite Hpl, Hlog, <- app_assoc.
  - unfold Current. pose proof (revoked_lease m c) as Hrev.
    destruct (lease_to_revoke (mgr_current m) c) as [l|].
    + rewrite bind_run. cbn [fst snd mret io_ret]. split_and!; [done|done|intros p Hp; symmetry; by apply Hans|].
      rewrite client_revoke_log, Hpl, Hlog, Hrev. by rewrite <- !app_assoc.
    + cbn [fst snd mret io_ret]. split_and!; [done|done|intros p Hp; symmetry; by apply Hans|].
      by rewrite Hpl, Hlog, Hrev, <- !app_assoc, app_nil_r.
Qed.
End ManagerFacts.

(** ** Properties of the environment vault *)

Lemma env_entry_hit pfx path value m :
  lacks "=" (pfx +:+ path) = true →
  env_entry pfx m (pfx +:+ path +:+ "=" +:+ value) = <[path := env_secret value]> m.
Proof.
  intros Hl. unfold env_entry. rewrite has_prefix_app.
  replace (pfx +:+ path +:+ "=" +:+ value) with ((pfx +:+ path) +:+ String "=" value)
    by (by rewrite str_app_assoc).
  rewrite index_lacks by done. f_equal.
  - unfold str_slice. rewrite str_app_assoc, str_drop_app, str_app_length.
    replace (_ + _ - _)%nat with (String.length path) by lia. apply str_take_app.
  - f_equal. rewrite <- str_drop_drop, str_drop_app. done.
Qed.

Lemma env_entry_miss pfx path m kv :
  lacks "=" pfx = true → HasPrefix kv (pfx +:+ path +:+ "=") = false →
  env_entry pfx m kv !! path = m !! path.
Proof.
  intros Hp Hk. unfold env_entry. destruct (HasPrefix kv pfx) eqn:Hpre; [|done].
  apply has_prefix_split in Hpre as [r Hr].
  destruct (Index kv "=") as [i|] eqn:Hi; [|done].
  apply index_spec in Hi as [Hkv Hl].
  rewrite lookup_insert_ne; [done|]. intros Heq.
  rewrite Hr in Hkv at 1. destruct (lacks_prefix_split _ _ _ _ _ Hp Hl Hkv) as [q Hq].
  assert (str_slice kv (String.length pfx) i = q) as Hsl.
  { unfold str_slice. rewrite Hr, str_drop_app.
    assert (r = q +:+ String "=" (str_drop (i + 1) kv)) as ->.
    { apply (str_app_inj pfx). rewrite Hkv, Hq. by rewrite str_app_assoc. }
    assert (i = String.length (pfx +:+ q)) as Hlen.
    { rewrite <- Hq. rewrite str_take_length; [done|].
      assert (String.length kv = String.length (str_take i kv +:+ String "=" (str_drop (i + 1) kv))) as H
        by (f_equal; rewrite Hr at 1; exact Hkv).
      rewrite str_app_length, str_take_length_min in H. cbn in H. rewrite str_drop_length in H. lia. }
    rewrite Hlen, str_app_length. replace (_ + _ - _)%nat with (String.length q) by lia.
    apply str_take_app. }
  rewrite Hsl in Heq. subst q.
  assert (HasPrefix kv (pfx +:+ path +:+ "=") = true); [|congruence].
  apply has_prefix_split. exists (str_drop (i + 1) kv).
  rewrite Hr at 1. rewrite Hkv, Hq. by rewrite !str_app_assoc.
Qed.

Section EnvVaultFacts.
Context `{E : Env}.

(** The vault of environment variables reads the last variable with the prefix and the
    path. *)
Theorem env_vault_reads_environment prefix path value l1 l2 w :
  prefix ≠ "" → lacks "=" (prefix +:+ "_" +:+ path) = true →
  env_environ = l1 ++ (prefix +:+ "_" +:+ path +:+ "=" +:+ value) :: l2 →
  (∀ kv, kv ∈ l2 → HasPrefix kv (prefix +:+ "_" +:+ path +:+ "=") = false) →
  fst (env_read (NewEnvVaultFromEnv prefix) path w) = Ok (env_secret value).
Proof.
  intros Hne Hl Henv Hlater. unfold env_read, NewEnvVaultFromEnv.
  destruct (String.eqb_spec prefix ""); [done|]. rewrite Henv, foldl_app. cbn [foldl ev_secrets mret io_ret fst].
  replace (prefix +:+ "_" +:+ path) with ((prefix +:+ "_") +:+ path) in Hl by (by rewrite str_app_assoc).
  replace (prefix +:+ "_" +:+ path +:+ "=" +:+ value)
    with ((prefix +:+ "_") +:+ path +:+ "=" +:+ value) by (by rewrite !str_app_assoc).
  rewrite env_entry_hit by done.
  revert Hlater. generalize (foldl (env_entry (prefix +:+ "_")) ∅ l1) as m. intros m Hlater.
  enough (foldl (env_entry (prefix +:+ "_")) (<[path:=env_secret value]> m) l2 !! path
          = Some (env_secret value)) as -> by done.
  rewrite lacks_app in Hl. apply andb_prop in Hl as [Hp _].
  assert (∀ m', m' !! path = Some (env_secret value) →
    foldl (env_entry (prefix +:+ "_")) m' l2 !! path = Some (env_secret value)) as Hfold.
  { clear Henv. induction l2 as [|kv l2 IH]; intros m' Hm; [done|]. cbn. apply IH.
    - intros kv' Hin. apply Hlater. by right.
    - rewrite env_entry_miss; [done|done|]. rewrite !str_app_assoc. apply Hlater. by left. }
  apply Hfold, lookup_insert_eq.
Qed.
End EnvVaultFacts.

(** ** Properties of redaction *)

Lemma str_slice_length s i j : (i ≤ j ≤ String.length s)%nat → String.length (str_slice s i j) = (j - i)%nat.
Proof. intros H. unfold str_slice. apply str_take_length. rewrite str_drop_length. lia. Qed.

Lemma redact_length s : String.length (Redact s) = String.length s.
Proof.
  unfold Redact. destruct (Nat.eqb_spec (String.length s) 0); [by rewrite e|].
  destruct (Nat.leb_spec (String.length s) 4); rewrite ?str_app_length, ?repeat_length; change (String.length "*") with 1%nat; [lia|].
  rewrite !str_slice_length by lia. lia.
Qed.

Lemma str_app_inj_both a b c d :
  String.length a = String.length c → a +:+ b = c +:+ d → a = c ∧ b = d.
Proof.
  revert c. induction a as [|x a IH]; intros [|y c] Hl Heq; try done.
  rewrite !str_app_cons in Heq. injection Heq as -> Heq.
  destruct (IH c) as [-> ->]; [by injection Hl|done|done].
Qed.

(** Two secrets have the same redaction exactly if they have the same length and, beyond
    four bytes, the same two first and two last bytes. *)
Theorem redact_reveals_only_ends s t :
  Redact s = Redact t ↔
  String.length s = String.length t
  ∧ ((4 < String.length s)%nat →
     str_slice s 0 2 = str_slice t 0 2
     ∧ str_slice s (String.length s - 2) (String.length s)
       = str_slice t (String.length t - 2) (String.length t)).
Proof.
  split.
  - intros Heq. assert (String.length s = String.length t) as Hl
      by (rewrite <- (redact_length s), Heq; apply redact_length).
    split; [done|]. intros Hn. revert Heq. unfold Redact. rewrite <- Hl.
    destruct (Nat.eqb_spec (String.length s) 0); [lia|].
    destruct (Nat.leb_spec (String.length s) 4); [lia|]. intros Heq.
    apply str_app_inj_both in Heq as [H1 H2]; [|by rewrite !str_slice_length by lia].
    split; [done|]. by apply str_app_inj in H2.
  - intros [Hl Hends]. unfold Redact. rewrite <- Hl.
    destruct (Nat.eqb_spec (String.length s) 0); [done|].
    destruct (Nat.leb_spec (String.length s) 4); [done|].
    destruct (Hends ltac:(lia)) as [H1 H2]. rewrite <- Hl in H2. by rewrite H1, H2.
Qed.

(** ** Properties of the credential store *)

Lemma latest_from_app s r venue i :
  (i ≤ length s)%nat → latest_from (s ++ [r]) venue i = latest_from s venue i.
Proof.
  induction i as [|i IH]; intros Hi; [done|]. cbn [latest_from]. rewrite lookup_app_l by lia.
  destruct (s !! i); [|done]. case_match; [done|]. apply IH. lia.
Qed.

(** The latest record of a venue is the one just made, with its key redacted; older
    records and other venues are kept. *)
Theorem record_credentials_latest s venue c :
  ∃ s', RecordCredentials (Some s) venue (Some c) = Some s'
  ∧ (∃ r, Latest s' venue = Some r ∧ row_Venue r = venue ∧ row_Version r = cr_Version c
      ∧ row_KeyID r = Redact (cr_APIKey c) ∧ row_RotatedAt r = cr_LoadedAt c)
  ∧ (∀ v, v ≠ venue → Latest s' v = Latest s v)
  ∧ Rows s `prefix_of` Rows s'.
Proof.
  eexists. split; [done|]. unfold Latest, Record_, Rows. cbn [rows]. rewrite length_app, Nat.add_comm. cbn [length latest_from Nat.add].
  rewrite lookup_middle. cbn [row_Venue]. rewrite String.eqb_refl. split_and!.
  - eexists. split; [done|]. done.
  - intros v Hv. destruct (String.eqb_spec venue v); [congruence|]. by apply latest_from_app.
  - by eexists.
Qed.

(** ** Witnesses *)
Section Witnesses.

(** Two variables of the environment; the second one wins. *)
Definition vault_env : Env :=
  let e := demo_env in {|
    env_now := @env_now e; env_range := @env_range e; env_int63n := @env_int63n e;
    env_float64 := @env_float64 e; env_http := @env_http e; env_new_request := @env_new_request e;
    env_sleep := @env_sleep e; env_uuid := @env_uuid e; env_getenv := @env_getenv e;
    env_environ := ["HOME=/"; "SECRETS_k=old"; "SECRETS_k=a=b"; "SECRETS_kk=c"];
    env_kafka := @env_kafka e; env_json_error := @env_json_error e;
    env_base64_error := @env_base64_error e; env_unicode := unicode_id |}.

Lemma env_vault_reads_environment_witness :
  fst (env_read (NewEnvVaultFromEnv (E := vault_env) "SECRETS") "k" world0)
  = Ok (env_secret "a=b").
Proof.
  apply (env_vault_reads_environment (E := vault_env) "SECRETS" "k" "a=b"
           ["HOME=/"; "SECRETS_k=old"] ["SECRETS_kk=c"]); try done.
  intros kv H. apply list_elem_of_singleton in H. by subst kv.
Defined.

(** A manager on that environment; its secrets carry no lease. *)
Definition demo_manager : Manager EnvVault :=
  mkManager "k" (mkEnvVault {[key_path "k" := mkSecret ∅ "v2" "lease-2" false;
                              secret_path "k" := mkSecret ∅ "v2" "lease-3" false]})
    (Some (mkCredentials "old" "old" "v1" "lease-1" 0)).

Definition probe_ok (_ : Credentials) : IO (option error) := mret None.

Lemma rotate_revokes_only_after_probe_witness :
  vault_log (snd (Rotate (E := demo_env) (VaultClient0 := env_vault) demo_manager
    (Some probe_ok) world0))
  = [EvVaultRead (key_path "k"); EvVaultRead (secret_path "k"); EvProbe; EvVaultRevoke "lease-1"].
Proof.
  pose proof (rotate_revokes_only_after_probe (E := demo_env) (VaultClient0 := env_vault)
    (VaultLaws0 := env_vault_laws) demo_manager (Some probe_ok) world0) as H.
  assert (∀ p (c : Credentials) w1, Some probe_ok = Some p →
            vault_log (snd (p c w1)) = vault_log w1) as Hp by (by intros p c w1 [= <-]).
  specialize (H Hp). vm_compute in H |- *. apply H.
Defined.
End Witnesses.
