(* ===== verification/AuthToken.v ===== *)
(** * internal/authtoken: service tokens

    HS256 JSON web tokens: [Issue] and [sign], [verify], and the middleware that
    guards every path but the probes. *)

From S2P Require Export Http JsonFacts Crypto.

(** ** Tokens *)

Record Claims := mkClaims {
  cl_Sub : string;
  cl_Iat : Z;
  cl_Exp : Z;
}.

Definition skipPaths (path : string) : bool :=
  String.eqb path "/healthz" || String.eqb path "/readyz" || String.eqb path "/metrics".

(** The encoding of the claims; the struct tags give the order of the fields. *)
Definition claims_json (c : Claims) : jvalue :=
  VObj [("sub", VStr (cl_Sub c)); ("iat", VInt (cl_Iat c)); ("exp", VInt (cl_Exp c))].

Definition decode_claims : decoder Claims := decode_struct (λ k j c,
  if key_is "sub" k then on_field decode_string cl_Sub (λ v c, mkClaims v (cl_Iat c) (cl_Exp c)) j c
  else if key_is "iat" k then on_field decode_int64 cl_Iat (λ v c, mkClaims (cl_Sub c) v (cl_Exp c)) j c
  else if key_is "exp" k then on_field decode_int64 cl_Exp (λ v c, mkClaims (cl_Sub c) (cl_Iat c) v) j c
  else (c, true)).

(** The header map; [json.Marshal] sorts its keys. *)
Definition jwt_header : jvalue := VObj [("alg", VStr "HS256"); ("typ", VStr "JWT")].

(** [mac.Sum(nil)], encoded. *)
Definition signature (secret msg : string) : string := raw_url_encode (hmac_sha256 secret msg).

Definition sign (header : jvalue) (claims : Claims) (secret : string) : string :=
  let head := raw_url_encode (print header) in
  let body := raw_url_encode (print (claims_json claims)) in
  head +:+ "." +:+ body +:+ "." +:+ signature secret (head +:+ "." +:+ body).

Section Tokens.
Context `{E : Env}.

Definition Issue (serviceName secret : string) : IO (result string) :=
  if String.eqb secret "" then mret (Fail "authtoken: secret is required to issue a token") else
  now ← time_now;
  let claims := mkClaims serviceName (time_unix now) (time_unix (time_add now (24 * Hour))) in
  mret (Ok (sign jwt_header claims secret)).

(** [hmac.Equal] is equality of byte strings. *)
Definition verify (token secret : string) : result Claims :=
  match split_byte "." token with
  | [p0; p1; p2] =>
      let expected := signature secret (p0 +:+ "." +:+ p1) in
      if negb (String.eqb expected p2) then Fail "invalid signature"
      else match raw_url_decode p1 with
      | None => Fail ("decode payload: " +:+ env_base64_error p1)
      | Some body =>
          let '(c, ok) := unmarshal decode_claims body (mkClaims "" 0 0) in
          if negb ok then Fail ("parse payload: " +:+ env_json_error body) else Ok c
      end
  | _ => Fail "malformed token"
  end.

(** ** Configuration *)

(** [SecretFromEnv]; [testing] is [testing.Testing()], [None] the fatal exit. *)
Definition SecretFromEnv (testing : bool) : option (string * bool) :=
  let s := env_getenv "SERVICE_TOKEN_SECRET" in
  if negb (String.eqb s "") then Some (s, false)
  else if String.eqb (env_getenv "DEV_MODE") "1" || testing then Some ("", true)
  else None.

(** ** Middleware *)

(** The body [errBody]. *)
Record errBody := mkErrBody { err_Code : string; err_Message : string }.

(** A service whose handlers also write error bodies. *)
Class ErrorBody (B : Type) := error_body : errBody → B.

Definition writeUnauthorized `{ErrorBody B} (msg : string) : Response B :=
  writeJSON StatusUnauthorized (error_body (mkErrBody "unauthorized" msg)).

Definition Middleware {S} `{ErrorBody B} (secret : string) (bypass : bool) (h : Handler S B)
    : Handler S B := λ s r,
  if bypass || skipPaths (rq_Path r) then h s r else
  let auth := rq_Header r "Authorization" in
  if negb (HasPrefix auth "Bearer ")
  then mret (writeUnauthorized "missing or malformed Authorization header", s) else
  let token := TrimPrefix auth "Bearer " in
  match verify token secret with
  | Fail e => mret (writeUnauthorized e, s)
  | Ok claims =>
      now ← time_now;
      if cl_Exp claims <? time_unix now then mret (writeUnauthorized "token expired", s)
      else h s r
  end.

End Tokens.

(** ** Properties *)

Lemma raw_url_lacks_dot s : lacks "." (raw_url_encode s) = true.
Proof.
  pose proof (raw_url_encode_ok s) as H. unfold lacks. revert H.
  induction (raw_url_encode s) as [|c t IH]; [done|]. cbn. intros [Hc Ht]%andb_prop.
  rewrite (IH Ht). destruct (Ascii.eqb_spec c "."%char) as [->|]; [done|done].
Qed.

Lemma decode_print_claims sub iat exp c0 :
  is_ascii sub = true → in_int64 iat → in_int64 exp →
  unmarshal decode_claims (print (claims_json (mkClaims sub iat exp))) c0 = (mkClaims sub iat exp, true).
Proof.
  intros Hs Hi He. unfold unmarshal, claims_json.
  rewrite parse_print_flat; [|repeat constructor; done|done].
  cbn [map fst snd of_scalar cl_Sub cl_Iat cl_Exp]. unfold decode_claims, decode_struct, decode_members.
  change (key_is "sub" "sub") with true. change (key_is "sub" "iat") with false.
  change (key_is "iat" "iat") with true. change (key_is "sub" "exp") with false.
  change (key_is "iat" "exp") with false. change (key_is "exp" "exp") with true.
  cbn iota. unfold on_field, decode_string, decode_int64. by rewrite !parse_format_int.
Qed.

Section TokenFacts.
Context `{E : Env}.

(** C21: A token issued for a service with an ASCII name and a non-empty secret, at a
    time whose Unix seconds and the expiry fit int64, verifies under the same secret
    and gives back its claims: the service name, the issue time and an expiry 24
    hours later. Goes through JSON, base64url and HMAC-SHA256 as the code does. *)
Theorem verify_issued_token svc secret w :
  secret ≠ "" → is_ascii svc = true → in_int64 (time_unix (env_now (w_ticks w)) + 86400) →
  in_int64 (time_unix (env_now (w_ticks w))) →
  ∃ token, fst (Issue svc secret w) = Ok token
  ∧ verify token secret
    = Ok (mkClaims svc (time_unix (env_now (w_ticks w))) (time_unix (env_now (w_ticks w)) + 86400)).
Proof.
  intros Hsec Hsvc Hexp Hiat. unfold Issue. destruct (String.eqb_spec secret ""); [done|].
  eexists. split; [done|]. cbn [fst snd time_now mret io_ret].
  set (t := env_now (w_ticks w)) in *.
  assert (time_unix (time_add t (24 * Hour)) = time_unix t + 86400) as ->.
  { unfold time_unix, time_add. change (24 * Hour) with (86400 * Second).
    rewrite Z.div_add by done. done. }
  unfold verify, sign.
  rewrite split_byte_app by apply raw_url_lacks_dot.
  rewrite split_byte_app by apply raw_url_lacks_dot.
  rewrite split_byte_lacks by apply raw_url_lacks_dot.
  rewrite String.eqb_refl, raw_url_round_trip. cbn [negb].
  by rewrite decode_print_claims.
Qed.

(** C22: A token that verifies consists of three parts separated by dots: the third is
    the base64url HMAC-SHA256 of the first two under the secret, and the claims are
    those decoded from the second. *)
Theorem verify_only_authentic token secret c :
  verify token secret = Ok c →
  ∃ head body, token = head +:+ "." +:+ body +:+ "." +:+ signature secret (head +:+ "." +:+ body)
  ∧ ∃ payload, raw_url_decode body = Some payload
  ∧ unmarshal decode_claims payload (mkClaims "" 0 0) = (c, true).
Proof.
  intros H. unfold verify in H. pose proof (join_split "." token) as Hj.
  destruct (split_byte "." token) as [|p0 [|p1 [|p2 [|]]]]; try done.
  destruct (String.eqb_spec (signature secret (p0 +:+ "." +:+ p1)) p2) as [He|]; [|done].
  cbn [negb] in H. exists p0, p1. rewrite He. split; [by rewrite <- Hj|].
  destruct (raw_url_decode p1) as [payload|]; [|done]. exists payload. split; [done|].
  destruct (unmarshal decode_claims payload _) as [c' []]; [|done]. by injection H as ->.
Qed.

(** Why a request is turned away at the instant [now]. *)
Definition denial (secret auth : string) (now : Time) : option string :=
  if negb (HasPrefix auth "Bearer ") then Some "missing or malformed Authorization header"
  else match verify (TrimPrefix auth "Bearer ") secret with
  | Fail e => Some e
  | Ok c => if cl_Exp c <? time_unix now then Some "token expired" else None
  end.

(** What the middleware does with a request it denies, and with one it lets through. *)
Lemma middleware_deny {S} `{ErrorBody B} secret (h : Handler S B) s r w msg :
  skipPaths (rq_Path r) = false →
  denial secret (rq_Header r "Authorization") (env_now (w_ticks w)) = Some msg →
  ∃ w', Middleware secret false h s r w = ((writeUnauthorized msg, s), w') ∧ w_trace w' = w_trace w.
Proof.
  unfold Middleware, denial. intros -> Hd. cbn [orb].
  destruct (negb (HasPrefix (rq_Header r "Authorization") "Bearer ")); [injection Hd as <-; by eexists|].
  destruct (verify _ secret) as [c|e]; [|injection Hd as <-; by eexists].
  rewrite bind_run. cbn [fst snd time_now].
  destruct (cl_Exp c <? _); [injection Hd as <-; by eexists|done].
Qed.

Lemma middleware_allow {S} `{ErrorBody B} secret bypass (h : Handler S B) s r w :
  Middleware secret bypass h s r w = h s r w
  ∨ (∃ msg w', Middleware secret bypass h s r w = ((writeUnauthorized msg, s), w') ∧ w_trace w' = w_trace w)
  ∨ Middleware secret bypass h s r w = h s r (snd (time_now w)).
Proof.
  unfold Middleware. destruct (bypass || skipPaths (rq_Path r)); [by left|]. right.
  destruct (negb (HasPrefix (rq_Header r "Authorization") "Bearer ")); [left; by eexists _, _|].
  destruct (verify _ secret) as [c|e]; [|left; by eexists _, _].
  rewrite bind_run. cbn [fst snd time_now].
  destruct (cl_Exp c <? _); [left; by eexists _, _|by right].
Qed.

(** The middleware runs the handler on a skipped path or with a verified, unexpired
    token, and otherwise answers 401 without running it. *)
Theorem middleware_guards {S} `{ErrorBody B} secret (h : Handler S B) s r w :
  (∀ bypass, bypass || skipPaths (rq_Path r) = true → Middleware secret bypass h s r w = h s r w)
  ∧ (skipPaths (rq_Path r) = false →
     match denial secret (rq_Header r "Authorization") (env_now (w_ticks w)) with
     | Some msg => ∃ w', Middleware secret false h s r w = ((writeUnauthorized msg, s), w')
         ∧ w_trace w' = w_trace w
     | None => Middleware secret false h s r w = h s r (snd (time_now w))
         ∧ ∃ token c, rq_Header r "Authorization" = "Bearer " +:+ token ∧ verify token secret = Ok c
           ∧ time_unix (env_now (w_ticks w)) ≤ cl_Exp c
     end).
Proof.
  unfold Middleware, denial. split; [by intros bypass ->|]. intros ->. cbn [orb].
  destruct (HasPrefix (rq_Header r "Authorization") "Bearer ") eqn:Hp; cbn [negb];
    [|by eexists].
  destruct (verify (TrimPrefix (rq_Header r "Authorization") "Bearer ") secret) as [c|e] eqn:Hv;
    [|by eexists].
  apply has_prefix_split in Hp as [token Ht]. rewrite Ht, trim_prefix_app in Hv.
  rewrite bind_run. cbn [fst snd time_now].
  destruct (Z.ltb_spec (cl_Exp c) (time_unix (env_now (w_ticks w)))); [by eexists|].
  split; [done|]. by exists token, c.
Qed.
End TokenFacts.

(** ** Witnesses *)
Section Witnesses.
#[local] Existing Instance demo_env.

Lemma verify_issued_token_witness :
  ∃ token, fst (Issue "svc" "k" world0) = Ok token ∧ is_ok (verify token "k") = true.
Proof.
  destruct (verify_issued_token "svc" "k" world0) as (t & H1 & H2);
    [done|done|vm_compute; done|vm_compute; done|].
  exists t. split; [exact H1|]. rewrite H2. reflexivity.
Defined.

Lemma verify_only_authentic_witness :
  ∃ token head body, verify token "k" = Ok (mkClaims "svc" 1 2)
    ∧ token = head +:+ "." +:+ body +:+ "." +:+ signature "k" (head +:+ "." +:+ body).
Proof.
  exists (sign jwt_header (mkClaims "svc" 1 2) "k").
  destruct (verify_only_authentic (sign jwt_header (mkClaims "svc" 1 2) "k") "k" (mkClaims "svc" 1 2))
    as (head & body & H & _); [vm_compute; reflexivity|].
  exists head, body. split; [vm_compute; reflexivity|exact H].
Defined.

Definition demo_get (path auth : string) : Request := mkRequest "GET" path path (λ _, "") (λ _, auth) "".

#[local] Instance demo_error_body : ErrorBody string := err_Message.

Definition demo_handler : Handler unit string := λ s _, mret (mkResponse StatusOK "", s).

Lemma middleware_guards_witness :
  Middleware "k" false demo_handler tt (demo_get "/healthz" "") world0
    = demo_handler tt (demo_get "/healthz" "") world0
  ∧ ∃ w', Middleware "k" false demo_handler tt (demo_get "/v1/orders" "Bearer x") world0
    = ((writeUnauthorized "malformed token", tt), w').
Proof.
  split.
  - exact (proj1 (middleware_guards "k" demo_handler tt (demo_get "/healthz" "") world0) false eq_refl).
  - destruct (proj2 (middleware_guards "k" demo_handler tt (demo_get "/v1/orders" "Bearer x") world0)
                eq_refl) as (w' & H & _).
    exists w'. exact H.
Defined.
End Witnesses.
