(* ===== verification/Server.v ===== *)
(** * internal/server: the HTTP service

    [Service] and its handlers, over any connector, audit sink, publisher and store;
    the routes behind the token middleware. A handler maps the service and a request
    to the response and the service it leaves. *)

From S2P Require Export AuthToken AuditSink Events Book Store Dummy.

(** The connector as a [*venue.DummyVenueConnector], when it is one. *)
Class AsDummy `{DD : Decimal} (C : Type) := as_dummy : C → option Dummy.DummyVenueConnector.

#[global] Instance dummy_as_dummy `{DD : Decimal} : AsDummy Dummy.DummyVenueConnector := Some.

(** An in-memory store as a value of the interface [Store]. *)
Class OfMemStore `{DD : Decimal} (St : Type) := of_mem_store : MemStore.MemStore → St.

#[global] Instance mem_of_mem_store `{DD : Decimal} : OfMemStore MemStore.MemStore := id.

Section Types.
Context `{DD : Decimal}.

Record adminStatus := mkAdminStatus {
  as_Venue : string;
  as_CircuitBreaker : string;
  as_RateLimitHeadroom : string;
  as_LastFill : option Fill;
  as_Balances : option Balances;
}.

Record orderRequest := mkOrderReq {
  or_Venue : string;
  or_Pair : string;
  or_Side : string;
  or_Type : string;
  or_Amount : string;
  or_Price : string;
}.

Definition zero_order_request : orderRequest := mkOrderReq "" "" "" "" "" "".

Definition decode_order_request : decoder orderRequest := decode_struct (λ k j r,
  let '(mkOrderReq ve pa si ty am pr) := r in
  if key_is "venue" k then on_field decode_string or_Venue (λ v _, mkOrderReq v pa si ty am pr) j r
  else if key_is "pair" k then on_field decode_string or_Pair (λ v _, mkOrderReq ve v si ty am pr) j r
  else if key_is "side" k then on_field decode_string or_Side (λ v _, mkOrderReq ve pa v ty am pr) j r
  else if key_is "type" k then on_field decode_string or_Type (λ v _, mkOrderReq ve pa si v am pr) j r
  else if key_is "amount" k then on_field decode_string or_Amount (λ v _, mkOrderReq ve pa si ty v pr) j r
  else if key_is "price" k then on_field decode_string or_Price (λ v _, mkOrderReq ve pa si ty am v) j r
  else (r, true)).

Record orderResponse := mkOrderResp {
  out_VenueOrderID : string;
  out_ClientOrderID : string;
  out_Status : string;
  out_FilledQty : D;
  out_AvgPrice : D;
  out_Fills : list Fill;
  out_Venue : string;
  out_Pair : string;
}.

(** The values the handlers encode. *)
Inductive body :=
  | BStrings (m : gmap string string)
  | BAdmin (a : adminStatus)
  | BPlaced (o : orderResponse)
  | BOrder (o : OrderResponse)
  | BFills (order_id : string) (fills : list Fill)
  | BBalances (b : Balances)
  | BTop (t : TopOfBook)
  | BErr (e : errBody)
  | BRedirect (location : string)
  | BPageNotFound.

#[global] Instance body_error : ErrorBody body := BErr.

Definition writeError (status : Z) (msg : string) : Response body :=
  writeJSON status (BStrings {["error" := msg]}).

Record Config (St : Type) := mkConfig {
  cf_VenueName : string;
  cf_Pairs : list string;
  cf_Store : option St;
}.

End Types.
Arguments mkConfig {St} _ _ _.
Arguments cf_VenueName {St} _.
Arguments cf_Pairs {St} _.
Arguments cf_Store {St} _.

(** The id and the action of a path below [/v1/orders/]. *)
Definition splitOrderPath (p : string) : string * string :=
  let trimmed := TrimSuffix (TrimPrefix p "/v1/orders/") "/" in
  match SplitN2 trimmed "/" with
  | [] => ("", "")
  | [id] => (id, "")
  | id :: sub :: _ => (id, sub)
  end.

Section Server.
Context `{DD : Decimal} `{E : Env}.
Context {C K P St : Type} `{!VenueConnector C} `{!AsDummy C} `{!Sink K} `{!Publisher P}
  `{!Store St} `{!OfMemStore St}.

(** The order book aggregator is fed concurrently; a handler sees its current state. *)
Record Service := mkService {
  connector : C;
  book : BookAggregator;
  audit : option K;
  events : option (Bus P);
  venueName : string;
  ready : bool;
  store : option St;
}.

Definition set_connector (c : C) (s : Service) : Service :=
  mkService c (book s) (audit s) (events s) (venueName s) (ready s) (store s).
Definition set_audit (k : option K) (s : Service) : Service :=
  mkService (connector s) (book s) k (events s) (venueName s) (ready s) (store s).
Definition set_store (st : option St) (s : Service) : Service :=
  mkService (connector s) (book s) (audit s) (events s) (venueName s) (ready s) st.

(** A new service, or the error of the order book subscription. *)
Definition NewService (conn : C) (sink : option K) (cfg : Config St) (bus : option (Bus P))
    : IO (result Service) :=
  '(r, conn) ← NewBookAggregator conn (cf_Pairs cfg);
  match r with
  | Fail e => mret (Fail e)
  | Ok agg =>
      let st := match cf_Store cfg with Some st => st | None => of_mem_store MemStore.New end in
      mret (Ok (mkService conn agg sink bus (cf_VenueName cfg) true (Some st)))
  end.

Definition handler : Type := Handler Service body.

(** ** Probes and administration *)

Definition handleHealthz : handler := λ s r,
  mret (writeJSON StatusOK (BStrings {["status" := "ok"]}), s).

Definition handleReadyz : handler := λ s r,
  if ready s then mret (writeJSON StatusOK (BStrings {["status" := "ready"]}), s)
  else mret (writeError StatusServiceUnavailable "not ready", s).

Definition handleAdminStatus : handler := λ s r,
  let lastFill := d ← as_dummy (connector s); Dummy.LastFill d in
  mret (writeJSON StatusOK (BAdmin (mkAdminStatus (venueName s) "closed" "unlimited" lastFill None)), s).

(** [if s.audit != nil { s.audit.Emit(e) }] *)
Definition emit (s : Service) (e : AuditEvent) : IO Service :=
  match audit s with
  | Some k => k ← Emit k e; mret (set_audit (Some k) s)
  | None => mret s
  end.

Definition handleRotateCreds : handler := λ s r,
  s ← emit s (empty_event EventCredRotation (venueName s));
  mret (writeJSON StatusOK (BStrings {["status" := "rotated"]}), s).

(** ** Placing an order *)

(** The checks of [handleOrdersRoot] before the venue is called: the response that
    turns the request away, or the decoded request with its amount and price. *)
Definition check_order (r : Request) : Response body + (orderRequest * D * D) :=
  if negb (String.eqb (rq_Method r) "POST")
  then inl (writeError StatusMethodNotAllowed "method not allowed") else
  let '(req, ok) := decode_body decode_order_request (rq_Body r) zero_order_request in
  if negb ok
  then inl (writeError StatusBadRequest ("invalid json: " +:+ env_json_error (rq_Body r))) else
  if String.eqb (or_Venue req) "" || String.eqb (or_Pair req) "" || String.eqb (or_Side req) ""
     || String.eqb (or_Type req) "" || String.eqb (or_Amount req) ""
  then inl (writeError StatusBadRequest "missing or invalid fields") else
  match dec_of_string (or_Amount req) with
  | None => inl (writeError StatusBadRequest "invalid amount")
  | Some amount =>
      if dec_leb amount dec_zero then inl (writeError StatusBadRequest "invalid amount") else
      if String.eqb (or_Price req) "" then inr (req, amount, dec_zero) else
      match dec_of_string (or_Price req) with
      | None => inl (writeError StatusBadRequest "invalid price")
      | Some price => inr (req, amount, price)
      end
  end.

(** [vReq]: no client order id. *)
Definition venue_request (req : orderRequest) (amount price : D) : OrderRequest :=
  mkOrderRequest "" (or_Pair req) (or_Side req) (or_Type req) amount price.

Definition order_record (venue : string) (req : orderRequest) (amount price : D)
    (resp : OrderResponse) : Order :=
  mkOrder (resp_VenueOrderID resp) (resp_ClientOrderID resp) venue (or_Pair req) (or_Side req)
    (or_Type req) (resp_Status resp) (resp_FilledQty resp) (resp_AvgPrice resp) amount price
    zero_time zero_time.

Definition fill_record (venue orderID pair : string) (f : Fill) : StoredFill :=
  mkStoredFill orderID (fill_TradeID f) venue pair (fill_Price f) (fill_Quantity f) (fill_Fee f)
    (fill_FeeAsset f) (fill_Timestamp f).

(** The loop over the fills; the errors of the store are dropped. *)
Fixpoint record_fills (st : St) (fs : list StoredFill) : IO St :=
  match fs with
  | [] => mret st
  | f :: fs => '(_, st) ← RecordFill st f; record_fills st fs
  end.

(** [if s.store != nil { ... }] *)
Definition record_placed (s : Service) (req : orderRequest) (amount price : D)
    (resp : OrderResponse) : IO Service :=
  match store s with
  | None => mret s
  | Some st =>
      '(_, st) ← RecordOrder st (order_record (venueName s) req amount price resp);
      st ← record_fills st
             (map (fill_record (venueName s) (resp_VenueOrderID resp) (or_Pair req)) (resp_Fills resp));
      mret (set_store (Some st) s)
  end.

Definition placed_event (venue : string) (req : orderRequest) (amount price : D)
    (resp : OrderResponse) : AuditEvent :=
  mkEvent EventOrderPlaced venue zero_time (resp_VenueOrderID resp) (resp_ClientOrderID resp)
    (or_Pair req) (or_Side req) (or_Type req) amount price None None "".

Definition fill_event (venue orderID pair : string) (f : Fill) : AuditEvent :=
  mkEvent EventFill venue zero_time orderID "" pair "" "" dec_zero dec_zero
    (Some (mkFillDetail (fill_TradeID f) (fill_Price f) (fill_Quantity f) (fill_Fee f)
             (fill_FeeAsset f) (fill_Timestamp f))) None "".

(** The loop over the fills: an audit event, then the fill event on the bus. *)
Fixpoint announce_fills (k : K) (bus : option (Bus P)) (venue orderID pair : string) (fs : list Fill) : IO K :=
  match fs with
  | [] => mret k
  | f :: fs =>
      k ← Emit k (fill_event venue orderID pair f);
      _ ← match bus with
          | Some b => _ ← PublishFill b (FillFromVenue venue orderID pair f); mret tt
          | None => mret tt
          end;
      announce_fills k bus venue orderID pair fs
  end.

(** [if s.audit != nil { ... }] *)
Definition announce_placed (s : Service) (req : orderRequest) (amount price : D)
    (resp : OrderResponse) : IO Service :=
  match audit s with
  | None => mret s
  | Some k =>
      k ← Emit k (placed_event (venueName s) req amount price resp);
      k ← announce_fills k (events s) (venueName s) (resp_VenueOrderID resp) (or_Pair req) (resp_Fills resp);
      mret (set_audit (Some k) s)
  end.

Definition order_response (venue pair : string) (resp : OrderResponse) : orderResponse :=
  mkOrderResp (resp_VenueOrderID resp) (resp_ClientOrderID resp) (resp_Status resp)
    (resp_FilledQty resp) (resp_AvgPrice resp) (resp_Fills resp) venue pair.

Definition handleOrdersRoot : handler := λ s r,
  match check_order r with
  | inl resp => mret (resp, s)
  | inr (req, amount, price) =>
      '(placed, c) ← PlaceOrder (connector s) (venue_request req amount price);
      let s := set_connector c s in
      match placed with
      | Fail e => mret (writeError StatusBadGateway ("place order: " +:+ e), s)
      | Ok resp =>
          s ← record_placed s req amount price resp;
          s ← announce_placed s req amount price resp;
          mret (writeJSON StatusOK (BPlaced (order_response (venueName s) (or_Pair req) resp)), s)
      end
  end.

(** ** One order *)

Definition method_not_allowed : Response body := writeError StatusMethodNotAllowed "method not allowed".

Definition order_event (ty : EventType) (venue orderID : string) : AuditEvent :=
  mkEvent ty venue zero_time orderID "" "" "" "" dec_zero dec_zero None None "".

(** The case [cancel] of [handleOrderSub]. *)
Definition cancel_order (id : string) : handler := λ s r,
  if negb (String.eqb (rq_Method r) "POST") then mret (method_not_allowed, s) else
  '(err, c) ← CancelOrder (connector s) (mkCancelRequest id "");
  let s := set_connector c s in
  match err with
  | Some e => mret (writeError StatusBadGateway ("cancel: " +:+ e), s)
  | None =>
      s ← emit s (order_event EventOrderCanceled (venueName s) id);
      mret (writeJSON StatusOK (BStrings (<["status" := "canceled"]> {["order_id" := id]})), s)
  end.

(** [limit]: 0 unless the query has a number. *)
Definition query_limit (r : Request) : Z :=
  let q := rq_Query r "limit" in
  if String.eqb q "" then 0 else default 0 (Atoi q).

(** The case [fills]. *)
Definition order_fills (id : string) : handler := λ s r,
  if negb (String.eqb (rq_Method r) "GET") then mret (method_not_allowed, s) else
  '(fills, c) ← GetFills (connector s) (mkFillQuery id zero_time zero_time (query_limit r));
  let s := set_connector c s in
  mret (match fills with
        | Fail e => writeError StatusBadGateway ("fills: " +:+ e)
        | Ok fs => writeJSON StatusOK (BFills id fs)
        end, s).

(** The case [status], also without an action. *)
Definition order_status (id : string) : handler := λ s r,
  if negb (String.eqb (rq_Method r) "GET") then mret (method_not_allowed, s) else
  '(o, c) ← GetOrder (connector s) id;
  let s := set_connector c s in
  mret (match o with
        | Fail e => writeError StatusBadGateway ("get order: " +:+ e)
        | Ok o => writeJSON StatusOK (BOrder o)
        end, s).

Definition handleOrderSub : handler := λ s r,
  let '(id, sub) := splitOrderPath (rq_Path r) in
  if String.eqb id "" then mret (writeError StatusBadRequest "missing order id", s)
  else if String.eqb sub "cancel" then cancel_order id s r
  else if String.eqb sub "fills" then order_fills id s r
  else if String.eqb sub "status" || String.eqb sub "" then order_status id s r
  else mret (writeError StatusNotFound "not found", s).

(** ** Balances and the order book *)

Definition balance_event (venue : string) (b : Balance) : AuditEvent :=
  mkEvent EventBalanceSnapshot venue zero_time "" "" "" "" "" dec_zero dec_zero None
    (Some (mkBalanceDetail (bal_Asset b) (bal_Free b) (bal_Locked b))) "".

(** The loop over the assets. *)
Fixpoint announce_balances (k : K) (bus : option (Bus P)) (venue : string) (bs : list Balance) : IO K :=
  match bs with
  | [] => mret k
  | b :: bs =>
      k ← Emit k (balance_event venue b);
      _ ← match bus with
          | Some u => ev ← BalanceFromVenue venue b; _ ← PublishBalance u ev; mret tt
          | None => mret tt
          end;
      announce_balances k bus venue bs
  end.

Definition handleBalances : handler := λ s r,
  if negb (String.eqb (rq_Method r) "GET") then mret (method_not_allowed, s) else
  '(b, c) ← GetBalances (connector s);
  let s := set_connector c s in
  match b with
  | Fail e => mret (writeError StatusBadGateway ("balances: " +:+ e), s)
  | Ok b =>
      s ← match audit s with
          | None => mret s
          | Some k =>
              entries ← range_map b;
              k ← announce_balances k (events s) (venueName s) (map snd entries);
              mret (set_audit (Some k) s)
          end;
      mret (writeJSON StatusOK (BBalances b), s)
  end.

Definition handleBook : handler := λ s r,
  if negb (String.eqb (rq_Method r) "GET") then mret (method_not_allowed, s) else
  let pair := TrimSuffix (TrimPrefix (rq_Path r) "/v1/book/") "/" in
  if String.eqb pair "" then mret (writeError StatusBadRequest "missing pair", s) else
  match Get (book s) pair with
  | None => mret (writeError StatusNotFound "no book for pair", s)
  | Some top => mret (writeJSON StatusOK (BTop top), s)
  end.

(** ** Routes *)

Definition mux : list (string * handler) :=
  [("/healthz", handleHealthz); ("/readyz", handleReadyz); ("/admin/status", handleAdminStatus);
   ("/admin/rotate-credentials", handleRotateCreds); ("/v1/orders", handleOrdersRoot);
   ("/v1/orders/", handleOrderSub); ("/v1/balances", handleBalances); ("/v1/book/", handleBook)].

Definition serve_mux : handler := λ s r,
  match Mux.dispatch mux r with
  | Mux.Serve h => h s r
  | Mux.Redirect loc => mret (mkResponse StatusMovedPermanently (BRedirect loc), s)
  | Mux.NotFound => mret (mkResponse StatusNotFound BPageNotFound, s)
  end.

(** [None] is the fatal exit of [SecretFromEnv]. *)
Definition Routes (testing : bool) : option handler :=
  '(secret, bypass) ← SecretFromEnv testing; Some (Middleware secret bypass serve_mux).

End Server.
Arguments Service {DD} C K P St.
