(* ===== verification/ServerFacts.v ===== *)
(** * The HTTP service: properties

    The routes and their guards, the effects of placing an order on the venue, the
    store, the audit log and the bus, and what the read-only handlers leave alone. *)

From S2P Require Export Traces Server Binance Kraken Otc.

(** ** Paths *)

Lemma lacks_no_suffix c s : lacks c s = true → HasSuffix s (String c "") = false.
Proof.
  intros Hl. apply not_true_iff_false. intros Hs%has_suffix_split.
  rewrite Hs, lacks_app in Hl. apply andb_prop in Hl as [_ Hl]. unfold lacks in Hl. cbn in Hl.
  by rewrite Ascii.eqb_refl in Hl.
Qed.

Lemma index_none c s : lacks c s = true → Index s (String c "") = None.
Proof.
  intros Hl. destruct (Index s (String c "")) as [i|] eqn:Hi; [|done].
  apply index_spec in Hi as [Hs _]. rewrite Hs, lacks_app in Hl. apply andb_prop in Hl as [_ Hl].
  unfold lacks in Hl. cbn in Hl. by rewrite Ascii.eqb_refl in Hl.
Qed.

Definition slash (b : bool) : string := if b then "/" else "".

Lemma trim_trailing_slash s b : HasSuffix s "/" = false → TrimSuffix (s +:+ slash b) "/" = s.
Proof.
  intros Hs. destruct b; [apply trim_suffix_app|]. rewrite str_app_nil_r.
  unfold TrimSuffix. by rewrite Hs.
Qed.

Lemma split_order_path id sub b :
  lacks "/" id = true → sub ≠ "" → HasSuffix sub "/" = false →
  splitOrderPath ("/v1/orders/" +:+ id +:+ slash b) = (id, "")
  ∧ splitOrderPath ("/v1/orders/" +:+ id +:+ "/" +:+ sub +:+ slash b) = (id, sub).
Proof.
  intros Hid Hne Hsub. unfold splitOrderPath. rewrite !trim_prefix_app. split.
  - rewrite trim_trailing_slash by (by apply lacks_no_suffix).
    unfold SplitN2. by rewrite index_none.
  - replace (id +:+ "/" +:+ sub +:+ slash b) with ((id +:+ "/" +:+ sub) +:+ slash b)
      by (by rewrite !str_app_assoc).
    rewrite trim_trailing_slash.
    2:{ replace (id +:+ "/" +:+ sub) with ((id +:+ "/") +:+ sub) by (by rewrite !str_app_assoc).
        rewrite has_suffix_end; [done|]. destruct sub; [done|cbn; lia]. }
    unfold SplitN2. change ("/" +:+ sub) with (String "/" sub). rewrite index_lacks by done.
    rewrite str_take_app, <- str_drop_drop, str_drop_app. done.
Qed.

(** An id without slashes and an action are read back from the paths that name them. *)
Theorem order_path_round_trip id sub b :
  lacks "/" id = true → sub ≠ "" → HasSuffix sub "/" = false →
  splitOrderPath ("/v1/orders/" +:+ id +:+ slash b) = (id, "")
  ∧ splitOrderPath ("/v1/orders/" +:+ id +:+ "/" +:+ sub +:+ slash b) = (id, sub).
Proof. apply split_order_path. Qed.

(** ** What the handlers rely on *)

(** No counter of the audit sinks is updated. *)
Definition unaudited (e : event) : Prop :=
  match e with EvMetric name _ _ => HasPrefix name "audit_" = false | _ => True end.
#[export] Hint Extern 1 (unaudited _) => (exact I || reflexivity) : emits.

Section Handed.
Context `{DD : Decimal} `{E : Env} {K : Type} `{!Sink K}.

(** From [w] to [w'] the sink is given the events [es], in this order, and nothing else:
    between the calls of [Emit] no sink counts anything. *)
Inductive handed : K → World → list AuditEvent → K → World → Prop :=
  | handed_done k w w' tr :
      w_trace w' = w_trace w ++ tr → Forall unaudited tr → handed k w [] k w'
  | handed_emit k w tr w0 e k1 w1 es k2 w2 :
      w_trace w0 = w_trace w ++ tr → Forall unaudited tr →
      Emit k e w0 = (k1, w1) → handed k1 w1 es k2 w2 → handed k w (e :: es) k2 w2.

Lemma handed_nil k w : handed k w [] k w.
Proof. apply (handed_done k w w []); [by rewrite app_nil_r|done]. Qed.

Lemma handed_now k w e k1 w1 es k2 w2 :
  Emit k e w = (k1, w1) → handed k1 w1 es k2 w2 → handed k w (e :: es) k2 w2.
Proof. apply (handed_emit k w []); [by rewrite app_nil_r|done]. Qed.

(** What happens before adds to the first interval. *)
Lemma handed_after {A} (m : IO A) k w es k' w' :
  emits unaudited m → handed k (snd (m w)) es k' w' → handed k w es k' w'.
Proof.
  intros Hm H. destruct (Hm w) as (tr & Ht & Hp). remember (snd (m w)) as w1 eqn:Hw. revert Ht Hp. clear Hw.
  destruct H as [k w1 w' tr' Ht' Hp'|k w1 tr' w0 e k1 w2 es k2 w3 Ht' Hp' He Hr]; intros Ht Hp.
  - apply (handed_done _ _ _ (tr ++ tr')); [by rewrite Ht', Ht, app_assoc|by apply Forall_app].
  - apply (handed_emit _ _ (tr ++ tr') w0 _ k1 w2); [by rewrite Ht', Ht, app_assoc|by apply Forall_app|done|done].
Qed.
End Handed.

(** An audit sink neither publishes on the bus nor sleeps. *)
Class SinkLaws `{DD : Decimal} `{E : Env} (K : Type) `{!Sink K} : Prop :=
  emit_silent : ∀ (k : K) e w, attempts_of (snd (Emit k e w)) = attempts_of w.

Section SinkInstances.
Context `{DD : Decimal} `{E : Env}.

Lemma attempts_emits {A} (m : IO A) w : emits (λ e, is_attempt e = false) m → attempts_of (snd (m w)) = attempts_of w.
Proof.
  intros H. destruct (H w) as (tr & Ht & Hp). unfold attempts_of. rewrite Ht, List.filter_app.
  assert (List.filter is_attempt tr = []) as ->; [|by rewrite app_nil_r].
  clear Ht. induction Hp as [|e tr He _ IH]; [done|]. cbn. by rewrite He.
Qed.

#[export] Instance in_memory_laws : SinkLaws InMemory.InMemorySink.
Proof. intros k e w. apply attempts_emits. unfold Emit, InMemory.in_memory_sink, InMemory.Emit, stamped. solve_emits. Qed.

#[export] Instance kafka_laws : SinkLaws Kafka.KafkaSink.
Proof. intros k e w. apply attempts_emits. unfold Emit, Kafka.kafka_sink, Kafka.Emit, stamped. solve_emits. Qed.

#[export] Instance grpc_laws : SinkLaws Logging.gRPCClient.
Proof. intros k e w. apply attempts_emits. unfold Emit, Logging.grpc_sink, Logging.gRPC_Emit. solve_emits. Qed.

#[export] Instance log_laws : SinkLaws Logging.logSink.
Proof. intros k e w. apply attempts_emits. unfold Emit, Logging.log_sink, Logging.log_Emit. solve_emits. Qed.

(** The in-memory sink has what it was given, with the instant filled in. *)
Lemma handed_in_memory k w es k' w' :
  handed (K := InMemory.InMemorySink) k w es k' w' →
  ∃ evs, InMemory.events k' = InMemory.events k ++ evs ∧ Forall2 (λ e e', ∃ t, e' = stamp t e) es evs.
Proof.
  induction 1 as [|k w tr w0 e k1 w1 es k2 w2 _ _ He _ (evs & Hevs & Hf)]; [exists []; by rewrite app_nil_r|].
  unfold Emit, InMemory.in_memory_sink, InMemory.Emit, stamped in He. rewrite bind_run in He.
  destruct (time_is_zero (ev_Timestamp e)); injection He as <- _; cbn in Hevs;
    (eexists (_ :: evs); rewrite Hevs, <- app_assoc; split; [done|]; constructor; [|done]); [by eexists|].
  exists (ev_Timestamp e). by destruct e.
Qed.
End SinkInstances.

(** uuid.NewString gives a text of hexadecimal digits and dashes. *)
Class UUIDLaws (E : Env) : Prop :=
  uuid_text : ∀ tr, env_uuid tr ≠ "" ∧ lacks "/" (env_uuid tr) = true.


Definition fill_key `{DD : Decimal} (f : StoredFill) : string * string := (sf_Venue f, sf_TradeID f).

(** The fills of [fs] whose trade was not seen before, each trade once. *)
Fixpoint fresh_fills `{DD : Decimal} (seen : list (string * string)) (fs : list StoredFill) : list StoredFill :=
  match fs with
  | [] => []
  | f :: fs =>
      if decide (fill_key f ∈ seen) then fresh_fills seen fs
      else f :: fresh_fills (seen ++ [fill_key f]) fs
  end.

Section StoreRuns.
Context `{DD : Decimal} `{E : Env} {St : Type} `{!Store St}.
Context {inv : St → Prop} {stored : St → string → option Order} {recorded : St → list StoredFill}
  `{!StoreLaws St inv stored recorded}.


(** No trade is kept twice, and every trade of [fs] is kept. *)
Lemma fresh_fills_keys seen fs f : f ∈ fs → fill_key f ∈ seen ∨ fill_key f ∈ map fill_key (fresh_fills seen fs).
Proof.
  revert seen. induction fs as [|g fs IH]; intros seen; [by intros ?%elem_of_nil|].
  intros [->|Hf]%elem_of_cons; cbn [fresh_fills]; case_decide as Hin.
  - by left.
  - right. by left.
  - by apply IH.
  - destruct (IH (seen ++ [fill_key g]) Hf) as [[H|H%list_elem_of_singleton]%elem_of_app|H]; [by left| |].
    + right. rewrite H. by left.
    + right. by right.
Qed.

Lemma fresh_fills_nodup seen fs : NoDup (seen ++ map fill_key fs) → fresh_fills seen fs = fs.
Proof.
  revert seen. induction fs as [|f fs IH]; intros seen Hnd; [done|]. cbn [fresh_fills map] in *.
  rewrite decide_False.
  - f_equal. apply IH. by rewrite <- app_assoc.
  - apply NoDup_app in Hnd as (_ & Hd & _). intros Hin. apply (Hd _ Hin). by left.
Qed.
End StoreRuns.

Section Handlers.
Context `{DD : Decimal} `{E : Env}.
Context {C K P St : Type} `{!VenueConnector C} `{!AsDummy C} `{!Sink K} `{!Publisher P}
  `{!Store St} `{!OfMemStore St}.
Implicit Types (s : Service C K P St) (r : Request) (req : orderRequest).

(** A valid order request. *)
Definition valid_order r req (amount price : D) : Prop :=
  rq_Method r = "POST"
  ∧ decode_body decode_order_request (rq_Body r) zero_order_request = (req, true)
  ∧ or_Venue req ≠ "" ∧ or_Pair req ≠ "" ∧ or_Side req ≠ "" ∧ or_Type req ≠ ""
  ∧ dec_of_string (or_Amount req) = Some amount ∧ or_Amount req ≠ "" ∧ dec_cmp amount dec_zero = Gt
  ∧ (or_Price req = "" ∧ price = dec_zero
     ∨ or_Price req ≠ "" ∧ dec_of_string (or_Price req) = Some price).

Lemma check_order_valid r req amount price :
  check_order r = inr (req, amount, price) ↔ valid_order r req amount price.
Proof.
  unfold check_order, valid_order.
  destruct (String.eqb_spec (rq_Method r) "POST") as [Hm|Hm]; cbn [negb];
    [|split; [done|by intros [? _]]].
  destruct (decode_body decode_order_request (rq_Body r) zero_order_request) as [q [|]] eqn:Hd; cbn [negb];
    [|split; [done|by intros (_ & [=] & _)]].
  split.
  - destruct (String.eqb_spec (or_Venue q) ""), (String.eqb_spec (or_Pair q) ""),
      (String.eqb_spec (or_Side q) ""), (String.eqb_spec (or_Type q) ""),
      (String.eqb_spec (or_Amount q) ""); cbn [orb]; try done.
    destruct (dec_of_string (or_Amount q)) as [a|] eqn:Ha; [|done].
    unfold dec_leb. destruct (dec_cmp a dec_zero) eqn:Hc; try done.
    destruct (String.eqb_spec (or_Price q) "") as [Hp|Hp].
    + intros [= <- <- <-]. split_and!; try done. by left.
    + destruct (dec_of_string (or_Price q)) as [p|] eqn:Hpp; [|done].
      intros [= <- <- <-]. split_and!; try done. by right.
  - intros (_ & [= ->] & H1 & H2 & H3 & H4 & Ha & H5 & Hc & Hp).
    rewrite (proj2 (String.eqb_neq _ _) H1), (proj2 (String.eqb_neq _ _) H2),
      (proj2 (String.eqb_neq _ _) H3), (proj2 (String.eqb_neq _ _) H4), (proj2 (String.eqb_neq _ _) H5).
    cbn [orb]. rewrite Ha. unfold dec_leb. rewrite Hc.
    destruct Hp as [[-> ->]|[Hne Hp]]; [done|].
    by rewrite (proj2 (String.eqb_neq _ _) Hne), Hp.
Qed.

Lemma check_order_refused r resp :
  check_order r = inl resp →
  rs_Status resp = (if String.eqb (rq_Method r) "POST" then StatusBadRequest else StatusMethodNotAllowed).
Proof.
  unfold check_order. destruct (String.eqb (rq_Method r) "POST"); cbn [negb]; [|by intros [= <-]].
  destruct (decode_body _ _ _) as [q [|]]; cbn [negb]; [|by intros [= <-]].
  destruct (_ || _); [by intros [= <-]|].
  destruct (dec_of_string (or_Amount q)) as [a|]; [|by intros [= <-]].
  destruct (dec_leb a dec_zero); [by intros [= <-]|].
  destruct (String.eqb (or_Price q) ""); [done|].
  destruct (dec_of_string (or_Price q)); [done|by intros [= <-]].
Qed.

(** C24: handleOrdersRoot calls the connector exactly for a POST with decodable JSON,
    the five mandatory fields, a positive amount and an absent or readable price;
    every other request is answered 405 or 400 with no effect at all, and an error
    of the connector is answered 502 with nothing stored, audited or published. *)
Theorem orders_reach_venue_only_if_valid s r w :
  match check_order r with
  | inl resp => handleOrdersRoot s r w = ((resp, s), w)
      ∧ rs_Status resp = (if String.eqb (rq_Method r) "POST" then StatusBadRequest else StatusMethodNotAllowed)
      ∧ ∀ req amount price, ¬ valid_order r req amount price
  | inr (req, amount, price) => valid_order r req amount price
      ∧ ∀ e c' w', PlaceOrder (connector s) (venue_request req amount price) w = ((Fail e, c'), w') →
          handleOrdersRoot s r w
          = ((writeError StatusBadGateway ("place order: " +:+ e), set_connector c' s), w')
  end.
Proof.
  unfold handleOrdersRoot. destruct (check_order r) as [resp|[[req amount] price]] eqn:Hc.
  - split; [done|]. split; [by apply check_order_refused|].
    intros req amount price Hv%check_order_valid. congruence.
  - split; [by apply check_order_valid|]. intros e c' w' Hp. rewrite bind_run, Hp. done.
Qed.

Section Placed.
Context {inv : St → Prop} {stored : St → string → option Order} {recorded : St → list StoredFill}
  `{!StoreLaws St inv stored recorded}.
Context `{!SinkLaws K} `{!PublisherLaws P}.






(** The publisher and the dead-letter handler have nothing to do with the audit sinks, and
    the handler does not publish. *)
Definition quiet_bus (bus : option (Bus P)) : Prop :=
  match bus with
  | None => True
  | Some b => quiet_dead_letter b ∧ (∀ subject data, emits unaudited (Publish (bus_publisher b) subject data))
      ∧ ∀ ev e, emits unaudited (bus_deadLetter b ev e)
  end.

Lemma attempts_unaudited (b : Bus P) subject data attempt more :
  (∀ subject data, emits unaudited (Publish (bus_publisher b) subject data)) →
  emits unaudited (attempt_loop b subject data attempt more).
Proof.
  intros Hp. revert attempt. induction more; intros attempt; cbn [attempt_loop]; unfold publish_once; solve_emits.
Qed.
#[local] Hint Resolve attempts_unaudited : emits.

Lemma publish_fill_unaudited (b : Bus P) ev : quiet_bus (Some b) → emits unaudited (PublishFill b ev).
Proof. intros (_ & Hp & Hd). unfold PublishFill, complete_fill, publish_loop, seconds_since. solve_emits. Qed.

Lemma publish_balance_unaudited (b : Bus P) ev : quiet_bus (Some b) → emits unaudited (PublishBalance b ev).
Proof. intros (_ & Hp & Hd). unfold PublishBalance, complete_balance, publish_loop, seconds_since. solve_emits. Qed.
#[local] Hint Resolve publish_fill_unaudited publish_balance_unaudited : emits.




Lemma orders_root_placed s r w req amount price resp c1 w1 :
  valid_order r req amount price →
  PlaceOrder (connector s) (venue_request req amount price) w = ((Ok resp, c1), w1) →
  handleOrdersRoot s r w
  = let '(s2, w2) := record_placed (set_connector c1 s) req amount price resp w1 in
    let '(s3, w3) := announce_placed s2 req amount price resp w2 in
    ((writeJSON StatusOK (BPlaced (order_response (venueName s3) (or_Pair req) resp)), s3), w3).
Proof.
  intros Hv%check_order_valid Hp. unfold handleOrdersRoot. rewrite Hv, bind_run, Hp. cbn [fst snd].
  rewrite bind_run. destruct (record_placed _ _ _ _ _ _) as [s2 w2]. cbn [fst snd].
  rewrite bind_run. by destruct (announce_placed _ _ _ _ _ _) as [s3 w3].
Qed.


(** What is put on the bus for a list of balances. *)
Definition bus_balances (bus : option (Bus P)) (venue : string) (bs : list Balance) (tr : list event) : Prop :=
  match bus with
  | None => tr = []
  | Some u => ∃ trs, tr = concat trs ∧ Forall2 (λ b tr, ∃ t,
      balance_attempts u (mkBalanceEvent venue (bal_Asset b) (bal_Free b) (bal_Locked b) t zero_time) tr) bs trs
  end.

Lemma announce_balances_run k bus venue bs w :
  quiet_bus bus →
  let '(k', w') := announce_balances k bus venue bs w in
  handed k w (map (balance_event venue) bs) k' w'
  ∧ ∃ tr, attempts_of w' = attempts_of w ++ tr ∧ bus_balances bus venue bs tr.
Proof.
  intros Hq. revert k w. induction bs as [|b bs IH]; intros k w.
  { cbn. split; [apply handed_nil|]. exists []. rewrite app_nil_r. split; [done|].
    destruct bus; [by exists []|done]. }
  cbn [announce_balances]. rewrite bind_run.
  pose proof (emit_silent k (balance_event venue b) w) as Hw1.
  destruct (Emit k (balance_event venue b) w) as [k1 w1] eqn:He. cbn [fst snd] in *.
  rewrite bind_run. set (pub := match bus with Some u => _ | None => _ end).
  assert (emits unaudited pub) as Hpub by (unfold pub, BalanceFromVenue; destruct bus; solve_emits).
  assert (∃ tr, attempts_of (snd (pub w1)) = attempts_of w1 ++ tr
     ∧ match bus with None => tr = [] | Some u => ∃ t, balance_attempts u
         (mkBalanceEvent venue (bal_Asset b) (bal_Free b) (bal_Locked b) t zero_time) tr end)
    as (tr & Hw2 & Htr).
  { unfold pub. destruct bus as [u|]; [|exists []; by rewrite app_nil_r].
    unfold BalanceFromVenue. rewrite !bind_run. cbn [fst snd mret io_ret time_now].
    edestruct publish_balance_attempts as (tr & Ha & Hb). exists tr. split; [exact Ha|].
    eexists. exact Hb. }
  specialize (IH k1 (snd (pub w1))).
  destruct (announce_balances k1 bus venue bs (snd (pub w1))) as [k' w'].
  destruct IH as [Hh (tr' & Htr' & Hb)]. split.
  - cbn [map]. eapply handed_now; [exact He|]. by eapply handed_after.
  - exists (tr ++ tr'). rewrite Htr', Hw2, Hw1, app_assoc. split; [done|].
    destruct bus as [u|]; cbn [bus_balances] in *; [|by subst].
    destruct Hb as (trs & -> & Ht). exists (tr :: trs). split; [done|]. by constructor.
Qed.

(** handleBalances on a successful query answers the balances unchanged and, whatever
    the iteration order of the map, emits one balance_snapshot event per asset and
    publishes each asset once, in that same order. *)
Theorem balances_are_announced `{!FairRange E} s r w (b : Balances) c1 w1 k :
  rq_Method r = "GET" → GetBalances (connector s) w = ((Ok b, c1), w1) → audit s = Some k →
  quiet_bus (events s) →
  let '((resp, s'), w') := handleBalances s r w in
  resp = writeJSON StatusOK (BBalances b)
  ∧ ∃ k' bs tr, s' = set_audit (Some k') (set_connector c1 s)
    ∧ bs ≡ₚ map snd (map_to_list b)
    ∧ handed k w1 (map (balance_event (venueName s)) bs) k' w'
    ∧ attempts_of w' = attempts_of w1 ++ tr ∧ bus_balances (events s) (venueName s) bs tr.
Proof.
  intros Hm Hb Hk Hq. unfold handleBalances. rewrite Hm. cbn [String.eqb negb]. cbn.
  rewrite bind_run, Hb. cbn [fst snd]. rewrite bind_run. cbn [audit set_connector]. rewrite Hk, !bind_run.
  unfold range_map, draw. cbn [fst snd events venueName set_connector mret io_ret].
  match goal with |- context [announce_balances k ?bus ?v ?bs ?w2] =>
    pose proof (announce_balances_run k bus v bs w2 Hq) as Ha;
    destruct (announce_balances k bus v bs w2) as [k' w'] end.
  destruct Ha as [Hh (tr & Htr & Hbs)]. split; [done|].
  eexists k', _, tr. split_and!; [done| |eapply (handed_after (draw (λ _, tt))); [solve_emits|exact Hh]|exact Htr|exact Hbs].
  apply Permutation_map, range_perm.
Qed.
End Placed.

(** A connector that refuses, untouched, an order without a client order id. *)
Definition wants_client_id : Prop := ∀ (c : C) (req : OrderRequest) w,
  req_ClientOrderID req = "" → ∃ e, PlaceOrder c req w = ((Fail e, c), w).

Lemma rest_order_refused s r w :
  wants_client_id → ∃ resp, handleOrdersRoot s r w = ((resp, s), w) ∧ rs_Status resp ≠ StatusOK.
Proof.
  intros Hw. unfold handleOrdersRoot. destruct (check_order r) as [resp|[[req amount] price]] eqn:Hc.
  - exists resp. split; [done|]. rewrite (check_order_refused r resp Hc). by case_match.
  - destruct (Hw (connector s) (venue_request req amount price) w eq_refl) as [e He].
    rewrite bind_run, He. eexists. split; [by destruct s|done].
Qed.

(** ** The routes *)

(** What no request changes, and what only an order does. *)
Definition same_setup s s' : Prop :=
  book s' = book s ∧ events s' = events s ∧ venueName s' = venueName s ∧ ready s' = ready s.

Definition only_connector_and_audit s s' : Prop := same_setup s s' ∧ store s' = store s.

Lemma emit_frame s e w : only_connector_and_audit s (fst (emit s e w)).
Proof. unfold emit. destruct (audit s); [|done]. rewrite bind_run. done. Qed.

Lemma order_status_frame id s r w : only_connector_and_audit s (snd (fst (order_status id s r w))).
Proof. unfold order_status. case_match; [done|]. rewrite bind_run. by destruct (GetOrder _ _ _) as [[o c] w']. Qed.

Lemma order_fills_frame id s r w : only_connector_and_audit s (snd (fst (order_fills id s r w))).
Proof. unfold order_fills. case_match; [done|]. rewrite bind_run. by destruct (GetFills _ _ _) as [[o c] w']. Qed.

Lemma cancel_order_frame id s r w : only_connector_and_audit s (snd (fst (cancel_order id s r w))).
Proof.
  unfold cancel_order. case_match; [done|]. rewrite bind_run.
  destruct (CancelOrder _ _ _) as [[[e|] c] w']; [done|]. cbn [fst snd]. rewrite bind_run.
  exact (emit_frame (set_connector c s) _ w').
Qed.

Lemma handle_balances_frame s r w : only_connector_and_audit s (snd (fst (handleBalances s r w))).
Proof.
  unfold handleBalances. case_match; [done|]. rewrite bind_run.
  destruct (GetBalances _ _) as [[[b|e] c] w']; [|done]. cbn [fst snd]. rewrite bind_run.
  cbn [audit set_connector]. destruct (audit s); [|done]. by rewrite !bind_run.
Qed.

Lemma record_placed_frame s req amount price resp w :
  same_setup s (fst (record_placed s req amount price resp w)).
Proof.
  unfold record_placed. destruct (store s) as [st|]; [|done]. rewrite bind_run.
  destruct (RecordOrder _ _ _) as [[x st1] w1]. cbn [fst snd]. by rewrite bind_run.
Qed.

Lemma announce_placed_frame s req amount price resp w :
  same_setup s (fst (announce_placed s req amount price resp w)).
Proof. unfold announce_placed. destruct (audit s); [|done]. by rewrite !bind_run. Qed.

#[local] Instance same_setup_preorder : PreOrder same_setup.
Proof. split; [done|]. intros s1 s2 s3 (?&?&?&?) (?&?&?&?). repeat split; congruence. Qed.

Lemma orders_root_frame s r w : same_setup s (snd (fst (handleOrdersRoot s r w))).
Proof.
  unfold handleOrdersRoot. destruct (check_order r) as [resp|[[req amount] price]]; [done|].
  rewrite bind_run. destruct (PlaceOrder _ _ _) as [[[resp|e] c] w1]; [|done]. cbn [fst snd].
  rewrite bind_run. pose proof (record_placed_frame (set_connector c s) req amount price resp w1) as H1.
  destruct (record_placed _ _ _ _ _ _) as [s2 w2]. cbn [fst snd] in *. rewrite bind_run.
  pose proof (announce_placed_frame s2 req amount price resp w2) as H2.
  destruct (announce_placed _ _ _ _ _ _) as [s3 w3]. cbn [fst snd mret io_ret] in *.
  transitivity s2; [exact H1|exact H2].
Qed.

End Handlers.

(** ** Dispatch *)

Lemma hex_value_slash : Mux.hex_value "/" = None.
Proof. done. Qed.

Lemma hex_not_slash c x : Mux.hex_value c = Some x → Ascii.eqb c "/" = false.
Proof. intros H. destruct (Ascii.eqb_spec c "/") as [->|]; [by rewrite hex_value_slash in H|done]. Qed.

Lemma split_byte_other c d s w ws :
  Ascii.eqb c d = false → split_byte d s = w :: ws → split_byte d (String c s) = String c w :: ws.
Proof. intros Hc Hs. cbn [split_byte]. by rewrite Hc, Hs. Qed.

Lemma join_cons w ws sep : ws ≠ [] → Join (w :: ws) sep = w +:+ sep +:+ Join ws sep.
Proof. by destruct ws. Qed.

Lemma join_head c w ws sep : Join (String c w :: ws) sep = String c (Join (w :: ws) sep).
Proof. by destruct ws. Qed.

(** Unescaping a path segment by segment gives the unescaped path. *)
Lemma unescape_segments s p :
  Mux.path_unescape s = Some p →
  ∃ us, Forall2 (λ seg u, Mux.path_unescape seg = Some u) (split_byte "/" s) us ∧ p = Join us "/".
Proof.
  revert p. induction s as [s IH] using (well_founded_induction (Wf_nat.well_founded_ltof _ String.length)).
  unfold Wf_nat.ltof in IH. intros p. destruct s as [|c s].
  { intros [= <-]. exists [""]. split; [by repeat constructor|done]. }
  cbn [Mux.path_unescape]. destruct (Ascii.eqb_spec c "%") as [->|Hc].
  - destruct s as [|a [|b s]]; try done.
    destruct (Mux.hex_value a) as [x|] eqn:Ha; [|done]. destruct (Mux.hex_value b) as [y|] eqn:Hb; [|done].
    cbn [mbind option_bind]. destruct (Mux.path_unescape s) as [r|] eqn:Hr; [|done]. intros [= <-].
    destruct (IH s ltac:(cbn; lia) r Hr) as (us & Hus & ->).
    pose proof (split_byte_ne "/" s) as Hne. destruct (split_byte "/" s) as [|w ws] eqn:Hs; [done|].
    inversion Hus as [|? u ? us' Hu Hus']; subst.
    rewrite (split_byte_other "%" "/" _ (String a (String b w)) ws); [|done|].
    2:{ apply split_byte_other; [by eapply hex_not_slash|]. apply split_byte_other; [by eapply hex_not_slash|done]. }
    exists (String (chr (16 * x + y)) u :: us'). split; [|by rewrite join_head].
    constructor; [|done]. cbn [Mux.path_unescape Ascii.eqb]. cbn. rewrite Ha, Hb. cbn. by rewrite Hu.
  - cbn [mbind option_bind]. destruct (Mux.path_unescape s) as [r|] eqn:Hr; [|done]. intros [= <-].
    destruct (IH s ltac:(cbn; lia) r Hr) as (us & Hus & ->).
    pose proof (split_byte_ne "/" s) as Hne. destruct (split_byte "/" s) as [|w ws] eqn:Hs; [done|].
    inversion Hus as [|? u ? us' Hu Hus']; subst. destruct (Ascii.eqb_spec c "/") as [->|Hsl].
    + exists ("" :: u :: us'). cbn [split_byte Ascii.eqb]. cbn. rewrite Hs. split; [|done].
      constructor; [done|by constructor].
    + rewrite (split_byte_other c "/" s w ws); [|by apply Ascii.eqb_neq|done].
      exists (String c u :: us'). split; [|by rewrite join_head].
      constructor; [|done]. cbn [Mux.path_unescape]. rewrite (proj2 (Ascii.eqb_neq _ _) Hc). cbn. by rewrite Hu.
Qed.

(** The length of [/u1/u2/...]. *)
Definition path_length (us : list string) : nat := sum_list_with (λ u, S (String.length u)) us.

Lemma join_length u us : String.length (Join (u :: us) "/") = (String.length u + path_length us)%nat.
Proof.
  revert u. induction us as [|v us IH]; intros u; [cbn; lia|].
  rewrite join_cons, !str_app_length, IH by done. unfold path_length. cbn. lia.
Qed.

Lemma path_length_app us vs : path_length (us ++ vs) = (path_length us + path_length vs)%nat.
Proof. unfold path_length. apply sum_list_with_app. Qed.

(** The segments of a path, in terms of the segments unescaped. *)
Lemma segments_unescaped s p :
  Mux.path_unescape s = Some p →
  ∃ u us, p = Join (u :: us) "/"
    ∧ (Mux.segments s = us ∨ ∃ init l, us = init ++ [l] ∧ Mux.segments s = init ++ ["/"]).
Proof.
  intros (us & Hus & ->)%unescape_segments. unfold Mux.segments.
  pose proof (split_byte_ne "/" s) as Hne.
  inversion Hus as [Hs|w u ws us' Hu Hf Hs Heq]; subst; [by rewrite <- Hs in Hne|].
  exists u, us'. split; [done|].
  assert (map (λ s, default s (Mux.path_unescape s)) ws = us') as ->.
  { clear -Hf. induction Hf as [|a b l k Ha _ IH]; [done|]. cbn. by rewrite Ha, IH. }
  pose proof (Forall2_length _ _ _ Hf) as Hl.
  destruct (last ws) as [x|] eqn:Hlast; [|by left]. destruct x; [|by left]. right.
  destruct us' as [|l init _] using rev_ind.
  { destruct ws; [done|]. cbn in Hl. lia. }
  exists init, l. split; [done|]. rewrite length_app in Hl. cbn in Hl.
  by rewrite Hl, Nat.add_sub, take_app_length.
Qed.

Lemma take_segments s p n lits :
  Mux.path_unescape s = Some p → "/" ∉ lits → length lits = n → take n (Mux.segments s) = lits →
  (path_length lits + (length (Mux.segments s) - n) ≤ String.length p)%nat.
Proof.
  intros Hu Hno Hn Ht. destruct (segments_unescaped s p Hu) as (u & us & -> & Hs).
  rewrite join_length.
  assert (take n us = lits ∧ length (Mux.segments s) = length us) as [Htu Hlen].
  { destruct Hs as [<-|(init & l & -> & Hs)]; [done|]. rewrite Hs in *. split; [|by rewrite !length_app].
    destruct (decide (n ≤ length init)%nat).
    - rewrite take_app_le by done. by rewrite take_app_le in Ht by done.
    - destruct Hno. rewrite <- Ht, take_ge by (rewrite length_app; cbn; lia).
      apply elem_of_app. right. by left. }
  pose proof (path_length_app (take n us) (drop n us)) as Hp. rewrite take_drop, Htu in Hp. rewrite Hlen, Hp.
  assert (length us - n ≤ path_length (drop n us))%nat; [|lia].
  rewrite <- length_drop. clear. induction (drop n us) as [|v vs IH]; [done|]. cbn in *. unfold path_length in *. cbn. lia.
Qed.

(** A handler that serves was registered under a pattern that matches the path as it came. *)
Lemma serve_found {H} (routes : list (string * H)) r h :
  Mux.dispatch routes r = Mux.Serve h →
  ∃ pat, (pat, h) ∈ routes ∧ Mux.matches pat (Mux.segments (rq_EscapedPath r)) = true.
Proof.
  unfold Mux.dispatch. set (path := if String.eqb (rq_Method r) "CONNECT" then _ else _).
  destruct (_ && _); [done|]. destruct (String.eqb_spec path (rq_EscapedPath r)) as [Hp|]; [|done].
  cbn [negb]. rewrite Hp. unfold Mux.find_pattern. destruct (List.find _ _) as [[pat h']|] eqn:Hf; cbn; [|done].
  intros [= ->]. apply List.find_some in Hf as [Hin Hm]. exists pat. split; [by apply list_elem_of_In|done].
Qed.

Section Routing.
Context `{DD : Decimal} `{E : Env}.
Context {C K P St : Type} `{!VenueConnector C} `{!AsDummy C} `{!Sink K} `{!Publisher P}
  `{!Store St} `{!OfMemStore St}.
Implicit Types (s : Service C K P St) (r : Request).

Lemma skip_paths_short p : skipPaths p = true → (String.length p ≤ 8)%nat.
Proof.
  unfold skipPaths. intros H. apply orb_true_iff in H as [H|H%String.eqb_eq]; [|subst; cbn; lia].
  apply orb_true_iff in H as [H%String.eqb_eq|H%String.eqb_eq]; subst; cbn; lia.
Qed.

(** A path served by a pattern is at least as long as the pattern's segments. *)
Lemma matches_long pat lits multi ep p :
  Mux.pattern_segments pat = (lits, multi) → "/" ∉ lits → Mux.path_unescape ep = Some p →
  Mux.matches pat (Mux.segments ep) = true →
  (path_length lits + (if multi then 1 else 0) ≤ String.length p)%nat.
Proof.
  intros Hp Hno Hu. unfold Mux.matches. rewrite Hp. destruct multi.
  - intros [Ht%bool_decide_eq_true Hl%Nat.ltb_lt]%andb_true_iff.
    pose proof (take_segments ep p (length lits) lits Hu Hno eq_refl Ht). lia.
  - intros Ht%bool_decide_eq_true.
    assert (take (length lits) (Mux.segments ep) = lits) as Ht' by (by rewrite Ht, take_ge).
    pose proof (take_segments ep p (length lits) lits Hu Hno eq_refl Ht'). lia.
Qed.

(** The paths that need no token lead to the probes or nowhere. *)
Lemma probe_quiet s r w :
  Mux.path_unescape (rq_EscapedPath r) = Some (rq_Path r) → skipPaths (rq_Path r) = true →
  ∃ resp, serve_mux s r w = ((resp, s), w).
Proof.
  intros Hu Hs%skip_paths_short. unfold serve_mux.
  destruct (Mux.dispatch mux r) as [h|loc|] eqn:Hd; [|by eexists..].
  apply serve_found in Hd as (pat & Hin & Hm). unfold mux in Hin.
  rewrite list_elem_of_In in Hin. cbn [List.In] in Hin.
  assert (∀ lits multi, Mux.pattern_segments pat = (lits, multi) → bool_decide ("/" ∈ lits) = false →
    (path_length lits + (if multi then 1 else 0) ≤ 8)%nat) as Hshort.
  { intros lits multi Hp Hno%bool_decide_eq_false. pose proof (matches_long pat lits multi _ _ Hp Hno Hu Hm). lia. }
  clear Hm. repeat destruct Hin as [[= <- <-]|Hin]; try done; try (by eexists).
  { unfold handleReadyz. destruct (ready s); by eexists. }
  all: specialize (Hshort _ _ eq_refl eq_refl); cbn in Hshort; lia.
Qed.

(** C2: With a token secret configured, a request without an acceptable bearer token
    changes nothing: the service state and the trace of effects are those before it,
    and outside the probe paths the answer is the 401 of the middleware. Covers the
    three paths that skip authentication, whose requests reach only the probes or no
    handler. *)
Theorem no_token_no_effect (testing : bool) h s r w msg :
  env_getenv "SERVICE_TOKEN_SECRET" ≠ "" →
  Routes (C := C) (K := K) (P := P) (St := St) testing = Some h →
  Mux.path_unescape (rq_EscapedPath r) = Some (rq_Path r) →
  denial (env_getenv "SERVICE_TOKEN_SECRET") (rq_Header r "Authorization") (env_now (w_ticks w)) = Some msg →
  ∃ resp w', h s r w = ((resp, s), w') ∧ w_trace w' = w_trace w
    ∧ (if skipPaths (rq_Path r) then w' = w else resp = writeUnauthorized msg).
Proof.
  intros Hsec Hr Hu Hd. unfold Routes, SecretFromEnv in Hr.
  rewrite (proj2 (String.eqb_neq _ _) Hsec) in Hr. cbn in Hr. injection Hr as <-.
  destruct (skipPaths (rq_Path r)) eqn:Hp.
  - destruct (probe_quiet s r w Hu Hp) as [resp Hq]. exists resp, w. split_and!; [|done..].
    unfold Middleware. by rewrite Hp.
  - destruct (middleware_deny _ serve_mux s r w msg Hp Hd) as (w' & Hm & Hw). by eexists _, w'.
Qed.

Lemma orders_root_store s r w :
  let '((resp, s'), w') := handleOrdersRoot s r w in
  store s' = store s ∨ rq_Method r = "POST" ∧ rs_Status resp = StatusOK.
Proof.
  destruct (handleOrdersRoot s r w) as [[resp s'] w'] eqn:Hh. unfold handleOrdersRoot in Hh.
  destruct (check_order r) as [rp|[[req amount] price]] eqn:Hc; [injection Hh as <- <- <-; by left|].
  apply check_order_valid in Hc as [Hm _]. rewrite bind_run in Hh.
  destruct (PlaceOrder _ _ _) as [[[rp|e] c] w1]; cbn [fst snd] in Hh; [|injection Hh as <- <- <-; by left].
  right. split; [done|]. rewrite bind_run in Hh. destruct (record_placed _ _ _ _ _ _) as [s2 w2].
  cbn [fst snd] in Hh. rewrite bind_run in Hh. destruct (announce_placed _ _ _ _ _ _) as [s3 w3].
  by injection Hh as <- <- <-.
Qed.

Lemma order_sub_frame s r w : only_connector_and_audit s (snd (fst (handleOrderSub s r w))).
Proof.
  unfold handleOrderSub. destruct (splitOrderPath (rq_Path r)) as [id sub].
  destruct (String.eqb id ""); [done|]. destruct (String.eqb sub "cancel"); [apply cancel_order_frame|].
  destruct (String.eqb sub "fills"); [apply order_fills_frame|].
  destruct (_ || _); [apply order_status_frame|done].
Qed.

(** What a handler may do to the service. *)
Definition confined s r (resp : Response body) s' : Prop :=
  same_setup s s' ∧ (store s' = store s
    ∨ rq_Method r = "POST" ∧ Mux.segments (rq_EscapedPath r) = ["v1"; "orders"] ∧ rs_Status resp = StatusOK).

Lemma frame_confined s r resp s' : only_connector_and_audit s s' → confined s r resp s'.
Proof. intros [H1 H2]. split; [done|]. by left. Qed.

Lemma serve_mux_confined s r w :
  let '((resp, s'), _) := serve_mux s r w in confined s r resp s'.
Proof.
  unfold serve_mux. destruct (Mux.dispatch mux r) as [h|loc|] eqn:Hd; [|split; [done|by left]..].
  apply serve_found in Hd as (pat & Hin & Hm). unfold mux in Hin.
  assert (∀ f : handler, only_connector_and_audit s (snd (fst (f s r w))) →
    let '((resp, s'), _) := f s r w in confined s r resp s') as Hframe.
  { intros f. destruct (f s r w) as [[resp s'] w']. apply frame_confined. }
  rewrite list_elem_of_In in Hin. cbn [List.In] in Hin.
  repeat destruct Hin as [[= <- <-]|Hin]; try done.
  - apply Hframe. done.
  - apply Hframe. unfold handleReadyz. by destruct (ready s).
  - apply Hframe. done.
  - apply Hframe. unfold handleRotateCreds. rewrite bind_run. apply emit_frame.
  - pose proof (orders_root_frame s r w) as Hf. pose proof (orders_root_store s r w) as Hs.
    destruct (handleOrdersRoot s r w) as [[resp s'] w']. split; [exact Hf|].
    destruct Hs as [Hs|[Hp Hst]]; [by left|right]. split; [done|]. split; [|done].
    unfold Mux.matches in Hm. change (Mux.pattern_segments "/v1/orders") with (["v1"; "orders"], false) in Hm.
    by apply bool_decide_eq_true in Hm.
  - apply Hframe, order_sub_frame.
  - apply Hframe, handle_balances_frame.
  - apply Hframe. unfold handleBook. case_match; [done|]. case_match; [done|].
    by destruct (Get _ _).
Qed.

(** C23: Whatever the request, the routes leave the book, the bus, the venue name and
    the readiness of the service alone, and write the store only for a POST to
    /v1/orders that is answered 200. In particular a cancellation leaves the stored
    order as it was. *)
Theorem store_written_only_by_orders (testing : bool) h s r w :
  Routes (C := C) (K := K) (P := P) (St := St) testing = Some h →
  let '((resp, s'), _) := h s r w in
  book s' = book s ∧ events s' = events s ∧ venueName s' = venueName s ∧ ready s' = ready s
  ∧ (store s' = store s
     ∨ rq_Method r = "POST" ∧ Mux.segments (rq_EscapedPath r) = ["v1"; "orders"] ∧ rs_Status resp = StatusOK).
Proof.
  unfold Routes. destruct (SecretFromEnv testing) as [[secret bypass]|]; cbn; [|done]. intros [= <-].
  assert (∀ w0, let '((resp, s'), _) := serve_mux s r w0 in
    book s' = book s ∧ events s' = events s ∧ venueName s' = venueName s ∧ ready s' = ready s
    ∧ (store s' = store s
       ∨ rq_Method r = "POST" ∧ Mux.segments (rq_EscapedPath r) = ["v1"; "orders"] ∧ rs_Status resp = StatusOK))
    as Hmux.
  { intros w0. pose proof (serve_mux_confined s r w0) as H.
    destruct (serve_mux s r w0) as [[resp s'] w']. destruct H as [(?&?&?&?) ?]. done. }
  destruct (middleware_allow secret bypass serve_mux s r w) as [->|[(msg & w' & -> & _)| -> ]];
    [apply Hmux| |apply Hmux].
  split_and!; try done. by left.
Qed.

Lemma orders_root_connector s r w req amount price o c1 w1 :
  valid_order r req amount price →
  Venue.PlaceOrder (connector s) (venue_request req amount price) w = ((Ok o, c1), w1) →
  let '((resp, s'), w') := handleOrdersRoot s r w in
  resp = writeJSON StatusOK (BPlaced (order_response (venueName s) (or_Pair req) o)) ∧ connector s' = c1.
Proof.
  intros Hv Hp. rewrite (orders_root_placed s r w req amount price o c1 w1 Hv Hp).
  pose proof (record_placed_frame (set_connector c1 s) req amount price o w1) as (_ & _ & H2 & _).
  assert (connector (fst (record_placed (set_connector c1 s) req amount price o w1)) = c1) as Hc.
  { unfold record_placed. destruct (store (set_connector c1 s)); [|done].
    rewrite bind_run. destruct (RecordOrder _ _ _) as [[x st1] w2]. cbn [fst snd]. by rewrite bind_run. }
  destruct (record_placed _ _ _ _ _ w1) as [s2 w2]. cbn [fst] in *.
  pose proof (announce_placed_frame s2 req amount price o w2) as (_ & _ & H3 & _).
  assert (connector (fst (announce_placed s2 req amount price o w2)) = c1) as Hc'.
  { unfold announce_placed. destruct (audit s2); [|done]. by rewrite !bind_run. }
  destruct (announce_placed _ _ _ _ _ w2) as [s3 w3]. cbn [fst] in *. split; [|done].
  rewrite H3, H2. done.
Qed.

End Routing.

(** ** The service over the dummy connector *)
Section DummyService.
Import Dummy.
Context `{DD : Decimal} `{E : Env} `{!UUIDLaws E}.
Context {K P St : Type} `{!Sink K} `{!Publisher P} `{!Store St} `{!OfMemStore St}.
Implicit Types (s : Service DummyVenueConnector K P St) (r : Request) (req : orderRequest).

(** A request for the order [id]. *)
Definition order_status_request r (id : string) : Prop :=
  rq_Method r = "GET" ∧ ∃ b, rq_Path r = "/v1/orders/" +:+ id +:+ slash b.

Definition cancel_request r (id : string) : Prop :=
  rq_Method r = "POST" ∧ ∃ b, rq_Path r = "/v1/orders/" +:+ id +:+ "/" +:+ "cancel" +:+ slash b.

Lemma status_served s r id w o :
  order_status_request r id → id ≠ "" → lacks "/" id = true →
  fst (fst (GetOrder (connector s) id w)) = Ok o →
  handleOrderSub s r w = ((writeJSON StatusOK (BOrder o), s), w).
Proof.
  intros [Hm [b Hp]] Hne Hl Ho. unfold handleOrderSub. rewrite Hp.
  rewrite (proj1 (split_order_path id "cancel" b Hl ltac:(done) ltac:(done))).
  rewrite (proj2 (String.eqb_neq _ _) Hne). unfold order_status. rewrite Hm. cbn [String.eqb negb orb].
  unfold Venue.GetOrder, dummy_connector. cbn. rewrite bind_run. unfold GetOrder in *.
  destruct (p ← orders (connector s) !! id; heap (connector s) !! p) as [o'|]; cbn in *; [|done].
  injection Ho as ->. by destruct s.
Qed.

Lemma cancel_served s r id w :
  cancel_request r id → id ≠ "" → lacks "/" id = true →
  let '((resp, s'), w') := handleOrderSub s r w in
  rs_Status resp = StatusOK
  ∧ connector s' = snd (fst (CancelOrder (connector s) (mkCancelRequest id "") w)).
Proof.
  intros [Hm [b Hp]] Hne Hl. unfold handleOrderSub. rewrite Hp.
  rewrite (proj2 (split_order_path id "cancel" b Hl ltac:(done) ltac:(done))).
  rewrite (proj2 (String.eqb_neq _ _) Hne). cbn [String.eqb]. cbn.
  unfold cancel_order. rewrite Hm. cbn. rewrite bind_run. unfold CancelOrder.
  destruct (orders (connector s) !! _) as [p|]; cbn; unfold emit; rewrite bind_run; cbn;
    destruct (audit s); cbn; rewrite ?bind_run; done.
Qed.

Lemma dummy_place_run d (req : OrderRequest) w :
  wf d → req_ClientOrderID req = "" →
  ∃ tr o d1 w1, Venue.PlaceOrder d req w = ((Ok o, d1), w1) ∧ wf d1
    ∧ resp_VenueOrderID o = env_uuid tr ∧ resp_Status o = OrderStatusFilled
    ∧ resp_FilledQty o = req_Quantity req
    ∧ (∃ p, orders d1 !! env_uuid tr = Some p ∧ heap d1 !! p = Some o).
Proof.
  intros Hwf Hid. pose proof (place_order_wf d req w Hwf) as Hwf1.
  destruct (place_order_eq d req w) as (id & trade & now & [_ Hname] & Heq).
  destruct (Hname Hid) as [tr ->]. cbv zeta in Heq.
  unfold Venue.PlaceOrder, dummy_connector. rewrite bind_run.
  destruct (PlaceOrder d req w) as [[p d1] w1]. cbn [fst snd] in *. injection Heq as -> ->.
  eexists tr, _, _, w1. cbn [heap]. rewrite lookup_middle. split; [done|]. split; [exact Hwf1|].
  split_and!; try done. eexists. cbn [orders]. rewrite lookup_insert_eq. split; [done|apply lookup_middle].
Qed.

(** Over the dummy connector a valid order is answered 200 as filled with the amount
    asked for; the order id it returns then leads GET status to the same order, and
    after a POST to its cancel path to the same order as canceled. *)
Theorem dummy_order_is_served s r w req amount price :
  wf (connector s) → valid_order r req amount price →
  let '((resp, s1), _) := handleOrdersRoot s r w in
  wf (connector s1) ∧ ∃ o, resp = writeJSON StatusOK (BPlaced (order_response (venueName s) (or_Pair req) o))
  ∧ resp_Status o = OrderStatusFilled ∧ resp_FilledQty o = amount
  ∧ (∀ g w2, order_status_request g (resp_VenueOrderID o) →
       handleOrderSub s1 g w2 = ((writeJSON StatusOK (BOrder o), s1), w2))
  ∧ ∀ p w2, cancel_request p (resp_VenueOrderID o) →
      let '((resp2, s2), _) := handleOrderSub s1 p w2 in
      rs_Status resp2 = StatusOK
      ∧ ∀ g w3, order_status_request g (resp_VenueOrderID o) →
          handleOrderSub s2 g w3
          = ((writeJSON StatusOK (BOrder (set_status OrderStatusCanceled o)), s2), w3).
Proof.
  intros Hwf Hv.
  destruct (dummy_place_run (connector s) (venue_request req amount price) w Hwf eq_refl)
    as (tr & o & d1 & w1 & Hp & Hwf1 & Hid & Hst & Hq & (p & Hop & Hhp)).
  pose proof (orders_root_connector s r w req amount price o d1 w1 Hv Hp) as Hr.
  destruct (handleOrdersRoot s r w) as [[resp s1] w']. destruct Hr as [-> <-].
  destruct (uuid_text tr) as [Hne Hl]. split; [done|]. exists o. rewrite Hid. split_and!; try done.
  - intros g w2 Hg. eapply status_served; [done..|]. unfold GetOrder. rewrite Hop. cbn. by rewrite Hhp.
  - intros q w2 Hq2. pose proof (cancel_served s1 q (env_uuid tr) w2 Hq2 Hne Hl) as Hc.
    destruct (handleOrderSub s1 q w2) as [[resp2 s2] w3]. destruct Hc as [Hs2 Hc]. split; [done|].
    intros g w4 Hg. eapply status_served; [done..|]. rewrite Hc. unfold CancelOrder. cbn [cancel_VenueOrderID].
    rewrite (proj2 (String.eqb_neq _ _) Hne), Hop. cbn [snd fst mret io_ret].
    unfold GetOrder. cbn [orders heap]. rewrite Hop. cbn. rewrite list_lookup_alter, decide_True, Hhp by done. done.
Qed.
End DummyService.

(** ** The service over the real venues *)
Section VenueServices.
Context `{DD : Decimal} `{E : Env}.
Context {K P St : Type} `{!Sink K} `{!Publisher P} `{!Store St} `{!OfMemStore St}.

#[export] Instance binance_as_dummy : AsDummy Binance.Connector := λ _, None.
#[export] Instance kraken_as_dummy : AsDummy Kraken.Connector := λ _, None.
#[export] Instance otc_as_dummy : AsDummy Otc.Connector := λ _, None.

Lemma binance_wants_client_id : wants_client_id (C := Binance.Connector).
Proof. intros c req w H. unfold PlaceOrder, Binance.binance_connector, Binance.PlaceOrder. rewrite H. by eexists. Qed.

Lemma kraken_wants_client_id : wants_client_id (C := Kraken.Connector).
Proof. intros c req w H. unfold PlaceOrder, Kraken.kraken_connector, Kraken.PlaceOrder. rewrite H. by eexists. Qed.

Lemma otc_wants_client_id : wants_client_id (C := Otc.Connector).
Proof. intros c req w H. unfold PlaceOrder, Otc.otc_connector, Otc.PlaceOrder. rewrite H. by eexists. Qed.

(** A service over Binance, Kraken or OTC refuses every order posted over REST, with no
    effect. *)
Theorem rest_orders_never_reach_real_venues :
  (∀ (s : Service Binance.Connector K P St) r w,
     ∃ resp, handleOrdersRoot s r w = ((resp, s), w) ∧ rs_Status resp ≠ StatusOK)
  ∧ (∀ (s : Service Kraken.Connector K P St) r w,
     ∃ resp, handleOrdersRoot s r w = ((resp, s), w) ∧ rs_Status resp ≠ StatusOK)
  ∧ (∀ (s : Service Otc.Connector K P St) r w,
     ∃ resp, handleOrdersRoot s r w = ((resp, s), w) ∧ rs_Status resp ≠ StatusOK).
Proof.
  split_and!; intros s r w; apply rest_order_refused;
    [apply binance_wants_client_id|apply kraken_wants_client_id|apply otc_wants_client_id].
Qed.

(** A service starts ready when the order book subscription succeeds, and over OTC it
    never starts. *)
Theorem new_service_ready_unless_subscription_fails :
  (∀ (c : Otc.Connector) (k : option K) (cfg : Config St) (bus : option (Bus P)) w,
     NewService c k cfg bus w = (Fail Otc.ErrUnsupported, w))
  ∧ ∀ (C : Type) `{!VenueConnector C} (c : C) (k : option K) (cfg : Config St) (bus : option (Bus P)) w c' w',
      SubscribeBook c (cf_Pairs cfg) w = ((None, c'), w') →
      ∃ st, NewService c k cfg bus w
        = (Ok (mkService c' (mkBookAggregator ∅) k bus (cf_VenueName cfg) true (Some st)), w')
      ∧ (∀ st0, cf_Store cfg = Some st0 → st = st0)
      ∧ (cf_Store cfg = None → st = of_mem_store MemStore.New).
Proof.
  split.
  - intros. unfold NewService, NewBookAggregator. by rewrite !bind_run.
  - intros C ? c k cfg bus w c' w' Hs. unfold NewService, NewBookAggregator. rewrite !bind_run, Hs.
    eexists. split; [done|]. split; [by intros st0 ->|by intros ->].
Qed.
End VenueServices.

(** ** Witnesses *)

Lemma dec_digits_lacks fuel n acc : lacks "/" acc = true → lacks "/" (dec_digits fuel n acc) = true.
Proof.
  revert n acc. induction fuel as [|fuel IH]; intros n acc Ha; [done|]. cbn [dec_digits].
  assert (lacks "/" (String (digit (n mod 10)) acc) = true) as Ha'.
  { unfold lacks in *. cbn. rewrite Ha.
    pose proof (is_digit_digit (n mod 10) ltac:(apply Z.mod_pos_bound; lia)) as [Hd _].
    destruct (Ascii.eqb_spec (digit (n mod 10)) "/") as [He|]; [by rewrite He in Hd|done]. }
  destruct (n <? 10); [done|by apply IH].
Qed.

Lemma env_with_uuid http kafka getenv : UUIDLaws (env_with http kafka getenv).
Proof.
  intros tr. unfold env_uuid, env_with. split; [done|]. rewrite lacks_app. unfold FormatInt, fmt_nat.
  destruct (Z.ltb_spec (Z.of_nat (length tr)) 0); [lia|]. by rewrite dec_digits_lacks.
Qed.

Section Witnesses.
Import Dummy.

Definition server_env : Env :=
  env_with (λ _, HTTPErr "connection refused") (λ _, None)
    (λ k, if String.eqb k "SERVICE_TOKEN_SECRET" then "k" else "").

#[local] Existing Instances fixed_decimal server_env.
#[local] Instance server_uuid : UUIDLaws server_env := env_with_uuid _ _ _.
#[local] Instance server_range : FairRange server_env := env_with_range _ _ _.

Definition demo_service : Service DummyVenueConnector InMemory.InMemorySink (option KafkaPublisher) MemStore.MemStore :=
  mkService NewDummyVenueConnector (mkBookAggregator ∅) (Some InMemory.NewInMemorySink)
    (Some (NewBus (Some (mkKafkaPublisher ["k:9092"] "recon")) "recon")) "dummy" true (Some MemStore.New).

Definition demo_post : Request := mkRequest "POST" "/v1/orders" "/v1/orders" (λ _, "") (λ _, "")
  (jtext "{'venue':'dummy','pair':'BTCUSDT','side':'buy','type':'market','amount':'0.5'}").

Definition demo_order : orderRequest := mkOrderReq "dummy" "BTCUSDT" "buy" "market" "0.5" "".

Definition demo_amount : D := Fx 5 (-1).
Definition demo_price : D := Fx 0 0.

Lemma demo_post_valid : valid_order demo_post demo_order demo_amount demo_price.
Proof. unfold valid_order. split_and!; try (vm_compute; done). left. by vm_compute. Qed.

Lemma order_path_round_trip_witness :
  splitOrderPath "/v1/orders/7f3a/cancel/" = ("7f3a", "cancel").
Proof.
  exact (proj2 (order_path_round_trip "7f3a" "cancel" true eq_refl ltac:(discriminate) eq_refl)).
Defined.

Lemma demo_bus_quiet : quiet_bus (events demo_service).
Proof.
  split; [intros ? ? ?; reflexivity|]. split; intros; cbn; [unfold Publish, kafka_publisher, kafka_publish; solve_emits|apply emits_ret].
Qed.


Lemma balances_are_announced_witness :
  let '((resp, s'), _) := handleBalances demo_service
    (mkRequest "GET" "/v1/balances" "/v1/balances" (λ _, "") (λ _, "") "") world0 in
  rs_Status resp = StatusOK ∧ ∃ k evs, audit s' = Some k ∧ InMemory.events k = evs ∧ length evs = 3%nat.
Proof.
  pose proof (balances_are_announced demo_service
    (mkRequest "GET" "/v1/balances" "/v1/balances" (λ _, "") (λ _, "") "") world0 _ _ _ InMemory.NewInMemorySink
    eq_refl eq_refl eq_refl demo_bus_quiet) as H.
  destruct (handleBalances _ _ _) as [[resp s'] w'].
  destruct H as (-> & k & bs & tr & -> & Hbs & Hh & _). split; [reflexivity|].
  destruct (handed_in_memory _ _ _ _ _ Hh) as (evs & Hk & Hf).
  exists k, evs. split; [reflexivity|]. split; [exact Hk|].
  rewrite <- (Forall2_length _ _ _ Hf), length_map, (Permutation_length Hbs), length_map. vm_compute. reflexivity.
Defined.

Lemma no_token_no_effect_witness :
  ∃ h resp w', Routes (C := DummyVenueConnector) (K := InMemory.InMemorySink) (P := option KafkaPublisher)
      (St := MemStore.MemStore) false = Some h
    ∧ h demo_service demo_post world0 = ((resp, demo_service), w') ∧ rs_Status resp = StatusUnauthorized.
Proof.
  destruct (no_token_no_effect (E := server_env) false _ demo_service demo_post world0
    "missing or malformed Authorization header" ltac:(vm_compute; discriminate) eq_refl eq_refl eq_refl)
    as (resp & w' & H & _ & Hr).
  eexists _, resp, w'. split; [reflexivity|]. split; [exact H|]. cbn in Hr. by rewrite Hr.
Defined.

Lemma store_written_only_by_orders_witness :
  ∃ h, Routes (C := DummyVenueConnector) (K := InMemory.InMemorySink) (P := option KafkaPublisher)
      (St := MemStore.MemStore) false = Some h
    ∧ let '((resp, s'), _) := h demo_service (demo_get "/v1/balances" "") world0 in store s' = store demo_service.
Proof.
  eexists. split; [reflexivity|].
  pose proof (store_written_only_by_orders (E := server_env) false _ demo_service (demo_get "/v1/balances" "") world0 eq_refl) as H.
  match goal with |- context [?h demo_service ?r world0] =>
    change (let '((resp, s'), _) := h demo_service r world0 in store s' = store demo_service) end.
  destruct (Middleware _ _ _ _ _ _) as [[resp s'] w']. destruct H as (_ & _ & _ & _ & [H|[H _]]); [exact H|discriminate].
Defined.

Lemma dummy_order_is_served_witness :
  let '((resp, s1), _) := handleOrdersRoot demo_service demo_post world0 in
  wf (connector s1) ∧ rs_Status resp = StatusOK.
Proof.
  pose proof (dummy_order_is_served demo_service demo_post world0 demo_order demo_amount demo_price
                dummy_wf_new demo_post_valid) as H.
  destruct (handleOrdersRoot demo_service demo_post world0) as [[resp s1] w']. destruct H as (Hwf & o & -> & _).
  split; [exact Hwf|reflexivity].
Defined.

Lemma new_service_ready_unless_subscription_fails_witness :
  ∃ s, fst (NewService (K := InMemory.InMemorySink) (P := option KafkaPublisher) NewDummyVenueConnector
              None (mkConfig (St := MemStore.MemStore) "dummy" ["BTCUSDT"] None) None world0) = Ok s
    ∧ store s = Some MemStore.New.
Proof.
  destruct (proj2 (new_service_ready_unless_subscription_fails (K := InMemory.InMemorySink)
    (P := option KafkaPublisher) (St := MemStore.MemStore)) DummyVenueConnector dummy_connector NewDummyVenueConnector
    None (mkConfig "dummy" ["BTCUSDT"] None) None world0 NewDummyVenueConnector world0 eq_refl) as (st & H & _ & Hst).
  eexists. rewrite H. split; [reflexivity|]. cbn. by rewrite (Hst eq_refl).
Defined.
End Witnesses.
