(* ===== verification/Main.v ===== *)
(** * cmd/gateway-exchange: how the process is assembled

    Which connector, audit sink, store and bus the environment selects, and the
    service they form. [log.Fatalf] ends the process: a fatal step is a [Fail] with the
    message. [main] around [start] is in Process.v. *)

From S2P Require Export ServerFacts Secrets Postgres.

(** ** The dynamic values of the interfaces *)
Section Interfaces.
Context `{DD : Decimal} `{E : Env} {Q : Type} `{!Pool Q}.

Inductive AnyConnector :=
  | CBinance (c : Binance.Connector)
  | CKraken (c : Kraken.Connector)
  | COtc (c : Otc.Connector)
  | CDummy (c : Dummy.DummyVenueConnector).

Definition lift {A C B : Type} (inj : C → B) (m : IO (A * C)) : IO (A * B) :=
  '(a, c) ← m; mret (a, inj c).

#[global] Instance any_connector : VenueConnector AnyConnector := {|
  PlaceOrder c req := match c with
    | CBinance c => lift CBinance (PlaceOrder c req) | CKraken c => lift CKraken (PlaceOrder c req)
    | COtc c => lift COtc (PlaceOrder c req) | CDummy c => lift CDummy (PlaceOrder c req) end;
  CancelOrder c req := match c with
    | CBinance c => lift CBinance (CancelOrder c req) | CKraken c => lift CKraken (CancelOrder c req)
    | COtc c => lift COtc (CancelOrder c req) | CDummy c => lift CDummy (CancelOrder c req) end;
  GetOrder c id := match c with
    | CBinance c => lift CBinance (GetOrder c id) | CKraken c => lift CKraken (GetOrder c id)
    | COtc c => lift COtc (GetOrder c id) | CDummy c => lift CDummy (GetOrder c id) end;
  GetFills c q := match c with
    | CBinance c => lift CBinance (GetFills c q) | CKraken c => lift CKraken (GetFills c q)
    | COtc c => lift COtc (GetFills c q) | CDummy c => lift CDummy (GetFills c q) end;
  GetBalances c := match c with
    | CBinance c => lift CBinance (GetBalances c) | CKraken c => lift CKraken (GetBalances c)
    | COtc c => lift COtc (GetBalances c) | CDummy c => lift CDummy (GetBalances c) end;
  SubscribeBook c pairs := match c with
    | CBinance c => lift CBinance (SubscribeBook c pairs) | CKraken c => lift CKraken (SubscribeBook c pairs)
    | COtc c => lift COtc (SubscribeBook c pairs) | CDummy c => lift CDummy (SubscribeBook c pairs) end;
|}.

#[global] Instance any_as_dummy : AsDummy AnyConnector := λ c,
  match c with CDummy d => Some d | _ => None end.

Inductive AnySink :=
  | SKafka (s : Kafka.KafkaSink)
  | SMemory (s : InMemory.InMemorySink).

#[global] Instance any_sink : Sink AnySink := λ k e,
  match k with
  | SKafka s => s ← Kafka.Emit s e; mret (SKafka s)
  | SMemory s => s ← InMemory.Emit s e; mret (SMemory s)
  end.

#[global] Instance any_sink_laws : SinkLaws AnySink.
Proof.
  intros k e w. apply attempts_emits. unfold Emit, any_sink, Kafka.Emit, InMemory.Emit, AuditSink.stamped. solve_emits.
Qed.

Inductive AnyStore :=
  | StPostgres (d : DB Q)
  | StMemory (s : MemStore.MemStore).

#[global] Instance any_store : Store AnyStore := {|
  Store.RecordOrder st o := match st with
    | StPostgres d => lift StPostgres (Postgres.RecordOrder d o)
    | StMemory s => lift StMemory (MemStore.RecordOrder s o) end;
  Store.GetOrderByClientID st id := match st with
    | StPostgres d => lift StPostgres (Postgres.GetOrderByClientID d id)
    | StMemory s => lift StMemory (MemStore.GetOrderByClientID s id) end;
  Store.RecordFill st f := match st with
    | StPostgres d => lift StPostgres (Postgres.RecordFill d f)
    | StMemory s => lift StMemory (MemStore.RecordFill s f) end;
  Store.FillsForOrder st id := match st with
    | StPostgres d => lift StPostgres (Postgres.FillsForOrder d id)
    | StMemory s => lift StMemory (MemStore.FillsForOrder s id) end;
|}.

#[global] Instance any_of_mem_store : OfMemStore AnyStore := StMemory.

End Interfaces.
Arguments AnyStore {DD} Q.

(** ** splitCSV *)

(** [range] over the runes of [s]; a byte that starts none is U+FFFD. *)
Fixpoint split_from (fuel : nat) (s cur : string) : list string :=
  match fuel, s with
  | S fuel, String c r =>
      if Ascii.eqb c "," then (if String.eqb cur "" then [] else [cur]) ++ split_from fuel r ""
      else match utf8_width s with
           | O => split_from fuel r (cur +:+ replacement)
           | n => split_from fuel (str_drop n s) (cur +:+ str_take n s)
           end
  | _, _ => if String.eqb cur "" then [] else [cur]
  end.

Definition splitCSV (s : string) : list string := split_from (String.length s) s "".

(** ** Startup *)
Section Main.
Context `{DD : Decimal} `{E : Env} {Q : Type} `{!Pool Q}.

(** [log.Printf]. *)
Definition printf (msg : string) : IO unit := trace (EvLog msg).

(** Continues with the value, or ends the process. *)
Definition or_exit {A B} (m : IO (result A)) (k : A → IO (result B)) : IO (result B) :=
  r ← m; match r with Fail e => mret (Fail e) | Ok a => k a end.

Definition newSecretsManager (venue : string) (devMode : bool) : IO (result (Manager EnvVault)) :=
  if devMode then mret (Ok (NewManager venue (NewEnvVaultFromEnv "SECRETS"))) else
  let url := env_getenv "SECRETS_MANAGER_URL" in
  if String.eqb url "" then mret (Fail
    "SECRETS_MANAGER_URL required in production mode (or set DEV_MODE=1); env-vault fallback requires SECRETS_<path> env vars")
  else
    _ ← printf ("secrets.Manager: using env-vault backed by SECRETS_* env vars (SECRETS_MANAGER_URL="
          +:+ url +:+ " set but real Vault client not yet implemented)");
    mret (Ok (NewManager venue (NewEnvVaultFromEnv "SECRETS"))).

Definition loadExchangeCreds (venue : string) (devMode : bool) : IO (result (string * string)) :=
  if devMode
  then mret (Ok (env_getenv (ToUpper venue +:+ "_API_KEY"), env_getenv (ToUpper venue +:+ "_API_SECRET")))
  else or_exit (newSecretsManager venue devMode) (λ mgr,
    '(creds, _) ← Load mgr;
    mret (match creds with
          | Fail e => Fail ("secrets.Manager.Load for venue " +:+ Quote venue +:+ " failed: " +:+ e
              +:+ " — set DEV_MODE=1 for local dev or provision SECRETS_* env vars / Vault")
          | Ok c =>
              if String.eqb (cr_APIKey c) "" || String.eqb (cr_APISecret c) ""
              then Fail ("secrets.Manager returned empty credentials for venue " +:+ Quote venue
                     +:+ " — set DEV_MODE=1 for local dev or provision SECRETS_* / Vault")
              else Ok (cr_APIKey c, cr_APISecret c)
          end)).

Definition selectConnector (name : string) (devMode : bool) : IO (result AnyConnector) :=
  if String.eqb name "binance" then
    or_exit (loadExchangeCreds "binance" devMode) (λ '(key, secret),
      c ← Binance.NewConnector key secret None; mret (Ok (CBinance c)))
  else if String.eqb name "kraken" then
    or_exit (loadExchangeCreds "kraken" devMode) (λ '(key, secret),
      c ← Kraken.NewConnector key secret None; mret (Ok (CKraken c)))
  else if String.eqb name "otc" then
    or_exit (loadExchangeCreds "otc" devMode) (λ '(key, _),
      c ← Otc.NewConnector key None; mret (Ok (COtc c)))
  else if negb devMode then mret (Fail ("VENUE_FAMILY=" +:+ Quote name
    +:+ " not a real venue and DEV_MODE!=1; refusing to start with dummy connector in production mode"))
  else mret (Ok (CDummy Dummy.NewDummyVenueConnector)).

Definition newStore (devMode : bool) : IO (result (AnyStore Q)) :=
  let dsn := env_getenv "DB_URL" in
  if negb (String.eqb dsn "") then
    db ← Open dsn;
    mret (match db with Fail e => Fail ("postgres: open: " +:+ e) | Ok db => Ok (StPostgres db) end)
  else if devMode then
    _ ← printf "WARNING: DEV_MODE=1 with no DB_URL — using in-memory store; all state is lost on restart";
    mret (Ok (StMemory MemStore.New))
  else mret (Fail
    "DB_URL required in production mode — set DEV_MODE=1 to allow in-memory store for development").

Definition newAuditSink (venue : string) (devMode : bool) : IO (result AnySink) :=
  let brokers := env_getenv "KAFKA_BROKERS" in
  if String.eqb brokers "" then
    if devMode then
      _ ← printf "warn: KAFKA_BROKERS unset and DEV_MODE=1; audit events recorded in-memory only";
      mret (Ok (SMemory InMemory.NewInMemorySink))
    else mret (Fail "KAFKA_BROKERS unset and DEV_MODE not set; cannot start audit producer")
  else match Kafka.NewKafkaSink (splitCSV brokers) venue with
  | Ok ks => mret (Ok (SKafka ks))
  | Fail e =>
      if devMode then
        _ ← printf ("warn: audit kafka init failed (DEV_MODE): " +:+ e +:+ "; falling back to in-memory");
        mret (Ok (SMemory InMemory.NewInMemorySink))
      else mret (Fail ("audit kafka init: " +:+ e))
  end.

(** The bus of [main]; a publisher that cannot be built only disables it. *)
Definition newBus : IO (option (Bus (option KafkaPublisher))) :=
  let busURL := env_getenv "EVENT_BUS_URL" in
  if String.eqb busURL "" then mret None else
  match NewKafkaPublisherFromURL busURL with
  | Fail e => _ ← printf ("events: kafka publisher init failed: " +:+ e); mret None
  | Ok p => mret (Some (NewBus (Some p) "recon"))
  end.

Definition getenv_default (key d : string) : string :=
  let v := env_getenv key in if String.eqb v "" then d else v.

Definition AnyService : Type := Service AnyConnector AnySink (option KafkaPublisher) (AnyStore Q).

Record Gateway := mkGateway {
  gw_Addr : string;
  gw_Service : AnyService;
  gw_Handler : Handler AnyService body;
}.

Definition errNoTokenSecret : error :=
  "SERVICE_TOKEN_SECRET not set and DEV_MODE!=1; refusing to start in production mode".

(** [main], up to the point where the server listens. *)
Definition start (testing : bool) : IO (result Gateway) :=
  let devMode := String.eqb (env_getenv "DEV_MODE") "1" in
  let addr := getenv_default "ADDR" ":8080" in
  let venueName := getenv_default "VENUE_FAMILY" "dummy" in
  let pairs := if String.eqb (env_getenv "PAIRS") "" then ["BTCUSDT"; "ETHUSDT"]
               else splitCSV (env_getenv "PAIRS") in
  or_exit (selectConnector venueName devMode) (λ conn,
  _ ← (if devMode then printf ("DEV_MODE=1: reading exchange creds from env (NOT FOR PRODUCTION); venue="
                               +:+ venueName)
       else mret tt);
  or_exit (newAuditSink venueName devMode) (λ sink,
  bus ← newBus;
  or_exit (newStore devMode) (λ st,
  svc ← NewService conn (Some sink) (mkConfig venueName pairs (Some st)) bus;
  match svc with
  | Fail e => mret (Fail ("server: " +:+ e))
  | Ok svc =>
      match Routes testing with
      | None => mret (Fail errNoTokenSecret)
      | Some h => mret (Ok (mkGateway addr svc h))
      end
  end))).

End Main.
Arguments Gateway {DD} Q.

(** ** Properties *)

Definition non_empty (s : string) : bool := negb (String.eqb s "").

Lemma split_from_ascii fuel s cur :
  is_ascii s = true → (String.length s ≤ fuel)%nat →
  split_from fuel s cur = List.filter non_empty
    (match split_byte "," s with w :: ws => (cur +:+ w) :: ws | [] => [] end).
Proof.
  assert (∀ c l, List.filter non_empty (c :: l) = (if String.eqb c "" then [] else [c]) ++ List.filter non_empty l)
    as Hcons by (intros c l; cbn; unfold non_empty; by destruct (String.eqb c "")).
  revert s cur. induction fuel as [|fuel IH]; intros s cur Ha Hl; destruct s as [|c r]; cbn [String.length] in Hl;
    try lia; try (cbn [split_from split_byte]; rewrite Hcons, str_app_nil_r, app_nil_r; done).
  unfold is_ascii in Ha. cbn [str_forallb] in Ha. apply andb_prop in Ha as [Hc Ha].
  cbn [split_from split_byte]. destruct (Ascii.eqb_spec c ",") as [->|Hne].
  - rewrite IH by (done || lia). rewrite Hcons, str_app_nil_r. f_equal.
    pose proof (split_byte_ne "," r). by destruct (split_byte "," r).
  - assert (utf8_width (String c r) = 1%nat) as ->.
    { apply Z.ltb_lt in Hc. unfold utf8_width. change (nth_byte (String c r) 0) with (byte c).
      assert (in_range 0 127 (byte c) = true) as ->; [|done].
      unfold in_range. assert (0 ≤ byte c) by (unfold byte; lia). lia. }
    cbn [str_take str_drop]. rewrite IH by (done || lia). pose proof (split_byte_ne "," r).
    destruct (split_byte "," r) as [|w ws]; [done|].
    by rewrite str_app_assoc.
Qed.

(** On ASCII text the splitting is that at every comma, without empty parts. *)
Theorem split_csv_correct s :
  is_ascii s = true → splitCSV s = List.filter non_empty (split_byte "," s).
Proof.
  intros Ha. unfold splitCSV. rewrite split_from_ascii by (done || lia).
  pose proof (split_byte_ne "," s). by destruct (split_byte "," s).
Qed.

Section Startup.
Context `{DD : Decimal} `{E : Env} {Q : Type} `{!Pool Q}.

Lemma or_exit_ok {A B} (m : IO (result A)) (k : A → IO (result B)) w b :
  fst (or_exit m k w) = Ok b → ∃ a w1, m w = (Ok a, w1) ∧ fst (k a w1) = Ok b.
Proof.
  unfold or_exit. rewrite bind_run. destruct (m w) as [[a|e] w1]; cbn [fst snd]; [|done].
  intros H. by exists a, w1.
Qed.

Definition is_production : Prop := env_getenv "DEV_MODE" ≠ "1".

(** The credentials of a real connector. *)
Definition credentials_of (c : AnyConnector) : option (string * string) :=
  match c with
  | CBinance c => Some (Binance.apiKey c, Binance.apiSecret c)
  | CKraken c => Some (Kraken.apiKey c, Kraken.apiSecret c)
  | COtc _ | CDummy _ => None
  end.

Lemma load_creds_production venue w key secret w1 :
  loadExchangeCreds venue false w = (Ok (key, secret), w1) → key ≠ "" ∧ secret ≠ "".
Proof.
  intros H. assert (fst (loadExchangeCreds venue false w) = Ok (key, secret)) as H' by (by rewrite H).
  unfold loadExchangeCreds in H'. apply or_exit_ok in H' as (mgr & w2 & _ & H').
  rewrite bind_run in H'. destruct (Load mgr w2) as [[[c|e] m'] w3]; cbn [fst snd mret io_ret] in H'; [|done].
  destruct (String.eqb_spec (cr_APIKey c) ""); [done|]. destruct (String.eqb_spec (cr_APISecret c) ""); [done|].
  by injection H' as <- <-.
Qed.

Lemma select_connector_production name w conn w1 :
  selectConnector name false w = (Ok conn, w1) →
  (name = "binance" ∧ ∃ c, conn = CBinance c ∧ Binance.apiKey c ≠ "" ∧ Binance.apiSecret c ≠ "")
  ∨ (name = "kraken" ∧ ∃ c, conn = CKraken c ∧ Kraken.apiKey c ≠ "" ∧ Kraken.apiSecret c ≠ "")
  ∨ (name = "otc" ∧ ∃ c, conn = COtc c).
Proof.
  intros H. assert (fst (selectConnector name false w) = Ok conn) as H' by (by rewrite H).
  unfold selectConnector in H'.
  destruct (String.eqb_spec name "binance") as [->|]; [left; split; [done|]|].
  { apply or_exit_ok in H' as ([key secret] & w2 & Hc & H'). apply load_creds_production in Hc.
    unfold Binance.NewConnector in H'. rewrite !bind_run in H'. cbn [fst snd mret io_ret] in H'.
    injection H' as <-. by eexists. }
  destruct (String.eqb_spec name "kraken") as [->|]; [right; left; split; [done|]|].
  { apply or_exit_ok in H' as ([key secret] & w2 & Hc & H'). apply load_creds_production in Hc.
    unfold Kraken.NewConnector in H'. rewrite !bind_run in H'. cbn [fst snd mret io_ret] in H'.
    injection H' as <-. by eexists. }
  destruct (String.eqb_spec name "otc") as [->|]; [right; right; split; [done|]|done].
  apply or_exit_ok in H' as ([key secret] & w2 & Hc & H').
  unfold Otc.NewConnector in H'. rewrite !bind_run in H'. cbn [fst snd mret io_ret] in H'.
  injection H' as <-. by eexists.
Qed.

Lemma audit_sink_production venue w k w1 :
  newAuditSink venue false w = (Ok k, w1) → ∃ s, k = SKafka s.
Proof.
  unfold newAuditSink. destruct (String.eqb (env_getenv "KAFKA_BROKERS") ""); [done|].
  destruct (Kafka.NewKafkaSink _ _) as [s|e]; [|done]. intros [= <- _]. by exists s.
Qed.

Lemma store_production w st w1 :
  newStore (Q := Q) false w = (Ok st, w1) → ∃ d, st = StPostgres d.
Proof.
  unfold newStore. destruct (String.eqb (env_getenv "DB_URL") ""); cbn [negb]; [done|].
  rewrite bind_run. destruct (Open (env_getenv "DB_URL") w) as [[d|e] w2]; cbn [fst snd mret io_ret]; [|done].
  intros [= <- _]. by exists d.
Qed.

(** The parts a gateway that starts is made of. *)
Lemma start_parts testing w g :
  fst (start (Q := Q) testing w) = Ok g →
  let devMode := String.eqb (env_getenv "DEV_MODE") "1" in
  let venueName := getenv_default "VENUE_FAMILY" "dummy" in
  ∃ conn k st w0 w1 w2 w3 w4 w5 pairs conn',
    selectConnector venueName devMode w0 = (Ok conn, w1)
    ∧ newAuditSink venueName devMode w2 = (Ok k, w3)
    ∧ newStore devMode w4 = (Ok st, w5)
    ∧ SubscribeBook conn pairs w5 = ((None, conn'), snd (SubscribeBook conn pairs w5))
    ∧ connector (gw_Service g) = conn' ∧ audit (gw_Service g) = Some k
    ∧ store (gw_Service g) = Some st ∧ venueName = Server.venueName (gw_Service g)
    ∧ Routes testing = Some (gw_Handler g).
Proof.
  unfold start. set (devMode := String.eqb (env_getenv "DEV_MODE") "1").
  set (venueName := getenv_default "VENUE_FAMILY" "dummy").
  set (pairs := if String.eqb (env_getenv "PAIRS") "" then _ else _).
  intros (conn & w1 & Hconn & H)%or_exit_ok. rewrite bind_run in H.
  apply or_exit_ok in H as (k & w3 & Hk & H). rewrite bind_run in H.
  apply or_exit_ok in H as (st & w5 & Hst & H). rewrite bind_run in H.
  unfold NewService, NewBookAggregator in H. rewrite !bind_run in H. cbn [cf_Pairs] in H.
  destruct (SubscribeBook conn pairs w5) as [[[e|] conn'] w6] eqn:Hs; cbn [fst snd mret io_ret] in H; [done|].
  destruct (Routes testing) as [h|] eqn:Hr; [|done]. injection H as <-.
  eexists conn, k, st, w, w1, _, w3, _, w5, pairs, conn'. rewrite Hs. by split_and!.
Qed.

(** The venue of a gateway that starts in production. *)
Lemma production_connector testing w g :
  is_production → fst (start (Q := Q) testing w) = Ok g →
  (Server.venueName (gw_Service g) = "binance"
    ∧ ∃ c, connector (gw_Service g) = CBinance c ∧ Binance.apiKey c ≠ "" ∧ Binance.apiSecret c ≠ "")
  ∨ (Server.venueName (gw_Service g) = "kraken"
    ∧ ∃ c, connector (gw_Service g) = CKraken c ∧ Kraken.apiKey c ≠ "" ∧ Kraken.apiSecret c ≠ "").
Proof.
  intros Hprod H. unfold is_production in Hprod.
  destruct (start_parts testing w g H) as (conn & k & st & w0 & w1 & w2 & w3 & w4 & w5 & pairs & conn'
    & Hc & Hk & Hst & Hs & Hconn & Ha & Hstore & Hname & Hr).
  rewrite (proj2 (String.eqb_neq _ _) Hprod) in Hc. rewrite <- Hname.
  apply select_connector_production in Hc as [(-> & c & -> & Hcr)|[(-> & c & -> & Hcr)|(-> & c & ->)]]; [..|done].
  all: rewrite Hconn; cbn in Hs; unfold lift in Hs; rewrite !bind_run in Hs; injection Hs as _ <-; eauto.
Qed.

(** C38: A gateway that starts with DEV_MODE other than 1 runs Binance or Kraken with
    non-empty credentials, a Kafka audit sink and the PostgreSQL store, and outside
    test binaries with a token secret: no development fallback is ever taken. *)
Theorem production_start_has_no_fallback testing w g :
  is_production → fst (start (Q := Q) testing w) = Ok g →
  let s := gw_Service g in
  ((Server.venueName s = "binance" ∧ ∃ c, connector s = CBinance c ∧ Binance.apiKey c ≠ "" ∧ Binance.apiSecret c ≠ "")
   ∨ (Server.venueName s = "kraken" ∧ ∃ c, connector s = CKraken c ∧ Kraken.apiKey c ≠ "" ∧ Kraken.apiSecret c ≠ ""))
  ∧ (∃ k, audit s = Some (SKafka k)) ∧ (∃ d, store s = Some (StPostgres d))
  ∧ (testing = false → env_getenv "SERVICE_TOKEN_SECRET" ≠ "").
Proof.
  intros Hprod H. unfold is_production in Hprod.
  destruct (start_parts testing w g H) as (conn & k & st & w0 & w1 & w2 & w3 & w4 & w5 & pairs & conn'
    & Hc & Hk & Hst & Hs & Hconn & Ha & Hstore & Hname & Hr).
  rewrite (proj2 (String.eqb_neq _ _) Hprod) in Hc, Hk, Hst. cbv zeta. rewrite <- Hname.
  split_and!.
  - rewrite Hname. by apply (production_connector testing w).
  - apply audit_sink_production in Hk as [s ->]. by exists s.
  - apply store_production in Hst as [d ->]. by exists d.
  - intros ->. unfold Routes, SecretFromEnv in Hr.
    destruct (String.eqb_spec (env_getenv "SERVICE_TOKEN_SECRET") ""); [|done].
    by rewrite (proj2 (String.eqb_neq _ _) Hprod) in Hr.
Qed.

(** A gateway for the OTC desk never starts: the order book subscription is unsupported. *)
Theorem otc_gateway_never_starts testing w :
  getenv_default "VENUE_FAMILY" "dummy" = "otc" → is_ok (fst (start (Q := Q) testing w)) = false.
Proof.
  intros Hv. destruct (fst (start testing w)) as [g|e] eqn:H; [|done]. exfalso.
  destruct (start_parts testing w g H) as (conn & k & st & w0 & w1 & w2 & w3 & w4 & w5 & pairs & conn'
    & Hc & _ & _ & Hs & _). rewrite Hv in Hc.
  assert (∃ c, conn = COtc c) as [c ->]; [|done].
  assert (fst (selectConnector "otc" (String.eqb (env_getenv "DEV_MODE") "1") w0) = Ok conn) as H'
    by (by rewrite Hc).
  unfold selectConnector in H'. cbn [String.eqb Ascii.eqb Bool.eqb] in H'.
  apply or_exit_ok in H' as ([key secret] & w6 & _ & H').
  unfold Otc.NewConnector in H'. rewrite !bind_run in H'. cbn [fst snd mret io_ret] in H'.
  injection H' as <-. by eexists.
Qed.
End Startup.

(** ** Witnesses *)
Section Witnesses.
#[local] Existing Instances fixed_decimal tables_pool.

Definition production_vars (k : string) : string :=
  if String.eqb k "VENUE_FAMILY" then "kraken"
  else if String.eqb k "SECRETS_MANAGER_URL" then "https://vault:8200"
  else if String.eqb k "KAFKA_BROKERS" then "k1:9092,k2:9092"
  else if String.eqb k "DB_URL" then "postgres://db/gateway"
  else if String.eqb k "SERVICE_TOKEN_SECRET" then "k"
  else "".

Definition production_env : Env :=
  let e := env_with (λ _, HTTPErr "connection refused") (λ _, None) production_vars in
  {| env_now := @env_now e; env_range := @env_range e; env_int63n := @env_int63n e;
     env_float64 := @env_float64 e; env_http := @env_http e; env_new_request := @env_new_request e;
     env_sleep := @env_sleep e; env_uuid := @env_uuid e; env_getenv := production_vars;
     env_environ := ["SECRETS_secret/exchange-connectors/kraken/api-key=key";
                     "SECRETS_secret/exchange-connectors/kraken/api-secret=c2VjcmV0"];
     env_kafka := @env_kafka e; env_json_error := @env_json_error e;
     env_base64_error := @env_base64_error e; env_unicode := @env_unicode e |}.

Definition otc_env : Env :=
  env_with (λ _, HTTPErr "connection refused") (λ _, None)
    (λ k, if String.eqb k "VENUE_FAMILY" then "otc" else if String.eqb k "DEV_MODE" then "1" else "").

Lemma split_csv_correct_witness :
  splitCSV ",a:1,,b:2" = ["a:1"; "b:2"] ∧ splitCSV ",a:1,,b:2" = List.filter non_empty ["" ; "a:1"; ""; "b:2"].
Proof. split; [vm_compute; reflexivity|exact (split_csv_correct ",a:1,,b:2" eq_refl)]. Defined.

Lemma production_starts :
  is_ok (fst (start (E := production_env) (Q := tables) false world0)) = true.
Proof. vm_compute. reflexivity. Qed.

Lemma production_start_has_no_fallback_witness :
  ∃ g, fst (start (E := production_env) (Q := tables) false world0) = Ok g
    ∧ ∃ d, store (gw_Service g) = Some (StPostgres d).
Proof.
  pose proof production_starts as Hok.
  destruct (fst (start (E := production_env) (Q := tables) false world0)) as [g|e] eqn:Hg; [|discriminate].
  exists g. split; [reflexivity|].
  exact (proj1 (proj2 (proj2 (production_start_has_no_fallback (E := production_env) (Q := tables) false world0 g
    ltac:(vm_compute; discriminate) Hg)))).
Defined.

Lemma otc_gateway_never_starts_witness :
  is_ok (fst (start (E := otc_env) (Q := tables) false world0)) = false.
Proof. exact (otc_gateway_never_starts (E := otc_env) (Q := tables) false world0 eq_refl). Defined.

(** With DEV_MODE=1 and nothing else set: the dummy connector and in-memory stores. *)
Example development_starts :
  let e := env_with (λ _, HTTPErr "connection refused") (λ _, None)
             (λ k, if String.eqb k "DEV_MODE" then "1" else "") in
  match fst (start (E := e) (Q := tables) false world0) with
  | Ok g => match connector (gw_Service g), store (gw_Service g), audit (gw_Service g) with
            | CDummy _, Some (StMemory _), Some (SMemory _) => true
            | _, _, _ => false
            end
  | Fail _ => false
  end = true.
Proof. vm_compute. reflexivity. Qed.
End Witnesses.
