(* ===== verification/Gateway.v ===== *)
(** * The running gateway: sequences of requests through the assembled process

    [serve_all] answers requests one after the other with the handler [start] returns.
    An invariant of the connector's operations ([Preserved]) is one of the service,
    whatever is asked of it; the real venues of a production gateway are such an
    invariant. *)

From S2P Require Export Main.

(** ** Serving requests *)
Section Serving.
Context `{DD : Decimal} `{E : Env}.
Context {C K P St : Type} `{!VenueConnector C} `{!AsDummy C} `{!Sink K} `{!Publisher P}
  `{!Store St} `{!OfMemStore St}.
Implicit Types (s : Service C K P St) (r : Request) (c : C).

Fixpoint serve_all (h : Server.handler (C := C) (K := K) (P := P) (St := St)) (rs : list Request) (s : Service C K P St)
    : IO (list (Response body) * Service C K P St) :=
  match rs with
  | [] => mret ([], s)
  | r :: rs =>
      '(resp, s) ← h s r;
      '(resps, s) ← serve_all h rs s;
      mret (resp :: resps, s)
  end.

(** What every request keeps and answers, all of them keep and answer. *)
Lemma serve_all_invariant (Inv : Service C K P St → Prop) (R : Request → Response body → Prop)
    (h : Server.handler (C := C) (K := K) (P := P) (St := St)) rs s w :
  (∀ s r w, Inv s → let '((resp, s'), _) := h s r w in Inv s' ∧ R r resp) → Inv s →
  let '((resps, s'), _) := serve_all h rs s w in Inv s' ∧ Forall2 R rs resps.
Proof.
  intros Hh. revert s w. induction rs as [|r rs IH]; intros s w H; [by split|]. cbn [serve_all].
  rewrite bind_run. specialize (Hh s r w H). destruct (h s r w) as [[resp s1] w1]. destruct Hh as [H1 Hr].
  cbn [fst snd]. rewrite bind_run. specialize (IH s1 w1 H1).
  destruct (serve_all h rs s1 w1) as [[resps s2] w2]. destruct IH. split; [done|]. by constructor.
Qed.

(** A property of the connector that its operations keep. *)
Class Preserved (I : C → Prop) : Prop := {
  keep_place c req w : I c → I (snd (fst (PlaceOrder c req w)));
  keep_cancel c req w : I c → I (snd (fst (CancelOrder c req w)));
  keep_get c id w : I c → I (snd (fst (GetOrder c id w)));
  keep_fills c q w : I c → I (snd (fst (GetFills c q w)));
  keep_balances c w : I c → I (snd (fst (GetBalances c w)));
}.

Context (I : C → Prop) `{!Preserved I}.

Definition holds s : Prop := I (connector s).

Lemma emit_connector s e w : connector (fst (emit s e w)) = connector s.
Proof. unfold emit. destruct (audit s); [|done]. by rewrite bind_run. Qed.

Lemma record_placed_connector s req amount price resp w :
  connector (fst (record_placed s req amount price resp w)) = connector s.
Proof.
  unfold record_placed. destruct (store s); [|done].
  rewrite bind_run. destruct (Store.RecordOrder _ _ _) as [[x st1] w1]. cbn [fst snd]. by rewrite bind_run.
Qed.

Lemma announce_placed_connector s req amount price resp w :
  connector (fst (announce_placed s req amount price resp w)) = connector s.
Proof. unfold announce_placed. destruct (audit s); [|done]. by rewrite !bind_run. Qed.

Lemma orders_root_holds s r w : holds s → holds (snd (fst (handleOrdersRoot s r w))).
Proof.
  unfold holds, handleOrdersRoot. intros H. destruct (check_order r) as [?|[[req amount] price]]; [done|].
  rewrite bind_run. pose proof (keep_place (connector s) (venue_request req amount price) w H) as Hc.
  destruct (PlaceOrder _ _ _) as [[[rp|e] c] w1]; cbn [fst snd] in *; [|exact Hc].
  rewrite !bind_run. pose proof (record_placed_connector (set_connector c s) req amount price rp w1) as H1.
  destruct (record_placed _ _ _ _ _ _) as [s1 w2]. cbn [fst snd] in *.
  pose proof (announce_placed_connector s1 req amount price rp w2) as H2.
  destruct (announce_placed _ _ _ _ _ _) as [s2 w3]. cbn [fst snd mret io_ret] in *. by rewrite H2, H1.
Qed.

Lemma order_sub_holds s r w : holds s → holds (snd (fst (handleOrderSub s r w))).
Proof.
  unfold holds, handleOrderSub. intros H. destruct (splitOrderPath (rq_Path r)) as [id sub].
  destruct (String.eqb id ""); [done|]. destruct (String.eqb sub "cancel"); [|destruct (String.eqb sub "fills")].
  - unfold cancel_order. destruct (negb _); [done|]. rewrite bind_run.
    pose proof (keep_cancel (connector s) (mkCancelRequest id "") w H) as Hc.
    destruct (CancelOrder _ _ _) as [[[e|] c] w1]; cbn [fst snd] in *; [exact Hc|].
    rewrite bind_run. cbn [fst snd mret io_ret]. by rewrite emit_connector.
  - unfold order_fills. destruct (negb _); [done|]. rewrite bind_run.
    pose proof (keep_fills (connector s) (mkFillQuery id zero_time zero_time (query_limit r)) w H) as Hc.
    by destruct (GetFills _ _ _) as [[o c] w1].
  - destruct (_ || _); [|done]. unfold order_status. destruct (negb _); [done|].
    rewrite bind_run. pose proof (keep_get (connector s) id w H) as Hc.
    by destruct (GetOrder _ _ _) as [[o c] w1].
Qed.

Lemma balances_holds s r w : holds s → holds (snd (fst (handleBalances s r w))).
Proof.
  unfold holds, handleBalances. intros H. destruct (negb _); [done|]. rewrite bind_run.
  pose proof (keep_balances (connector s) w H) as Hc.
  destruct (GetBalances _ _) as [[[b|e] c] w1]; cbn [fst snd] in *; [|exact Hc].
  rewrite bind_run. destruct (audit (set_connector c s)); cbn [fst snd]; [|exact Hc]. by rewrite !bind_run.
Qed.

Lemma serve_mux_holds s r w : holds s → holds (snd (fst (serve_mux s r w))).
Proof.
  intros H. unfold serve_mux. destruct (Mux.dispatch mux r) as [h|loc|] eqn:Hd; [|done..].
  apply serve_found in Hd as (pat & Hin & _). unfold mux in Hin.
  rewrite list_elem_of_In in Hin. cbn [List.In] in Hin.
  repeat destruct Hin as [[= <- <-]|Hin]; try done.
  - unfold handleReadyz. by destruct (ready s).
  - unfold handleRotateCreds, holds. rewrite bind_run. cbn [fst snd mret io_ret]. by rewrite emit_connector.
  - by apply orders_root_holds.
  - by apply order_sub_holds.
  - by apply balances_holds.
  - unfold handleBook. case_match; [done|]. case_match; [done|]. by destruct (Get _ _).
Qed.

Lemma routes_holds testing h s r w :
  Routes testing = Some h → holds s → holds (snd (fst (h s r w))).
Proof.
  unfold Routes. destruct (SecretFromEnv testing) as [[secret bypass]|]; cbn; [|done]. intros [= <-] H.
  destruct (middleware_allow secret bypass serve_mux s r w) as [->|[(msg & w' & -> & _)| -> ]];
    [by apply serve_mux_holds|done|by apply serve_mux_holds].
Qed.

Lemma serve_all_holds testing h rs s w :
  Routes testing = Some h → holds s →
  let '((resps, s'), _) := serve_all h rs s w in holds s' ∧ length resps = length rs.
Proof.
  intros Hr H. pose proof (serve_all_invariant holds (λ _ _, True) h rs s w) as Hs.
  destruct (serve_all h rs s w) as [[resps s'] w'].
  destruct Hs as [Hh Hf]; [|done|split; [done|by apply Forall2_length in Hf]].
  intros s1 r w1 H1. pose proof (routes_holds testing h s1 r w1 Hr H1). by destruct (h s1 r w1) as [[? ?] ?].
Qed.
End Serving.

(** A path [/v1/orders], to which only a placement is sent. *)
Definition is_order_post (r : Request) : Prop :=
  rq_Method r = "POST" ∧ Mux.segments (rq_EscapedPath r) = ["v1"; "orders"].

Section Refusing.
Context `{DD : Decimal} `{E : Env}.
Context {C K P St : Type} `{!VenueConnector C} `{!AsDummy C} `{!Sink K} `{!Publisher P}
  `{!Store St} `{!OfMemStore St}.
Implicit Types (s : Service C K P St) (r : Request) (c : C).

(** A connector in [I] refuses, untouched, an order without a client order id. *)
Definition refuses_in (I : C → Prop) : Prop := ∀ c (req : OrderRequest) w,
  I c → req_ClientOrderID req = "" → ∃ e, PlaceOrder c req w = ((Fail e, c), w).

Context (I : C → Prop) `{!Preserved I} (Hrefuses : refuses_in I).

Lemma order_refused_in s r w :
  holds I s → ∃ resp, handleOrdersRoot s r w = ((resp, s), w) ∧ rs_Status resp ≠ StatusOK.
Proof.
  intros H. unfold handleOrdersRoot. destruct (check_order r) as [resp|[[req amount] price]] eqn:Hc.
  - exists resp. split; [done|]. rewrite (check_order_refused r resp Hc). by case_match.
  - destruct (Hrefuses (connector s) (venue_request req amount price) w H eq_refl) as [e He].
    rewrite bind_run, He. eexists. split; [by destruct s|done].
Qed.

(** The pattern [/v1/orders] is the only one such a path matches. *)
Lemma order_post_dispatch r (h : Server.handler (C := C) (K := K) (P := P) (St := St)) :
  is_order_post r → Mux.dispatch mux r = Mux.Serve h → h = handleOrdersRoot.
Proof.
  intros [_ Hs] (pat & Hin & Hm)%serve_found. rewrite Hs in Hm. unfold mux in Hin.
  rewrite list_elem_of_In in Hin. cbn [List.In] in Hin.
  repeat destruct Hin as [[= <- <-]|Hin]; try done.
Qed.

Lemma serve_mux_refuses s r w :
  holds I s →
  let '((resp, s'), _) := serve_mux s r w in
  store s' = store s ∧ (is_order_post r → rs_Status resp ≠ StatusOK).
Proof.
  intros H. pose proof (serve_mux_confined s r w) as Hc.
  assert (is_order_post r → ∃ resp, serve_mux s r w = ((resp, s), w) ∧ rs_Status resp ≠ StatusOK) as Hp.
  { intros Hp. unfold serve_mux. destruct (Mux.dispatch mux r) as [h|loc|] eqn:Hd; [|by eexists..].
    apply (order_post_dispatch r h Hp) in Hd as ->. by apply order_refused_in. }
  destruct (serve_mux s r w) as [[resp s'] w']. destruct Hc as [_ [Hs|(Hm & Hseg & Hst)]].
  - split; [done|]. intros (resp' & [= -> -> ->] & Hne)%Hp. done.
  - destruct (Hp (conj Hm Hseg)) as (resp' & [= -> -> ->] & Hne). done.
Qed.

Lemma routes_refuse testing h s r w :
  Routes testing = Some h → holds I s →
  let '((resp, s'), _) := h s r w in
  store s' = store s ∧ (is_order_post r → rs_Status resp ≠ StatusOK).
Proof.
  unfold Routes. destruct (SecretFromEnv testing) as [[secret bypass]|]; cbn; [|done]. intros [= <-] H.
  destruct (middleware_allow secret bypass serve_mux s r w) as [->|[(msg & w' & -> & _)| -> ]];
    [by apply serve_mux_refuses|done|by apply serve_mux_refuses].
Qed.

(** A request leaves a refusing connector and the store. *)
Lemma routes_keep_refusing testing h st s r w :
  Routes testing = Some h → holds I s ∧ store s = st →
  let '((resp, s'), _) := h s r w in
  (holds I s' ∧ store s' = st) ∧ (is_order_post r → rs_Status resp ≠ StatusOK).
Proof.
  intros Hr [H <-]. pose proof (routes_holds I testing h s r w Hr H) as H1.
  pose proof (routes_refuse testing h s r w Hr H) as H2.
  destruct (h s r w) as [[resp s1] w1]. cbn [fst snd] in *. by destruct H2.
Qed.

Lemma serve_all_refuses testing h rs s w :
  Routes testing = Some h → holds I s →
  let '((resps, s'), _) := serve_all h rs s w in
  store s' = store s ∧ Forall2 (λ r resp, is_order_post r → rs_Status resp ≠ StatusOK) rs resps.
Proof.
  intros Hr H. pose proof (serve_all_invariant (λ s', holds I s' ∧ store s' = store s)
    (λ r resp, is_order_post r → rs_Status resp ≠ StatusOK) h rs s w) as Hs.
  destruct (serve_all h rs s w) as [[resps s'] w']. destruct Hs as [[_ ?] ?]; [|done|done].
  intros s1 r w1. by apply (routes_keep_refusing testing).
Qed.
End Refusing.

(** ** The connectors *)
Section Connectors.
Context `{DD : Decimal} `{E : Env}.

#[export] Instance dummy_preserved : Preserved Dummy.wf.
Proof.
  split; intros d *; intros H; cbn.
  - rewrite bind_run. pose proof (Dummy.place_order_wf d req w H) as Hp.
    by destruct (Dummy.PlaceOrder d req w) as [[p d1] w1].
  - by apply Dummy.cancel_order_wf.
  - unfold Dummy.GetOrder. by case_match.
  - done.
  - done.
Qed.

(** The connectors of a production gateway. *)
Definition real_venue (c : AnyConnector) : Prop :=
  match c with CBinance _ | CKraken _ | COtc _ => True | CDummy _ => False end.

Lemma lift_real {A C : Type} (inj : C → AnyConnector) (m : IO (A * C)) w :
  (∀ c, real_venue (inj c)) → real_venue (snd (fst (lift inj m w))).
Proof. intros H. unfold lift. rewrite bind_run. destruct (m w) as [[a c] w']. apply H. Qed.

#[export] Instance real_venue_preserved : Preserved real_venue.
Proof. split; intros [c|c|c|c] *; intros H; (done || (cbn; by apply lift_real)). Qed.

Lemma real_venue_refuses : refuses_in real_venue.
Proof.
  intros [c|c|c|c] req w H Hid; [..|done].
  - change (∃ e, lift CBinance (PlaceOrder c req) w = ((Fail e, CBinance c), w)). unfold lift. rewrite bind_run.
    destruct (binance_wants_client_id c req w Hid) as [e ->]. by eexists.
  - change (∃ e, lift CKraken (PlaceOrder c req) w = ((Fail e, CKraken c), w)). unfold lift. rewrite bind_run.
    destruct (kraken_wants_client_id c req w Hid) as [e ->]. by eexists.
  - change (∃ e, lift COtc (PlaceOrder c req) w = ((Fail e, COtc c), w)). unfold lift. rewrite bind_run.
    destruct (otc_wants_client_id c req w Hid) as [e ->]. by eexists.
Qed.
End Connectors.

(** ** Properties *)

(** Any property of a connector that its interface operations preserve holds after any
    sequence of requests to the routes, with one response per request. Instances:
    the heap invariant of the dummy connector, and that a real venue stays a real
    venue. *)
Theorem requests_keep_connector_invariants `{DD : Decimal} `{E : Env} {C K P St : Type} `{!VenueConnector C}
    `{!AsDummy C} `{!Sink K} `{!Publisher P} `{!Store St} `{!OfMemStore St}
    (I : C → Prop) `{!Preserved I} testing h rs (s : Service C K P St) w :
  Routes testing = Some h → I (connector s) →
  let '((resps, s'), _) := serve_all h rs s w in
  I (connector s') ∧ length resps = length rs.
Proof.
  intros Hr H. by apply (serve_all_holds I testing).
Qed.

(** C3: A gateway that starts with DEV_MODE other than 1 never places an order: through
    any sequence of requests of any kind its store stays as it was opened and no
    POST to /v1/orders is answered 200, because the REST handler gives the connector
    no client order id and every real venue refuses an order without one. *)
Theorem production_gateway_places_no_order `{DD : Decimal} `{E : Env} {Q : Type} `{!Pool Q} testing w0 g rs w :
  is_production → fst (start (Q := Q) testing w0) = Ok g →
  let '((resps, s'), _) := serve_all (gw_Handler g) rs (gw_Service g) w in
  store s' = store (gw_Service g)
  ∧ Forall2 (λ r resp, is_order_post r → rs_Status resp ≠ StatusOK) rs resps.
Proof.
  intros Hp H. destruct (start_parts testing w0 g H) as (? & ? & ? & ? & ? & ? & ? & ? & ? & ? & ? & H').
  destruct_and! H'. eapply (serve_all_refuses real_venue real_venue_refuses); [done|].
  unfold holds. by destruct (production_connector testing w0 g Hp H) as [(_ & c & -> & _)|(_ & c & -> & _)].
Qed.

(** ** Witnesses *)
Section Witnesses.
#[local] Existing Instances fixed_decimal tables_pool.

Section Development.
#[local] Existing Instance server_env.

Lemma requests_keep_connector_invariants_witness :
  ∃ h, Routes (C := Dummy.DummyVenueConnector) (K := InMemory.InMemorySink)
         (P := option KafkaPublisher) (St := MemStore.MemStore) false = Some h
    ∧ let '((resps, s'), _) := serve_all h [demo_post; demo_post] demo_service world0 in
      Dummy.wf (connector s') ∧ length resps = 2%nat.
Proof.
  eexists. split; [reflexivity|].
  exact (requests_keep_connector_invariants Dummy.wf false _ [demo_post; demo_post] demo_service
    world0 eq_refl Dummy.dummy_wf_new).
Defined.
End Development.

Lemma production_gateway_places_no_order_witness :
  ∃ g, fst (start (E := production_env) (Q := tables) false world0) = Ok g
    ∧ is_order_post demo_post
    ∧ let '((resps, s'), _) := serve_all (gw_Handler g) [demo_post] (gw_Service g) world0 in
      store s' = store (gw_Service g).
Proof.
  pose proof production_starts as Hok.
  destruct (fst (start (E := production_env) (Q := tables) false world0)) as [g|e] eqn:Hg; [|discriminate].
  exists g. split; [reflexivity|]. split; [split; vm_compute; reflexivity|].
  pose proof (production_gateway_places_no_order (E := production_env) (Q := tables) false world0 g [demo_post] world0
    ltac:(vm_compute; discriminate) Hg) as H.
  destruct (serve_all _ _ _ _) as [[resps s'] w']. exact (proj1 H).
Defined.
End Witnesses.
