(* ===== verification/BookPipeline.v ===== *)
(** * From the stream of a venue to GET /v1/book

    The feed of a connector puts updates on a channel of 64 places; the goroutine of the
    book aggregator takes them off; a handler reads the aggregator. The first two run
    concurrently: here they are interleaved in any order. *)

From S2P Require Export Gateway BookFeed.

(** ** The interleavings *)
Section Pipeline.
Context `{DD : Decimal}.

Inductive pipe_label :=
  | PMessage (msg : string)   (** the feed handles a message *)
  | PConsume.                 (** the aggregator takes an update, or waits *)

Definition pipe_step (handle : Feed → string → IO Feed) (p : Feed * BookAggregator) (l : pipe_label)
    : IO (Feed * BookAggregator) :=
  let '(f, a) := p in
  match l with
  | PMessage msg => f ← handle f msg; mret (f, a)
  | PConsume =>
      mret (match out f with
            | [] => (f, a)
            | upd :: rest => (set_out rest f, consume_update a upd)
            end)
  end.

Fixpoint pipe (handle : Feed → string → IO Feed) (p : Feed * BookAggregator) (ls : list pipe_label)
    : IO (Feed * BookAggregator) :=
  match ls with
  | [] => mret p
  | l :: ls => p ← pipe_step handle p l; pipe handle p ls
  end.

Lemma pipe_message handle f a msg w :
  pipe_step handle (f, a) (PMessage msg) w = let '(f', w') := handle f msg w in ((f', a), w').
Proof. cbn [pipe_step]. rewrite bind_run. by destruct (handle f msg w). Qed.

Lemma pipe_cons handle p l ls w :
  pipe handle p (l :: ls) w = let '(p', w') := pipe_step handle p l w in pipe handle p' ls w'.
Proof. cbn [pipe]. rewrite bind_run. by destruct (pipe_step handle p l w). Qed.

(** A feed only appends to its channel, and never beyond its capacity. *)
Class Appends (handle : Feed → string → IO Feed) : Prop :=
  appends : ∀ f msg w,
    out f `prefix_of` out (fst (handle f msg w))
    ∧ ((length (out f) ≤ channel_size)%nat → (length (out (fst (handle f msg w))) ≤ channel_size)%nat).

Lemma pipe_step_prefix handle `{!Appends handle} p l w sent k :
  snd p = consume (mkBookAggregator ∅) (take k sent) → out (fst p) = drop k sent → (k ≤ length sent)%nat →
  (length (out (fst p)) ≤ channel_size)%nat →
  let '(p', _) := pipe_step handle p l w in
  ∃ sent' k', sent `prefix_of` sent' ∧ (k ≤ k' ≤ length sent')%nat
    ∧ snd p' = consume (mkBookAggregator ∅) (take k' sent') ∧ out (fst p') = drop k' sent'
    ∧ (length (out (fst p')) ≤ channel_size)%nat.
Proof.
  destruct p as [f a]. cbn [fst snd]. intros -> Ho Hk Hlen. destruct l as [msg|]; cbn [pipe_step].
  - rewrite bind_run. destruct (appends f msg w) as [[more Hm] Hl]. specialize (Hl Hlen).
    destruct (handle f msg w) as [f' w']. cbn [fst snd mret io_ret] in *.
    exists (sent ++ more), k. split; [by eexists|]. rewrite length_app. split; [lia|].
    rewrite take_app_le, drop_app_le by lia. split; [done|]. split; [congruence|done].
  - destruct (out f) as [|upd rest] eqn:Hf; cbn [fst snd mret io_ret].
    { exists sent, k. cbn [fst snd]. rewrite Hf. split_and!; (done || lia). }
    assert (sent !! k = Some upd) as Hu by (rewrite <- (Nat.add_0_r k), <- lookup_drop, <- Ho; done).
    exists sent, (S k). split; [done|]. apply lookup_lt_Some in Hu as Hlt. split; [lia|]. split_and!.
    + rewrite (take_S_r _ _ upd) by done. unfold consume. by rewrite foldl_app.
    + cbn [out set_out]. rewrite (drop_S _ upd) in Ho by done. by injection Ho.
    + cbn [out set_out length] in *. lia.
Qed.

Lemma pipe_prefix handle `{!Appends handle} ls sent k p w :
  snd p = consume (mkBookAggregator ∅) (take k sent) → out (fst p) = drop k sent → (k ≤ length sent)%nat →
  (length (out (fst p)) ≤ channel_size)%nat →
  let '((f', a'), _) := pipe handle p ls w in
  ∃ sent' k', sent `prefix_of` sent' ∧ (k' ≤ length sent')%nat ∧ a' = consume (mkBookAggregator ∅) (take k' sent')
    ∧ out f' = drop k' sent' ∧ (length (out f') ≤ channel_size)%nat.
Proof.
  revert sent k p w. induction ls as [|l ls IH]; intros sent k p w Ha Ho Hk Hl; [destruct p; by exists sent, k|].
  rewrite pipe_cons. pose proof (pipe_step_prefix handle p l w sent k Ha Ho Hk Hl) as Hs.
  destruct (pipe_step handle p l w) as [p1 w1]. destruct Hs as (sent1 & k1 & Hpre & [_ Hk1] & Ha1 & Ho1 & Hl1).
  specialize (IH sent1 k1 p1 w1 Ha1 Ho1 Hk1 Hl1). destruct (pipe handle p1 ls w1) as [[f' a'] w'].
  destruct IH as (sent' & k' & Hpre' & ?). exists sent', k'. split; [by etransitivity|done].
Qed.
End Pipeline.

(** ** The feeds *)
Section Feeds.
Context `{DD : Decimal} `{E : Env} `{!FairRange E}.

Lemma emit_update_appends venue shown r pair o w :
  let o' := fst (emit_update venue shown r pair o w) in
  o `prefix_of` o' ∧ ((length o ≤ channel_size)%nat → (length o' ≤ channel_size)%nat).
Proof.
  pose proof (emit_update_run venue shown r pair o w) as H. destruct (emit_update venue shown r pair o w) as [o' w'].
  destruct H as (-> & _). cbn [fst]. destruct (two_sided r); [|done]. split.
  - unfold send_update. destruct (Nat.ltb _ _); [by eexists|done].
  - intros Hl. by apply (send_update_bound _ o Hl).
Qed.

#[export] Instance binance_appends restBase : Appends (BinanceBook.handle_message restBase).
Proof.
  intros f msg w. unfold BinanceBook.handle_message. destruct (unmarshal _ _ _) as [ev []]; cbn [negb]; [|done].
  destruct (recons f !! _) as [r|]; [|done]. rewrite bind_run.
  destruct (ApplyDiff _ _ _ _ _) as [[[applied gap] r1] w1]. cbn [fst snd]. destruct gap.
  - rewrite bind_run. destruct (MarkGap r1 w1) as [r2 w2]. cbn [fst snd]. rewrite bind_run.
    destruct (BinanceBook.refreshSnapshot _ _ _ _) as [[[e|] r3] w3]; cbn [fst snd]; [done|]. by rewrite bind_run.
  - destruct applied; cbn [negb]; [|done]. rewrite bind_run. unfold BinanceBook.emitUpdate.
    pose proof (emit_update_appends "binance" (ToUpper (BinanceBook.streamToPair (BinanceBook.de_Stream ev))) r1
      (BinanceBook.streamToPair (BinanceBook.de_Stream ev)) (out f) w1) as H.
    by destruct (emit_update _ _ _ _ _ _) as [o w2].
Qed.

#[export] Instance kraken_appends pairs : Appends (KrakenBook.handle_message pairs).
Proof.
  intros f msg w. unfold KrakenBook.handle_message. destruct (KrakenBook.decode_message msg) as [[[id bids] asks]|]; [|done].
  destruct (KrakenBook.intToPair pairs id) as [p|]; [|done]. destruct (recons f !! p) as [r|]; [|done].
  rewrite bind_run. destruct (KrakenBook.apply_message _ _ _ _) as [r1 w1]. cbn [fst snd]. rewrite bind_run.
  unfold KrakenBook.emitUpdate. pose proof (emit_update_appends "kraken" p r1 p (out f) w1) as H.
  by destruct (emit_update _ _ _ _ _ _) as [o w2].
Qed.

(** ** An aggregator that keeps up *)

(** [n] messages, each update taken before the next one. *)
Definition keeping_up (msgs : list string) : list pipe_label := flat_map (λ m, [PMessage m; PConsume]) msgs.

(** The depth events of a stream of the pair [p], contiguous after [seq]. *)
Fixpoint contiguous (p : string) (seq : Z) (evs : list BinanceBook.depthEvent) : Prop :=
  match evs with
  | [] => True
  | ev :: evs =>
      BinanceBook.streamToPair (BinanceBook.de_Stream ev) = p ∧ in_int64 (seq + 1)
      ∧ (seq = 0 ∨ BinanceBook.de_LastUpdateID ev = seq + 1)
      ∧ contiguous p (BinanceBook.de_LastUpdateID ev) evs
  end.

Definition decodes (msg : string) (ev : BinanceBook.depthEvent) : Prop :=
  unmarshal BinanceBook.decode_depth msg BinanceBook.zero_depth = (ev, true).

(** The book [r] after the diffs of [evs]. *)
Definition after_diffs (r : BookReconstructor) (evs : list BinanceBook.depthEvent) (r' : BookReconstructor) : Prop :=
  rc_bids r' = foldl diff_levels (rc_bids r) (map BinanceBook.de_Bids evs)
  ∧ rc_asks r' = foldl diff_levels (rc_asks r) (map BinanceBook.de_Asks evs).

(** The aggregator shows the book [r'] for [pair]. *)
Definition shows (a : BookAggregator) (pair : string) (r' : BookReconstructor) : Prop :=
  ∃ t, Get a pair = Some (top_of (book_update pair r' t)).

Lemma keeping_up_step restBase p msg ev f a r w :
  decodes msg ev → recons f !! ToLower p = Some r → out f = [] → contiguous p (rc_lastSeq r) [ev] →
  ∃ f' a' w' r', pipe (BinanceBook.handle_message restBase) (f, a) [PMessage msg; PConsume] w = ((f', a'), w')
    ∧ recons f' !! ToLower p = Some r' ∧ out f' = [] ∧ rc_lastSeq r' = BinanceBook.de_LastUpdateID ev
    ∧ after_diffs r [ev] r' ∧ (two_sided r' = true → shows a' (ToUpper p) r').
Proof.
  intros Hd Hr Ho (Hp & Hin & Hseq & _). subst p. rewrite pipe_cons, pipe_message.
  pose proof (handle_next restBase f msg ev r w Hd Hr Hin Hseq) as Hn.
  destruct (BinanceBook.handle_message restBase f msg w) as [f1 w1].
  destruct Hn as (r' & Hb & Ha & Hs & Hrec & _ & Hout). rewrite pipe_cons. cbn [pipe_step]. rewrite Hout, Ho.
  destruct (two_sided r') eqn:Ht; cbn [send_update length channel_size Nat.ltb Nat.leb app fst snd mret io_ret].
  - eexists _, _, w1, r'. split; [reflexivity|]. cbn [recons out set_out]. rewrite Hrec, lookup_insert_eq.
    split; [done|]. split; [done|]. split; [done|]. split; [by split|]. intros _. eexists. unfold Get. cbn [latest consume_update upd_Pair book_update].
    apply lookup_insert_eq.
  - eexists f1, a, w1, r'. split; [reflexivity|]. rewrite Hrec, lookup_insert_eq.
    split; [done|]. split; [by rewrite Hout|]. split; [done|]. split; [by split|congruence].
Qed.

Lemma pipe_app handle p ls ls' w :
  pipe handle p (ls ++ ls') w = let '(p', w') := pipe handle p ls w in pipe handle p' ls' w'.
Proof.
  revert p w. induction ls as [|l ls IH]; intros p w; [done|]. cbn [app pipe]. rewrite !bind_run.
  destruct (pipe_step handle p l w) as [p1 w1]. apply IH.
Qed.

Lemma keeping_up_run restBase p msgs evs f a r w :
  Forall2 decodes msgs evs → recons f !! ToLower p = Some r → out f = [] → contiguous p (rc_lastSeq r) evs →
  evs ≠ [] →
  ∃ f' a' w' r', pipe (BinanceBook.handle_message restBase) (f, a) (keeping_up msgs) w = ((f', a'), w')
    ∧ recons f' !! ToLower p = Some r' ∧ after_diffs r evs r' ∧ (two_sided r' = true → shows a' (ToUpper p) r').
Proof.
  intros Hd. revert f a r w. induction Hd as [|msg ev msgs evs Hm Hms IH]; intros f a r w Hr Ho Hc Hne; [done|].
  destruct Hc as (Hp & Hin & Hseq & Hc).
  destruct (keeping_up_step restBase p msg ev f a r w Hm Hr Ho) as (f1 & a1 & w1 & r1 & Heq & Hr1 & Ho1 & Hs1 & [Hb1 Ha1] & Hsh).
  { by split_and!. }
  change (keeping_up (msg :: msgs)) with ([PMessage msg; PConsume] ++ keeping_up msgs). rewrite pipe_app, Heq.
  destruct evs as [|ev2 evs].
  - inversion Hms; subst. by eexists f1, a1, w1, r1.
  - destruct (IH f1 a1 r1 w1 Hr1 Ho1) as (f2 & a2 & w2 & r2 & Heq2 & Hr2 & [Hb2 Ha2] & Hsh2); [by rewrite Hs1|done|].
    exists f2, a2, w2, r2. split_and!; try done. split.
    + by rewrite Hb2, Hb1.
    + by rewrite Ha2, Ha1.
Qed.
End Feeds.

(** ** The route *)
Section Route.
Context `{DD : Decimal} `{E : Env}.
Context {C K P St : Type} `{!VenueConnector C} `{!AsDummy C} `{!Sink K} `{!Publisher P}
  `{!Store St} `{!OfMemStore St}.
Implicit Types (s : Service C K P St) (q : Request).

(** The service once its aggregator is [a]. *)
Definition with_book (a : BookAggregator) s : Service C K P St :=
  mkService (connector s) a (audit s) (events s) (venueName s) (ready s) (store s).

Definition book_request (pair : string) q : Prop := rq_Method q = "GET" ∧ rq_Path q = "/v1/book/" +:+ pair.

(** A pair that a path can name. *)
Definition nameable (pair : string) : Prop := pair ≠ "" ∧ HasSuffix pair "/" = false.

Lemma handle_book_run s q pair w :
  book_request pair q → nameable pair →
  handleBook s q w = ((match Get (book s) pair with
                       | None => writeError StatusNotFound "no book for pair"
                       | Some top => writeJSON StatusOK (BTop top)
                       end, s), w).
Proof.
  intros [Hm Hp] [Hne Hs]. unfold handleBook. rewrite Hm, Hp. cbn [String.eqb negb].
  rewrite (trim_prefix_app "/v1/book/"). unfold TrimSuffix. rewrite Hs, (proj2 (String.eqb_neq _ _) Hne).
  change (negb (String.eqb "GET" "GET")) with false. by destruct (Get (book s) pair).
Qed.

(** [price] is the best price of the side [m]. *)
Definition best_price_of (m : gmap string string) (descending : bool) (price : string) : Prop :=
  is_Some (m !! price) ∧ ∀ p, is_Some (m !! p) → p ≠ price → level_less descending price p = true.

Lemma best_levels_head m d n :
  m ≠ ∅ → n ≠ O → ∃ price size rest, best_levels m d n = (price, size) :: rest ∧ best_price_of m d price.
Proof.
  intros Hm Hn. destruct (best_levels_best m d n) as (Hs & Hl & Hin & Hout).
  assert (size m ≠ O) as Hsz by (by apply map_size_non_empty_iff).
  destruct (best_levels m d n) as [|[price sz] rest]; [cbn in Hl; lia|].
  exists price, sz, rest. split; [done|]. split; [exists sz; apply Hin; by left|].
  intros p [u Hu] Hne. destruct (decide ((p, u) ∈ (price, sz) :: rest)) as [Hp|Hp].
  - apply elem_of_cons in Hp as [[= -> _]|Hp]; [done|]. inversion Hs as [|? ? _ Hall]; subst.
    rewrite Forall_forall in Hall. exact (Hall _ Hp).
  - by apply (Hout price sz p u); [left|..].
Qed.

Lemma top_of_two_sided pair r t :
  two_sided r = true → ∃ bid ask, best_price_of (rc_bids r) true bid ∧ best_price_of (rc_asks r) false ask
    ∧ top_of (book_update pair r t) = mkTopOfBook pair (dec_float64 (dec_parse bid)) (dec_float64 (dec_parse ask)) t.
Proof.
  intros [Hb%bool_decide_eq_true Ha%bool_decide_eq_true]%andb_prop.
  destruct (best_levels_head (rc_bids r) true 20 Hb) as (bid & bs & brest & Hbid & Hbest); [done|].
  destruct (best_levels_head (rc_asks r) false 20 Ha) as (ask & sz & arest & Hask & Habest); [done|].
  exists bid, ask. split_and!; [done..|]. unfold top_of, book_update. cbn [upd_Bids upd_Asks upd_Pair upd_TS].
  by rewrite Hbid, Hask.
Qed.
End Route.

(** ** Properties *)

(** In any interleaving of a feed with the goroutine of the aggregator, the aggregator
    shows for each pair the last update of a prefix of those put on the channel, the
    rest is on the channel in order, and the channel never holds more than its 64
    places. *)
Theorem aggregator_follows_channel `{DD : Decimal} handle `{!Appends handle} f ls w :
  (length (out f) ≤ channel_size)%nat →
  let '((f', a'), _) := pipe handle (f, mkBookAggregator ∅) ls w in
  ∃ sent k, out f `prefix_of` sent ∧ (k ≤ length sent)%nat
    ∧ out f' = drop k sent ∧ (length (out f') ≤ channel_size)%nat
    ∧ ∀ pair, Get a' pair = top_of <$> last (List.filter (λ u, String.eqb (upd_Pair u) pair) (take k sent)).
Proof.
  intros Hlen.
  pose proof (pipe_prefix handle ls (out f) O (f, mkBookAggregator ∅) w eq_refl eq_refl ltac:(lia) Hlen) as Hpipe.
  destruct (pipe handle _ ls w) as [[f' a'] w']. destruct Hpipe as (sent & k & Hpre & Hk & -> & Ho & Hl).
  exists sent, k. split_and!; try done. intros pair. apply book_get_last_update.
Qed.

(** C17: From the stream to the route: when the aggregator keeps up with a contiguous
    run of depth messages of a pair, GET /v1/book/PAIR answers 200 with the best bid
    and ask of the book that results from applying all the diffs to the book before,
    once both sides have a level; best means first in the order of the price
    strings. *)
Theorem book_route_shows_stream `{DD : Decimal} `{E : Env} `{!FairRange E} {C K P St : Type} `{!VenueConnector C}
    `{!AsDummy C} `{!Sink K} `{!Publisher P} `{!Store St} `{!OfMemStore St}
    restBase p msgs evs f r (s : Service C K P St) w :
  Forall2 decodes msgs evs → evs ≠ [] → contiguous p (rc_lastSeq r) evs →
  recons f !! ToLower p = Some r → out f = [] → nameable (ToUpper p) →
  let '((f', a'), w') := pipe (BinanceBook.handle_message restBase) (f, book s) (keeping_up msgs) w in
  ∃ r', recons f' !! ToLower p = Some r' ∧ after_diffs r evs r'
    ∧ (two_sided r' = true → ∃ bid ask t,
        best_price_of (rc_bids r') true bid ∧ best_price_of (rc_asks r') false ask
        ∧ ∀ q, book_request (ToUpper p) q →
          handleBook (with_book a' s) q w'
          = ((writeJSON StatusOK (BTop (mkTopOfBook (ToUpper p) (dec_float64 (dec_parse bid))
                (dec_float64 (dec_parse ask)) t)), with_book a' s), w')).
Proof.
  intros Hd Hne Hc Hr Ho Hn.
  destruct (keeping_up_run restBase p msgs evs f (book s) r w Hd Hr Ho Hc Hne)
    as (f' & a' & w' & r' & -> & Hr' & Hafter & Hshow).
  exists r'. split_and!; [done..|]. intros Ht. destruct (Hshow Ht) as [t Hget].
  destruct (top_of_two_sided (ToUpper p) r' t Ht) as (bid & ask & Hb & Ha & Htop).
  exists bid, ask, t. split_and!; [done..|]. intros q Hq.
  rewrite (handle_book_run (with_book a' s) q (ToUpper p) w' Hq Hn). cbn [book with_book]. by rewrite Hget, Htop.
Qed.

(** ** Witnesses: two diffs of one pair *)
Section Witnesses.
#[local] Existing Instances fixed_decimal server_env.
#[local] Instance pipeline_range : FairRange server_env := env_with_range _ _ _.

Definition demo_stream : list string := [depth_message "11"; depth_message "12"].
Definition demo_book_request : Request :=
  mkRequest "GET" "/v1/book/BTCUSDT" "/v1/book/BTCUSDT" (λ _, "") (λ _, "") "".

Lemma aggregator_follows_channel_witness :
  let '((f', a'), _) := pipe (BinanceBook.handle_message "https://b") (demo_feed, mkBookAggregator ∅)
                          (keeping_up demo_stream ++ [PMessage (depth_message "13")]) world0 in
  ∃ sent k, demo_feed.(out) `prefix_of` sent ∧ out f' = drop k sent
    ∧ Get a' "BTCUSDT" = top_of <$> last (List.filter (λ u, String.eqb (upd_Pair u) "BTCUSDT") (take k sent)).
Proof.
  pose proof (aggregator_follows_channel (BinanceBook.handle_message "https://b") demo_feed
    (keeping_up demo_stream ++ [PMessage (depth_message "13")]) world0 ltac:(cbn; unfold channel_size; lia)) as H.
  destruct (pipe _ _ _ _) as [[f' a'] w']. destruct H as (sent & k & Hp & _ & Ho & _ & Hg).
  exists sent, k. split; [exact Hp|]. split; [exact Ho|exact (Hg "BTCUSDT")].
Defined.

Lemma book_route_shows_stream_witness :
  let '((f', a'), w') := pipe (BinanceBook.handle_message "https://b") (demo_feed, book demo_service)
                           (keeping_up demo_stream) world0 in
  ∃ top, handleBook (with_book a' demo_service) demo_book_request w'
         = ((writeJSON StatusOK (BTop top), with_book a' demo_service), w').
Proof.
  pose proof (book_route_shows_stream "https://b" "btcusdt" demo_stream [depth_event 11; depth_event 12] demo_feed
    demo_book demo_service world0) as H.
  assert (match pipe (BinanceBook.handle_message "https://b") (demo_feed, book demo_service) (keeping_up demo_stream) world0 with
          | ((f', _), _) => match recons f' !! "btcusdt" with Some r' => two_sided r' | None => false end
          end = true) as Hts by (vm_compute; reflexivity).
  destruct (pipe _ _ _ _) as [[f' a'] w']. destruct H as (r' & Hr & _ & H).
  - repeat constructor; vm_compute; reflexivity.
  - discriminate.
  - repeat split; try (vm_compute; congruence); right; reflexivity.
  - reflexivity.
  - reflexivity.
  - split; [discriminate|reflexivity].
  - change (ToLower "btcusdt") with "btcusdt" in Hr. rewrite Hr in Hts.
    destruct (H Hts) as (bid & ask & t & _ & _ & Hq). eexists. apply Hq. split; reflexivity.
Defined.
End Witnesses.
