(* ===== verification/Process.v ===== *)
(** * cmd/gateway-exchange: the life of the process

    [main] from the telemetry to the exit. Requests are answered until the listener
    fails, which is fatal, or a signal arrives, after which the bus's publisher is closed
    and the telemetry shut down. [srv.Shutdown] waits for the requests under way: those a
    run serves are all answered. *)

From S2P Require Export Gateway Telemetry.

(** [otelhttp.NewHandler]: it records spans and lets the handler answer. *)
Class OTelHTTP := NewHandler : ∀ {S B : Type}, Handler S B → string → Handler S B.

Class OTelHTTPLaws `{OTelHTTP} : Prop :=
  new_handler_serves : ∀ S B (h : Handler S B) operation s r w,
    fst (NewHandler h operation s r w) = fst (h s r w).

(** [kafka.Writer.Close]. *)
Class WriterClose := writer_close : KafkaPublisher → IO (option error).

Section Process.
Context `{DD : Decimal} `{E : Env} {Q : Type} `{!Pool Q} `{OTel} `{OTelHTTP} `{WriterClose}.

(** Why the process ends: an error of [ListenAndServe] other than [ErrServerClosed], or
    SIGINT or SIGTERM. *)
Inductive server_end := ListenFails (e : error) | Interrupted.

(** [log.Fatalf] runs no deferred function. *)
Inductive exit := Fatal (msg : error) | Returned.

Record outcome := mkOutcome {
  oc_exit : exit;
  oc_responses : list (Response body);
  oc_service : option (AnyService (Q := Q));
  oc_globals : Globals;
}.

(** [if eventPub != nil { eventPub.Close() }]: there is a publisher if there is a bus. *)
Definition close_publisher (bus : option (Bus (option KafkaPublisher))) : IO (option error) :=
  match bus with Some b => kafka_close writer_close (bus_publisher b) | None => mret None end.

Definition listening (gw : Gateway Q) : string :=
  "exchange-connectors listening on " +:+ gw_Addr gw +:+ " (venue=" +:+ venueName (gw_Service gw) +:+ ")".

(** The requests [rs] arrive before the end [e]. *)
Definition main (testing : bool) (rs : list Request) (e : server_end) (g : Globals) : IO outcome :=
  '(telemetry, g) ← Init "exchange-connectors" g;
  match telemetry with
  | Fail err => mret (mkOutcome (Fatal ("otel init: " +:+ err)) [] None g)
  | Ok stop =>
      gw ← start testing;
      match gw with
      | Fail err => mret (mkOutcome (Fatal err) [] None g)
      | Ok gw =>
          _ ← printf (listening gw);
          '(resps, s) ← serve_all (NewHandler (gw_Handler gw) "exchange-connectors") rs (gw_Service gw);
          match e with
          | ListenFails err => mret (mkOutcome (Fatal ("listen: " +:+ err)) resps (Some s) g)
          | Interrupted =>
              _ ← close_publisher (events (gw_Service gw));
              _ ← shutdown stop;
              mret (mkOutcome Returned resps (Some s) g)
          end
      end
  end.

(** ** Properties *)

(** The stages of a run: what was reached, and the worlds in between. *)
Inductive run_case testing rs e g (w : World) : outcome → World → Prop :=
  | run_no_telemetry err w' :
      Init "exchange-connectors" g w = ((Fail err, g), w') →
      run_case testing rs e g w (mkOutcome (Fatal ("otel init: " +:+ err)) [] None g) w'
  | run_no_gateway stop g' w1 err w' :
      Init "exchange-connectors" g w = ((Ok stop, g'), w1) → start testing w1 = (Fail err, w') →
      run_case testing rs e g w (mkOutcome (Fatal err) [] None g') w'
  | run_served stop g' w1 gw w2 resps s w3 :
      Init "exchange-connectors" g w = ((Ok stop, g'), w1) → start testing w1 = (Ok gw, w2) →
      serve_all (NewHandler (gw_Handler gw) "exchange-connectors") rs (gw_Service gw) (snd (printf (listening gw) w2))
        = ((resps, s), w3) →
      run_case testing rs e g w
        (mkOutcome (match e with ListenFails err => Fatal ("listen: " +:+ err) | Interrupted => Returned end)
           resps (Some s) g')
        (match e with
         | ListenFails _ => w3
         | Interrupted => snd (shutdown stop (snd (close_publisher (events (gw_Service gw)) w3)))
         end).

Lemma main_cases testing rs e g w : run_case testing rs e g w (fst (main testing rs e g w)) (snd (main testing rs e g w)).
Proof.
  unfold main. rewrite bind_run. pose proof (telemetry_unchanged "exchange-connectors" g w) as Hg.
  destruct (Init "exchange-connectors" g w) as [[[stop|err] g'] w1] eqn:Hi; cbn [fst snd] in *.
  2: { subst g'. by apply run_no_telemetry. }
  rewrite bind_run. destruct (start testing w1) as [[gw|err] w2] eqn:Hs; cbn [fst snd].
  2: { by apply (run_no_gateway _ _ _ _ _ stop g' w1). }
  rewrite !bind_run. destruct (serve_all _ _ _ _) as [[resps s] w3] eqn:Hserve. cbn [fst snd].
  pose proof (run_served testing rs e g w stop g' w1 gw w2 resps s w3 Hi Hs Hserve) as Hr.
  destruct e; [done|]. by rewrite !bind_run.
Qed.

(** The shutdown function of the telemetry runs, last, exactly when the process ends by
    a signal: every fatal exit after Init leaves the providers installed and not
    shut down. *)
Theorem telemetry_stops_only_after_signal testing rs e g w :
  let '(oc, w') := main testing rs e g w in
  match oc_exit oc with
  | Returned => e = Interrupted ∧ ∃ stop w1, stops stop (oc_globals oc) ∧ w' = snd (shutdown stop w1)
  | Fatal _ =>
      oc_globals oc = g
      ∨ ∃ stop w1, stops stop (oc_globals oc) ∧ Init "exchange-connectors" g w = ((Ok stop, oc_globals oc), w1)
        ∧ ((oc_service oc = None ∧ w' = snd (start (Q := Q) testing w1))
           ∨ ∃ gw w2, start testing w1 = (Ok gw, w2)
             ∧ w' = snd (serve_all (NewHandler (gw_Handler gw) "exchange-connectors") rs (gw_Service gw)
                           (snd (printf (listening gw) w2))))
  end.
Proof.
  pose proof (main_cases testing rs e g w) as Hm. destruct (main testing rs e g w) as [oc w'].
  assert (∀ stop g' w1, Init "exchange-connectors" g w = ((Ok stop, g'), w1) → stops stop g') as Hstops.
  { intros stop g' w1 Hi. pose proof (telemetry_init_stops "exchange-connectors" g w) as H'. by rewrite Hi in H'. }
  inversion Hm as [err w1 Hi|stop g' w1 err w1' Hi Hs|stop g' w1 gw w2 resps s w3 Hi Hs Hserve]; cbn in *; subst.
  - by left.
  - right. exists stop, w1. split_and!; [by eapply Hstops|done|]. left. by rewrite Hs.
  - destruct e as [err|]; cbn.
    + right. exists stop, w1. split_and!; [by eapply Hstops|done|]. right. exists gw, w2. by rewrite Hserve.
    + split; [done|]. eexists stop, _. split; [by eapply Hstops|done].
Qed.

(** A whole run of the process with DEV_MODE other than 1 answers no POST to /v1/orders
    with 200, keeps a real venue and the PostgreSQL store, and answers nothing when
    it does not start. *)
Theorem production_process_accepts_no_order `{!OTelHTTPLaws} testing rs e g w :
  is_production →
  let oc := fst (main testing rs e g w) in
  match oc_service oc with
  | Some s => (∃ d, store s = Some (StPostgres d)) ∧ real_venue (connector s)
      ∧ Forall2 (λ r resp, is_order_post r → rs_Status resp ≠ StatusOK) rs (oc_responses oc)
  | None => oc_responses oc = []
  end.
Proof.
  intros Hp. cbv zeta. pose proof (main_cases testing rs e g w) as Hm.
  destruct Hm as [err w1 Hi|stop g' w1 err w1' Hi Hs|stop g' w1 gw w2 resps s w3 Hi Hs Hserve]; [done..|].
  cbn [oc_service oc_responses].
  assert (fst (start (Q := Q) testing w1) = Ok gw) as Hg by (by rewrite Hs).
  destruct (start_parts testing w1 gw Hg) as (conn & k & st & wa & wb & wc & wd & we & wf & pairs & conn'
    & _ & _ & Hst & _ & _ & _ & Hstore & _ & Hr).
  rewrite (proj2 (String.eqb_neq _ _) Hp) in Hst. apply store_production in Hst as [d ->].
  pose proof (serve_all_invariant (λ s', holds real_venue s' ∧ store s' = Some (StPostgres d))
    (λ r resp, is_order_post r → rs_Status resp ≠ StatusOK) (NewHandler (gw_Handler gw) "exchange-connectors")
    rs (gw_Service gw) (snd (printf (listening gw) w2))) as Hall.
  rewrite Hserve in Hall. destruct Hall as [[? ?] ?].
  - intros s1 r w4 Hs1.
    pose proof (routes_keep_refusing real_venue real_venue_refuses testing (gw_Handler gw) _ s1 r w4 Hr Hs1) as Hk.
    pose proof (new_handler_serves _ _ (gw_Handler gw) "exchange-connectors" s1 r w4) as Hn.
    destruct (NewHandler (gw_Handler gw) "exchange-connectors" s1 r w4) as [p w5], (gw_Handler gw s1 r w4) as [p' w6].
    cbn [fst] in Hn. by subst p'.
  - split; [|done]. unfold holds.
    by destruct (production_connector testing w1 gw Hp Hg) as [(_ & c & -> & _)|(_ & c & -> & _)].
  - by eauto.
Qed.
End Process.

(** ** Witnesses: an SDK that does nothing *)
Section Witnesses.
#[local] Existing Instances fixed_decimal tables_pool production_env.

#[local] Instance silent_otel : OTel := {|
  semconv_SchemaURL := ""; resource_Default := tt; resource_NewWithAttributes _ _ := tt;
  resource_Merge _ _ := Ok tt; otlptracegrpc_New _ := mret (Ok tt); otlpmetricgrpc_New _ := mret (Ok tt);
  NewTracerProvider _ := tt; NewMeterProvider _ := tt; noop_NewMeterProvider := tt;
  TracerProvider_Shutdown _ := mret None; MeterProvider_Shutdown _ := mret None;
|}.
#[local] Instance silent_otelhttp : OTelHTTP := λ S B h _, h.
#[local] Instance silent_otelhttp_laws : OTelHTTPLaws.
Proof. by intros S B h op s r w. Qed.
#[local] Instance silent_writer_close : WriterClose := λ _, mret None.

Lemma production_process_accepts_no_order_witness :
  ∃ s resp, let oc := fst (main (Q := tables) false [demo_post] Interrupted (mkGlobals None None None) world0) in
    oc_service oc = Some s ∧ oc_responses oc = [resp] ∧ is_order_post demo_post ∧ rs_Status resp ≠ StatusOK.
Proof.
  pose proof (production_process_accepts_no_order (E := production_env) (Q := tables) false [demo_post] Interrupted (mkGlobals None None None)
    world0 ltac:(vm_compute; discriminate)) as H. cbv zeta in *.
  assert (match oc_service (fst (main (Q := tables) false [demo_post] Interrupted (mkGlobals None None None) world0))
          with Some _ => true | None => false end = true) as Hs by (vm_compute; reflexivity).
  revert H Hs. generalize (fst (main (Q := tables) false [demo_post] Interrupted (mkGlobals None None None) world0)).
  intros oc H Hs. destruct (oc_service oc) as [s|] eqn:Hoc; [|discriminate Hs].
  destruct H as (_ & _ & H). inversion H as [|r resp rs resps Hf Hrest Hr Hresps]; subst. inversion Hrest; subst.
  exists s, resp. split; [done|]. split; [done|].
  assert (is_order_post demo_post) as Hpost by (split; vm_compute; reflexivity).
  split; [done|]. exact (Hf Hpost).
Defined.
End Witnesses.
