(* ===== verification/Registry.v ===== *)
(** * The REST service as an order registry

    An abstract specification of what a client of the gateway sees: a registry of orders
    and fills, as a transition system whose actions are what the responses say. The
    service over the dummy connector refines it, whatever the requests, and what the
    registry promises of its histories holds of the service. *)

From S2P Require Export Gateway.

(** ** The specification *)
Section Spec.
Context `{DD : Decimal}.

Record registry := mkRegistry {
  reg_orders : gmap string OrderResponse;   (** by venue order id *)
  reg_fills : list Fill;                    (** oldest first *)
}.

Definition empty_registry : registry := mkRegistry ∅ [].

Inductive action :=
  | Placed (o : OrderResponse)
  | Canceled (id : string)
  | Reported (o : OrderResponse)
  | Listed (id : string) (fs : list Fill).

(** An order filled at once by [f]. *)
Definition filled_by (o : OrderResponse) (f : Fill) : Prop :=
  resp_Status o = OrderStatusFilled ∧ resp_ClientOrderID o = resp_VenueOrderID o ∧ resp_Fills o = [f]
  ∧ fill_VenueOrderID f = resp_VenueOrderID o ∧ fill_Quantity f = resp_FilledQty o
  ∧ fill_Price f = resp_AvgPrice o.

Definition of_order (id : string) (f : Fill) : bool := String.eqb (fill_VenueOrderID f) id.

(** [None] is a response that says nothing about orders. *)
Inductive reg_step : registry → option action → registry → Prop :=
  | reg_silent g : reg_step g None g
  | reg_place g o f : filled_by o f →
      reg_step g (Some (Placed o))
        (mkRegistry (<[resp_VenueOrderID o := o]> (reg_orders g)) (reg_fills g ++ [f]))
  | reg_cancel g id :
      reg_step g (Some (Canceled id))
        (mkRegistry (alter (set_status OrderStatusCanceled) id (reg_orders g)) (reg_fills g))
  | reg_report g o : reg_orders g !! resp_VenueOrderID o = Some o → reg_step g (Some (Reported o)) g
  | reg_list g id limit :
      reg_step g (Some (Listed id (apply_limit limit (List.filter (of_order id) (reg_fills g))))) g.

Inductive reg_steps : registry → list (option action) → registry → Prop :=
  | reg_done g : reg_steps g [] g
  | reg_next g a g1 acts g2 : reg_step g a g1 → reg_steps g1 acts g2 → reg_steps g (a :: acts) g2.

Lemma reg_steps_snoc_inv g acts a g2 :
  reg_steps g (acts ++ [a]) g2 → ∃ g1, reg_steps g acts g1 ∧ reg_step g1 a g2.
Proof.
  revert g. induction acts as [|b acts IH]; intros g H; inversion H as [|? ? g1 ? ? Hs Hr]; subst.
  - inversion Hr; subst. eexists. split; [constructor|done].
  - destruct (IH g1 Hr) as (g3 & ? & ?). exists g3. split; [by econstructor|done].
Qed.

Lemma reg_steps_app_inv g acts acts' g2 :
  reg_steps g (acts ++ acts') g2 → ∃ g1, reg_steps g acts g1 ∧ reg_steps g1 acts' g2.
Proof.
  revert g. induction acts as [|b acts IH]; intros g H; [eexists; split; [constructor|done]|].
  inversion H as [|? ? g1 ? ? Hs Hr]; subst. destruct (IH g1 Hr) as (g3 & ? & ?).
  exists g3. split; [by econstructor|done].
Qed.

(** *** Histories *)

(** The status of the order [id] after it was placed and [later] happened. *)
Definition status_after (id : string) (later : list (option action)) : OrderStatus :=
  if existsb (λ a, match a with Some (Canceled id') => String.eqb id' id | _ => false end) later
  then OrderStatusCanceled else OrderStatusFilled.

Definition places (id : string) (a : option action) : bool :=
  match a with Some (Placed o) => String.eqb (resp_VenueOrderID o) id | _ => false end.

(** What a history says of the order it ends with, and of its fills. *)
Definition order_history (acts : list (option action)) (id : string) (o : OrderResponse) : Prop :=
  ∃ before o0 later, acts = before ++ Some (Placed o0) :: later ∧ resp_VenueOrderID o0 = id
    ∧ Forall (λ a, places id a = false) later ∧ o = set_status (status_after id later) o0
    ∧ resp_Status o0 = OrderStatusFilled.

(** The fills of the orders placed so far. *)
Definition placed_fills (acts : list (option action)) : list Fill :=
  flat_map (λ a, match a with Some (Placed o) => resp_Fills o | _ => [] end) acts.

Lemma placed_fills_snoc acts a :
  placed_fills (acts ++ [a]) = placed_fills acts ++ match a with Some (Placed o) => resp_Fills o | _ => [] end.
Proof. unfold placed_fills. rewrite flat_map_app. cbn [flat_map]. by rewrite app_nil_r. Qed.

Lemma status_after_snoc id later a :
  status_after id (later ++ [a])
  = match a with
    | Some (Canceled id') => if String.eqb id' id then OrderStatusCanceled else status_after id later
    | _ => status_after id later
    end.
Proof.
  unfold status_after. rewrite existsb_app. cbn [existsb]. rewrite orb_false_r.
  destruct a as [[o|id'|o|id' fs]|]; rewrite ?orb_false_r; try done.
  destruct (String.eqb id' id); rewrite ?orb_true_r, ?orb_false_r; done.
Qed.

(** An action that neither places nor cancels the order leaves its history. *)
Lemma order_history_snoc acts id o a :
  order_history acts id o → places id a = false →
  order_history (acts ++ [a]) id
    (match a with
     | Some (Canceled id') => if String.eqb id' id then set_status OrderStatusCanceled o else o
     | _ => o
     end).
Proof.
  intros (before & o0 & later & -> & Hid & Hl & -> & Hst) Ha.
  exists before, o0, (later ++ [a]). rewrite <- app_assoc. split; [done|]. split; [done|].
  split; [by apply Forall_app_2; [|constructor]|]. split; [|done]. rewrite status_after_snoc.
  destruct a as [[o|id'|o|id' fs]|]; try done. by destruct (String.eqb id' id).
Qed.

Lemma reg_steps_history acts g :
  reg_steps empty_registry acts g →
  reg_fills g = placed_fills acts
  ∧ ∀ id o, reg_orders g !! id = Some o → order_history acts id o.
Proof.
  revert g. induction acts as [|a acts IH] using rev_ind; intros g H.
  - inversion H; subst. split; [done|]. intros id o. cbn. by rewrite lookup_empty.
  - apply reg_steps_snoc_inv in H as (g1 & H1 & Hs). destruct (IH g1 H1) as [Hf Ho].
    rewrite placed_fills_snoc, <- Hf.
    inversion Hs as [|? o f Hby|? id|? o Hr|? id limit]; subst; cbn [reg_fills reg_orders]; rewrite ?app_nil_r.
    + split; [done|]. intros id o Hl. apply (order_history_snoc acts id o None); [by apply Ho|done].
    + destruct Hby as (Hst & _ & Hfs & _). split; [by rewrite Hfs|]. intros id o'.
      rewrite lookup_insert. case_decide as Hid.
      * intros [= <-]. exists acts, o, []. do 2 (split; [done|]). split; [constructor|]. split; [|done].
        unfold status_after. cbn. destruct o. cbn in *. by subst.
      * intros Hl. apply (order_history_snoc acts id o' (Some (Placed o))); [by apply Ho|].
        cbn. by apply String.eqb_neq.
    + split; [done|]. intros id' o. rewrite lookup_alter. case_decide as Hid.
      * subst id'. destruct (reg_orders g1 !! id) as [o1|] eqn:Ho1; cbn; [|done]. intros [= <-].
        pose proof (order_history_snoc acts id o1 (Some (Canceled id)) (Ho id o1 Ho1) eq_refl) as Hh.
        cbv beta iota in Hh. by rewrite String.eqb_refl in Hh.
      * intros Hl. pose proof (order_history_snoc acts id' o (Some (Canceled id)) (Ho id' o Hl) eq_refl) as Hh.
        cbv beta iota in Hh. by rewrite (proj2 (String.eqb_neq _ _) Hid) in Hh.
    + split; [done|]. intros id o' Hl. apply (order_history_snoc acts id o' (Some (Reported o))); [by apply Ho|done].
    + split; [done|]. intros id' o' Hl.
      apply (order_history_snoc acts id' o' (Some (Listed id _))); [by apply Ho|done].
Qed.
End Spec.

(** ** The service *)
Section Refinement.
Import Dummy.
Context `{DD : Decimal} `{E : Env}.
Implicit Types (r : Request) (d : DummyVenueConnector).

(** The registry a connector stands for. *)
Definition registry_of d : registry := mkRegistry (omap (λ p, heap d !! p) (orders d)) (fills d).

(** What a response says. *)
Definition order_of_response (o : orderResponse) : OrderResponse :=
  mkOrderResponse (out_VenueOrderID o) (out_ClientOrderID o) (out_Status o) (out_FilledQty o)
    (out_AvgPrice o) (out_Fills o).

Definition observe (resp : Response body) : option action :=
  match rs_Body resp with
  | BPlaced o => Some (Placed (order_of_response o))
  | BOrder o => Some (Reported o)
  | BFills id fs => Some (Listed id fs)
  | BStrings m =>
      if bool_decide (m !! "status" = Some "canceled") then Canceled <$> m !! "order_id" else None
  | _ => None
  end.

Lemma observe_error status msg : observe (writeError status msg) = None.
Proof. done. Qed.

Lemma observe_canceled id :
  observe (writeJSON StatusOK (BStrings (<["status" := "canceled"]> {["order_id" := id]}))) = Some (Canceled id).
Proof.
  unfold observe. cbn [rs_Body writeJSON]. rewrite lookup_insert_eq, bool_decide_eq_true_2 by done.
  by rewrite lookup_insert_ne, lookup_singleton_eq by done.
Qed.

Lemma registry_place d (req : OrderRequest) w :
  wf d → ∃ o f d1 w1, Venue.PlaceOrder d req w = ((Ok o, d1), w1) ∧ wf d1 ∧ filled_by o f
    ∧ registry_of d1 = mkRegistry (<[resp_VenueOrderID o := o]> (reg_orders (registry_of d)))
                         (reg_fills (registry_of d) ++ [f]).
Proof.
  intros Hwf. pose proof (place_order_wf d req w Hwf) as Hwf1.
  destruct (place_order_eq d req w) as (id & trade & now & _ & Heq). cbv zeta in Heq.
  unfold Venue.PlaceOrder, dummy_connector. rewrite bind_run.
  destruct (PlaceOrder d req w) as [[p d1] w1]. cbn [fst snd] in *. injection Heq as -> ->.
  cbn [heap]. rewrite lookup_middle. eexists _, _, _, w1. split; [reflexivity|]. split; [exact Hwf1|].
  split; [by split_and!|]. unfold registry_of. cbn [reg_orders reg_fills orders heap fills resp_VenueOrderID].
  f_equal. apply map_eq. intros k. rewrite lookup_omap, !lookup_insert. case_decide as Hk.
  - cbn. by rewrite lookup_middle.
  - rewrite lookup_omap. destruct (orders d !! k) as [p|] eqn:Hp; [|done]. cbn.
    destruct (proj1 Hwf _ _ Hp) as (o & Ho & _). rewrite lookup_app_l; [done|by eapply lookup_lt_Some].
Qed.

Lemma registry_cancel d id cid w :
  wf d → id ≠ "" →
  registry_of (snd (fst (CancelOrder d (mkCancelRequest id cid) w)))
  = mkRegistry (alter (set_status OrderStatusCanceled) id (reg_orders (registry_of d))) (reg_fills (registry_of d)).
Proof.
  intros [Hp Hinj] Hid. unfold CancelOrder. cbn [cancel_VenueOrderID].
  rewrite (proj2 (String.eqb_neq _ _) Hid).
  destruct (orders d !! id) as [p|] eqn:Hl; cbn [fst snd mret io_ret]; unfold registry_of;
    cbn [reg_orders reg_fills orders heap fills]; f_equal; apply map_eq; intros k;
    rewrite lookup_alter, !lookup_omap.
  - case_decide as Hk; [subst k; rewrite Hl; cbn; by rewrite list_lookup_alter, decide_True by done|].
    destruct (orders d !! k) as [q|] eqn:Hq; [|done]. cbn. rewrite list_lookup_alter, decide_False; [done|].
    intros ->. apply Hk. by eapply Hinj.
  - case_decide as Hk; [|done]. subst k. by rewrite Hl.
Qed.
Lemma check_order_silent r resp : check_order r = inl resp → observe resp = None.
Proof.
  unfold check_order. destruct (String.eqb (rq_Method r) "POST"); cbn [negb]; [|by intros [= <-]].
  destruct (decode_body _ _ _) as [q [|]]; cbn [negb]; [|by intros [= <-]].
  destruct (_ || _); [by intros [= <-]|].
  destruct (dec_of_string (or_Amount q)) as [a|]; [|by intros [= <-]].
  destruct (dec_leb a dec_zero); [by intros [= <-]|].
  destruct (String.eqb (or_Price q) ""); [done|].
  destruct (dec_of_string (or_Price q)); [done|by intros [= <-]].
Qed.

Lemma matches_order id limit d :
  id ≠ "" → List.filter (fill_matches (mkFillQuery id zero_time zero_time limit)) (fills d)
            = List.filter (of_order id) (reg_fills (registry_of d)).
Proof.
  intros Hid. cbn [reg_fills registry_of]. apply List.filter_ext. intros f. unfold fill_matches, of_order.
  cbn [query_VenueOrderID query_Start query_End]. rewrite (proj2 (String.eqb_neq _ _) Hid). cbn [negb andb].
  destruct (String.eqb (fill_VenueOrderID f) id); done.
Qed.

(** A connector type that has the dummy connector among its values. *)
Class DummyLike (C : Type) `{!VenueConnector C} (inj : DummyVenueConnector → C) : Prop := {
  like_place d req w : Venue.PlaceOrder (inj d) req w = lift inj (Venue.PlaceOrder d req) w;
  like_cancel d req w : Venue.CancelOrder (inj d) req w = lift inj (Venue.CancelOrder d req) w;
  like_get d id w : Venue.GetOrder (inj d) id w = lift inj (Venue.GetOrder d id) w;
  like_fills d q w : Venue.GetFills (inj d) q w = lift inj (Venue.GetFills d q) w;
  like_balances d w : Venue.GetBalances (inj d) w = lift inj (Venue.GetBalances d) w;
}.

Lemma lift_run {A B C : Type} (inj : C → B) (m : IO (A * C)) w :
  lift inj m w = let '((a, c), w') := m w in ((a, inj c), w').
Proof. unfold lift. rewrite bind_run. by destruct (m w) as [[a c] w']. Qed.

#[export] Instance dummy_like_itself : DummyLike DummyVenueConnector id.
Proof. split; intros; rewrite lift_run; by destruct (_ : _ * World) as [[? ?] ?]. Qed.

#[export] Instance dummy_like_any : DummyLike AnyConnector CDummy.
Proof. by split. Qed.

Section Handlers.
Context {C K P St : Type} `{!VenueConnector C} `{!AsDummy C} `{!Sink K} `{!Publisher P}
  `{!Store St} `{!OfMemStore St} (inj : DummyVenueConnector → C) `{!DummyLike C inj}.
Implicit Types (s : Service C K P St).

(** A response that the registry of [d] makes, and the registry it leaves. *)
Definition simulates d (resp : Response body) s' : Prop :=
  ∃ d', connector s' = inj d' ∧ wf d' ∧ reg_step (registry_of d) (observe resp) (registry_of d').

Lemma simulates_silent d s resp s' :
  wf d → connector s = inj d → observe resp = None → connector s' = connector s → simulates d resp s'.
Proof. intros Hwf Hs Ho Hc. exists d. rewrite Hc, Ho. split_and!; [done|done|constructor]. Qed.

Lemma orders_root_simulates d s r w :
  wf d → connector s = inj d → let '((resp, s'), _) := handleOrdersRoot s r w in simulates d resp s'.
Proof.
  intros Hwf Hs. destruct (check_order r) as [resp|[[req amount] price]] eqn:Hc.
  - unfold handleOrdersRoot. rewrite Hc. apply (simulates_silent d s); [done..|by eapply check_order_silent|done].
  - apply check_order_valid in Hc.
    destruct (registry_place d (venue_request req amount price) w Hwf) as (o & f & d1 & w1 & Hp & Hwf1 & Hf & Hreg).
    assert (Venue.PlaceOrder (connector s) (venue_request req amount price) w = ((Ok o, inj d1), w1)) as Hp'
      by (by rewrite Hs, like_place, lift_run, Hp).
    pose proof (orders_root_connector s r w req amount price o (inj d1) w1 Hc Hp') as Hr.
    destruct (handleOrdersRoot s r w) as [[resp s1] w']. destruct Hr as [-> Hd]. exists d1. split_and!; [done..|].
    rewrite Hreg. change (observe _) with (Some (Placed (order_of_response (order_response (venueName s) (or_Pair req) o)))).
    assert (order_of_response (order_response (venueName s) (or_Pair req) o) = o) as -> by (by destruct o).
    by constructor.
Qed.

Lemma cancel_order_simulates id d s r w :
  wf d → connector s = inj d → id ≠ "" → let '((resp, s'), _) := cancel_order id s r w in simulates d resp s'.
Proof.
  intros Hwf Hs Hid. unfold cancel_order. destruct (negb _); [by apply (simulates_silent d s)|].
  pose proof (registry_cancel d id "" w Hwf Hid) as Hreg.
  pose proof (cancel_order_wf d (mkCancelRequest id "") w Hwf) as Hwf1.
  assert (fst (fst (CancelOrder d (mkCancelRequest id "") w)) = None) as Hok
    by (unfold CancelOrder; by case_match).
  rewrite bind_run, Hs, like_cancel, lift_run. unfold Venue.CancelOrder, dummy_connector.
  destruct (CancelOrder d (mkCancelRequest id "") w) as [[err d1] w1]. cbn [fst snd] in *. subst err.
  rewrite bind_run. cbn [fst snd mret io_ret]. exists d1. rewrite !emit_connector. split_and!; [done..|]. rewrite Hreg.
  rewrite observe_canceled.
  constructor.
Qed.

Lemma order_sub_simulates d s r w :
  wf d → connector s = inj d → let '((resp, s'), _) := handleOrderSub s r w in simulates d resp s'.
Proof.
  intros Hwf Hs. unfold handleOrderSub. destruct (splitOrderPath (rq_Path r)) as [id sub].
  destruct (String.eqb_spec id "") as [|Hid]; [by apply (simulates_silent d s)|].
  destruct (String.eqb sub "cancel"); [by apply cancel_order_simulates|].
  destruct (String.eqb sub "fills").
  - unfold order_fills. destruct (negb _); [by apply (simulates_silent d s)|].
    rewrite bind_run, Hs, like_fills, lift_run. unfold Venue.GetFills, dummy_connector, GetFills. cbn [fst snd mret io_ret].
    rewrite matches_order by done. exists d. split_and!; [done..|]. constructor.
  - destruct (_ || _); [|by apply (simulates_silent d s)]. unfold order_status.
    destruct (negb _); [by apply (simulates_silent d s)|].
    rewrite bind_run, Hs, like_get, lift_run. unfold Venue.GetOrder, dummy_connector, GetOrder.
    destruct (orders d !! id) as [p|] eqn:Hp; cbn; [|by apply (simulates_silent d s)].
    destruct (proj1 Hwf _ _ Hp) as (o & Ho & Hoid). rewrite Ho. cbn. exists d. split_and!; [done..|].
    constructor. cbn [reg_orders registry_of]. by rewrite lookup_omap, Hoid, Hp.
Qed.

Lemma balances_simulates d s r w :
  wf d → connector s = inj d → let '((resp, s'), _) := handleBalances s r w in simulates d resp s'.
Proof.
  intros Hwf Hs. unfold handleBalances. destruct (negb _); [by apply (simulates_silent d s)|].
  rewrite bind_run, Hs, like_balances, lift_run. unfold Venue.GetBalances, dummy_connector, GetBalances.
  cbn [fst snd mret io_ret]. rewrite bind_run.
  destruct (audit (set_connector (inj d) s)); cbn [fst snd mret io_ret]; rewrite ?bind_run; by apply (simulates_silent d s).
Qed.

Lemma serve_mux_simulates d s r w :
  wf d → connector s = inj d → let '((resp, s'), _) := serve_mux s r w in simulates d resp s'.
Proof.
  intros Hwf Hs. unfold serve_mux. destruct (Mux.dispatch mux r) as [h|loc|] eqn:Hd;
    [|by apply (simulates_silent d s)..].
  apply serve_found in Hd as (pat & Hin & _). unfold mux in Hin.
  rewrite list_elem_of_In in Hin. cbn [List.In] in Hin.
  repeat destruct Hin as [[= <- <-]|Hin]; try done.
  - by apply (simulates_silent d s).
  - unfold handleReadyz. destruct (ready s); by apply (simulates_silent d s).
  - by apply (simulates_silent d s).
  - unfold handleRotateCreds. rewrite bind_run. cbn [fst snd mret io_ret].
    apply (simulates_silent d s); [done..|]. apply emit_connector.
  - by apply orders_root_simulates.
  - by apply order_sub_simulates.
  - by apply balances_simulates.
  - unfold handleBook. destruct (negb _); [by apply (simulates_silent d s)|].
    destruct (String.eqb _ _); [by apply (simulates_silent d s)|]. destruct (Get _ _); by apply (simulates_silent d s).
Qed.

Lemma routes_simulate testing h d s r w :
  Routes testing = Some h → wf d → connector s = inj d →
  let '((resp, s'), _) := h s r w in simulates d resp s'.
Proof.
  unfold Routes. destruct (SecretFromEnv testing) as [[secret bypass]|]; cbn; [|done]. intros [= <-] Hwf Hs.
  destruct (middleware_allow secret bypass serve_mux s r w) as [->|[(msg & w' & -> & _)| -> ]];
    [by apply serve_mux_simulates|by apply (simulates_silent d s)|by apply serve_mux_simulates].
Qed.

Lemma serve_all_simulates testing h rs d s w :
  Routes testing = Some h → wf d → connector s = inj d →
  let '((resps, s'), _) := serve_all h rs s w in
  ∃ d', connector s' = inj d' ∧ wf d' ∧ reg_steps (registry_of d) (map observe resps) (registry_of d').
Proof.
  intros Hr. revert d s w. induction rs as [|r rs IH]; intros d s w Hwf Hs.
  { exists d. split_and!; [done..|constructor]. }
  cbn [serve_all]. rewrite bind_run. pose proof (routes_simulate testing h d s r w Hr Hwf Hs) as H1.
  destruct (h s r w) as [[resp s1] w1]. destruct H1 as (d1 & Hs1 & Hwf1 & Hstep). cbn [fst snd].
  rewrite bind_run. specialize (IH d1 s1 w1 Hwf1 Hs1). destruct (serve_all h rs s1 w1) as [[resps s2] w2].
  destruct IH as (d2 & Hs2 & Hwf2 & Hsteps). exists d2. split_and!; [done..|]. by econstructor.
Qed.
End Handlers.
End Refinement.

(** ** Properties *)

(** C4: Over the dummy connector, or any connector type that has it among its values,
    the answers to any sequence of requests through the routes are a trace of the
    abstract order registry: a placement adds an order filled at once by one fill, a
    cancellation marks the order, a status shows the order held, a list of fills
    shows those of the order cut at the limit, and every other answer leaves orders
    and fills alone. *)
Theorem service_refines_registry `{DD : Decimal} `{E : Env} {C K P St : Type} `{!VenueConnector C}
    `{!AsDummy C} `{!Sink K} `{!Publisher P} `{!Store St} `{!OfMemStore St}
    (inj : Dummy.DummyVenueConnector → C) `{!DummyLike C inj} testing h rs d (s : Service C K P St) w :
  Routes testing = Some h → Dummy.wf d → connector s = inj d →
  let '((resps, s'), _) := serve_all h rs s w in
  ∃ d', connector s' = inj d' ∧ Dummy.wf d' ∧ length resps = length rs
    ∧ reg_steps (registry_of d) (map observe resps) (registry_of d').
Proof.
  intros Hr Hwf Hs. pose proof (serve_all_simulates inj testing h rs d s w Hr Hwf Hs) as H.
  pose proof (serve_all_invariant (λ _, True) (λ _ _, True) h rs s w) as Hl.
  destruct (serve_all h rs s w) as [[resps s'] w']. destruct H as (d' & Hs' & Hwf' & Hsteps).
  exists d'. split_and!; [done..| |done]. destruct Hl as [_ Hf]; [|done|by apply Forall2_length in Hf].
  intros s1 r w1 _. by destruct (h s1 r w1) as [[? ?] ?].
Qed.

Section Development.
Context `{DD : Decimal} `{E : Env} {Q : Type} `{!Pool Q}.

(** DEV_MODE is 1 and VENUE_FAMILY names no real venue. *)
Definition is_development : Prop :=
  env_getenv "DEV_MODE" = "1"
  ∧ getenv_default "VENUE_FAMILY" "dummy" ∉ ["binance"; "kraken"; "otc"].

Lemma development_connector testing w g :
  is_development → fst (start (Q := Q) testing w) = Ok g →
  connector (gw_Service g) = CDummy Dummy.NewDummyVenueConnector ∧ Routes testing = Some (gw_Handler g).
Proof.
  intros [Hdev Hv] H. destruct (start_parts testing w g H) as (conn & k & st & w0 & w1 & w2 & w3 & w4 & w5 & pairs & conn'
    & Hc & _ & _ & Hs & Hconn & _ & _ & _ & Hr). split; [|done].
  rewrite Hdev in Hc. unfold selectConnector in Hc. rewrite !not_elem_of_cons in Hv. destruct Hv as (H1 & H2 & H3 & _).
  apply String.eqb_neq in H1, H2, H3. rewrite H1, H2, H3 in Hc. cbn in Hc. injection Hc as <- <-.
  rewrite Hconn. cbn in Hs. by injection Hs as <-.
Qed.

Lemma new_registry : registry_of Dummy.NewDummyVenueConnector = empty_registry.
Proof. unfold registry_of, empty_registry. cbn. by rewrite omap_empty. Qed.

(** C6: In a gateway started with DEV_MODE 1 and no real venue, whatever the requests:
    an order that is shown was answered as placed before, has every field of that
    answer and is canceled exactly if a cancellation was answered since; the fills
    listed are those of the placed orders, in order, cut at a limit. *)
Theorem development_orders_have_history testing w0 g rs w :
  is_development → fst (start (Q := Q) testing w0) = Ok g →
  let '((resps, _), _) := serve_all (gw_Handler g) rs (gw_Service g) w in
  ∀ before resp after, resps = before ++ resp :: after →
    match observe resp with
    | Some (Reported o) => order_history (map observe before) (resp_VenueOrderID o) o
    | Some (Listed id fs) =>
        ∃ limit, fs = apply_limit limit (List.filter (of_order id) (placed_fills (map observe before)))
    | _ => True
    end.
Proof.
  intros Hd H. destruct (development_connector testing w0 g Hd H) as [Hc Hr].
  pose proof (serve_all_simulates CDummy testing (gw_Handler g) rs _ (gw_Service g) w Hr Dummy.dummy_wf_new Hc) as Hs.
  destruct (serve_all _ _ _ _) as [[resps s'] w']. destruct Hs as (d' & _ & _ & Hs).
  intros before resp after ->. rewrite map_app, new_registry in Hs.
  apply reg_steps_app_inv in Hs as (g1 & H1 & H2). apply reg_steps_history in H1 as [Hf Ho].
  inversion H2 as [|? ? g2 ? ? Hstep _]; subst.
  inversion Hstep as [| | |? o Hl|? id limit]; subst; try done; [by apply Ho|]. exists limit. by rewrite Hf.
Qed.
End Development.

(** ** Witnesses *)
Section Witnesses.
#[local] Existing Instances fixed_decimal tables_pool.

Definition development_env : Env :=
  env_with (λ _, HTTPErr "connection refused") (λ _, None) (λ k, if String.eqb k "DEV_MODE" then "1" else "").

(** An order is placed and asked for. *)
Definition demo_requests : list Request := [demo_post; demo_get "/v1/orders/uuid-0" ""].

Lemma development_orders_have_history_witness :
  ∃ g placed shown o, fst (start (E := development_env) (Q := tables) false world0) = Ok g
    ∧ fst (fst (serve_all (gw_Handler g) demo_requests (gw_Service g) world0)) = [placed; shown]
    ∧ observe shown = Some (Reported o) ∧ order_history [observe placed] (resp_VenueOrderID o) o.
Proof.
  assert (match fst (start (E := development_env) (Q := tables) false world0) with
          | Ok g => match map observe (fst (fst (serve_all (gw_Handler g) demo_requests (gw_Service g) world0))) with
                    | [_; Some (Reported _)] => true
                    | _ => false
                    end
          | Fail _ => false
          end = true) as Hok by (vm_compute; reflexivity).
  destruct (fst (start (E := development_env) (Q := tables) false world0)) as [g|e] eqn:Hg; [|discriminate Hok].
  pose proof (development_orders_have_history (E := development_env) (Q := tables) false world0 g demo_requests world0
    ltac:(split; [reflexivity|refine (@bool_decide_unpack _ _ _); vm_compute; exact I]) Hg) as H.
  destruct (serve_all (gw_Handler g) demo_requests (gw_Service g) world0) as [[resps s'] w'] eqn:Hserve.
  cbn [fst] in *. destruct resps as [|placed [|shown [|? ?]]]; try discriminate Hok; cbn [map] in Hok.
  - specialize (H [placed] shown [] eq_refl). destruct (observe shown) as [[| |o|]|] eqn:Ho; try discriminate Hok.
    exists g, placed, shown, o. split; [reflexivity|]. split; [by rewrite Hserve|]. split; [exact Ho|exact H].
  - destruct (observe shown) as [[| |o|]|]; discriminate Hok.
Defined.

Section Service.
#[local] Existing Instance development_env.

Lemma service_refines_registry_witness :
  ∃ h, Routes (C := Dummy.DummyVenueConnector) (K := InMemory.InMemorySink)
         (P := option KafkaPublisher) (St := MemStore.MemStore) false = Some h
    ∧ let '((resps, s'), _) := serve_all h demo_requests demo_service world0 in
      reg_steps (registry_of (connector demo_service)) (map observe resps) (registry_of (connector s')).
Proof.
  eexists. split; [reflexivity|].
  pose proof (service_refines_registry id false _ demo_requests (connector demo_service) demo_service world0
    eq_refl (Dummy.dummy_wf_new (E := server_env)) eq_refl) as H.
  match goal with |- context [serve_all ?h demo_requests demo_service world0] =>
    change (let '((resps, s'), _) := serve_all h demo_requests demo_service world0 in
      ∃ d', connector s' = id d' ∧ Dummy.wf d' ∧ length resps = length demo_requests
        ∧ reg_steps (registry_of (connector demo_service)) (map observe resps) (registry_of d')) in H;
    destruct (serve_all h demo_requests demo_service world0) as [[resps s'] w'] end.
  destruct H as (d' & -> & _ & _ & H). exact H.
Defined.
End Service.
End Witnesses.
