(* ===== verification/StoredOrders.v ===== *)
(** * What the in-memory store knows of the orders

    Over any connector, the orders in the store of a service are exactly those its
    responses report as placed, and a development gateway keeps its store and its
    registry in step: no request can make one know an order the other does not. *)

From S2P Require Export Registry.

(** A store type that has the in-memory store among its values. *)
Class MemLike `{DD : Decimal} `{E : Env} (St : Type) `{!Store St} (inj : MemStore.MemStore → St) : Prop := {
  like_record_order m o w : Store.RecordOrder (inj m) o w = lift inj (MemStore.RecordOrder m o) w;
  like_record_fill m f w : Store.RecordFill (inj m) f w = lift inj (MemStore.RecordFill m f) w;
}.

#[export] Instance mem_like_itself `{DD : Decimal} `{E : Env} : MemLike MemStore.MemStore id.
Proof. split; intros; rewrite lift_run; by destruct (_ : _ * World) as [[? ?] ?]. Qed.

#[export] Instance mem_like_any `{DD : Decimal} `{E : Env} {Q} `{!Pool Q} : MemLike (AnyStore Q) StMemory.
Proof. by split. Qed.

Section Stored.
Context `{DD : Decimal} `{E : Env}.
Context {C K P St : Type} `{!VenueConnector C} `{!AsDummy C} `{!Sink K} `{!Publisher P}
  `{!Store St} `{!OfMemStore St} (inj : MemStore.MemStore → St) `{!MemLike St inj}.
Implicit Types (s : Service C K P St) (r : Request) (m : MemStore.MemStore).

(** The client id an action places, and that a response reports as placed. *)
Definition action_id (a : option action) : gset string :=
  match a with Some (Placed o) => {[resp_ClientOrderID o]} | _ => ∅ end.

Definition placed_id (resp : Response body) : gset string := action_id (observe resp).

Lemma record_order_dom m o w :
  ∃ x m' w', Store.RecordOrder (inj m) o w = ((x, inj m'), w')
    ∧ dom (MemStore.orders m') = {[o_ClientOrderID o]} ∪ dom (MemStore.orders m).
Proof.
  rewrite like_record_order, lift_run. unfold MemStore.RecordOrder.
  destruct (MemStore.orders m !! o_ClientOrderID o) as [o'|] eqn:Ho.
  - eexists _, m, w. split; [done|]. apply elem_of_dom_2 in Ho. set_solver.
  - destruct (time_is_zero _); run_io; eexists _, _, _; (split; [reflexivity|]); cbn; by rewrite dom_insert_L.
Qed.

Lemma record_fills_orders fs m w :
  ∃ m', fst (record_fills (inj m) fs w) = inj m' ∧ MemStore.orders m' = MemStore.orders m.
Proof.
  revert m w. induction fs as [|f fs IH]; intros m w; [by exists m|]. cbn [record_fills].
  rewrite bind_run, like_record_fill, lift_run.
  assert (MemStore.orders (snd (fst (MemStore.RecordFill m f w))) = MemStore.orders m) as Hk.
  { unfold MemStore.RecordFill. destruct (existsb _ _); [done|]. by destruct (time_is_zero _). }
  destruct (MemStore.RecordFill m f w) as [[x m1] w1]. cbn [fst snd] in *.
  destruct (IH m1 w1) as (m' & Hm & Ho). exists m'. split; [done|congruence].
Qed.

Lemma record_placed_dom s req amount price resp w m :
  store s = Some (inj m) →
  ∃ m', store (fst (record_placed s req amount price resp w)) = Some (inj m')
    ∧ dom (MemStore.orders m') = {[resp_ClientOrderID resp]} ∪ dom (MemStore.orders m).
Proof.
  intros Hs. unfold record_placed. rewrite Hs, bind_run.
  destruct (record_order_dom m (order_record (venueName s) req amount price resp) w) as (x & m1 & w1 & -> & Hd).
  cbn [fst snd]. rewrite bind_run.
  destruct (record_fills_orders (map (fill_record (venueName s) (resp_VenueOrderID resp) (or_Pair req)) (resp_Fills resp)) m1 w1)
    as (m2 & Hm & Ho).
  destruct (record_fills (inj m1) _ w1) as [st w2]. cbn [fst] in Hm. subst st.
  exists m2. split; [done|]. rewrite Ho, Hd. done.
Qed.

Lemma announce_placed_store s req amount price resp w :
  store (fst (announce_placed s req amount price resp w)) = store s.
Proof. unfold announce_placed. destruct (audit s); [|done]. by rewrite !bind_run. Qed.

(** The store a response leaves, from the store [m]. *)
Definition stores m (resp : Response body) s' : Prop :=
  ∃ m', store s' = Some (inj m') ∧ dom (MemStore.orders m') = placed_id resp ∪ dom (MemStore.orders m).

Lemma stores_nothing m s resp s' :
  store s = Some (inj m) → placed_id resp = ∅ → store s' = store s → stores m resp s'.
Proof. intros Hs Hp Hst. exists m. rewrite Hst, Hs, Hp. split; [done|set_solver]. Qed.

Lemma orders_root_stores m s r w :
  store s = Some (inj m) → let '((resp, s'), _) := handleOrdersRoot s r w in stores m resp s'.
Proof.
  intros Hs. unfold handleOrdersRoot. destruct (check_order r) as [resp|[[req amount] price]] eqn:Hc.
  - apply (stores_nothing m s); [done| |done]. unfold placed_id. by rewrite (check_order_silent r resp Hc).
  - rewrite bind_run. destruct (PlaceOrder _ _ _) as [[[o|e] c] w1]; cbn [fst snd]; [|by apply (stores_nothing m s)].
    rewrite bind_run. destruct (record_placed_dom (set_connector c s) req amount price o w1 m Hs) as (m' & Hm & Hd).
    destruct (record_placed _ _ _ _ _ _) as [s1 w2]. cbn [fst snd] in *.
    rewrite bind_run. pose proof (announce_placed_store s1 req amount price o w2) as Ha.
    destruct (announce_placed _ _ _ _ _ _) as [s2 w3]. cbn [fst snd mret io_ret] in *.
    exists m'. split; [congruence|]. rewrite Hd. done.
Qed.

Lemma order_sub_no_placement s r w : placed_id (fst (fst (handleOrderSub s r w))) = ∅.
Proof.
  unfold handleOrderSub. destruct (splitOrderPath _) as [id sub]. destruct (String.eqb id ""); [done|].
  destruct (String.eqb sub "cancel"); [|destruct (String.eqb sub "fills")].
  - unfold cancel_order. destruct (negb _); [done|]. rewrite bind_run.
    destruct (CancelOrder _ _ _) as [[[e|] c] w1]; cbn [fst snd]; [done|]. rewrite bind_run. cbn [fst snd mret io_ret].
    unfold placed_id, action_id, observe. cbn [rs_Body writeJSON]. case_bool_decide; [|done]. by destruct (_ !! _).
  - unfold order_fills. destruct (negb _); [done|]. rewrite bind_run. by destruct (GetFills _ _ _) as [[[fs|e] c] w1].
  - destruct (_ || _); [|done]. unfold order_status. destruct (negb _); [done|]. rewrite bind_run.
    by destruct (GetOrder _ _ _) as [[[o|e] c] w1].
Qed.

Lemma balances_no_placement s r w : placed_id (fst (fst (handleBalances s r w))) = ∅.
Proof.
  unfold handleBalances. destruct (negb _); [done|]. rewrite bind_run.
  destruct (GetBalances _ _) as [[[b|e] c] w1]; [|done]. cbn [fst snd]. rewrite bind_run.
  by destruct (audit (set_connector c s)); cbn [fst snd]; rewrite ?bind_run.
Qed.

Lemma serve_mux_stores m s r w :
  store s = Some (inj m) → let '((resp, s'), _) := serve_mux s r w in stores m resp s'.
Proof.
  intros Hs. unfold serve_mux. destruct (Mux.dispatch mux r) as [h|loc|] eqn:Hd;
    [|by apply (stores_nothing m s)..].
  apply serve_found in Hd as (pat & Hin & _). unfold mux in Hin.
  assert (∀ f : handler, only_connector_and_audit s (snd (fst (f s r w))) →
    placed_id (fst (fst (f s r w))) = ∅ → let '((resp, s'), _) := f s r w in stores m resp s') as Hframe.
  { intros f. destruct (f s r w) as [[resp s'] w']. intros [_ ?] ?. by apply (stores_nothing m s). }
  rewrite list_elem_of_In in Hin. cbn [List.In] in Hin.
  repeat destruct Hin as [[= <- <-]|Hin]; try done.
  - by apply Hframe.
  - apply Hframe; unfold handleReadyz; by destruct (ready s).
  - by apply Hframe.
  - apply Hframe; unfold handleRotateCreds; rewrite bind_run; [apply emit_frame|done].
  - by apply orders_root_stores.
  - apply Hframe; [apply order_sub_frame|apply order_sub_no_placement].
  - apply Hframe; [apply handle_balances_frame|apply balances_no_placement].
  - apply Hframe; unfold handleBook; (case_match; [done|]); (case_match; [done|]); by destruct (Get _ _).
Qed.

Lemma routes_store testing h m s r w :
  Routes testing = Some h → store s = Some (inj m) →
  let '((resp, s'), _) := h s r w in stores m resp s'.
Proof.
  unfold Routes. destruct (SecretFromEnv testing) as [[secret bypass]|]; cbn; [|done]. intros [= <-] Hs.
  destruct (middleware_allow secret bypass serve_mux s r w) as [->|[(msg & w' & -> & _)| -> ]];
    [by apply serve_mux_stores|by apply (stores_nothing m s)|by apply serve_mux_stores].
Qed.

Lemma serve_all_stores testing h rs m s w :
  Routes testing = Some h → store s = Some (inj m) →
  let '((resps, s'), _) := serve_all h rs s w in
  ∃ m', store s' = Some (inj m') ∧ dom (MemStore.orders m') = ⋃ (map placed_id resps) ∪ dom (MemStore.orders m).
Proof.
  intros Hr. revert m s w. induction rs as [|r rs IH]; intros m s w Hs.
  { exists m. split; [done|]. cbn. set_solver. }
  cbn [serve_all]. rewrite bind_run. pose proof (routes_store testing h m s r w Hr Hs) as H1.
  destruct (h s r w) as [[resp s1] w1]. destruct H1 as (m1 & Hs1 & Hd1). cbn [fst snd].
  rewrite bind_run. specialize (IH m1 s1 w1 Hs1). destruct (serve_all h rs s1 w1) as [[resps s2] w2].
  destruct IH as (m2 & Hs2 & Hd2). exists m2. split; [done|]. rewrite Hd2, Hd1. cbn. set_solver.
Qed.
End Stored.

(** ** Properties *)

(** The orders a registry holds. *)
Lemma reg_steps_dom `{DD : Decimal} g acts g' :
  reg_steps g acts g' → dom (reg_orders g') = ⋃ (map action_id acts) ∪ dom (reg_orders g).
Proof.
  induction 1 as [g|g a g1 acts g2 Hs _ IH]; [cbn; set_solver|]. rewrite IH. clear IH. cbn [map union_list foldr].
  assert (dom (reg_orders g1) = action_id a ∪ dom (reg_orders g)) as ->; [|set_solver].
  destruct Hs as [g|g o f (_ & Hid & _)|g id|g o _|g id limit]; cbn [action_id reg_orders]; set_solver.
Qed.

(** Over any connector, the orders an in-memory store has gained after any sequence of
    requests are exactly those that the responses report as placed, by their client
    ids. *)
Theorem store_holds_placed_orders `{DD : Decimal} `{E : Env} {C K P St : Type} `{!VenueConnector C}
    `{!AsDummy C} `{!Sink K} `{!Publisher P} `{!Store St} `{!OfMemStore St}
    (inj : MemStore.MemStore → St) `{!MemLike St inj} testing h rs m (s : Service C K P St) w :
  Routes testing = Some h → store s = Some (inj m) →
  let '((resps, s'), _) := serve_all h rs s w in
  ∃ m', store s' = Some (inj m') ∧ ∀ id, id ∈ dom (MemStore.orders m') ↔
    id ∈ dom (MemStore.orders m)
    ∨ ∃ resp o, resp ∈ resps ∧ observe resp = Some (Placed o) ∧ resp_ClientOrderID o = id.
Proof.
  intros Hr Hs. pose proof (serve_all_stores inj testing h rs m s w Hr Hs) as H.
  destruct (serve_all h rs s w) as [[resps s'] w']. destruct H as (m' & Hs' & Hd). exists m'. split; [done|].
  intros id. rewrite Hd, elem_of_union, elem_of_union_list. split.
  - intros [(X & Hin & Hx)|]; [right|by left]. apply list_elem_of_fmap in Hin as (resp & -> & Hin).
    exists resp. unfold placed_id, action_id in Hx. destruct (observe resp) as [[o| | |]|]; [|set_solver..].
    exists o. split_and!; [done|done|]. apply elem_of_singleton in Hx. done.
  - intros [|(resp & o & Hin & Ho & <-)]; [by right|left]. exists (placed_id resp). split.
    + by apply list_elem_of_fmap_2.
    + unfold placed_id. rewrite Ho. cbn. set_solver.
Qed.

Section Development.
Context `{DD : Decimal} `{E : Env} {Q : Type} `{!Pool Q}.

Lemma development_store testing w g :
  is_development → env_getenv "DB_URL" = "" → fst (start (Q := Q) testing w) = Ok g →
  store (gw_Service g) = Some (StMemory MemStore.New).
Proof.
  intros [Hdev _] Hdb H. destruct (start_parts testing w g H) as (conn & k & st & w0 & w1 & w2 & w3 & w4 & w5 & pairs & conn'
    & _ & _ & Hst & _ & _ & _ & Hstore & _).
  unfold newStore in Hst. rewrite Hdb, Hdev in Hst. cbn in Hst. injection Hst as <- _. done.
Qed.

(** C39: In a gateway started with DEV_MODE 1, no real venue and no DB_URL, after any
    sequence of requests the in-memory store has an order for exactly the ids the
    dummy connector knows. *)
Theorem development_store_matches_registry testing w0 g rs w :
  is_development → env_getenv "DB_URL" = "" → fst (start (Q := Q) testing w0) = Ok g →
  let '((_, s'), _) := serve_all (gw_Handler g) rs (gw_Service g) w in
  ∃ d m, connector s' = CDummy d ∧ store s' = Some (StMemory m)
    ∧ dom (MemStore.orders m) = dom (reg_orders (registry_of d)).
Proof.
  intros Hd Hdb H. destruct (development_connector testing w0 g Hd H) as [Hc Hr].
  pose proof (development_store testing w0 g Hd Hdb H) as Hst.
  pose proof (serve_all_simulates CDummy testing (gw_Handler g) rs _ (gw_Service g) w Hr Dummy.dummy_wf_new Hc) as Hs.
  pose proof (serve_all_stores StMemory testing (gw_Handler g) rs _ (gw_Service g) w Hr Hst) as Hm.
  destruct (serve_all _ _ _ _) as [[resps s'] w']. destruct Hs as (d & Hd' & _ & Hsteps), Hm as (m & Hm' & Hdom).
  exists d, m. split_and!; [done..|]. rewrite Hdom, (reg_steps_dom _ _ _ Hsteps), new_registry.
  cbn [reg_orders empty_registry MemStore.orders MemStore.New]. rewrite !dom_empty_L, map_map. done.
Qed.
End Development.

(** ** Witnesses *)
Section Witnesses.
#[local] Existing Instances fixed_decimal tables_pool development_env.

Lemma store_holds_placed_orders_witness :
  let '((resps, s'), _) := serve_all (Middleware "" true serve_mux) demo_requests demo_service world0 in
  ∃ m', store s' = Some m' ∧ ∀ id, id ∈ dom (MemStore.orders m') ↔
    id ∈ dom (MemStore.orders MemStore.New)
    ∨ ∃ resp o, resp ∈ resps ∧ observe resp = Some (Placed o) ∧ resp_ClientOrderID o = id.
Proof.
  exact (store_holds_placed_orders id false (Middleware "" true serve_mux) demo_requests MemStore.New demo_service
    world0 eq_refl eq_refl).
Defined.

Lemma development_store_matches_registry_witness :
  ∃ g, fst (start (Q := tables) false world0) = Ok g
    ∧ let '((_, s'), _) := serve_all (gw_Handler g) demo_requests (gw_Service g) world0 in
      ∃ d m, connector s' = CDummy d ∧ store s' = Some (StMemory m)
        ∧ dom (MemStore.orders m) = dom (reg_orders (registry_of d)).
Proof.
  assert (is_ok (fst (start (Q := tables) false world0)) = true) as Hok by (vm_compute; reflexivity).
  destruct (fst (start (Q := tables) false world0)) as [g|e] eqn:Hg; [|discriminate Hok].
  exists g. split; [reflexivity|].
  exact (development_store_matches_registry (E := development_env) (Q := tables) false world0 g demo_requests world0
    ltac:(split; [reflexivity|refine (@bool_decide_unpack _ _ _); vm_compute; exact I]) eq_refl Hg).
Defined.
End Witnesses.
