(* ===== verification/Concurrent.v ===== *)
(** * Requests that run at the same time

    net/http runs every request in a goroutine of its own. Each handler is the program
    ([prog]) of its atomic steps: one call of the connector, the store, the audit sink or
    the bus each, which are atomic under the lock of the component. Executed without
    interruption a program is the handler of Server.v. *)

From S2P Require Export Programs Registry BookPipeline.

(** ** The handlers *)
Section Handlers.
Import Dummy.
Context `{DD : Decimal} `{E : Env}.
Context {K P St : Type} `{!Sink K} `{!Publisher P} `{!Store St} `{!OfMemStore St}.
Abbreviation service := (Service DummyVenueConnector K P St).
Abbreviation program := (prog service (Response body)).
Implicit Types (s : service) (r : Request).

(** *** Atomic steps *)

(** A call of the connector is its one critical section that writes: what PlaceOrder of the
    dummy does before it reads a price that never changes and makes new values. *)
Definition at_connector {B} (m : DummyVenueConnector → IO (B * DummyVenueConnector)) (s : service) : IO (B * service) :=
  '(b, c) ← m (connector s); mret (b, set_connector c s).

Definition at_store (m : service → St → IO St) (s : service) : IO (unit * service) :=
  match store s with
  | Some st => st ← m s st; mret (tt, set_store (Some st) s)
  | None => mret (tt, s)
  end.

Definition at_audit (e : service → AuditEvent) (s : service) : IO (unit * service) :=
  s' ← emit s (e s); mret (tt, s').

(** Only where the handlers publish: with an audit sink and a bus. *)
Definition at_bus (m : service → Bus P → IO unit) (s : service) : IO (unit * service) :=
  _ ← match audit s, events s with Some _, Some b => m s b | _, _ => mret tt end; mret (tt, s).

(** The response a pointer leads to now: the connector may have changed it. *)
Definition deref (p : nat) (o : OrderResponse) (s : service) : OrderResponse :=
  default o (heap (connector s) !! p).

(** *** Placing an order *)

Fixpoint record_fills_prog (orderID : string) (pair : string) (fs : list Fill) (k : program) : program :=
  match fs with
  | [] => k
  | f :: fs =>
      Atomic (at_store (λ s st, '(_, st) ← Store.RecordFill st (fill_record (venueName s) orderID pair f); mret st))
        (λ _, record_fills_prog orderID pair fs k)
  end.

Fixpoint announce_fills_prog (orderID : string) (pair : string) (fs : list Fill) (k : program) : program :=
  match fs with
  | [] => k
  | f :: fs =>
      Atomic (at_audit (λ s, fill_event (venueName s) orderID pair f)) (λ _,
      Atomic (at_bus (λ s b, _ ← PublishFill b (FillFromVenue (venueName s) orderID pair f); mret tt)) (λ _,
      announce_fills_prog orderID pair fs k))
  end.

(** The pointer [PlaceOrder] returned is read again for the record and for the answer. *)
Definition orders_root_prog (r : Request) : program :=
  match check_order r with
  | inl resp => Done resp
  | inr (req, amount, price) =>
      Atomic (at_connector (λ d, '(p, d) ← PlaceOrder d (venue_request req amount price);
                                 mret ((p, heap d !! p), d))) (λ '(p, o),
      match o with
      | None => Done (writeError StatusBadGateway ("place order: " +:+ ""))
      | Some o =>
          Atomic (at_store (λ s st,
            '(_, st) ← Store.RecordOrder st (order_record (venueName s) req amount price (deref p o s)); mret st)) (λ _,
          record_fills_prog (resp_VenueOrderID o) (or_Pair req) (resp_Fills o)
          (Atomic (at_audit (λ s, placed_event (venueName s) req amount price o)) (λ _,
          announce_fills_prog (resp_VenueOrderID o) (or_Pair req) (resp_Fills o)
          (Atomic (λ s, mret (writeJSON StatusOK (BPlaced (order_response (venueName s) (or_Pair req) (deref p o s))), s))
             Done))))
      end)
  end.

(** *** One order *)

Definition cancel_prog (id : string) (r : Request) : program :=
  if negb (String.eqb (rq_Method r) "POST") then Done method_not_allowed else
  Atomic (at_connector (λ d, CancelOrder d (mkCancelRequest id ""))) (λ err,
  match err with
  | Some e => Done (writeError StatusBadGateway ("cancel: " +:+ e))
  | None =>
      Atomic (at_audit (λ s, order_event EventOrderCanceled (venueName s) id)) (λ _,
      Done (writeJSON StatusOK (BStrings (<["status" := "canceled"]> {["order_id" := id]}))))
  end).

Definition order_sub_prog (r : Request) : program :=
  let '(id, sub) := splitOrderPath (rq_Path r) in
  if String.eqb id "" then Done (writeError StatusBadRequest "missing order id")
  else if String.eqb sub "cancel" then cancel_prog id r
  else if String.eqb sub "fills" then Atomic (λ s, order_fills id s r) Done
  else if String.eqb sub "status" || String.eqb sub "" then Atomic (λ s, order_status id s r) Done
  else Done (writeError StatusNotFound "not found").

(** *** Balances *)

Fixpoint announce_balances_prog (bs : list Balance) (k : program) : program :=
  match bs with
  | [] => k
  | b :: bs =>
      Atomic (at_audit (λ s, balance_event (venueName s) b)) (λ _,
      Atomic (at_bus (λ s u, ev ← BalanceFromVenue (venueName s) b; _ ← PublishBalance u ev; mret tt)) (λ _,
      announce_balances_prog bs k))
  end.

Definition balances_prog (r : Request) : program :=
  if negb (String.eqb (rq_Method r) "GET") then Done method_not_allowed else
  Atomic (at_connector (λ d, GetBalances d)) (λ b,
  match b with
  | Fail e => Done (writeError StatusBadGateway ("balances: " +:+ e))
  | Ok b =>
      Atomic (λ s, match audit s with
                   | None => mret ([], s)
                   | Some _ => entries ← range_map b; mret (map snd entries, s)
                   end) (λ bs,
      announce_balances_prog bs (Done (writeJSON StatusOK (BBalances b))))
  end).

Definition rotate_prog (r : Request) : program :=
  Atomic (at_audit (λ s, empty_event EventCredRotation (venueName s))) (λ _,
  Done (writeJSON StatusOK (BStrings {["status" := "rotated"]}))).

(** A handler that is one step. *)
Definition single (h : Server.handler (C := DummyVenueConnector) (K := K) (P := P) (St := St)) (r : Request) : program :=
  Atomic (λ s, h s r) Done.

(** *** The routes *)

Definition mux_progs : list (string * (Request → program)) :=
  [("/healthz", single handleHealthz); ("/readyz", single handleReadyz);
   ("/admin/status", single handleAdminStatus); ("/admin/rotate-credentials", rotate_prog);
   ("/v1/orders", orders_root_prog); ("/v1/orders/", order_sub_prog);
   ("/v1/balances", balances_prog); ("/v1/book/", single handleBook)].

Definition mux_prog (r : Request) : program :=
  match Mux.dispatch mux_progs r with
  | Mux.Serve p => p r
  | Mux.Redirect loc => Done (mkResponse StatusMovedPermanently (BRedirect loc))
  | Mux.NotFound => Done (mkResponse StatusNotFound BPageNotFound)
  end.

Definition middleware_prog (secret : string) (bypass : bool) (r : Request) : program :=
  if bypass || skipPaths (rq_Path r) then mux_prog r else
  let auth := rq_Header r "Authorization" in
  if negb (HasPrefix auth "Bearer ")
  then Done (writeUnauthorized "missing or malformed Authorization header") else
  match verify (TrimPrefix auth "Bearer ") secret with
  | Fail e => Done (writeUnauthorized e)
  | Ok claims =>
      Atomic (λ s, now ← time_now; mret (now, s)) (λ now,
      if cl_Exp claims <? time_unix now then Done (writeUnauthorized "token expired") else mux_prog r)
  end.

Definition routes_prog (testing : bool) : option (Request → program) :=
  '(secret, bypass) ← SecretFromEnv testing; Some (middleware_prog secret bypass).
End Handlers.

(** ** The multiplexer chooses by the patterns alone *)
Section Dispatch.
Context {H H' : Type} (R : H → H' → Prop).

Definition target_related (t : Mux.target H) (t' : Mux.target H') : Prop :=
  match t, t' with
  | Mux.Serve h, Mux.Serve h' => R h h'
  | Mux.Redirect loc, Mux.Redirect loc' => loc = loc'
  | Mux.NotFound, Mux.NotFound => True
  | _, _ => False
  end.

Definition route_related (p : string * H) (p' : string * H') : Prop := fst p = fst p' ∧ R (snd p) (snd p').

Lemma existsb_related (f : string → bool) routes routes' :
  Forall2 route_related routes routes' →
  existsb (λ p, f (fst p)) routes = existsb (λ p, f (fst p)) routes'.
Proof. induction 1 as [|p p' l l' [Hp _] _ IH]; [done|]. cbn. by rewrite Hp, IH. Qed.

Lemma dispatch_related routes routes' r :
  Forall2 route_related routes routes' →
  target_related (Mux.dispatch routes r) (Mux.dispatch routes' r).
Proof.
  intros Hr. unfold Mux.dispatch.
  set (segs := Mux.segments _).
  rewrite (existsb_related (λ p, negb (snd (Mux.pattern_segments p)) && Mux.matches p segs) routes routes'),
    (existsb_related (λ p, Mux.matches_bare p segs) routes routes') by done.
  destruct (_ && _); [done|]. destruct (negb _); [done|].
  unfold Mux.find_pattern. induction Hr as [|p p' l l' [Hp HR] _ IH]; [done|]. cbn [List.find]. rewrite Hp.
  by destruct (Mux.matches (fst p') segs).
Qed.
End Dispatch.

(** ** Without interruption a program is its handler *)
Section Sequential.
Import Dummy.
Context `{DD : Decimal} `{E : Env}.
Context {K P St : Type} `{!Sink K} `{!Publisher P} `{!Store St} `{!OfMemStore St}.
Abbreviation service := (Service DummyVenueConnector K P St).
Abbreviation program := (prog service (Response body)).
Implicit Types (s : service) (r : Request) (k : program).

Lemma set_store_same s st : store s = Some st → set_store (Some st) s = s.
Proof. destruct s. cbn. by intros ->. Qed.

Lemma set_audit_same s a : audit s = a → set_audit a s = s.
Proof. destruct s. cbn. by intros ->. Qed.

Lemma run_record_fills id pair fs k s w :
  run_prog (record_fills_prog id pair fs k) s w
  = match store s with
    | None => run_prog k s w
    | Some st => let '(st', w') := record_fills st (map (fill_record (venueName s) id pair) fs) w in
                 run_prog k (set_store (Some st') s) w'
    end.
Proof.
  revert s w. induction fs as [|f fs IH]; intros s w; cbn [record_fills_prog map record_fills].
  { destruct (store s) as [st|] eqn:Hs; [|done]. cbn [mret io_ret]. by rewrite set_store_same. }
  rewrite run_atomic. unfold at_store. destruct (store s) as [st|] eqn:Hs.
  - rewrite !bind_run. destruct (Store.RecordFill st _ w) as [[x st1] w1] eqn:Hf. cbn [fst snd mret io_ret].
    rewrite IH. cbn [store set_store venueName]. 
    by destruct (record_fills st1 _ w1) as [st2 w2].
  - cbn [mret io_ret]. by rewrite IH, Hs.
Qed.

Lemma run_announce_fills id pair fs k s w :
  run_prog (announce_fills_prog id pair fs k) s w
  = match audit s with
    | None => run_prog k s w
    | Some a => let '(a', w') := announce_fills a (events s) (venueName s) id pair fs w in
                run_prog k (set_audit (Some a') s) w'
    end.
Proof.
  revert s w. induction fs as [|f fs IH]; intros s w; cbn [announce_fills_prog announce_fills].
  { destruct (audit s) as [a|] eqn:Ha; [|done]. cbn [mret io_ret]. by rewrite set_audit_same. }
  rewrite run_atomic. unfold at_audit, emit. destruct (audit s) as [a|] eqn:Ha.
  - rewrite !bind_run. destruct (Emit a _ w) as [a1 w1]. cbn [fst snd mret io_ret].
    rewrite run_atomic. unfold at_bus. rewrite bind_run. cbn [audit set_audit events venueName].
    destruct (events s) as [b|] eqn:Hb; rewrite ?bind_run; cbn [fst snd mret io_ret];
      rewrite IH; cbn [audit set_audit events venueName]; rewrite Hb; by destruct (announce_fills a1 _ _ _ _ fs _).
  - rewrite bind_run. cbn [fst snd mret io_ret]. rewrite run_atomic. unfold at_bus. rewrite Ha, bind_run.
    cbn [fst snd mret io_ret]. by rewrite IH, Ha.
Qed.

Lemma run_announce_balances bs k s w :
  run_prog (announce_balances_prog bs k) s w
  = match audit s with
    | None => run_prog k s w
    | Some a => let '(a', w') := announce_balances a (events s) (venueName s) bs w in
                run_prog k (set_audit (Some a') s) w'
    end.
Proof.
  revert s w. induction bs as [|b bs IH]; intros s w; cbn [announce_balances_prog announce_balances].
  { destruct (audit s) as [a|] eqn:Ha; [|done]. cbn [mret io_ret]. by rewrite set_audit_same. }
  rewrite run_atomic. unfold at_audit, emit. destruct (audit s) as [a|] eqn:Ha.
  - rewrite !bind_run. destruct (Emit a _ w) as [a1 w1]. cbn [fst snd mret io_ret].
    rewrite run_atomic. unfold at_bus. rewrite bind_run. cbn [audit set_audit events venueName].
    destruct (events s) as [u|] eqn:Hu; rewrite ?bind_run; cbn [fst snd mret io_ret];
      rewrite IH; cbn [audit set_audit events venueName]; rewrite Hu; by destruct (announce_balances a1 _ _ bs _).
  - rewrite bind_run. cbn [fst snd mret io_ret]. rewrite run_atomic. unfold at_bus. rewrite Ha, bind_run.
    cbn [fst snd mret io_ret]. by rewrite IH, Ha.
Qed.

(** The audit and the answer of a placed order. *)
Lemma run_placed_rest s p req amount price o w :
  deref p o s = o →
  run_prog (Atomic (at_audit (λ s, placed_event (venueName s) req amount price o)) (λ _,
            announce_fills_prog (resp_VenueOrderID o) (or_Pair req) (resp_Fills o)
            (Atomic (λ s, mret (writeJSON StatusOK (BPlaced (order_response (venueName s) (or_Pair req) (deref p o s))), s))
               Done))) s w
  = (s ← announce_placed s req amount price o;
     mret (writeJSON StatusOK (BPlaced (order_response (venueName s) (or_Pair req) o)), s)) w.
Proof.
  intros Hp. rewrite run_atomic, bind_run. unfold at_audit, announce_placed, emit. destruct (audit s) as [a|] eqn:Ha.
  - rewrite !bind_run. destruct (Emit a _ w) as [a1 w1]. cbn [fst snd mret io_ret].
    rewrite run_announce_fills. cbn [audit set_audit events venueName].
    destruct (announce_fills a1 _ _ _ _ _ w1) as [a2 w2]. cbn [fst snd mret io_ret].
    rewrite run_atomic. cbn [fst snd mret io_ret run_prog]. unfold deref in *. cbn [connector set_audit]. by rewrite Hp.
  - rewrite !bind_run. cbn [fst snd mret io_ret]. rewrite run_announce_fills, Ha, run_atomic.
    cbn [fst snd mret io_ret run_prog]. by rewrite Hp.
Qed.

Lemma orders_root_alone r s w : run_prog (orders_root_prog r) s w = handleOrdersRoot s r w.
Proof.
  unfold orders_root_prog, handleOrdersRoot. destruct (check_order r) as [resp|[[req amount] price]]; [done|].
  rewrite run_atomic. unfold at_connector, Venue.PlaceOrder, dummy_connector. rewrite !bind_run.
  destruct (PlaceOrder (connector s) _ w) as [[p d] w1]. cbn [fst snd mret io_ret].
  destruct (heap d !! p) as [o|] eqn:Ho; [|done].
  assert (∀ s', connector s' = d → deref p o s' = o) as Hp by (intros s' Hs; unfold deref; by rewrite Hs, Ho).
  rewrite run_atomic. unfold at_store, record_placed. cbn [store set_connector].
  destruct (store s) as [st|] eqn:Hst.
  - rewrite !bind_run, Hp by done. destruct (Store.RecordOrder st _ w1) as [[x st1] w2]. cbn [fst snd mret io_ret].
    rewrite run_record_fills. cbn [store set_store venueName set_connector]. rewrite bind_run.
    destruct (record_fills st1 _ w2) as [st2 w3]. cbn [fst snd mret io_ret].
    rewrite (run_placed_rest _ p req amount price) by by apply Hp. by rewrite !bind_run.
  - cbn [mret io_ret]. rewrite run_record_fills. cbn [store set_connector]. rewrite Hst. rewrite bind_run.
    rewrite (run_placed_rest _ p req amount price) by by apply Hp. by rewrite !bind_run.
Qed.

Lemma cancel_alone id r s w : run_prog (cancel_prog id r) s w = cancel_order id s r w.
Proof.
  unfold cancel_prog, cancel_order. destruct (negb _); [done|]. rewrite run_atomic. unfold at_connector.
  rewrite !bind_run. unfold Venue.CancelOrder, dummy_connector.
  destruct (CancelOrder _ _ w) as [[[e|] d] w1]; cbn [fst snd mret io_ret]; [done|].
  rewrite run_atomic. unfold at_audit. by rewrite !bind_run.
Qed.

Lemma single_alone h r s w : run_prog (single h r) s w = h s r w.
Proof. unfold single. rewrite run_atomic. by destruct (h s r w) as [[resp s'] w']. Qed.

Lemma order_sub_alone r s w : run_prog (order_sub_prog r) s w = handleOrderSub s r w.
Proof.
  unfold order_sub_prog, handleOrderSub. destruct (splitOrderPath (rq_Path r)) as [id sub].
  destruct (String.eqb id ""); [done|]. destruct (String.eqb sub "cancel"); [apply cancel_alone|].
  destruct (String.eqb sub "fills"); [apply (single_alone (order_fills id))|].
  destruct (_ || _); [apply (single_alone (order_status id))|done].
Qed.

Lemma balances_alone r s w : run_prog (balances_prog r) s w = handleBalances s r w.
Proof.
  unfold balances_prog, handleBalances. destruct (negb _); [done|]. rewrite run_atomic. unfold at_connector.
  rewrite !bind_run. unfold Venue.GetBalances, dummy_connector.
  destruct (GetBalances (connector s) w) as [[[b|e] d] w1]; cbn [fst snd mret io_ret]; [|done].
  rewrite run_atomic, !bind_run. cbn [audit set_connector]. destruct (audit s) as [a|] eqn:Ha.
  - rewrite !bind_run. destruct (range_map b w1) as [entries w2]. cbn [fst snd mret io_ret].
    rewrite run_announce_balances. cbn [audit set_connector events venueName]. rewrite Ha.
    by destruct (announce_balances a _ _ _ w2) as [a' w3].
  - cbn [fst snd mret io_ret]. rewrite run_announce_balances. cbn [audit set_connector]. by rewrite Ha.
Qed.

Lemma rotate_alone r s w : run_prog (rotate_prog r) s w = handleRotateCreds s r w.
Proof.
  unfold rotate_prog, handleRotateCreds. rewrite run_atomic. unfold at_audit. by rewrite !bind_run.
Qed.

Lemma mux_alone r s w : run_prog (mux_prog r) s w = serve_mux s r w.
Proof.
  unfold mux_prog, serve_mux.
  assert (Forall2 (route_related (λ (p : Request → program) (h : Server.handler), ∀ r s w, run_prog (p r) s w = h s r w))
            mux_progs mux) as Hr.
  { repeat constructor; cbn [fst snd]; intros; first
      [apply single_alone|apply orders_root_alone|apply order_sub_alone|apply balances_alone|apply rotate_alone]. }
  pose proof (dispatch_related _ _ _ r Hr) as H. unfold target_related in H.
  destruct (Mux.dispatch mux_progs r) as [p|l|], (Mux.dispatch mux r) as [h|l'|]; try done; first [apply H|by subst].
Qed.

Lemma middleware_alone secret bypass r s w :
  run_prog (middleware_prog secret bypass r) s w = Middleware secret bypass serve_mux s r w.
Proof.
  unfold middleware_prog, Middleware. destruct (_ || _); [apply mux_alone|]. destruct (negb _); [done|].
  destruct (verify _ _) as [claims|e]; [|done]. rewrite run_atomic, !bind_run. cbn [fst snd mret io_ret].
  destruct (_ <? _); [done|apply mux_alone].
Qed.

Lemma routes_alone testing (p : Request → program) h r s w :
  routes_prog testing = Some p → Routes testing = Some h → run_prog (p r) s w = h s r w.
Proof.
  unfold routes_prog, Routes. destruct (SecretFromEnv testing) as [[secret bypass]|]; cbn; [|done].
  intros [= <-] [= <-]. apply middleware_alone.
Qed.
End Sequential.

(** ** The requests in flight *)
Section Pool.
Import Dummy.
Context `{DD : Decimal} `{E : Env}.
Context {K P St : Type} `{!Sink K} `{!Publisher P} `{!Store St} `{!OfMemStore St}.
Abbreviation service := (Service DummyVenueConnector K P St).
Implicit Types (s : service) (ts : list (prog service (Response body))).

(** Meanwhile the goroutine of the book aggregator takes an update. *)
Definition feed_book (upd : BookUpdate) (s : service) : service := with_book (consume_update (book s) upd) s.

(** A request that is not interrupted finishes, and its answer, the service it leaves
    and what it did are those of the handler of Server.v. *)
Theorem uninterrupted_request_is_sequential testing p h r ts s w :
  routes_prog testing = Some p → Routes testing = Some h →
  ∃ n, run_turns p feed_book (Arrive r :: repeat (Run (length ts)) n) ts s w
       = let '((resp, s'), w') := h s r w in ((ts ++ [Done resp], s'), w').
Proof.
  intros Hp Hh. destruct (run_to_end p feed_book (p r) (length ts) (ts ++ [p r]) s w) as [n Hn].
  { apply lookup_middle. }
  exists n. rewrite run_turns_cons. cbn [take_turn mret io_ret]. rewrite Hn, (routes_alone testing p h) by done.
  destruct (h s r w) as [[resp s'] w']. by rewrite insert_app_r_alt, Nat.sub_diag by done.
Qed.
End Pool.

(** ** Witnesses *)
Section Witnesses.
Import Dummy.
#[local] Existing Instances fixed_decimal development_env.

Lemma uninterrupted_request_is_sequential_witness :
  ∃ p h, Routes false = Some h
    ∧ ∃ n, run_turns p feed_book (Arrive demo_post :: repeat (Run 0) n) [] demo_service world0
           = let '((resp, s'), w') := h demo_service demo_post world0 in (([Done resp], s'), w').
Proof.
  eexists _, _. split; [reflexivity|].
  exact (uninterrupted_request_is_sequential false _ _ demo_post [] demo_service world0 eq_refl eq_refl).
Defined.
End Witnesses.
