(* ===== verification/Linearizable.v ===== *)
(** * The answers to concurrent requests are a trace of the order registry

    Every request in flight either has not touched the orders yet, or has taken effect at
    one atomic step, which is logged; the log is a trace of the registry of Registry.v
    and explains every answer. The response of a placement is shared with the connector,
    so an answer may show a cancellation that came before it was written. *)

From S2P Require Export Concurrent.

Section Linearizable.
Import Dummy.
Context `{DD : Decimal} `{E : Env}.
Context {K P St : Type} `{!Sink K} `{!Publisher P} `{!Store St} `{!OfMemStore St}.
Abbreviation service := (Service DummyVenueConnector K P St).
Abbreviation program := (prog service (Response body)).
Implicit Types (s : service) (ts : list program) (r : Request) (d : DummyVenueConnector).

(** ** What the log says *)

(** What took effect, with the number of the request it belongs to. *)
Definition history := list (nat * action).
Implicit Types (L : history).

(** The status an order placed as [o] can have once [L] happened. *)
Definition status_in L (o : OrderResponse) (st : OrderStatus) : Prop :=
  st = resp_Status o
  ∨ st = OrderStatusCanceled ∧ Canceled (resp_VenueOrderID o) ∈ map snd L.

(** The answer to a request that took effect as [a]. *)
Definition shows L (a : action) (resp : Response body) : Prop :=
  match a with
  | Placed o => ∃ st, observe resp = Some (Placed (set_status st o)) ∧ status_in L o st
  | _ => observe resp = Some a
  end.

(** No request takes effect twice, the effects are a trace of the registry, and an answer
    about orders shows the effect of its request. *)
Record linearizes d0 L ts s : Prop := {
  lin_wf : wf (connector s);
  lin_once : NoDup (map fst L);
  lin_arrived : Forall (λ i, (i < length ts)%nat) (map fst L);
  lin_trace : reg_steps (registry_of d0) (map (λ x, Some (snd x)) L) (registry_of (connector s));
  lin_answers : ∀ i resp, ts !! i = Some (Done resp) →
    match observe resp with
    | Some _ => ∃ a, (i, a) ∈ L ∧ shows L a resp
    | None => i ∉ map fst L
    end;
}.

(** ** The state of a request *)

(** The effect of a step: a placement keeps the pointer it got. *)
Inductive effect :=
  | Acts (a : action)
  | Places (p : nat) (o : OrderResponse).
Implicit Types (e : effect).

Definition action_of e : action := match e with Acts a => a | Places _ o => Placed o end.

Definition cancels (a : action) (o : OrderResponse) : Prop := a = Canceled (resp_VenueOrderID o).

(** A step of the registry that leaves every response but a canceled one. *)
Definition takes_effect d e d' : Prop :=
  wf d' ∧ reg_step (registry_of d) (Some (action_of e)) (registry_of d')
  ∧ match e with Places p o => heap d' !! p = Some o | Acts (Placed _) => False | Acts _ => True end
  ∧ ∀ p o, heap d !! p = Some o →
      heap d' !! p = Some o ∨ cancels (action_of e) o ∧ heap d' !! p = Some (set_status OrderStatusCanceled o).

(** The pointer of a placement leads to its order. *)
Definition tracked L d e : Prop :=
  match e with
  | Acts _ => True
  | Places p o => ∃ st, heap d !! p = Some (set_status st o) ∧ status_in L o st
  end.

(** What is left to do after the effect. *)
Fixpoint committed e L (q : program) : Prop :=
  match q with
  | Done resp => shows L (action_of e) resp
  | Atomic f k => ∀ L' s w, L `prefix_of` L' → tracked L' (connector s) e →
      let '((b, s'), _) := f s w in connector s' = connector s ∧ committed e L' (k b)
  end.

(** What is left to do before it. *)
Fixpoint pending (q : program) : Prop :=
  match q with
  | Done resp => observe resp = None
  | Atomic f k => ∀ s w, wf (connector s) →
      let '((b, s'), _) := f s w in
      (connector s' = connector s ∧ pending (k b))
      ∨ ∃ e, takes_effect (connector s) e (connector s') ∧ ∀ L, committed e L (k b)
  end.

(** ** Composition *)

(** A step that leaves the connector alone. *)
Definition quiet {B} (f : service → IO (B * service)) : Prop :=
  ∀ s w, connector (snd (fst (f s w))) = connector s.

Lemma pending_quiet {B} (f : service → IO (B * service)) k :
  quiet f → (∀ b, pending (k b)) → pending (Atomic f k).
Proof. intros Hf Hk s w _. specialize (Hf s w). destruct (f s w) as [[b s'] w']. by left. Qed.

Lemma committed_quiet {B} e L (f : service → IO (B * service)) k :
  quiet f → (∀ L' b, L `prefix_of` L' → committed e L' (k b)) → committed e L (Atomic f k).
Proof.
  intros Hf Hk L' s w HL _. specialize (Hf s w). destruct (f s w) as [[b s'] w']. split; [done|by apply Hk].
Qed.

Lemma quiet_store m : quiet (at_store m).
Proof.
  intros s w. unfold at_store. destruct (store s); [|done]. rewrite bind_run. done.
Qed.

Lemma quiet_audit ev : quiet (at_audit ev).
Proof. intros s w. unfold at_audit. rewrite bind_run. cbn [fst snd mret io_ret]. apply emit_connector. Qed.

Lemma quiet_bus m : quiet (at_bus m).
Proof. intros s w. unfold at_bus. rewrite bind_run. done. Qed.
Create HintDb quiet.
#[local] Hint Resolve quiet_store quiet_audit quiet_bus : quiet.

Lemma status_in_mono L L' o st : L `prefix_of` L' → status_in L o st → status_in L' o st.
Proof.
  intros [t ->] [->|[-> H]]; [by left|right; split; [done|]]. rewrite map_app. apply elem_of_app. by left.
Qed.

Lemma shows_mono L L' a resp : L `prefix_of` L' → shows L a resp → shows L' a resp.
Proof.
  intros HL. destruct a; cbn [shows]; try done. intros (st & Ho & Hs). exists st.
  split; [done|by eapply status_in_mono].
Qed.

Lemma committed_mono e L L' q : L `prefix_of` L' → committed e L q → committed e L' q.
Proof.
  intros HL. destruct q as [resp|B f k]; [by apply shows_mono|].
  intros H L1 s w HL1 Ht. apply H; [by etrans|done].
Qed.

(** Another request's effect leaves the pointer where it leads. *)
Lemma tracked_effect L d e i e' d' :
  tracked L d e → takes_effect d e' d' → tracked (L ++ [(i, action_of e')]) d' e.
Proof.
  destruct e as [a|p o]; [done|]. intros (st & Hp & Hs) (_ & _ & _ & Hheap).
  destruct (Hheap _ _ Hp) as [H|[Hc H]].
  - exists st. split; [done|]. eapply status_in_mono; [|exact Hs]. by eexists.
  - exists OrderStatusCanceled. split; [done|]. right. split; [done|]. rewrite map_app. apply elem_of_app.
    right. apply list_elem_of_singleton. unfold cancels in Hc. cbn in *. by rewrite Hc.
Qed.

Lemma tracked_own L d e i d' : takes_effect d e d' → tracked (L ++ [(i, action_of e)]) d' e.
Proof.
  destruct e as [a|p o]; [done|]. intros (_ & _ & Hp & _). exists (resp_Status o). split; [|by left].
  rewrite Hp. by destruct o.
Qed.

(** ** The handlers *)

Lemma record_fills_committed e L id pair fs k :
  (∀ L', L `prefix_of` L' → committed e L' k) → committed e L (record_fills_prog id pair fs k).
Proof.
  revert L. induction fs as [|f fs IH]; intros L Hk; cbn [record_fills_prog]; [by apply Hk|].
  apply committed_quiet; [auto with quiet|]. intros L' _ HL. apply IH. intros L2 HL2. apply Hk. by etrans.
Qed.

Lemma announce_fills_committed e L id pair fs k :
  (∀ L', L `prefix_of` L' → committed e L' k) → committed e L (announce_fills_prog id pair fs k).
Proof.
  revert L. induction fs as [|f fs IH]; intros L Hk; cbn [announce_fills_prog]; [by apply Hk|].
  apply committed_quiet; [auto with quiet|]. intros L1 _ HL1.
  apply committed_quiet; [auto with quiet|]. intros L2 _ HL2.
  apply IH. intros L3 HL3. apply Hk. do 2 (etrans; [done|]). done.
Qed.

Lemma place_takes_effect d req w :
  wf d → let '((p, d'), _) := PlaceOrder d req w in
  ∃ o, heap d' !! p = Some o ∧ takes_effect d (Places p o) d'.
Proof.
  intros Hwf. destruct (registry_place d req w Hwf) as (o & f & d1 & w1 & Hp & Hwf1 & Hf & Hreg).
  destruct (place_order_eq d req w) as (id & trade & now & _ & Heq). cbv zeta in Heq.
  unfold Venue.PlaceOrder, dummy_connector in Hp. rewrite bind_run in Hp.
  destruct (PlaceOrder d req w) as [[p d2] w2]. cbn [fst snd mret io_ret] in *.
  destruct (heap d2 !! p) as [o'|] eqn:Ho; [|done]. injection Hp as -> -> ->. exists o. split; [done|].
  split; [done|]. split; [cbn [action_of]; rewrite Hreg; by econstructor|]. split; [done|].
  intros q oq Hq. left. injection Heq as -> ->. cbn [heap]. by apply lookup_app_l_Some.
Qed.

Lemma cancel_takes_effect d id w :
  wf d → id ≠ "" → let '((err, d'), _) := CancelOrder d (mkCancelRequest id "") w in
  err = None ∧ takes_effect d (Acts (Canceled id)) d'.
Proof.
  intros Hwf Hid. pose proof (cancel_order_wf d (mkCancelRequest id "") w Hwf) as Hwf1.
  assert (reg_step (registry_of d) (Some (Canceled id))
            (registry_of (snd (fst (CancelOrder d (mkCancelRequest id "") w))))) as Hstep
    by (rewrite registry_cancel by done; constructor).
  revert Hstep Hwf1. unfold CancelOrder. cbn [cancel_VenueOrderID]. rewrite (proj2 (String.eqb_neq _ _) Hid).
  destruct (orders d !! id) as [q|] eqn:Hq; cbn [fst snd mret io_ret]; intros Hstep Hwf1; (split; [done|]);
    (split; [done|]); (split; [done|]); (split; [done|]);
    intros p o Ho; [|by left].
  cbn [heap]. rewrite list_lookup_alter. case_decide as Hp; [|by left]. subst p. right.
  destruct (proj1 Hwf _ _ Hq) as (o' & Ho' & <-). rewrite Ho in Ho' |- *. by injection Ho' as ->.
Qed.

Lemma orders_root_pending r : pending (orders_root_prog r).
Proof.
  unfold orders_root_prog. destruct (check_order r) as [resp|[[req amount] price]] eqn:Hc;
    [by eapply check_order_silent|].
  intros s w Hwf. unfold at_connector. rewrite !bind_run.
  pose proof (place_takes_effect (connector s) (venue_request req amount price) w Hwf) as Hp.
  destruct (PlaceOrder _ _ w) as [[p d] w1]. cbn [fst snd mret io_ret connector set_connector] in *.
  destruct Hp as (o & Ho & Heff). rewrite Ho. right. exists (Places p o). split; [done|]. intros L.
  apply committed_quiet; [auto with quiet|]. intros L1 _ _. apply record_fills_committed. intros L2 _.
  apply committed_quiet; [auto with quiet|]. intros L3 _ _. apply announce_fills_committed. intros L4 _.
  intros L5 s' w' _ (st & Hd & Hst). cbn [mret io_ret]. split; [done|]. exists st. split; [|done].
  unfold deref. by rewrite Hd.
Qed.

Lemma cancel_pending id r : id ≠ "" → pending (cancel_prog id r).
Proof.
  intros Hid. unfold cancel_prog. destruct (negb _); [done|]. intros s w Hwf. unfold at_connector. rewrite bind_run.
  pose proof (cancel_takes_effect (connector s) id w Hwf Hid) as Hc.
  destruct (CancelOrder _ _ w) as [[err d] w1]. cbn [fst snd mret io_ret connector set_connector] in *.
  destruct Hc as [-> Heff]. right. exists (Acts (Canceled id)). split; [done|]. intros L.
  apply committed_quiet; [auto with quiet|]. intros L1 _ _. apply observe_canceled.
Qed.

Lemma report_pending id r : pending (Atomic (λ s, order_status id s r) Done).
Proof.
  intros s w Hwf. unfold order_status. destruct (negb _); [by left|]. rewrite bind_run.
  unfold Venue.GetOrder, dummy_connector, GetOrder.
  destruct (orders (connector s) !! id) as [p|] eqn:Hp; cbn; [|by left].
  destruct (proj1 Hwf _ _ Hp) as (o & Ho & Hoid). rewrite Ho. cbn. right. exists (Acts (Reported o)).
  split; [|done]. split; [done|]. split; [|by split; [|left]]. constructor. cbn [reg_orders registry_of].
  by rewrite lookup_omap, Hoid, Hp.
Qed.

Lemma list_pending id r : id ≠ "" → pending (Atomic (λ s, order_fills id s r) Done).
Proof.
  intros Hid s w Hwf. unfold order_fills. destruct (negb _); [by left|]. rewrite bind_run.
  unfold Venue.GetFills, dummy_connector, GetFills. cbn [fst snd mret io_ret].
  rewrite matches_order by done. cbn [query_Limit connector set_connector]. right.
  eexists (Acts (Listed id _)). split; [|by intros L]. split; [done|]. split; [constructor|]. by split; [|left].
Qed.

Lemma order_sub_pending r : pending (order_sub_prog r).
Proof.
  unfold order_sub_prog. destruct (splitOrderPath (rq_Path r)) as [id sub].
  destruct (String.eqb_spec id "") as [|Hid]; [done|]. destruct (String.eqb sub "cancel"); [by apply cancel_pending|].
  destruct (String.eqb sub "fills"); [by apply list_pending|]. destruct (_ || _); [apply report_pending|done].
Qed.

Lemma announce_balances_pending bs k : pending k → pending (announce_balances_prog bs k).
Proof.
  intros Hk. induction bs as [|b bs IH]; cbn [announce_balances_prog]; [done|].
  do 2 (apply pending_quiet; [auto with quiet|intros _]). exact IH.
Qed.

Lemma balances_pending r : pending (balances_prog r).
Proof.
  unfold balances_prog. destruct (negb _); [done|]. apply pending_quiet; [done|].
  intros [b|e]; [|done]. apply pending_quiet; [|intros bs; by apply announce_balances_pending].
  intros s w. destruct (audit s); [by rewrite bind_run|done].
Qed.

Lemma rotate_pending r : pending (rotate_prog r).
Proof. apply pending_quiet; [auto with quiet|done]. Qed.

(** A handler that says nothing about orders. *)
Lemma single_pending h r :
  (∀ s w, let '((resp, s'), _) := h s r w in connector s' = connector s ∧ observe resp = None) →
  pending (single h r).
Proof. intros H s w _. specialize (H s w). destruct (h s r w) as [[resp s'] w']. by left. Qed.

Lemma mux_pending r : pending (mux_prog r).
Proof.
  unfold mux_prog. destruct (Mux.dispatch mux_progs r) as [p|loc|] eqn:Hd; [|done..].
  apply serve_found in Hd as (pat & Hin & _). unfold mux_progs in Hin.
  rewrite list_elem_of_In in Hin. cbn [List.In] in Hin.
  repeat destruct Hin as [[= <- <-]|Hin]; try done.
  - by apply single_pending.
  - apply single_pending. intros s w. unfold handleReadyz. by destruct (ready s).
  - by apply single_pending.
  - apply rotate_pending.
  - apply orders_root_pending.
  - apply order_sub_pending.
  - apply balances_pending.
  - apply single_pending. intros s w. unfold handleBook. destruct (negb _); [done|].
    destruct (String.eqb _ _); [done|]. by destruct (Get _ _).
Qed.

Lemma routes_pending testing p r : routes_prog testing = Some p → pending (p r).
Proof.
  unfold routes_prog. destruct (SecretFromEnv testing) as [[secret bypass]|]; cbn; [|done]. intros [= <-].
  unfold middleware_prog. destruct (_ || _); [apply mux_pending|]. destruct (negb _); [done|].
  destruct (verify _ _) as [claims|e]; [|done]. apply pending_quiet; [done|]. intros now.
  destruct (_ <? _); [done|apply mux_pending].
Qed.

(** ** Any interleaving *)

Lemma reg_steps_snoc g acts a g1 g2 :
  reg_steps g acts g1 → reg_step g1 a g2 → reg_steps g (acts ++ [a]) g2.
Proof.
  induction 1 as [g|g b g3 acts g4 Hs _ IH]; intros H; cbn [app].
  - econstructor; [done|constructor].
  - econstructor; [done|by apply IH].
Qed.

(** A request in flight is before its effect or after it. *)
Definition explains L s (i : nat) (q : program) : Prop :=
  (i ∉ map fst L ∧ pending q)
  ∨ ∃ e, (i, action_of e) ∈ L ∧ tracked L (connector s) e ∧ committed e L q.

Record explained d0 L ts s : Prop := {
  exp_wf : wf (connector s);
  exp_once : NoDup (map fst L);
  exp_arrived : Forall (λ i, (i < length ts)%nat) (map fst L);
  exp_trace : reg_steps (registry_of d0) (map (λ x, Some (snd x)) L) (registry_of (connector s));
  exp_threads : ∀ i q, ts !! i = Some q → explains L s i q;
}.

Lemma explained_linearizes d0 L ts s : explained d0 L ts s → linearizes d0 L ts s.
Proof.
  intros [Hwf Hn Ha Ht He]. split; [done..|]. intros i resp Hi.
  destruct (He i _ Hi) as [[Hout Hq]|(e & Hin & _ & Hq)]; cbn [pending committed] in Hq; [by rewrite Hq|].
  assert (is_Some (observe resp)) as [a ->]; [|by exists (action_of e)].
  destruct (action_of e); cbn [shows] in Hq; [destruct Hq as (st & -> & _); by eexists|by rewrite Hq..].
Qed.

(** Steps that leave the connector alone. *)
Lemma explained_quiet d0 L ts ts' s s' :
  explained d0 L ts s → connector s' = connector s → (length ts ≤ length ts')%nat →
  (∀ i q, ts' !! i = Some q → ts !! i = Some q ∨ explains L s i q) →
  explained d0 L ts' s'.
Proof.
  intros [Hwf Hn Ha Ht He] Hc Hl Hts. split; rewrite ?Hc; try done.
  - eapply Forall_impl; [exact Ha|]. cbn. lia.
  - intros i q Hi. assert (explains L s i q) as H by (destruct (Hts i q Hi); [by apply He|done]).
    unfold explains. by rewrite Hc.
Qed.

Lemma explained_arrive d0 L ts s q : explained d0 L ts s → pending q → explained d0 L (ts ++ [q]) s.
Proof.
  intros H Hq. apply (explained_quiet d0 L ts _ s); [done|done|rewrite length_app; lia|].
  intros i q' [Hi|[Hl Hi]]%lookup_app_Some; [by left|].
  destruct (i - length ts)%nat eqn:Hd; [|done]. cbn in Hi. injection Hi as <-. right. left. split; [|done].
  intros Hin. pose proof (proj1 (Forall_forall _ _) (exp_arrived _ _ _ _ H) i Hin). cbn in *. lia.
Qed.

Lemma explained_effect d0 L ts s s' i e q :
  explained d0 L ts s → (i < length ts)%nat → i ∉ map fst L → takes_effect (connector s) e (connector s') →
  (∀ L', committed e L' q) → explained d0 (L ++ [(i, action_of e)]) (<[i := q]> ts) s'.
Proof.
  intros [Hwf Hn Ha Ht He] Hi Hout Heff Hq. split.
  - by destruct Heff.
  - rewrite map_app. apply NoDup_app. split_and!; [done| |apply NoDup_singleton].
    intros j Hj ->%list_elem_of_singleton. done.
  - rewrite map_app, length_insert. apply Forall_app. split; [done|]. by constructor.
  - rewrite map_app. eapply reg_steps_snoc; [done|]. by destruct Heff as (_ & ? & _).
  - intros j q'. rewrite list_lookup_insert. case_decide as Hj.
    + destruct Hj as [<- _]. intros [= <-]. right. exists e. split_and!; [|by eapply tracked_own|done].
      apply elem_of_app. right. by apply list_elem_of_singleton.
    + intros Hq'. destruct (He j q' Hq') as [[Hjo Hp]|(e' & Hin & Htr & Hc)].
      * left. split; [|done]. rewrite map_app. intros [Hx|Hx%list_elem_of_singleton]%elem_of_app; [done|].
        cbn in Hx. subst j. by apply Hj.
      * right. exists e'. split_and!; [apply elem_of_app; by left|by eapply tracked_effect|].
        eapply committed_mono; [|done]. by eexists.
Qed.

Lemma take_turn_explained d0 L p t ts s w :
  (∀ r, pending (p r)) → explained d0 L ts s →
  let '((ts', s'), _) := take_turn p feed_book t ts s w in
  ∃ L', L `prefix_of` L' ∧ explained d0 L' ts' s'.
Proof.
  intros Hp H. destruct t as [r|i|upd].
  - exists L. split; [done|]. by apply explained_arrive.
  - destruct (ts !! i) as [q|] eqn:Hi; [|cbn [take_turn]; rewrite Hi; by exists L].
    rewrite (take_run _ _ _ _ _ _ _ Hi). assert (i < length ts)%nat as Hl by (by eapply lookup_lt_Some).
    pose proof (exp_threads _ _ _ _ H i q Hi) as He. destruct q as [resp|B f k].
    { cbn. exists L. by rewrite list_insert_id. }
    rewrite step_atomic. destruct He as [[Hout Hq]|(e & Hin & Htr & Hq)]; cbn [pending committed] in Hq.
    + specialize (Hq s w (exp_wf _ _ _ _ H)). destruct (f s w) as [[b s1] w1].
      destruct Hq as [[Hc Hk]|(e & Heff & Hk)]; [|exists (L ++ [(i, action_of e)]); split; [by eexists|by eapply explained_effect]].
      exists L. split; [done|]. apply (explained_quiet d0 L ts _ s); [done|done|by rewrite length_insert|].
      intros j q'. rewrite list_lookup_insert. case_decide as Hj; [|by left].
      destruct Hj as [<- _]. intros [= <-]. right. by left.
    + specialize (Hq L s w ltac:(done) Htr). destruct (f s w) as [[b s1] w1]. destruct Hq as [Hc Hk].
      exists L. split; [done|]. apply (explained_quiet d0 L ts _ s); [done|done|by rewrite length_insert|].
      intros j q'. rewrite list_lookup_insert. case_decide as Hj; [|by left].
      destruct Hj as [<- _]. intros [= <-]. right. right. by exists e.
  - exists L. split; [done|]. apply (explained_quiet d0 L ts _ s); [done|done|done|by left].
Qed.

Lemma run_turns_explained d0 p turns L ts s w :
  (∀ r, pending (p r)) → explained d0 L ts s →
  let '((ts', s'), _) := run_turns p feed_book turns ts s w in
  ∃ L', L `prefix_of` L' ∧ explained d0 L' ts' s'.
Proof.
  intros Hp. revert L ts s w. induction turns as [|t turns IH]; intros L ts s w H; [by exists L|].
  rewrite run_turns_cons. pose proof (take_turn_explained d0 L p t ts s w Hp H) as H1.
  destruct (take_turn p feed_book t ts s w) as [[ts1 s1] w1]. destruct H1 as (L1 & HL1 & H1).
  specialize (IH L1 ts1 s1 w1 H1). destruct (run_turns p feed_book turns ts1 s1 w1) as [[ts2 s2] w2].
  destruct IH as (L2 & HL2 & H2). exists L2. split; [by etrans|done].
Qed.

Lemma explained_new d s : wf d → connector s = d → explained d [] [] s.
Proof. intros Hwf Hs. split; rewrite ?Hs; [done|constructor..|done]. Qed.

End Linearizable.

(** C5: Concurrent requests over the dummy connector linearize: however the atomic steps
    of the requests in flight interleave, with requests arriving at any time, each
    request takes effect on the orders at most once, at an instant between its
    arrival and its end; the effects in their order are a trace of the abstract
    order registry; and an answer shows the effect of its request, except that a
    placement may be answered with the status of a cancellation that took effect
    before the answer. At a later time the earlier history is a prefix of the
    history. *)
Theorem concurrent_requests_linearize `{DD : Decimal} `{E : Env} {K P St : Type} `{!Sink K} `{!Publisher P}
    `{!Store St} `{!OfMemStore St} testing p before after (s : Service Dummy.DummyVenueConnector K P St) w :
  routes_prog testing = Some p → Dummy.wf (connector s) →
  let '((ts1, s1), w1) := run_turns p feed_book before [] s w in
  let '((ts2, s2), _) := run_turns p feed_book after ts1 s1 w1 in
  ∃ L1 L2, linearizes (connector s) L1 ts1 s1 ∧ linearizes (connector s) (L1 ++ L2) ts2 s2.
Proof.
  intros Hr Hwf. assert (∀ r, pending (p r)) as Hp by (intros r; by eapply routes_pending).
  pose proof (run_turns_explained (connector s) p before [] [] s w Hp (explained_new _ s Hwf eq_refl)) as H1.
  destruct (run_turns p feed_book before [] s w) as [[ts1 s1] w1]. destruct H1 as (L1 & _ & H1).
  pose proof (run_turns_explained (connector s) p after L1 ts1 s1 w1 Hp H1) as H2.
  destruct (run_turns p feed_book after ts1 s1 w1) as [[ts2 s2] w2]. destruct H2 as (L2 & [M ->] & H2).
  exists L1, M. split; by apply explained_linearizes.
Qed.

(** ** Witnesses *)
Section Witnesses.
Import Dummy.
#[local] Existing Instances fixed_decimal development_env.

Definition demo_cancel : Request :=
  mkRequest "POST" "/v1/orders/uuid-0/cancel" "/v1/orders/uuid-0/cancel" (λ _, "") (λ _, "") "".

(** The order is canceled between its placement and the answer to it. *)
Definition demo_before : list (turn Request BookUpdate) := [Arrive demo_post; Run 0].
Definition demo_after : list (turn Request BookUpdate) := Arrive demo_cancel :: repeat (Run 1) 2 ++ repeat (Run 0) 6.

(** What the requests in flight have answered. *)
Definition answers {S : Type} (ts : list (prog S (Response body))) : list (option action) :=
  omap (λ q, match q with Done resp => Some (observe resp) | Atomic _ _ => None end) ts.

Definition canceled_at_once (l : list (option action)) : bool :=
  match l with
  | [Some (Placed o); Some (Canceled id)] =>
      String.eqb id (resp_VenueOrderID o) && bool_decide (resp_Status o = OrderStatusCanceled)
  | _ => false
  end.

(** A placement can be answered as canceled, when a cancellation of its order runs
    between the call of the connector and the answer. *)
Theorem placement_answer_shows_cancellation :
  match routes_prog (K := InMemory.InMemorySink) (P := option KafkaPublisher) (St := MemStore.MemStore) false with
  | None => False
  | Some p =>
      let '((ts, s), _) := run_turns p feed_book (demo_before ++ demo_after) [] demo_service world0 in
      ∃ o, answers ts = [Some (Placed o); Some (Canceled (resp_VenueOrderID o))]
        ∧ resp_Status o = OrderStatusCanceled
  end.
Proof.
  assert (match routes_prog (K := InMemory.InMemorySink) (P := option KafkaPublisher) (St := MemStore.MemStore) false with
          | None => false
          | Some p => canceled_at_once (answers (fst (fst (run_turns p feed_book (demo_before ++ demo_after) [] demo_service world0))))
          end = true) as H by (vm_compute; reflexivity).
  destruct (routes_prog false) as [p|]; [|discriminate H].
  destruct (run_turns p feed_book _ [] demo_service world0) as [[ts s] w]. cbn [fst] in H. unfold canceled_at_once in H.
  destruct (answers ts) as [|[[o| | |]|] [|[[|id| |]|] [|? ?]]]; try discriminate H.
  apply andb_prop in H as [->%String.eqb_eq H%bool_decide_eq_true]. by exists o.
Qed.

Lemma concurrent_requests_linearize_witness :
  ∃ p, routes_prog (K := InMemory.InMemorySink) (P := option KafkaPublisher) (St := MemStore.MemStore) false = Some p
    ∧ let '((ts1, s1), w1) := run_turns p feed_book demo_before [] demo_service world0 in
      let '((ts2, s2), _) := run_turns p feed_book demo_after ts1 s1 w1 in
      ∃ L1 L2, linearizes (connector demo_service) L1 ts1 s1 ∧ linearizes (connector demo_service) (L1 ++ L2) ts2 s2.
Proof.
  eexists. split; [reflexivity|].
  exact (concurrent_requests_linearize false _ demo_before demo_after demo_service world0 eq_refl
           (Dummy.dummy_wf_new (E := server_env))).
Defined.
End Witnesses.
