(* ===== verification/KrakenConcurrent.v ===== *)
(** * Private requests to Kraken that run at the same time

    [doPrivate] and [do] as programs of atomic steps: the nonce is one atomic addition,
    the limiter is called under its lock, and the request is sent after both. Requests in
    flight never share a nonce, but they may reach Kraken in another order than their
    nonces. *)

From S2P Require Export Programs Kraken.

Section KrakenPrograms.
Import Counter Kraken.
Context `{DD : Decimal} `{E : Env}.
Abbreviation program := (prog Connector (result raw_message)).
Implicit Types (c : Connector) (q : program).

(** ** The programs *)

(** [do] once the body of a response is read. *)
Definition read_body (status : Z) (body : string) : result raw_message :=
  if 400 <=? status then Fail ("kraken: status " +:+ FormatInt status +:+ " body " +:+ body) else
  let '(env, ok) := unmarshal decode_envelope body (mkEnvelope [] None) in
  if negb ok then Fail ("kraken: bad json: " +:+ env_json_error body)
  else match Error env with
  | _ :: _ => Fail ("kraken: " +:+ Join (Error env) "; ")
  | [] => Ok (Result env)
  end.

Definition do_prog (req : http_request) (cost : Z) : program :=
  Atomic (λ c, '(err, l) ← limiter_wait (limiter c) cost; mret (err, set_limiter l c)) (λ err,
  match err with
  | Some e => Done (Fail e)
  | None =>
      Atomic (λ c, o ← http_do req; mret (o, c)) (λ o,
      match o with
      | HTTPErr e | HTTPBodyErr _ _ e => Done (Fail e)
      | HTTPResp status _ body =>
          if (status =? 429) || (status =? 418) then
            Atomic (λ c, l ← Backoff (limiter c) "kraken" (30 * Second); mret (tt, set_limiter l c)) (λ _,
            Done (Fail (rate_limited "kraken" status)))
          else Done (read_body status body)
      end)
  end).

(** A private request: path, parameters and cost. *)
Definition private_call : Type := string * gmap string string * Z.

Definition doPrivate_prog (x : private_call) : program :=
  let '(path, params, cost) := x in
  Atomic (λ c, let '(n, c) := nextNonce c in mret (private_request c path params n, c)) (λ req,
  match env_new_request "POST" (hr_url req) with
  | Some e => Done (Fail e)
  | None => do_prog req cost
  end).

(** Nothing else uses the connector. *)
Definition nothing_else (x : Empty_set) (c : Connector) : Connector := match x with end.

(** ** Without interruption a program is its function *)

Lemma do_alone req cost c w : run_prog (do_prog req cost) c w = do c req cost w.
Proof.
  unfold do_prog, do, exchange_once. rewrite run_atomic, !bind_run.
  destruct (limiter_wait (limiter c) cost w) as [[[e|] l] w1]; cbn [fst snd mret io_ret]; [done|].
  rewrite run_atomic, !bind_run. destruct (http_do req w1) as [o w2]. cbn [fst snd mret io_ret].
  destruct o as [e|st h e|status headers body]; [done..|]. destruct (_ || _).
  - rewrite run_atomic, !bind_run. cbn [limiter set_limiter]. by destruct (Backoff l _ _ w2).
  - cbn [run_prog]. unfold read_body. destruct (400 <=? status); [done|].
    destruct (unmarshal _ body _) as [env []]; cbn [negb]; [|done]. by destruct (Error env).
Qed.

Lemma doPrivate_alone path params cost c w :
  run_prog (doPrivate_prog (path, params, cost)) c w = doPrivate c path params cost w.
Proof.
  cbn [doPrivate_prog]. rewrite run_atomic. unfold doPrivate. destruct (nextNonce c) as [n c1]. cbn [mret io_ret].
  destruct (env_new_request _ _); [done|]. apply do_alone.
Qed.




Lemma http_do_events req w : http_events (snd (http_do req w)) = http_events w ++ [EvHTTP req].
Proof. rewrite http_do_run. unfold http_events. cbn. by rewrite List.filter_app. Qed.


(** ** Any interleaving *)

(** The event of sending a private request with a nonce. *)
Definition sent_by c (e : private_call * Z) : event :=
  let '((path, params, _), n) := e in sent_event c (path, params, n).

(** What was sent: the number of the goroutine, its request and the nonce. *)
Definition sending := list (nat * (private_call * Z)).
Implicit Types (log : sending) (held : gmap nat Z).


Abbreviation turns_of := (list (turn private_call Empty_set)).
Implicit Types (turns : turns_of).












End KrakenPrograms.

(** ** Properties *)
Section KrakenConcurrency.
Import Counter Kraken.
Context `{DD : Decimal} `{E : Env}.


(** Two requests of which the second overtakes the first between the nonce and the limiter. *)
Definition overtaking (x1 x2 : private_call) : list (turn private_call Empty_set) :=
  [Arrive x1; Arrive x2; Run 0; Run 1; Run 1; Run 1; Run 0; Run 0].

(** The limiter of [c] admits the two, one after the other. *)
Definition admits_both (c : Connector) (x1 x2 : private_call) (w : World) : Prop :=
  let '((e2, l2), w2) := limiter_wait (limiter c) (snd x2) w in
  let sent := private_request c (fst (fst x2)) (snd (fst x2)) (FormatInt (nonce c + 2)) in
  e2 = None ∧ fst (fst (limiter_wait l2 (snd x1) (snd (http_do sent w2)))) = None.

(** One step of the goroutine whose turn it is. *)
Ltac next_run :=
  rewrite run_turns_cons; erewrite take_run by reflexivity; cbn [doPrivate_prog]; rewrite step_atomic;
  cbn [insert list_insert].

(** C32: Two private calls of the Kraken connector in flight can send their requests in
    the reverse order of their nonces, whenever the limiter admits both: the nonce
    is drawn before the limiter is asked and nothing orders the requests after it. *)
Theorem kraken_nonces_overtake (c : Connector) x1 x2 w :
  0 ≤ nonce c → nonce c + 2 ≤ uint64_max → (∀ m url, env_new_request m url = None) → admits_both c x1 x2 w →
  let '((_, c'), w') := run_turns doPrivate_prog nothing_else (overtaking x1 x2) [] c w in
  http_events w' = http_events w ++ [sent_by c (x2, nonce c + 2); sent_by c (x1, nonce c + 1)].
Proof.
  destruct x1 as [[p1 ps1] cost1], x2 as [[p2 ps2] cost2]. unfold uint64_max, admits_both. intros H0 Hb Hreq Had.
  cbn [fst snd] in Had. unfold overtaking.
  do 2 (rewrite run_turns_cons; cbn [take_turn app mret io_ret]).
  do 2 (next_run; cbn [nextNonce mret io_ret cfg apiKey apiSecret limiter nonce]; rewrite Hreq).
  unfold uwrap64. rewrite !Z.mod_small by (rewrite ?Z.mod_small; lia).
  rewrite (private_request_identity c _ p1 ps1), (private_request_identity c _ p2 ps2) by done.
  replace (nonce c + 1 + 1) with (nonce c + 2) by lia. unfold do_prog.
  next_run. rewrite bind_run. cbn [limiter].
  pose proof (wait_no_http (limiter c) cost2 w) as Hw2.
  destruct (limiter_wait (limiter c) cost2 w) as [[e2 l2] w2]. cbn [fst snd mret io_ret] in *. destruct Had as [-> Had].
  next_run. rewrite bind_run. cbn [fst snd mret io_ret].
  set (req2 := private_request c p2 ps2 _) in *. pose proof (http_do_events req2 w2) as Hs2.
  destruct (http_do req2 w2) as [o2 w3]. cbn [fst snd] in *.
  next_run. rewrite bind_run. cbn [limiter set_limiter]. pose proof (wait_no_http l2 cost1 w3) as Hw1.
  destruct (limiter_wait l2 cost1 w3) as [[e1 l1] w4]. cbn [fst snd mret io_ret] in *. rewrite Had.
  next_run. rewrite bind_run. set (req1 := private_request c p1 ps1 _). pose proof (http_do_events req1 w4) as Hs1.
  destruct (http_do req1 w4) as [o1 w5]. cbn [fst snd mret io_ret run_turns] in *.
  by rewrite Hs1, Hw1, Hs2, Hw2, <- app_assoc.
Qed.
End KrakenConcurrency.

(** ** Witnesses *)
Section Witnesses.
Import Counter Kraken.
#[local] Existing Instances fixed_decimal signed_env.

Definition demo_balance : private_call := ("/0/private/Balance", ∅, 2).
Definition demo_cancel_all : private_call := ("/0/private/CancelAll", ∅, 6).


Lemma kraken_nonces_overtake_witness :
  let '((_, _), w') := run_turns doPrivate_prog nothing_else (overtaking demo_balance demo_cancel_all) [] demo_kraken world0 in
  http_events w' = [sent_by demo_kraken (demo_cancel_all, 7); sent_by demo_kraken (demo_balance, 6)].
Proof.
  apply (kraken_nonces_overtake demo_kraken demo_balance demo_cancel_all world0);
    [vm_compute; discriminate|vm_compute; discriminate|reflexivity|vm_compute; split; reflexivity].
Defined.
End Witnesses.
