(* ===== verification/MetricsFacts.v ===== *)
(** * Every update of a metric is well labelled

    [WithLabelValues] panics for a wrong number of values (and for values that are not
    UTF-8, which are not looked at here). The operations of every
    component, and with them any sequence of requests to a gateway, its start and its
    WebSocket client, update only collectors that internal/metrics declares, with one
    value for each label and an operation of the collector's kind. *)

From S2P Require Export Metrics Gateway BookFeed WsClient.

Abbreviation labelled := (emits well_labelled).

(** ** What the components promise to the service *)
Section Interfaces.
Context `{DD : Decimal}.

Class LabelledConnector (C : Type) `{!VenueConnector C} : Prop := {
  labelled_place : ∀ (c : C) req, labelled (PlaceOrder c req);
  labelled_cancel : ∀ (c : C) req, labelled (CancelOrder c req);
  labelled_get : ∀ (c : C) id, labelled (GetOrder c id);
  labelled_fills : ∀ (c : C) q, labelled (GetFills c q);
  labelled_balances : ∀ (c : C), labelled (GetBalances c);
  labelled_subscribe : ∀ (c : C) pairs, labelled (SubscribeBook c pairs);
}.

Class LabelledSink (K : Type) `{!Sink K} : Prop := labelled_emit : ∀ (k : K) e, labelled (Emit k e).

Class LabelledPublisher (P : Type) `{!Publisher P} : Prop :=
  labelled_publish : ∀ (p : P) subject data, labelled (Publish p subject data).

Class LabelledStore (St : Type) `{!Store St} : Prop := {
  labelled_record_order : ∀ (s : St) o, labelled (Store.RecordOrder s o);
  labelled_record_fill : ∀ (s : St) f, labelled (Store.RecordFill s f);
}.

Class LabelledLimiter (L : Type) `{!Limiter L} : Prop := {
  labelled_wait : ∀ (l : L) c, labelled (limiter_wait l c);
  labelled_backoff : ∀ (l : L) v d, labelled (limiter_backoff l v d);
}.
End Interfaces.

#[export] Hint Resolve labelled_place labelled_cancel labelled_get labelled_fills labelled_balances
  labelled_subscribe labelled_emit labelled_publish labelled_record_order labelled_record_fill
  labelled_wait labelled_backoff : emits.
#[export] Hint Extern 2 (LabelledConnector _) => apply _ : emits.
#[export] Hint Extern 2 (LabelledSink _) => apply _ : emits.
#[export] Hint Extern 2 (LabelledPublisher _) => apply _ : emits.
#[export] Hint Extern 2 (LabelledStore _) => apply _ : emits.
#[export] Hint Extern 2 (LabelledLimiter _) => apply _ : emits.

(** ** Limiters *)
Section Limiters.
Context `{E : Env}.

#[export] Instance labelled_weighted : LabelledLimiter Weighted.WeightedLimiter.
Proof.
  split; intros; cbn.
  - unfold Weighted.Wait, Weighted.replenishLocked, Weighted.backing_off. solve_emits.
  - unfold Weighted.Backoff. solve_emits.
Qed.

#[export] Instance labelled_counter : LabelledLimiter Counter.CounterLimiter.
Proof.
  split; intros; cbn.
  - unfold Counter.Wait, Counter.decayLocked, Counter.backing_off. solve_emits.
  - unfold Counter.Backoff. solve_emits.
Qed.

#[export] Instance labelled_rps : LabelledLimiter RPS.RPSLimiter.
Proof.
  split; intros; cbn.
  - unfold RPS.Wait. solve_emits.
  - unfold RPS.Backoff. solve_emits.
Qed.

Lemma labelled_weighted_backoff l v d : labelled (Weighted.Backoff l v d).
Proof. exact (labelled_backoff l v d). Qed.

Lemma labelled_counter_backoff l v d : labelled (Counter.Backoff l v d).
Proof. exact (labelled_backoff l v d). Qed.

Lemma labelled_rps_backoff l v d : labelled (RPS.Backoff l v d).
Proof. exact (labelled_backoff l v d). Qed.

Lemma labelled_exchange {L} `{!Limiter L} `{!LabelledLimiter L} (l : L) cost req :
  labelled (exchange_once l cost req).
Proof. unfold exchange_once. solve_emits. Qed.

Lemma labelled_sync l h : labelled (Binance.sync_used l h).
Proof. unfold Binance.sync_used, Weighted.UpdateUsed. solve_emits. Qed.
End Limiters.
#[export] Hint Resolve labelled_exchange labelled_sync labelled_weighted_backoff labelled_counter_backoff
  labelled_rps_backoff : emits.

(** ** Connectors *)
Section Connectors.
Context `{DD : Decimal} `{E : Env}.

Lemma labelled_binance_signed c m p params weight : labelled (Binance.doSigned c m p params weight).
Proof. unfold Binance.doSigned, Binance.do. solve_emits. Qed.
#[local] Hint Resolve labelled_binance_signed : emits.

Lemma labelled_binance_fills id fs : labelled (Binance.map_fills id fs).
Proof. induction fs; cbn [Binance.map_fills]; solve_emits. Qed.
#[local] Hint Resolve labelled_binance_fills : emits.

Lemma labelled_binance_order r : labelled (Binance.mapOrder r).
Proof. unfold Binance.mapOrder. solve_emits. Qed.
#[local] Hint Resolve labelled_binance_order : emits.

#[export] Instance labelled_binance : LabelledConnector Binance.Connector.
Proof.
  split; intros; unfold PlaceOrder, CancelOrder, GetOrder, GetFills, GetBalances, SubscribeBook, Binance.binance_connector.
  - unfold Binance.PlaceOrder. solve_emits.
  - unfold Binance.CancelOrder. solve_emits.
  - unfold Binance.GetOrder. solve_emits.
  - unfold Binance.GetFills. solve_emits.
  - unfold Binance.GetBalances. solve_emits.
  - solve_emits.
Qed.

Lemma labelled_kraken_private c p params cost : labelled (Kraken.doPrivate c p params cost).
Proof. unfold Kraken.doPrivate, Kraken.do. solve_emits. Qed.
#[local] Hint Resolve labelled_kraken_private : emits.

#[export] Instance labelled_kraken : LabelledConnector Kraken.Connector.
Proof.
  split; intros; unfold PlaceOrder, CancelOrder, GetOrder, GetFills, GetBalances, SubscribeBook, Kraken.kraken_connector.
  - unfold Kraken.PlaceOrder. solve_emits.
  - unfold Kraken.CancelOrder. solve_emits.
  - unfold Kraken.GetOrder. solve_emits.
  - unfold Kraken.GetFills. solve_emits.
  - unfold Kraken.GetBalances. solve_emits.
  - solve_emits.
Qed.

Lemma labelled_otc_do c m p payload : labelled (Otc.do c m p payload).
Proof. unfold Otc.do, Otc.guarded_exchange. solve_emits. Qed.
#[local] Hint Resolve labelled_otc_do : emits.

#[export] Instance labelled_otc : LabelledConnector Otc.Connector.
Proof.
  split; intros; unfold PlaceOrder, CancelOrder, GetOrder, GetFills, GetBalances, SubscribeBook, Otc.otc_connector.
  - unfold Otc.PlaceOrder. solve_emits.
  - unfold Otc.CancelOrder. solve_emits.
  - unfold Otc.GetOrder. solve_emits.
  - unfold Otc.GetFills. solve_emits.
  - unfold Otc.GetBalances. solve_emits.
  - solve_emits.
Qed.

#[export] Instance labelled_dummy : LabelledConnector Dummy.DummyVenueConnector.
Proof.
  split; intros; unfold PlaceOrder, CancelOrder, GetOrder, GetFills, GetBalances, SubscribeBook, Dummy.dummy_connector.
  - unfold Dummy.PlaceOrder. solve_emits.
  - unfold Dummy.CancelOrder. solve_emits.
  - unfold Dummy.GetOrder. solve_emits.
  - unfold Dummy.GetFills. solve_emits.
  - unfold Dummy.GetBalances. solve_emits.
  - solve_emits.
Qed.

Lemma labelled_lift {A C B : Type} (inj : C → B) (m : IO (A * C)) : labelled m → labelled (lift inj m).
Proof. intros H. unfold lift. solve_emits. Qed.

#[export] Instance labelled_any_connector : LabelledConnector AnyConnector.
Proof. split; intros [c|c|c|c]; intros; cbn [PlaceOrder CancelOrder GetOrder GetFills GetBalances SubscribeBook any_connector]; apply labelled_lift; eauto with emits. Qed.

(** ** Sinks, publishers and stores *)

Lemma labelled_stamped e : labelled (stamped e).
Proof. unfold stamped. solve_emits. Qed.
#[local] Hint Resolve labelled_stamped : emits.

#[export] Instance labelled_kafka_sink : LabelledSink Kafka.KafkaSink.
Proof. intros k e. cbn. unfold Emit, Kafka.kafka_sink, Kafka.Emit. solve_emits. Qed.

#[export] Instance labelled_grpc_sink : LabelledSink Logging.gRPCClient.
Proof. intros k e. unfold Emit, Logging.grpc_sink, Logging.gRPC_Emit. solve_emits. Qed.

#[export] Instance labelled_log_sink : LabelledSink Logging.logSink.
Proof. intros k e. unfold Emit, Logging.log_sink, Logging.log_Emit. solve_emits. Qed.

#[export] Instance labelled_memory_sink : LabelledSink InMemory.InMemorySink.
Proof. intros k e. unfold Emit, InMemory.in_memory_sink, InMemory.Emit. solve_emits. Qed.

#[export] Instance labelled_any_sink : LabelledSink AnySink.
Proof. intros [k|k] e; cbn; [pose proof (labelled_kafka_sink k e)|pose proof (labelled_memory_sink k e)]; unfold Emit, any_sink; solve_emits. Qed.

#[export] Instance labelled_kafka_publisher : LabelledPublisher (option KafkaPublisher).
Proof. intros p s d. unfold Publish, kafka_publisher, kafka_publish. solve_emits. Qed.

#[export] Instance labelled_mem_store : LabelledStore MemStore.MemStore.
Proof. split; intros; cbn; [unfold MemStore.RecordOrder|unfold MemStore.RecordFill]; solve_emits. Qed.
End Connectors.

(** The pool of the database and its driver are outside the program: they do not
    update its collectors. *)
Class LabelledPool (Q : Type) `{Pool Q} : Prop := {
  labelled_pool_new : ∀ dsn, labelled (pool_new (Q := Q) dsn);
  labelled_pool_ping : ∀ q : Q, labelled (pool_ping q);
  labelled_pool_exec : ∀ (q : Q) s args, labelled (pool_exec q s args);
  labelled_pool_query_row : ∀ (q : Q) s args, labelled (pool_query_row q s args);
}.
#[export] Hint Resolve labelled_pool_new labelled_pool_ping labelled_pool_exec labelled_pool_query_row : emits.

Section Stores.
Context `{DD : Decimal} `{E : Env} {Q : Type} `{!Pool Q} `{!LabelledPool Q}.

Lemma labelled_up_each {S : Type} (r : Runner S) migs s :
  (∀ s q args, labelled (runner_exec r s q args)) → (∀ s v, labelled (runner_query r false s v)) →
  labelled (up_each r migs s).
Proof.
  intros He Hq. revert s. induction migs as [|m migs IH]; intros s; cbn [up_each]; solve_emits.
Qed.

Lemma labelled_all dir : labelled (All dir).
Proof. unfold All. solve_emits. Qed.
#[local] Hint Resolve labelled_all : emits.

Lemma labelled_open dsn : labelled (Open (Q := Q) dsn).
Proof.
  assert (∀ (q : Q) s args, labelled (runner_exec migration_runner q s args)) as He.
  { intros q s args. unfold runner_exec, migration_runner, run_exec. solve_emits. }
  unfold Open, Up. solve_emits. apply labelled_up_each; [done|].
  intros s v. unfold runner_query, migration_runner, run_query. solve_emits.
Qed.

#[export] Instance labelled_postgres : LabelledStore (DB Q).
Proof.
  split; intros; unfold Store.RecordOrder, Store.RecordFill, postgres_store.
  - unfold RecordOrder. solve_emits.
  - unfold RecordFill. solve_emits.
Qed.

#[export] Instance labelled_any_store : LabelledStore (AnyStore Q).
Proof.
  split; intros [d|s] x; unfold Store.RecordOrder, Store.RecordFill, any_store; apply labelled_lift.
  - exact (labelled_record_order d x).
  - exact (labelled_record_order s x).
  - exact (labelled_record_fill d x).
  - exact (labelled_record_fill s x).
Qed.
End Stores.
#[export] Hint Resolve labelled_open : emits.

(** ** The service *)
Section Service.
Context `{DD : Decimal} `{E : Env}.
Context {C K P St : Type} `{!VenueConnector C} `{!AsDummy C} `{!Sink K} `{!Publisher P}
  `{!Store St} `{!OfMemStore St}.
Context `{!LabelledConnector C} `{!LabelledSink K} `{!LabelledPublisher P} `{!LabelledStore St}.
Implicit Types (s : Service C K P St) (r : Request).

(** A bus whose dead-letter handler, which is set from outside, is well labelled. *)
Definition labelled_bus (bus : option (Bus P)) : Prop :=
  ∀ b, bus = Some b → ∀ ev e, labelled (bus_deadLetter b ev e).

Lemma labelled_attempts (b : Bus P) subject data attempt more : labelled (attempt_loop b subject data attempt more).
Proof.
  revert attempt. induction more; intros attempt; cbn [attempt_loop]; unfold publish_once; solve_emits.
Qed.
#[local] Hint Resolve labelled_attempts : emits.

Lemma labelled_publish_fill (b : Bus P) ev : labelled_bus (Some b) → labelled (PublishFill b ev).
Proof.
  intros Hb. specialize (Hb b eq_refl). unfold PublishFill, complete_fill, publish_loop, seconds_since. solve_emits.
Qed.

Lemma labelled_publish_balance (b : Bus P) ev : labelled (PublishBalance b ev).
Proof. unfold PublishBalance, complete_balance, publish_loop, seconds_since. solve_emits. Qed.
#[local] Hint Resolve labelled_publish_fill labelled_publish_balance : emits.

Lemma labelled_announce_fills (k : K) bus venue id pr fs :
  labelled_bus bus → labelled (announce_fills k bus venue id pr fs).
Proof. intros Hb. revert k. induction fs; intros k; cbn [announce_fills]; solve_emits. Qed.

Lemma labelled_announce_balances (k : K) (bus : option (Bus P)) venue bs : labelled (announce_balances k bus venue bs).
Proof. revert k. induction bs; intros k; cbn [announce_balances]; unfold BalanceFromVenue; solve_emits. Qed.

Lemma labelled_record_fills (st : St) fs : labelled (record_fills st fs).
Proof. revert st. induction fs; intros st; cbn [record_fills]; solve_emits. Qed.
#[local] Hint Resolve labelled_announce_fills labelled_announce_balances labelled_record_fills : emits.

Lemma labelled_emit_event s e : labelled (emit s e).
Proof. unfold emit. solve_emits. Qed.
#[local] Hint Resolve labelled_emit_event : emits.

Lemma labelled_record_placed s req amount price resp : labelled (record_placed s req amount price resp).
Proof. unfold record_placed. solve_emits. Qed.

Lemma labelled_announce_placed s req amount price resp :
  labelled_bus (events s) → labelled (announce_placed s req amount price resp).
Proof. intros Hb. unfold announce_placed. solve_emits. Qed.
#[local] Hint Resolve labelled_record_placed labelled_announce_placed : emits.

(** Recording an order leaves the bus. *)
Lemma labelled_orders_root s r : labelled_bus (events s) → labelled (handleOrdersRoot s r).
Proof.
  intros Hb. unfold handleOrdersRoot. destruct (check_order r) as [?|[[req amount] price]]; [solve_emits|].
  apply emits_bind; [solve_emits|]. intros [[resp|e] c]; [|solve_emits].
  apply (emits_bind_post _ (λ s1, events s1 = events s)); [solve_emits| |].
  - intros w. by destruct (record_placed_frame (set_connector c s) req amount price resp w) as (_ & -> & _).
  - intros s1 H1. rewrite <- H1 in Hb. solve_emits.
Qed.

Lemma labelled_order_sub s r : labelled (handleOrderSub s r).
Proof. unfold handleOrderSub, cancel_order, order_fills, order_status. solve_emits. Qed.

Lemma labelled_balances_route s r : labelled (handleBalances s r).
Proof. unfold handleBalances. solve_emits. Qed.
#[local] Hint Resolve labelled_orders_root labelled_order_sub labelled_balances_route : emits.

Lemma labelled_serve_mux s r : labelled_bus (events s) → labelled (serve_mux s r).
Proof.
  intros Hb. unfold serve_mux. destruct (Mux.dispatch mux r) as [h|loc|] eqn:Hd; [|solve_emits..].
  apply serve_found in Hd as (pat & Hin & _). unfold mux in Hin.
  rewrite list_elem_of_In in Hin. cbn [List.In] in Hin.
  repeat destruct Hin as [[= <- <-]|Hin]; try done; unfold handleHealthz, handleReadyz, handleAdminStatus,
    handleRotateCreds, handleBook; solve_emits.
Qed.
#[local] Hint Resolve labelled_serve_mux : emits.

Lemma labelled_routes testing h s r :
  Routes testing = Some h → labelled_bus (events s) → labelled (h s r).
Proof.
  unfold Routes. destruct (SecretFromEnv testing) as [[secret bypass]|]; cbn; [|done]. intros [= <-] Hb.
  unfold Middleware. solve_emits.
Qed.

Lemma routes_events testing h s r w :
  Routes testing = Some h → events (snd (fst (h s r w))) = events s.
Proof.
  unfold Routes. destruct (SecretFromEnv testing) as [[secret bypass]|]; cbn; [|done]. intros [= <-].
  assert (∀ w, events (snd (fst (serve_mux s r w))) = events s) as Hmux.
  { intros w'. pose proof (serve_mux_confined s r w') as H.
    destruct (serve_mux s r w') as [[resp s'] w'']. by destruct H as [(_ & H & _) _]. }
  destruct (middleware_allow secret bypass serve_mux s r w) as [->|[(msg & w' & -> & _)| -> ]];
    [apply Hmux|done|apply Hmux].
Qed.

Lemma labelled_serve_all testing h rs s :
  Routes testing = Some h → labelled_bus (events s) → labelled (serve_all h rs s).
Proof.
  intros Hr. revert s. induction rs as [|r rs IH]; intros s Hb; [cbn; solve_emits|]. cbn [serve_all].
  apply (emits_bind_post _ (λ p, events (snd p) = events s)).
  - by eapply labelled_routes.
  - intros w. by apply (routes_events testing).
  - intros [resp s1] H1. cbn [snd] in H1. rewrite <- H1 in Hb.
    apply emits_bind; [by apply IH|]. intros [resps s2]. solve_emits.
Qed.
End Service.

(** ** The process *)
Section Process.
Context `{DD : Decimal} `{E : Env} {Q : Type} `{!Pool Q} `{!LabelledPool Q}.

Lemma labelled_or_exit {A B} (m : IO (result A)) (k : A → IO (result B)) :
  labelled m → (∀ a, labelled (k a)) → labelled (or_exit m k).
Proof. intros Hm Hk. unfold or_exit. apply emits_bind; [done|]. intros [a|e]; [apply Hk|solve_emits]. Qed.

Lemma labelled_printf msg : labelled (printf msg).
Proof. unfold printf. solve_emits. Qed.
#[local] Hint Resolve labelled_or_exit labelled_printf : emits.

Lemma labelled_load_creds venue devMode : labelled (loadExchangeCreds venue devMode).
Proof.
  unfold loadExchangeCreds. destruct devMode; [solve_emits|].
  apply labelled_or_exit; [unfold newSecretsManager; solve_emits|]. intros mgr.
  unfold Load, client_read, vault_read, env_vault, env_read. solve_emits.
Qed.
#[local] Hint Resolve labelled_load_creds : emits.

Lemma labelled_select_connector name devMode : labelled (selectConnector name devMode).
Proof.
  unfold selectConnector.
  do 3 (match goal with |- labelled (if ?b then _ else _) => destruct b end;
    [apply labelled_or_exit; [solve_emits|intros [key secret];
      unfold Binance.NewConnector, Kraken.NewConnector, Otc.NewConnector,
        Weighted.NewWeightedLimiter, Counter.NewCounterLimiter, RPS.NewRPSLimiter; solve_emits]|]).
  solve_emits.
Qed.

Lemma labelled_new_store devMode : labelled (newStore (Q := Q) devMode).
Proof. unfold newStore. solve_emits. Qed.

Lemma labelled_new_audit_sink venue devMode : labelled (newAuditSink venue devMode).
Proof. unfold newAuditSink. solve_emits. Qed.

Lemma labelled_new_bus : labelled newBus.
Proof. unfold newBus. solve_emits. Qed.
#[local] Hint Resolve labelled_select_connector labelled_new_store labelled_new_audit_sink labelled_new_bus : emits.

Lemma labelled_start testing : labelled (start (Q := Q) testing).
Proof.
  unfold start. apply labelled_or_exit; [solve_emits|]. intros conn.
  apply emits_bind; [solve_emits|]. intros _.
  apply labelled_or_exit; [solve_emits|]. intros sink.
  apply emits_bind; [solve_emits|]. intros bus.
  apply labelled_or_exit; [solve_emits|]. intros st.
  unfold NewService, NewBookAggregator. solve_emits.
Qed.
(** The bus of the process has no dead-letter handler. *)
Lemma start_bus testing w g :
  fst (start (Q := Q) testing w) = Ok g → labelled_bus (events (gw_Service g)).
Proof.
  unfold start. intros (conn & w1 & _ & H)%or_exit_ok. rewrite bind_run in H.
  apply or_exit_ok in H as (k & w2 & _ & H). rewrite bind_run in H.
  assert (∀ w, labelled_bus (fst (newBus w))) as Hbus.
  { intros w'. unfold newBus. destruct (String.eqb (env_getenv "EVENT_BUS_URL") ""); [by intros b Hb|].
    destruct (NewKafkaPublisherFromURL (env_getenv "EVENT_BUS_URL")) as [p|e]; [|by intros b Hb].
    intros b [= <-] ev e. apply emits_ret. }
  apply or_exit_ok in H as (st & w3 & _ & H). rewrite bind_run in H.
  unfold NewService, NewBookAggregator in H. rewrite !bind_run in H.
  destruct (SubscribeBook _ _ _) as [[[e|] conn'] w4]; cbn [fst snd mret io_ret] in H; [done|].
  destruct (Routes testing) as [h|]; [|done]. injection H as <-. apply Hbus.
Qed.
End Process.

(** ** Streams *)
Section Streams.
Context `{DD : Decimal} `{E : Env}.

Lemma labelled_next_backoff prev max : labelled (nextBackoff prev max).
Proof. unfold nextBackoff. solve_emits. Qed.
#[local] Hint Resolve labelled_next_backoff : emits.

Lemma labelled_step {H} (s : system H) l : labelled (step s l).
Proof. unfold step, run_step. solve_emits. Qed.

Lemma steps_labelled {H} (s : system H) w ls s' w' :
  steps s w ls s' w' → ∃ tr, w_trace w' = w_trace w ++ tr ∧ Forall well_labelled tr.
Proof.
  induction 1 as [|s w l s1 w1 ls s2 w2 Hs _ (tr & Ht & Hp)]; [exists []; by rewrite app_nil_r|].
  destruct (labelled_step s l w) as (tr1 & Ht1 & Hp1). rewrite Hs in Ht1. cbn [snd] in Ht1.
  exists (tr1 ++ tr). rewrite Ht, Ht1, app_assoc. split; [done|]. by apply Forall_app.
Qed.

Lemma labelled_emit_update venue shown r pair o : labelled (emit_update venue shown r pair o).
Proof. unfold emit_update, TopN, collectLevels, Lag. solve_emits. Qed.
#[local] Hint Resolve labelled_emit_update : emits.

Lemma labelled_refresh base pair r : labelled (BinanceBook.refreshSnapshot base pair r).
Proof. unfold BinanceBook.refreshSnapshot, ApplySnapshot. solve_emits. Qed.
#[local] Hint Resolve labelled_refresh : emits.

Lemma labelled_apply_snapshot r bids asks : labelled (ApplySnapshot r bids asks).
Proof. unfold ApplySnapshot. solve_emits. Qed.

Lemma labelled_apply_diff r seq bids asks : labelled (ApplyDiff r seq bids asks).
Proof. unfold ApplyDiff. solve_emits. Qed.

(** The venue of a gap is the book's: any value fits. *)
Lemma labelled_mark_gap r : labelled (MarkGap r).
Proof. unfold MarkGap. solve_emits. Qed.
#[local] Hint Resolve labelled_apply_snapshot labelled_apply_diff labelled_mark_gap : emits.

Lemma labelled_binance_message base f msg : labelled (BinanceBook.handle_message base f msg).
Proof. unfold BinanceBook.handle_message, BinanceBook.emitUpdate. solve_emits. Qed.

Lemma labelled_binance_prime base pairs f : labelled (BinanceBook.prime base pairs f).
Proof.
  revert f. induction pairs as [|p pairs IH]; intros f; cbn [BinanceBook.prime]; unfold BinanceBook.emitUpdate; solve_emits;
    apply IH.
Qed.

Lemma labelled_kraken_message pairs f msg : labelled (KrakenBook.handle_message pairs f msg).
Proof. unfold KrakenBook.handle_message, KrakenBook.apply_message, KrakenBook.emitUpdate. solve_emits. Qed.

Lemma labelled_handle_all handle f msgs :
  (∀ f m, labelled (handle f m)) → labelled (handle_all handle f msgs).
Proof.
  intros Hh. revert f. induction msgs as [|m msgs IH]; intros f; cbn [handle_all]; [solve_emits|].
  apply emits_bind; [apply Hh|]. intros f1. apply IH.
Qed.
End Streams.

(** ** Properties *)

(** C16: Every update of a Prometheus collector fits its declaration: the start of the
    process, any sequence of requests to the gateway that starts, any interleaving
    of a WebSocket client and any messages of the two book feeds update only
    declared collectors, with one value for each label and an operation of the kind
    of the collector. So no update fails for its name, its kind or the number of its
    values; whether the values are valid UTF-8, which client_golang demands too,
    depends on the environment and the venue and is not claimed. *)
Theorem metric_updates_are_well_labelled `{DD : Decimal} `{E : Env} {Q H : Type} `{!Pool Q} `{!LabelledPool Q}
    testing rs base pairs msgs (s : system H) ls s' w w' w'' :
  steps s w' ls s' w'' →
  let updates_since w1 w2 := ∃ tr, w_trace w2 = w_trace w1 ++ tr ∧ Forall well_labelled tr in
  (let '(r, w1) := start (Q := Q) testing w in
   updates_since w w1 ∧ ∀ g, r = Ok g → updates_since w1 (snd (serve_all (gw_Handler g) rs (gw_Service g) w1)))
  ∧ updates_since w' w''
  ∧ updates_since w (snd ((f ← BinanceBook.prime base pairs (BinanceBook.new_feed pairs);
                           handle_all (BinanceBook.handle_message base) f msgs) w))
  ∧ updates_since w (snd (handle_all (KrakenBook.handle_message pairs) (KrakenBook.new_feed pairs) msgs w)).
Proof.
  intros Hs. cbv zeta. split_and!.
  - pose proof (labelled_start (Q := Q) testing w) as Hstart.
    destruct (start testing w) as [r w1] eqn:Hw. split; [exact Hstart|]. intros g ->.
    assert (fst (start (Q := Q) testing w) = Ok g) as Hg by (by rewrite Hw).
    apply (labelled_serve_all testing); [|by apply (start_bus testing w)].
    by destruct (start_parts testing w g Hg) as (? & ? & ? & ? & ? & ? & ? & ? & ? & ? & ? & H'); destruct_and! H'.
  - by apply (steps_labelled s w' ls s' w'').
  - apply emits_bind; [apply labelled_binance_prime|]. intros f. apply labelled_handle_all.
    intros. apply labelled_binance_message.
  - apply labelled_handle_all. intros. apply labelled_kraken_message.
Qed.

(** The initialisation of the package never panics when the default registry has none of
    its names: every collector is registered twice, and each well labelled update is
    of a collector in Registry. *)
Theorem collectors_register {R} (register : R → collector → option R) `{!RegistryLaws register names} d r :
  names r = ∅ → (∀ c, c ∈ declared → col_Name c ∉ names d) →
  ∃ d' r', package_init register d r = Some (d', r') ∧ names d ⊆ names d' ∧ names r' ⊆ names d'
    ∧ ∀ name labels op, well_labelled (EvMetric name labels op) → name ∈ names r'.
Proof.
  intros Hr Hd.
  assert (NoDup (map col_Name registered)) as Hnd by (refine (@bool_decide_unpack _ _ _); vm_compute; exact I).
  destruct (must_register_fresh register declared d Hnd Hd) as (d' & Hd1 & Hnd').
  destruct (must_register_fresh register registered r Hnd) as (r' & Hi & Hn).
  { intros c _. rewrite Hr. apply not_elem_of_empty. }
  exists d', r'. unfold package_init, init. rewrite Hd1. cbn [mbind option_bind]. rewrite Hi. cbn [mbind option_bind].
  split; [done|]. rewrite Hnd', Hn, Hr. change declared with registered. split; [apply union_subseteq_r|].
  split; [rewrite union_empty_r_L; apply union_subseteq_l|].
  intros name labels op He. unfold well_labelled in He. destruct (List.find _ registered) as [c|] eqn:Hf; [|done].
  apply List.find_some in Hf as [Hin <-%String.eqb_eq]. rewrite elem_of_union, elem_of_list_to_set. left.
  apply list_elem_of_fmap_2. by apply list_elem_of_In.
Qed.

(** ** Witnesses *)
Section Witnesses.
#[local] Existing Instances fixed_decimal tables_pool production_env.

#[local] Instance tables_labelled : LabelledPool tables.
Proof. split; intros; apply emits_ret. Qed.

(** A client that dials once and is told of a lost connection. *)
Lemma metric_updates_are_well_labelled_witness :
  ∃ (s' : system unit) w'', steps (new_system (NewClient "wss://x" "kraken")) world0 [LRun AGo; LRun ADialed] s' w''
  ∧ w_trace w'' = [EvMetric "ws_reconnect_count" ["kraken"] MInc]
  ∧ (let '(r, w1) := start (Q := tables) false world0 in
     ∃ tr, w_trace w1 = w_trace world0 ++ tr ∧ Forall well_labelled tr).
Proof.
  assert (∃ (s' : system unit) w'', steps (new_system (NewClient "wss://x" "kraken")) world0 [LRun AGo; LRun ADialed] s' w''
    ∧ w_trace w'' = [EvMetric "ws_reconnect_count" ["kraken"] MInc]) as (s' & w'' & Hs & Ht).
  { eexists _, _. split; [|shelve]. eapply steps_step; [reflexivity|]. eapply steps_step; [reflexivity|].
    apply steps_refl. Unshelve. reflexivity. }
  exists s', w''. split; [exact Hs|]. split; [exact Ht|].
  pose proof (metric_updates_are_well_labelled (Q := tables) false [demo_post] "https://x" ["BTCUSDT"] [] _ _ _
    world0 _ _ Hs) as [H _].
  destruct (start false world0) as [r w1]. exact (proj1 H).
Defined.

(** A registry that knows the names it has. *)
Definition name_registry (r : gset string) (c : collector) : option (gset string) :=
  if bool_decide (col_Name c ∈ r) then None else Some ({[col_Name c]} ∪ r).

#[local] Instance name_registry_laws : RegistryLaws name_registry id.
Proof.
  split. intros r c Hc. unfold name_registry, id in *. rewrite bool_decide_eq_false_2 by done.
  by eexists.
Qed.

Lemma collectors_register_witness :
  ∃ d' r', package_init name_registry {["go_goroutines"]} ∅ = Some (d', r').
Proof.
  destruct (collectors_register name_registry (names := id) {["go_goroutines"]} ∅ eq_refl) as (d' & r' & H & _);
    [|exists d', r'; exact H].
  intros c Hc. unfold id. rewrite not_elem_of_singleton. revert c Hc. apply (proj1 (Forall_forall _ _)).
  refine (@bool_decide_unpack _ _ _). vm_compute. exact I.
Defined.
End Witnesses.
